(* ===== verification/_CoqProject ===== *)
-Q . S2P
Prelude.v
Triple.v
BPlusTree.v
BPlusTreeSpec.v
BPlusTreeLemmas.v
BPlusTreeFind.v
BPlusTreeNode.v
BPlusTreeWp.v
BPlusTreeInsert.v
BPlusTreeRemove.v
BPlusTreeWalk.v
BPlusTreeTotal.v
BPlusTreeTheorems.v
CacheTree.v
CacheTreeProofs.v
CacheTreeTheorems.v
Quiet.v
FsState.v
FsPrim.v
FsRequests.v
FsFile.v
FsMeta.v
FsData.v
FsSync.v
FsLoop.v
FsInv.v
FsInvOps.v
FsLoose.v
FsLocks.v
FsAccounting.v
FsNames.v
FsTyped.v
FsExec.v
FsRanges.v
FsCopy.v
FsMetaTheorems.v
FsSystemTheorems.v
FsCached.v
FsExtend.v
FsCachedRead.v
FsDataTheorems.v
FsOpenClose.v
FsFlush.v
FsSyncRun.v
FsDemo.v
FsDataDemo.v
HashTable.v
HashTableProofs.v
HashTableTheorems.v
BlobIdChar.v
BlobIo.v
BlobIoExec.v
BlobIoTheorems.v
Nbfs2.v
Nbfs2Exec.v
Nbfs2Records.v
Nbfs2Unload.v
Nbfs2Load.v
Nbfs2Metadata.v
Nbfs2Files.v
Nbfs2Start.v
Nbfs2Demo.v
MultiIo.v
MultiIoRuns.v
MultiIoInv.v
MultiIoTheorems.v
MultiIoDemo.v
DiskCheck.v
MultiIoAlpha.v
