(* ===== verification/Prelude.v ===== *)
(** * NBFS and NBFS2: a verification development

    The repository holds two user-space file systems over the blobstore of SPDK:
    NBFS (spdk_NBFS/lib/NBFS and spdk_NBFS/include/spdk/Bplus_Tree.h, a BlobFS whose
    list of files is a B+ tree) and the smaller NBFS2 (NBFS2/), which keeps a hash
    table of files in its super blob.  File names below are relative to src/src.

    ** Conventions

    Code with effects is a function in [M W], a state monad over the state [W] of a
    component that stops with a [fault] where C is undefined (NULL, use after free,
    array bounds, string overflow, uninitialised data), where the code asserts, and
    where a spinlock would be taken twice.  [NoEvent] is none of these: it marks an event
    that does not apply, such as the completion of a call that is not pending.  Objects
    live in finite maps from identifiers, NULL is [None].  Unsigned arithmetic is reduced where it can wrap
    ([u64], [u32]).  A loop that follows pointers has fuel, the size of the store it
    walks; running out is the fault [OutOfFuel], and the theorems that give a result
    exclude it.  Whether an allocation succeeds is read from a list of booleans in
    the state, the empty list for always.

    ** NBFS

    - The B+ tree (Bplus_Tree.h).  [BPlusTree]: nodes on a heap with the arrays, stale
      slots and free as in C.  [BPlusTreeSpec] gives the ghost tree, the order
      invariant and the represented map; [BPlusTreeLemmas], [BPlusTreeFind],
      [BPlusTreeNode] (array manipulations, decided on every occupancy of a node),
      [BPlusTreeWp] (a small program logic), [BPlusTreeInsert], [BPlusTreeRemove],
      [BPlusTreeWalk], [BPlusTreeTotal] prove each operation; [BPlusTreeTheorems]
      states the contracts and the refinement of a finite map by any sequence of
      operations, and the first insertion that can be lost.
    - The cache tree (tree.c, tree.h).  [CacheTree], with its proofs in
      [CacheTreeProofs] and its contracts in [CacheTreeTheorems]: a map from blocks of
      256 KiB to buffers, with eviction.
    - The file system (NBFS.c).  [FsState]: the structs and what is in flight;
      [FsPrim]: requests, locks, messages; [FsFile]: files and the cache pool;
      [FsMeta]: mount, unmount, stat, create, open, rename, delete, truncate;
      [FsData]: I/O through the blobstore, flushing, sync, readahead, close;
      [FsSync]: the blocking API up to each wait and from it on; [FsLoop]: function
      pointers, events and runs.  A callback is a constructor and is called through
      the class [Invoke]; callbacks nest at most [depth] deep.
    - Invariants.  [FsInv] is the interface of an invariant, [FsInvOps] shows once that
      every function preserves any instance, [FsLoose] adds those that ignore names,
      [Quiet] that the trees take no locks.  Instances: [FsLocks] (no spinlock is taken
      twice, all are free between events), [FsAccounting] (the requests of a channel are
      accounted for, exactly as long as none is freed twice, which [load_frees_twice] of
      [FsDemo] does),
      [FsNames] (the tree of files is a map that agrees with the names in the files).
    - Behaviour.  [FsRequests], [FsExec], [FsCopy] and [FsRanges] are lemmas on single
      operations, on scattering and gathering, and on ranges of blocks.
      [FsMetaTheorems], [FsSystemTheorems], [FsOpenClose], [FsDataTheorems], [FsCached]
      and [FsCachedRead] say what each operation does on its branches, the last two
      that the write cache holds and returns the bytes of the client.  [FsFlush] is the
      writing back of one buffer of the cache, [FsSyncRun] a whole sync from its call to
      the client's callback, [FsExtend] a cached write that waits for a larger blob, and
      [FsTyped] that callbacks get what they expect in every reachable state.  [FsDemo]
      and [FsDataDemo] apply the theorems to concrete worlds.

    ** NBFS2

    - [HashTable] (hash_table.h): items, overflow lists and the table in a store.
      [HashTableProofs] describes a table as one list of bindings per bucket;
      [HashTableTheorems] says when it is a map and which names it loses.  [st_junk] is
      what malloc leaves in the field that handle_collision does not set, and
      [junk_safe] says when that is not read.
    - [BlobIdChar] (id_and_char.h): blob ids as text and back.
    - [BlobIo] (create_, check_, read_ and write_super_blob.h, read_ and
      write_normal_blob.h): the chains of callbacks on a whole blob.  Their caller is
      the class [Client], for any instance of which [BlobIoTheorems] proves what a
      chain does; [BlobIoExec] runs single handlers.
    - [Nbfs2] (NBFS2.c): the handlers of the file system, an instance of [Client].
      [Nbfs2Exec] runs them; [Nbfs2Records], [Nbfs2Unload], [Nbfs2Load] and
      [Nbfs2Metadata] are the round trip of the table through the records of the super
      blob; [Nbfs2Files] creates, opens and deletes; [Nbfs2Start] starts, unloads and
      loads; [Nbfs2Demo] applies the claims.
    - The test of concurrent I/O (apps/multiIO/test_multi_IO.c).  [MultiIo]: the
      callbacks, another instance of [Client].  [MultiIoRuns] is the relation of its
      runs, in any order of completions up to the unloading of the blobstore, and
      [orders] lets the unloading be completed too; [MultiIoInv] is their invariant;
      [MultiIoTheorems] says how runs end, when the blobstore is unloaded and what
      errors do; [MultiIoDemo] has concrete runs, one of them ([early_unload]) stopped by
      an unloading that overtakes two chains.
    - [DiskCheck] (apps/dschk/disk_check.c) and [MultiIoAlpha] (test_multi_io_alpha.c):
      the two other programs, with what they report.

    [Triple] and the rest of this file are shared: triples with the tactic [vcg], the
    monad, C loops, strings and integers.

    ** The environment

    The blobstore, memory pools, spinlocks, semaphores and messages belong to SPDK and
    are environments.  A call to the blobstore waits in a list until an event completes
    it, in any order and with success or any error; success has the effect on metadata
    and data that blob.h documents.  Each event runs to its end, so threads interleave
    between events.

    ** Bounds

    [MAX_KEY_NUM] is 4, as in the source.  Fuel is the size of the store plus one, which
    a list without repetitions cannot exceed; [depth] is 16 and NBFS2's callbacks nest at
    most three deep, since a callback calls another one directly only when the start of
    a chain fails.

    ** Not modelled

    Output and tracing; clocks; the event framework and the command line; the lock order
    between threads beyond single events (each event is atomic); printing of the hash
    table; t.h, which holds five prototypes; and the vendored SPDK and DPDK trees. *)

(** ** Prelude: the fault/state monad, C loops and C strings *)
From stdpp Require Export base tactics option list list_numbers gmap fin_maps strings numbers sorting.
From Stdlib Require Export ZArith Lia.
From Stdlib Require Import OrdersEx.

(** ** Faults and the state monad

    What C leaves undefined, and what the code turns into [assert], is a value
    of [fault]; a component's operations live in [M W], a state monad over the
    component's state [W] that can stop with a fault. *)
Inductive fault : Type :=
| NullDeref
| Uninitialised
| OutOfBounds
| UseAfterFree
| AssertFailed
| Deadlock
| WouldBlock
| StringOverflow
| TypeConfusion
| BadShift
| ListCorruption
| NoEvent
| OutOfFuel.

Inductive res (A : Type) : Type :=
| Ok (a : A)
| Fault (e : fault).
Arguments Ok {A} _.
Arguments Fault {A} _.

Definition M (W A : Type) : Type := W → res (A * W).

#[export] Instance M_ret W : MRet (M W) := λ A a w, Ok (a, w).
#[export] Instance M_bind W : MBind (M W) := λ A B f m w,
  match m w with
  | Ok (a, w') => f a w'
  | Fault e => Fault e
  end.

Definition fail {W A} (e : fault) : M W A := λ _, Fault e.
Definition get {W} : M W W := λ w, Ok (w, w).
Definition put {W} (w : W) : M W unit := λ _, Ok (tt, w).
Definition modify {W} (f : W → W) : M W unit := λ w, Ok (tt, f w).
Definition gets {W A} (f : W → A) : M W A := λ w, Ok (f w, w).
Definition of_option {W A} (e : fault) (o : option A) : M W A :=
  match o with Some a => mret a | None => fail e end.
Definition guard_or {W} (e : fault) (b : bool) : M W unit :=
  if b then mret tt else fail e.

Lemma bind_Ok {W A B} (m : M W A) (f : A → M W B) w a w' :
  m w = Ok (a, w') → (m ≫= f) w = f a w'.
Proof. unfold mbind, M_bind. by intros ->. Qed.

Lemma bind_assoc {W A B C} (m : M W A) (f : A → M W B) (g : B → M W C) w :
  ((m ≫= f) ≫= g) w = (m ≫= λ a, f a ≫= g) w.
Proof. unfold mbind, M_bind. by destruct (m w) as [[a w']|e]. Qed.

Lemma bind_Fault {W A B} (m : M W A) (f : A → M W B) w e : m w = Fault e → (m ≫= f) w = Fault e.
Proof. unfold mbind, M_bind. by intros ->. Qed.

Lemma bind_ret {W A B} (a : A) (f : A → M W B) w : (mret a ≫= f) w = f a w.
Proof. done. Qed.

Lemma bind_inv {W A B} (m : M W A) (f : A → M W B) w b w' :
  (m ≫= f) w = Ok (b, w') → ∃ a w1, m w = Ok (a, w1) ∧ f a w1 = Ok (b, w').
Proof.
  unfold mbind, M_bind. destruct (m w) as [[a w1]|e]; [|done]. eauto.
Qed.

Lemma of_option_Ok {W A} e (o : option A) (w : W) a :
  o = Some a → of_option e o w = Ok (a, w).
Proof. by intros ->. Qed.

(** ** Machine integers

    An unsigned integer is the [Z] it stands for; arithmetic that can wrap is
    reduced where the code performs it. *)
Definition u64 (x : Z) : Z := x mod 2 ^ 64.
Definition u32 (x : Z) : Z := x mod 2 ^ 32.
Lemma u64_small x : (0 <= x < 2 ^ 64)%Z → u64 x = x.
Proof. apply Z.mod_small. Qed.
Lemma u32_small x : (0 <= x < 2 ^ 32)%Z → u32 x = x.
Proof. apply Z.mod_small. Qed.

(** ** C loops *)

(** [for (i = i0; i < i0 + n && test(i); i++) ;] : the index it stops at. *)
Fixpoint for_while {W} (n i : nat) (test : nat → M W bool) : M W nat :=
  match n with
  | 0 => mret i
  | S n' => b ← test i; if (b : bool) then for_while n' (S i) test else mret i
  end.

(** [for (i = i0; i < i0 + n; i++) s = body(i, s)], where a body that steps
    outside an array is [None]. *)
Fixpoint for_up {S} (n i : nat) (body : nat → S → option S) (s : S) : option S :=
  match n with
  | 0 => Some s
  | Datatypes.S n' => s' ← body i s; for_up n' (Datatypes.S i) body s'
  end.

(** [for (i = i0; i > i0 - n; i--) s = body(i, s)]. *)
Fixpoint for_down {S} (n i : nat) (body : nat → S → option S) (s : S) : option S :=
  match n with
  | 0 => Some s
  | Datatypes.S n' => s' ← body i s; for_down n' (i - 1) body s'
  end.

(** [for (i = i0; i < i0 + n; i++) body(i)] on the state of a monad. *)
Fixpoint for_each {W} (n i : nat) (body : nat → M W unit) : M W unit :=
  match n with
  | 0 => mret tt
  | S n' => _ ← body i; for_each n' (S i) body
  end.

(** The first index from [i] at which [p] fails, within [l]. *)
Fixpoint find_from {A} (p : A → bool) (i : nat) (l : list A) : nat :=
  match l with
  | [] => i
  | x :: l' => if p x then find_from p (S i) l' else i
  end.

(** ** C strings

    A C string is the list of its characters without the terminating NUL. *)
Definition strcmp (a b : string) : Z :=
  match String.compare a b with Lt => -1 | Eq => 0 | Gt => 1 end.

Definition strlen (s : string) : Z := Z.of_nat (String.length s).

Definition str_lt (a b : string) : Prop := String.compare a b = Lt.

Lemma string_compare_refl a : String.compare a a = Eq.
Proof.
  pose proof (String.compare_antisym a a) as H. by destruct (String.compare a a).
Qed.

Lemma strcmp_eq a b : strcmp a b = 0%Z ↔ a = b.
Proof.
  unfold strcmp. split.
  - destruct (String.compare a b) eqn:E; try lia. intros _. by apply String.compare_eq_iff.
  - intros ->. by rewrite string_compare_refl.
Qed.

Lemma strcmp_refl a : strcmp a a = 0%Z.
Proof. by apply strcmp_eq. Qed.

Lemma strcmp_lt a b : (strcmp a b < 0)%Z ↔ str_lt a b.
Proof. unfold strcmp, str_lt. destruct (String.compare a b); split; (lia || done). Qed.

Lemma strcmp_gt a b : (strcmp a b > 0)%Z ↔ str_lt b a.
Proof.
  unfold strcmp, str_lt. rewrite (String.compare_antisym b a).
  destruct (String.compare a b); simpl; split; (lia || done).
Qed.

#[export] Instance str_lt_trans : Transitive str_lt.
Proof.
  intros a b c Hab Hbc.
  exact (StrictOrder_Transitive (R := OrdersEx.String_as_OT.lt) a b c Hab Hbc).
Qed.

#[export] Instance str_lt_irrefl : Irreflexive str_lt.
Proof.
  intros a H. exact (StrictOrder_Irreflexive (R := OrdersEx.String_as_OT.lt) a H).
Qed.

#[export] Instance str_lt_dec a b : Decision (str_lt a b).
Proof. unfold str_lt. destruct (String.compare a b); [right|left|right]; done. Defined.

Lemma str_lt_total a b : str_lt a b ∨ a = b ∨ str_lt b a.
Proof.
  destruct (String.compare a b) eqn:E.
  - right; left. by apply String.compare_eq_iff.
  - by left.
  - right; right. unfold str_lt. rewrite String.compare_antisym, E. done.
Qed.

Lemma str_not_lt a b : ¬ str_lt a b ↔ (a = b ∨ str_lt b a).
Proof.
  split.
  - destruct (str_lt_total a b) as [?|[?|?]]; naive_solver.
  - intros [->|H] H'; [by apply (irreflexivity str_lt b)|].
    apply (irreflexivity str_lt a). by etrans.
Qed.

(** ** Loops against lists *)
Lemma for_while_find {W A} (p : A → bool) (test : nat → M W bool) (w : W) (l : list A) : ∀ i,
  (∀ j x, l !! j = Some x → test (i + j) w = Ok (p x, w)) →
  for_while (length l) i test w = Ok (find_from p i l, w).
Proof.
  induction l as [|x l IH]; intros i H; [done|]. simpl.
  rewrite (bind_Ok _ _ w (p x) w) by (rewrite <- (Nat.add_0_r i) at 1; by apply H).
  destruct (p x); [|done]. apply IH. intros j y Hy.
  replace (S i + j) with (i + S j) by lia. by apply H.
Qed.

Lemma find_from_split {A} (p : A → bool) (l : list A) : ∀ i, ∃ l1 l2,
  l = l1 ++ l2 ∧ find_from p i l = i + length l1 ∧ Forall p l1 ∧
  ∀ x, head l2 = Some x → p x = false.
Proof.
  induction l as [|x l IH]; intros i; simpl.
  { exists [], []. by rewrite Nat.add_0_r. }
  destruct (p x) eqn:Hx.
  - destruct (IH (S i)) as (l1 & l2 & -> & Hf & H1 & H2).
    exists (x :: l1), l2. split; [done|]. split; [simpl; lia|].
    split; [|done]. constructor; [by rewrite Hx|done].
  - exists [], (x :: l). split; [done|]. split; [simpl; lia|]. split; [done|].
    intros ? [= ->]. done.
Qed.

Lemma find_from_prefix {A} (p : A → bool) (l1 l2 : list A) : ∀ i,
  Forall p l1 → (∀ x, head l2 = Some x → p x = false) → find_from p i (l1 ++ l2) = i + length l1.
Proof.
  induction l1 as [|x l1 IH]; intros i H1 H2; simpl.
  - destruct l2 as [|y l2]; simpl; [lia|]. rewrite (H2 y eq_refl). lia.
  - apply Forall_cons in H1 as [Hx H1]. destruct (p x); [|done]. rewrite IH by done. lia.
Qed.

Lemma take_mid {A} (l1 l2 : list A) x n : n = length l1 → take (S n) (l1 ++ x :: l2) = l1 ++ [x].
Proof.
  intros ->. rewrite (cons_middle x), app_assoc. apply take_app_length'. rewrite length_app. simpl. lia.
Qed.
Lemma drop_mid {A} (l1 l2 : list A) x n : n = length l1 → drop (S n) (l1 ++ x :: l2) = l2.
Proof.
  intros ->. rewrite (cons_middle x), app_assoc. apply drop_app_length'. rewrite length_app. simpl. lia.
Qed.

Lemma app_eq_length_split {A} (l : list A) n : n ≤ length l → ∃ l1 l2, l = l1 ++ l2 ∧ length l1 = n.
Proof. intros H. exists (take n l), (drop n l). rewrite take_drop, length_take. split; [done|lia]. Qed.

(** ** Tactics *)

(** Right-nest appends, computing conses away. *)
Ltac norm_app := repeat (progress (rewrite <- ?app_assoc; simpl)).

(** Membership in (the images of) concatenations, from membership in a part. *)
Ltac solve_elem :=
  repeat first [rewrite fmap_app | rewrite fmap_cons | rewrite elem_of_app | rewrite elem_of_cons]; tauto.
