(* ===== verification/Triple.v ===== *)
(** * Triples for the state monad

    [triple E P m Q]: from a state in [P], [m] either ends in [Q] or stops with
    a fault in [E].  The rules follow the syntax of the operations; [vcg] applies
    them, finding the lemma of each called operation in the hint database [vcg]. *)
From S2P Require Import Prelude.

Definition triple {W A} (E : fault → Prop) (P : W → Prop) (m : M W A) (Q : A → W → Prop) : Prop :=
  ∀ w, P w → match m w with Ok (a, w') => Q a w' | Fault e => E e end.

(** A set of faults that leaves out at most taking a lock twice. *)
Class Faults (E : fault → Prop) : Prop := faults_but_deadlock : ∀ e, e ≠ Deadlock → E e.
#[export] Instance faults_quiet : Faults (λ e, e ≠ Deadlock).
Proof. intros e He. exact He. Qed.
#[export] Instance faults_any : Faults (λ _, True).
Proof. by intros e. Qed.

Create HintDb vcg discriminated.
#[export] Hint Constants Opaque : vcg.
#[export] Hint Variables Opaque : vcg.

Section rules.
Context {W : Type} (E : fault → Prop).
Implicit Types P : W → Prop.

Lemma triple_bind {A B} P (m : M W A) (f : A → M W B) R Q :
  triple E P m R → (∀ a, triple E (R a) (f a) Q) → triple E P (m ≫= f) Q.
Proof.
  intros Hm Hf w HP. specialize (Hm w HP). unfold mbind, M_bind.
  destruct (m w) as [[a w']|e]; [by apply Hf|done].
Qed.

Lemma triple_conseq {A} P P' (m : M W A) Q Q' :
  triple E P' m Q' → (∀ w, P w → P' w) → (∀ a w, Q' a w → Q a w) → triple E P m Q.
Proof.
  intros Hm HP HQ w Hw. specialize (Hm w (HP w Hw)). destruct (m w) as [[a w']|e]; auto.
Qed.

Lemma triple_post {A} P (m : M W A) Q Q' :
  triple E P m Q' → (∀ a w, Q' a w → Q a w) → triple E P m Q.
Proof. intros. eapply triple_conseq; eauto. Qed.

Lemma triple_pre {A} P P' (m : M W A) Q :
  triple E P' m Q → (∀ w, P w → P' w) → triple E P m Q.
Proof. intros. eapply triple_conseq; eauto. Qed.

Lemma triple_ret {A} P (a : A) Q : (∀ w, P w → Q a w) → triple E P (mret a) Q.
Proof. intros H w Hw. by apply H. Qed.

Lemma triple_ret_same {A} P (a : A) : triple E P (mret a) (λ _, P).
Proof. by apply triple_ret. Qed.

Lemma triple_fail {A} P e (Q : A → W → Prop) : E e → triple E P (fail e) Q.
Proof. by intros ? ? ?. Qed.

Lemma triple_gets {A} P (f : W → A) : triple E P (gets f) (λ _, P).
Proof. by intros w Hw. Qed.

Lemma triple_get P : triple E P get (λ _, P).
Proof. by intros w Hw. Qed.

Lemma triple_put P (w' : W) (Q : unit → W → Prop) : (∀ w, P w → Q tt w') → triple E P (put w') Q.
Proof. intros H w Hw. by apply (H w). Qed.

(** Keeps what was read. *)
Lemma triple_gets_eq {A} P (f : W → A) : triple E P (gets f) (λ a w, a = f w ∧ P w).
Proof. by intros w Hw. Qed.

Lemma triple_modify P (f : W → W) (Q : unit → W → Prop) :
  (∀ w, P w → Q tt (f w)) → triple E P (modify f) Q.
Proof. intros H w Hw. by apply H. Qed.

Lemma triple_modify_same P (f : W → W) :
  (∀ w, P w → P (f w)) → triple E P (modify f) (λ _, P).
Proof. intros H w Hw. by apply H. Qed.

Lemma triple_of_option {A} P e (o : option A) :
  E e → triple E P (of_option e o) (λ a w, o = Some a ∧ P w).
Proof. intros He w Hw. by destruct o. Qed.

Lemma triple_of_option_same {A} P e (o : option A) : E e → triple E P (of_option e o) (λ _, P).
Proof. intros He w Hw. by destruct o. Qed.

Lemma triple_guard P e b : E e → triple E P (guard_or e b) (λ _, P).
Proof. intros He w Hw. by destruct b. Qed.

Lemma triple_guard_true P e b : E e → triple E P (guard_or e b) (λ _ w, b = true ∧ P w).
Proof. intros He w Hw. by destruct b. Qed.
End rules.

(** What an operation of a sub-state does to the rest: nothing. *)
Lemma triple_pure {W A} E (P : Prop) (R : W → Prop) (m : M W A) Q :
  (P → triple E R m Q) → triple E (λ w, P ∧ R w) m Q.
Proof. intros H w [HP HR]. by apply H. Qed.

(** One step; a join of branches is taken with the postcondition known so far. *)
Ltac vcg_side := first [done | apply faults_but_deadlock; discriminate | eauto with vcg].

Ltac vcg_leaf :=
  lazymatch goal with
  | |- triple _ _ (mret _) _ => first [apply triple_ret_same | apply triple_ret; eauto]
  | |- triple _ _ (fail _) _ => apply triple_fail; vcg_side
  | |- triple _ _ (gets _) _ => apply triple_gets
  | |- triple _ _ get _ => apply triple_get
  | |- triple (λ _, _ ≠ _) (λ _, True) (modify _) _ => apply triple_modify_same; intros; exact I
  | |- triple (λ _, _ ≠ _) (λ _, True) (put _) _ => apply triple_put with (Q := λ _ _, True); intros; exact I
  | |- triple _ _ (guard_or _ _) _ => apply triple_guard; vcg_side
  | |- triple _ _ (of_option _ _) _ => apply triple_of_option_same; vcg_side
  | |- _ => solve [eauto 3 with vcg]
  end.

Ltac vcg_step :=
  cbv beta iota zeta;
  lazymatch goal with
  | |- ∀ _, _ => intros ?
  | |- triple _ _ (let '(_, _) := ?x in _) _ => destruct x
  | |- triple _ _ (_ ≫= _) _ => eapply triple_bind
  | |- triple _ _ (if negb ?b then _ else _) _ => destruct b; cbn [negb]
  | |- triple _ _ (if ?b then _ else _) _ => destruct b
  | |- triple _ _ (match ?x with _ => _ end) _ => destruct x
  | |- triple _ _ _ _ => vcg_leaf
  end.
Ltac vcg := repeat vcg_step.

(** ** Operations that never wait for a lock they hold *)
Notation quiet m := (triple (λ e, e ≠ Deadlock) (λ _, True) m (λ _ _, True)) (only parsing).
