(* ===== verification/BPlusTree.v ===== *)
(** * The B+ tree of files (include/spdk/Bplus_Tree.h)

    The nodes live in a heap of records, as [malloc] hands them out: a node's
    two arrays keep their C sizes ([MAX_KEY_NUM] keys, [MAX_KEY_NUM + 1]
    pointers), stale slots included, and [free] removes the node, so a use
    after free is a fault.  A key buffer is always owned by exactly one slot
    of one node (the code copies a key whenever it would be shared), so a slot
    holds the string itself; a [char *] that is NULL is [None]. *)
From S2P Require Import Prelude.

Abbreviation loc := nat (only parsing).
Abbreviation file_id := nat (only parsing).

Definition MAX_KEY_LEN : nat := 256.
Definition MAX_KEY_NUM : nat := 4.

(** The contents of a [void *] slot of [pointers]: NULL, a child (or next leaf),
    or a record, of which the code only ever reads the [file] field. *)
Inductive record : Type := mk_record (file : file_id).
Inductive ptr : Type :=
| PNull
| PNode (l : loc)
| PRec (r : record).

Record node : Type := mk_node {
  pointers : list ptr;
  keys : list (option string);
  parent : option loc;
  num_keys : nat;
  is_leaf : bool
}.

Record heap : Type := mk_heap { nodes : gmap loc node; next_loc : loc }.

#[export] Instance record_eq_dec : EqDecision record.
Proof. solve_decision. Defined.
#[export] Instance ptr_eq_dec : EqDecision ptr.
Proof. solve_decision. Defined.
#[export] Instance node_eq_dec : EqDecision node.
Proof. solve_decision. Defined.

Definition empty_heap : heap := mk_heap ∅ 1.

(** ** Field and array accesses *)
Definition set_pointers (ps : list ptr) (nd : node) : node :=
  mk_node ps (keys nd) (parent nd) (num_keys nd) (is_leaf nd).
Definition set_keys (ks : list (option string)) (nd : node) : node :=
  mk_node (pointers nd) ks (parent nd) (num_keys nd) (is_leaf nd).
Definition set_parent (p : option loc) (nd : node) : node :=
  mk_node (pointers nd) (keys nd) p (num_keys nd) (is_leaf nd).
Definition set_num_keys (n : nat) (nd : node) : node :=
  mk_node (pointers nd) (keys nd) (parent nd) n (is_leaf nd).

Definition key_slot (nd : node) (i : nat) : option (option string) := keys nd !! i.
Definition ptr_slot (nd : node) (i : nat) : option ptr := pointers nd !! i.

Definition set_key (i : nat) (k : option string) (nd : node) : option node :=
  if decide (i < length (keys nd)) then Some (set_keys (<[i := k]> (keys nd)) nd) else None.
Definition set_ptr (i : nat) (p : ptr) (nd : node) : option node :=
  if decide (i < length (pointers nd)) then Some (set_pointers (<[i := p]> (pointers nd)) nd)
  else None.

Definition load (l : loc) : M heap node :=
  h ← get; of_option UseAfterFree (nodes h !! l).
Definition store (l : loc) (nd : node) : M heap unit :=
  modify (λ h, mk_heap (<[l := nd]> (nodes h)) (next_loc h)).
(** Read a node, change it within its arrays' bounds, write it back. *)
Definition update (l : loc) (f : node → option node) : M heap unit :=
  nd ← load l; nd' ← of_option OutOfBounds (f nd); store l nd'.

Definition key_of (nd : node) (i : nat) : M heap string :=
  o ← of_option OutOfBounds (key_slot nd i); of_option NullDeref o.
Definition ptr_of (nd : node) (i : nat) : M heap ptr := of_option OutOfBounds (ptr_slot nd i).
Definition as_node (p : ptr) : M heap loc :=
  match p with PNode l => mret l | PNull => fail NullDeref | PRec _ => fail TypeConfusion end.
Definition child_of (nd : node) (i : nat) : M heap loc := p ← ptr_of nd i; as_node p.
(** [malloc(MAX_KEY_LEN)] followed by [strcpy]. *)
Definition copy_key (key : string) : M heap string :=
  _ ← guard_or StringOverflow (bool_decide (String.length key < MAX_KEY_LEN)); mret key.
(** A walk over the tree can visit each node at most once. *)
Definition heap_fuel : M heap nat := gets (λ h, S (S (size (nodes h)))).

(** ** Lookup *)
Fixpoint find_leaf_loop (fuel : nat) (temp : loc) (key : string) : M heap loc :=
  match fuel with
  | 0 => fail OutOfFuel
  | S fuel' =>
      nd ← load temp;
      if is_leaf nd then mret temp else
      i ← for_while (num_keys nd) 0
            (λ i, k ← key_of nd i; mret (bool_decide (strcmp k key <= 0)%Z));
      temp' ← child_of nd i;
      find_leaf_loop fuel' temp' key
  end.

Definition find_leaf (root : option loc) (key : string) : M heap (option loc) :=
  match root with
  | None => mret None
  | Some temp => fuel ← heap_fuel; l ← find_leaf_loop fuel temp key; mret (Some l)
  end.

(** The scan of a leaf for an equal key, of [find] and [remove]. *)
Definition scan_equal (nd : node) (key : string) : M heap nat :=
  for_while (num_keys nd) 0
    (λ i, k ← key_of nd i; mret (bool_decide (strcmp k key ≠ 0)%Z)).

Definition B_plus_tree_find (root : option loc) (key : string) : M heap (option record) :=
  leaf ← find_leaf root key;
  match leaf with
  | None => mret None
  | Some leaf =>
      nd ← load leaf;
      i ← scan_equal nd key;
      if decide (i = num_keys nd) then mret None else
      p ← ptr_of nd i;
      match p with
      | PRec r => mret (Some r)
      | PNull => mret None
      | PNode _ => fail TypeConfusion
      end
  end.

Definition get_node_index (nd : loc) : M heap nat :=
  n ← load nd;
  p ← of_option NullDeref (parent n);
  pn ← load p;
  for_while (num_keys pn) 0
    (λ i, q ← ptr_of pn i; mret (bool_decide (q ≠ PNode nd))).

(** ** Allocation *)
Definition new_record (file : file_id) : record := mk_record file.

Definition make_new_node : M heap loc :=
  h ← get;
  _ ← put (mk_heap (<[next_loc h :=
         mk_node (replicate (MAX_KEY_NUM + 1) PNull) (replicate MAX_KEY_NUM None)
                 None 0 false]> (nodes h)) (S (next_loc h)));
  mret (next_loc h).

Definition make_new_leaf : M heap loc :=
  leaf ← make_new_node;
  _ ← update leaf (λ nd, Some (mk_node (pointers nd) (keys nd) (parent nd) (num_keys nd) true));
  mret leaf.

Definition destroy_node (nd : loc) : M heap unit :=
  _ ← load nd;
  modify (λ h, mk_heap (delete nd (nodes h)) (next_loc h)).

(** ** Insertion *)

(** [for (i = num_keys; i > index; i--)] moving keys by one and the pointers
    that go with them ([dp] = 0 in a leaf, 1 in an internal node). *)
Definition shift_right (dp index : nat) (nd : node) : option node :=
  for_down (num_keys nd - index) (num_keys nd)
    (λ i nd, k ← key_slot nd (i - 1); p ← ptr_slot nd (i - 1 + dp);
             nd ← set_key i k nd; set_ptr (i + dp) p nd) nd.

(** The temporaries of the two splitting routines: slot [index] ([index + 1]
    for the child pointers) is the new entry. *)
Definition spread {A} (n index : nat) (new : A) (old : nat → option A) : option (list A) :=
  mapM (λ i, if decide (i = index) then Some new
             else if decide (i < index) then old i else old (i - 1)) (seq 0 n).

(** Copy [temp_ps[from + j]], [temp_ks[from + j]] to slots [j < n]. *)
Definition fill (n from : nat) (temp_ps : list ptr) (temp_ks : list string) (nd : node) : option node :=
  for_up n 0
    (λ j nd, p ← temp_ps !! (from + j); k ← temp_ks !! (from + j);
             nd ← set_ptr j p nd; set_key j (Some k) nd) nd.

Definition key_value (nd : node) (i : nat) : option string := o ← key_slot nd i; o.

Fixpoint insert_into_node_after_splitting (fuel : nat) (root nd right : loc) (index : nat)
    (key : string) : M heap loc :=
  match fuel with
  | 0 => fail OutOfFuel
  | S fuel' =>
      n ← load nd;
      temp_ps ← of_option OutOfBounds (spread (MAX_KEY_NUM + 2) (index + 1) (PNode right) (ptr_slot n));
      key' ← copy_key key;
      temp_ks ← of_option OutOfBounds (spread (MAX_KEY_NUM + 1) index key' (key_value n));
      let split := if decide (((MAX_KEY_NUM + 1) mod 2 = 0)%nat) then ((MAX_KEY_NUM + 1) / 2)%nat
                   else ((MAX_KEY_NUM + 1) / 2 + 1)%nat in
      _ ← update nd (λ n, n ← fill (split - 1) 0 temp_ps temp_ks (set_num_keys (split - 1) n);
                          p ← temp_ps !! (split - 1)%nat; set_ptr (split - 1) p n);
      new_key ← of_option OutOfBounds (temp_ks !! (split - 1)%nat);
      new_nd ← make_new_node;
      nd_parent ← load nd;
      let nk := (MAX_KEY_NUM + 1 - split)%nat in
      _ ← update new_nd (λ n, n ← fill nk split temp_ps temp_ks (set_num_keys nk n);
                              p ← temp_ps !! (split + nk)%nat; n ← set_ptr nk p n;
                              Some (set_parent (parent nd_parent) n));
      _ ← for_each (S nk) 0 (λ i,
            nn ← load new_nd; child ← child_of nn i;
            update child (λ c, Some (set_parent (Some new_nd) c)));
      insert_into_parent fuel' root nd new_nd new_key
  end
with insert_into_parent (fuel : nat) (root left right : loc) (key : string) : M heap loc :=
  match fuel with
  | 0 => fail OutOfFuel
  | S fuel' =>
      l ← load left;
      match parent l with
      | None =>
          temp ← make_new_node;
          key' ← copy_key key;
          _ ← update temp (λ n, n ← set_ptr 0 (PNode left) n; n ← set_ptr 1 (PNode right) n;
                                n ← set_key 0 (Some key') n; Some (set_num_keys (S (num_keys n)) n));
          _ ← update left (λ n, Some (set_parent (Some temp) n));
          _ ← update right (λ n, Some (set_parent (Some temp) n));
          mret temp
      | Some p =>
          pn ← load p;
          index ← for_while (num_keys pn) 0
                    (λ i, q ← ptr_of pn i; mret (bool_decide (q ≠ PNode left)));
          if decide (num_keys pn < MAX_KEY_NUM) then
            key' ← copy_key key;
            _ ← update p (λ n, n ← shift_right 1 index n; n ← set_key index (Some key') n;
                               n ← set_ptr (index + 1) (PNode right) n;
                               Some (set_num_keys (S (num_keys n)) n));
            mret root
          else insert_into_node_after_splitting fuel' root p right index key
      end
  end.

Definition insert_into_leaf_after_splitting (root leaf : loc) (index : nat) (key : string)
    (rec : record) : M heap loc :=
  n ← load leaf;
  key' ← copy_key key;
  temp_ps ← of_option OutOfBounds (spread (MAX_KEY_NUM + 1) index (PRec rec) (ptr_slot n));
  temp_ks ← of_option OutOfBounds (spread (MAX_KEY_NUM + 1) index key' (key_value n));
  let split := ((MAX_KEY_NUM + 1) / 2)%nat in
  _ ← update leaf (λ n, fill split 0 temp_ps temp_ks (set_num_keys split n));
  new_leaf ← make_new_leaf;
  let nk := (MAX_KEY_NUM + 1 - split)%nat in
  l ← load leaf;
  next ← ptr_of l MAX_KEY_NUM;
  _ ← update new_leaf (λ n, n ← fill nk split temp_ps temp_ks (set_num_keys nk n);
                            set_ptr MAX_KEY_NUM next (set_parent (parent l) n));
  _ ← update leaf (λ n, set_ptr MAX_KEY_NUM (PNode new_leaf) n);
  nl ← load new_leaf;
  new_key ← key_of nl 0;
  fuel ← heap_fuel;
  insert_into_parent (2 * fuel) root leaf new_leaf new_key.

(** The scan of [B_plus_tree_insert], which leaves the last comparison in
    [cond]; [cond] is not initialised before the loop. *)
Fixpoint insert_scan (n index : nat) (nd : node) (key : string) (cond : Z) : M heap (nat * Z) :=
  match n with
  | 0 => mret (index, cond)
  | S n' =>
      k ← key_of nd index;
      let cond := strcmp k key in
      if decide (cond < 0)%Z then insert_scan n' (S index) nd key cond else mret (index, cond)
  end.

(** [cond0] is the indeterminate initial value of the local [cond]. *)
Definition B_plus_tree_insert (cond0 : Z) (root : option loc) (key : string) (file : file_id)
    : M heap (option loc) :=
  let rec := new_record file in
  leaf ← find_leaf root key;
  match leaf, root with
  | Some leaf, Some root =>
      nd ← load leaf;
      '(index, cond) ← insert_scan (num_keys nd) 0 nd key cond0;
      if decide (cond = 0)%Z then mret (Some root) else
      if decide (num_keys nd < MAX_KEY_NUM) then
        key' ← copy_key key;
        _ ← update leaf (λ n, n ← shift_right 0 index n; n ← set_key index (Some key') n;
                              n ← set_ptr index (PRec rec) n;
                              Some (set_num_keys (S (num_keys n)) n));
        mret (Some root)
      else r ← insert_into_leaf_after_splitting root leaf index key rec; mret (Some r)
  | _, _ =>
      temp ← make_new_leaf;
      key' ← copy_key key;
      _ ← update temp (λ n, n ← set_ptr 0 (PRec rec) n; n ← set_key 0 (Some key') n;
                            Some (set_num_keys (S (num_keys n)) n));
      mret (Some temp)
  end.

(** ** Removal *)
Definition adjust_root (root : loc) : M heap (option loc) :=
  r ← load root;
  if decide (0 < num_keys r) then mret (Some root) else
  new_root ← (if is_leaf r then mret None else
                c ← child_of r 0;
                _ ← update c (λ n, Some (set_parent None n));
                mret (Some c));
  _ ← destroy_node root;
  mret new_root.

(** Remove slot [index] of a leaf, or pointer [index] and key [index - 1] of an
    internal node. *)
Definition remove_entry (index : nat) (nd : node) : option node :=
  n ← match num_keys nd with S n => Some n | 0 => None end;
  nd ← (if is_leaf nd then
          nd ← for_up (n - index) index
                 (λ i nd, k ← key_slot nd (i + 1); p ← ptr_slot nd (i + 1);
                          nd ← set_key i k nd; set_ptr i p nd) nd;
          nd ← set_key (index + (n - index)) None nd; set_ptr (index + (n - index)) PNull nd
        else
          index_k ← match index with S i => Some i | 0 => None end;
          nd ← for_up (n - index_k) index_k
                 (λ i nd, k ← key_slot nd (i + 1); p ← ptr_slot nd (i + 2);
                          nd ← set_key i k nd; set_ptr (i + 1) p nd) nd;
          nd ← set_key (index_k + (n - index_k)) None nd;
          set_ptr (index_k + (n - index_k) + 1) PNull nd);
  Some (set_num_keys n nd).

(** [strcpy] into a slot that already owns a buffer. *)
Definition overwrite_key (i : nat) (k : string) (nd : node) : option node :=
  _ ← key_value nd i; set_key i (Some k) nd.

(** Move one entry from [neighbor] to [nd], which are siblings; [nd_index] is
    [nd]'s index in the parent, and the neighbour is on its left unless that
    index is 0. *)
Definition distribute_nodes (nd neighbor : loc) (nd_index : nat) : M heap unit :=
  n ← load nd;
  b ← load neighbor;
  parent_loc ← of_option NullDeref (parent n);
  pn ← load parent_loc;
  bn ← of_option OutOfBounds (match num_keys b with S m => Some m | 0 => None end);
  _ ← (match nd_index with
  | S left_index =>
      if is_leaf n then
        k ← of_option OutOfBounds (key_slot b bn);
        kv ← of_option NullDeref k;
        p ← ptr_of b bn;
        _ ← update nd (λ n, n ← shift_right 0 0 n; n ← set_key 0 k n; set_ptr 0 p n);
        _ ← update neighbor (λ b, b ← set_key bn None b; set_ptr bn PNull b);
        update parent_loc (overwrite_key left_index kv)
      else
        pk ← of_option OutOfBounds (key_slot pn left_index);
        q ← ptr_of b (num_keys b);
        tmp ← as_node q;
        k ← of_option OutOfBounds (key_slot b bn);
        _ ← update nd (λ n, p ← ptr_slot n (num_keys n); n ← set_ptr (num_keys n + 1) p n;
                            n ← shift_right 0 0 n; n ← set_key 0 pk n; set_ptr 0 q n);
        _ ← update tmp (λ t, Some (set_parent (Some nd) t));
        _ ← update neighbor (λ b, b ← set_ptr (num_keys b) PNull b; set_key bn None b);
        update parent_loc (set_key left_index k)
  | 0 =>
      _ ← (if is_leaf n then
        k ← of_option OutOfBounds (key_slot b 0);
        p ← ptr_of b 0;
        k1 ← key_of b 1;
        _ ← update nd (λ n, n ← set_key (num_keys n) k n; set_ptr (num_keys n) p n);
        update parent_loc (overwrite_key 0 k1)
      else
        pk ← of_option OutOfBounds (key_slot pn 0);
        q ← ptr_of b 0;
        tmp ← as_node q;
        k ← of_option OutOfBounds (key_slot b 0);
        _ ← update nd (λ n, n ← set_key (num_keys n) pk n; set_ptr (num_keys n + 1) q n);
        _ ← update tmp (λ t, Some (set_parent (Some nd) t));
        update parent_loc (set_key 0 k));
      update neighbor (λ b,
        b ← for_up bn 0 (λ i b, k ← key_slot b (i + 1); p ← ptr_slot b (i + 1);
                                b ← set_key i k b; set_ptr i p b) b;
        b ← set_key bn None b;
        if is_leaf n then set_ptr bn PNull b
        else p ← ptr_slot b (bn + 1); set_ptr bn p b)
  end);
  _ ← update neighbor (λ b, Some (set_num_keys bn b));
  update nd (λ n, Some (set_num_keys (S (num_keys n)) n)).

(** Append the entries of [n] (the right sibling) to [b] (the left one). *)
Definition append_leaf (n b : node) : option node :=
  b ← for_up (num_keys n) 0
        (λ j b, k ← key_slot n j; p ← ptr_slot n j;
                b ← set_key (num_keys b + j) k b; set_ptr (num_keys b + j) p b) b;
  p ← ptr_slot n MAX_KEY_NUM;
  set_ptr MAX_KEY_NUM p (set_num_keys (num_keys b + num_keys n) b).

Definition append_internal (sep : string) (n b : node) : option node :=
  let start := num_keys b in
  b ← set_key start (Some sep) b;
  b ← for_up (num_keys n) 0
        (λ j b, k ← key_slot n j; p ← ptr_slot n j;
                b ← set_key (start + 1 + j) k b; set_ptr (start + 1 + j) p b) b;
  p ← ptr_slot n (num_keys n);
  b ← set_ptr (start + 1 + num_keys n) p b;
  Some (set_num_keys (start + num_keys n + 1) b).

Fixpoint delete_entry (fuel : nat) (root nd : loc) (index : nat) : M heap (option loc) :=
  match fuel with
  | 0 => fail OutOfFuel
  | S fuel' =>
      _ ← update nd (remove_entry index);
      if decide (nd = root) then adjust_root nd else
      n ← load nd;
      let min_keys := if is_leaf n then ((MAX_KEY_NUM + 1) / 2)%nat else (MAX_KEY_NUM / 2)%nat in
      if decide (min_keys ≤ num_keys n) then mret (Some root) else
      nd_index ← get_node_index nd;
      parent_loc ← of_option NullDeref (parent n);
      pn ← load parent_loc;
      neighbor ← (if decide (nd_index = 0) then child_of pn 1 else child_of pn (nd_index - 1));
      b ← load neighbor;
      let cap := if is_leaf n then MAX_KEY_NUM else (MAX_KEY_NUM - 1)%nat in
      if decide (num_keys b + num_keys n ≤ cap) then
        coalesce_nodes fuel' root nd neighbor nd_index
      else
        _ ← distribute_nodes nd neighbor nd_index;
        mret (Some root)
  end
with coalesce_nodes (fuel : nat) (root nd neighbor : loc) (nd_index : nat) : M heap (option loc) :=
  match fuel with
  | 0 => fail OutOfFuel
  | S fuel' =>
      (* make sure the neighbour is on the left *)
      let '(nd, neighbor, nd_index) :=
        if decide (nd_index = 0) then (neighbor, nd, 1) else (nd, neighbor, nd_index) in
      n ← load nd;
      parent_loc ← of_option NullDeref (parent n);
      _ ← (if is_leaf n then update neighbor (append_leaf n)
           else
             pn ← load parent_loc;
             k ← key_of pn (nd_index - 1);
             sep ← copy_key k;
             _ ← update neighbor (append_internal sep n);
             b ← load neighbor;
             for_each (S (num_keys b)) 0 (λ i,
               b ← load neighbor; tmp ← child_of b i;
               update tmp (λ t, Some (set_parent (Some neighbor) t))));
      _ ← destroy_node nd;
      delete_entry fuel' root parent_loc nd_index
  end.

Definition B_plus_tree_remove (root : option loc) (key : string) : M heap (option loc) :=
  leaf ← find_leaf root key;
  match leaf, root with
  | Some leaf, Some r =>
      nd ← load leaf;
      i ← scan_equal nd key;
      if decide (i = num_keys nd) then mret root else
      fuel ← heap_fuel;
      delete_entry (2 * fuel) r leaf i
  | _, _ => mret root
  end.

(** ** Whole-tree operations *)
Definition B_plus_tree_initial : M heap loc := make_new_leaf.

(** [while (!p->is_leaf) p = p->pointers[0];] *)
Fixpoint leftmost_leaf (fuel : nat) (p : loc) : M heap loc :=
  match fuel with
  | 0 => fail OutOfFuel
  | S fuel' =>
      nd ← load p;
      if is_leaf nd then mret p else c ← child_of nd 0; leftmost_leaf fuel' c
  end.

Fixpoint delete_loop (fuel : nat) (root : option loc) : M heap (option loc) :=
  match fuel with
  | 0 => fail OutOfFuel
  | S fuel' =>
      match root with
      | None => mret None
      | Some r =>
          d ← heap_fuel;
          p ← leftmost_leaf d r;
          nd ← load p;
          if decide (num_keys nd = 0) then mret root else
          k ← key_of nd 0;
          root' ← B_plus_tree_remove root k;
          delete_loop fuel' root'
      end
  end.

(** [delete_B_plus_tree] returns nothing; the model returns the root it ends
    with, and takes as fuel a bound on the number of stored keys. *)
Definition delete_B_plus_tree (fuel : nat) (root : option loc) : M heap (option loc) :=
  delete_loop (S fuel) root.

Definition rec_file (p : ptr) : M heap file_id :=
  match p with PRec (mk_record f) => mret f | PNull => fail NullDeref | PNode _ => fail TypeConfusion end.

(** The walk along the list of leaves, collecting the files on which
    [traverse_leaves] calls [fn], in order. *)
Fixpoint walk_slots (n i : nat) (nd : node) : M heap (list file_id) :=
  match n with
  | 0 => mret []
  | S n' => p ← ptr_of nd i; f ← rec_file p; fs ← walk_slots n' (S i) nd; mret (f :: fs)
  end.

Definition next_leaf (nd : node) : M heap (option loc) :=
  p ← ptr_of nd MAX_KEY_NUM;
  match p with PNull => mret None | PNode l => mret (Some l) | PRec _ => fail TypeConfusion end.

Fixpoint walk_leaves (fuel : nat) (p : option loc) : M heap (list file_id) :=
  match fuel, p with
  | _, None => mret []
  | 0, Some _ => fail OutOfFuel
  | S fuel', Some l =>
      nd ← load l;
      fs ← walk_slots (num_keys nd) 0 nd;
      next ← next_leaf nd;
      fs' ← walk_leaves fuel' next;
      mret (fs ++ fs')
  end.

Definition traverse_leaves (root : option loc) : M heap (list file_id) :=
  match root with
  | None => mret []
  | Some r => fuel ← heap_fuel; p ← leftmost_leaf fuel r; walk_leaves fuel (Some p)
  end.

Definition B_plus_tree_get_first (root : option loc) : M heap (option record) :=
  match root with
  | None => mret None
  | Some r =>
      fuel ← heap_fuel;
      p ← leftmost_leaf fuel r;
      nd ← load p;
      q ← ptr_of nd 0;
      match q with
      | PNull => mret None
      | PRec r => mret (Some r)
      | PNode _ => fail TypeConfusion
      end
  end.

(** One leaf of the scan of [B_plus_tree_get_next]: the record found, or the
    updated [find] flag. *)
Fixpoint next_slots (n i : nat) (nd : node) (current : file_id) (find : bool)
    : M heap (option record * bool) :=
  match n with
  | 0 => mret (None, find)
  | S n' =>
      p ← ptr_of nd i;
      if find then
        match p with
        | PRec r => mret (Some r, true)
        | _ => fail TypeConfusion
        end
      else
        f ← rec_file p;
        next_slots n' (S i) nd current (bool_decide (f = current))
  end.

Fixpoint next_leaves (fuel : nat) (p : option loc) (current : file_id) (find : bool)
    : M heap (option record) :=
  match fuel, p with
  | _, None => mret None
  | 0, Some _ => fail OutOfFuel
  | S fuel', Some l =>
      nd ← load l;
      '(r, find') ← next_slots (num_keys nd) 0 nd current find;
      match r with
      | Some r => mret (Some r)
      | None => next ← next_leaf nd; next_leaves fuel' next current find'
      end
  end.

Definition B_plus_tree_get_next (root : option loc) (current : file_id) : M heap (option record) :=
  match root with
  | None => mret None
  | Some r => fuel ← heap_fuel; p ← leftmost_leaf fuel r; next_leaves fuel (Some p) current false
  end.

Definition B_plus_tree_empty (root : option loc) : M heap bool :=
  r ← of_option NullDeref root;
  nd ← load r;
  mret (bool_decide (num_keys nd = 0)).
