(* ===== verification/BPlusTreeSpec.v ===== *)
(** * What the heap of a B+ tree represents

    A ghost tree [bt] carries the addresses of its nodes.  [entries] lists,
    for a ghost tree, what each node of the heap must contain ([node_ok]);
    [owns] says that the heap does contain it, at distinct addresses.  The
    order invariant is stated on the in-order sequence [flat] of a tree, where
    stored keys ([IK]) and separators ([IS]) appear in their place. *)
From S2P Require Import Prelude BPlusTree.

#[warnings="-register-all"]
Inductive bt : Type :=
| Lf (a : loc) (kvs : list (string * file_id))
| Nd (a : loc) (ks : list string) (cs : list bt).

Section bt_ind.
Variable P : bt → Prop.
Hypothesis HLf : ∀ a kvs, P (Lf a kvs).
Hypothesis HNd : ∀ a ks cs, Forall P cs → P (Nd a ks cs).

Fixpoint bt_ind' (t : bt) : P t :=
  match t with
  | Lf a kvs => HLf a kvs
  | Nd a ks cs => HNd a ks cs
      ((fix go cs : Forall P cs :=
          match cs with [] => Forall_nil_2 _ | c :: cs => Forall_cons_2 _ _ _ (bt_ind' c) (go cs) end) cs)
  end.
End bt_ind.

Definition addr (t : bt) : loc := match t with Lf a _ | Nd a _ _ => a end.

Fixpoint first_leaf (t : bt) : loc :=
  match t with
  | Lf a _ => a
  | Nd a _ cs => match cs with c :: _ => first_leaf c | [] => a end
  end.

(** ** The expected contents of one node *)
Inductive shape : Type :=
| SLeaf (kvs : list (string * file_id)) (next : ptr)
| SNode (ks : list string) (cs : list loc)
| SExact (nd : node).

Definition spec : Type := option loc * shape.

Definition rec_ptr (kv : string * file_id) : ptr := PRec (mk_record kv.2).

Definition node_ok (nd : node) (s : spec) : Prop :=
  match s.2 with
  | SLeaf kvs next =>
      length (pointers nd) = 5 ∧ length (keys nd) = 4 ∧ parent nd = s.1 ∧
      is_leaf nd = true ∧ num_keys nd = length kvs ∧ length kvs ≤ 4 ∧
      take (length kvs) (keys nd) = Some ∘ fst <$> kvs ∧
      take (length kvs) (pointers nd) = rec_ptr <$> kvs ∧
      pointers nd !! 4 = Some next
  | SNode ks cs =>
      length (pointers nd) = 5 ∧ length (keys nd) = 4 ∧ parent nd = s.1 ∧
      is_leaf nd = false ∧ num_keys nd = length ks ∧ length ks ≤ 4 ∧
      length cs = S (length ks) ∧
      take (length ks) (keys nd) = Some <$> ks ∧
      take (length cs) (pointers nd) = PNode <$> cs
  | SExact n => nd = n
  end.

(** ** The expected contents of a whole tree *)
Definition top (nxt : ptr) (t : bt) : shape :=
  match t with Lf _ kvs => SLeaf kvs nxt | Nd _ ks cs => SNode ks (addr <$> cs) end.

Definition head_next (cs : list bt) (nxt : ptr) : ptr :=
  match cs with [] => nxt | c :: _ => PNode (first_leaf c) end.

(** The nodes below the root of [t], when its last leaf links to [nxt]. *)
Fixpoint below (nxt : ptr) (t : bt) : list (loc * spec) :=
  match t with
  | Lf _ _ => []
  | Nd a _ cs =>
      (fix go (cs : list bt) : list (loc * spec) :=
         match cs with
         | [] => []
         | c :: cs' =>
             let n := head_next cs' nxt in
             ((addr c, (Some a, top n c)) :: below n c) ++ go cs'
         end) cs
  end.

Definition entries (par : option loc) (nxt : ptr) (t : bt) : list (loc * spec) :=
  (addr t, (par, top nxt t)) :: below nxt t.

Fixpoint entries_list (par : option loc) (cs : list bt) (nxt : ptr) : list (loc * spec) :=
  match cs with
  | [] => []
  | c :: cs' => entries par (head_next cs' nxt) c ++ entries_list par cs' nxt
  end.

Definition sat (h : gmap loc node) (e : loc * spec) : Prop :=
  ∃ nd, h !! e.1 = Some nd ∧ node_ok nd e.2.

Definition owns (h : gmap loc node) (es : list (loc * spec)) : Prop :=
  Forall (sat h) es ∧ NoDup es.*1.

Definition heap_ok (h : heap) : Prop := ∀ l, is_Some (nodes h !! l) → l < next_loc h.

(** [root] points to a tree that the heap holds, with nothing to its right. *)
Definition tree_at (h : heap) (t : bt) : Prop :=
  heap_ok h ∧ owns (nodes h) (entries None PNull t).

(** ** Order *)
Inductive item : Type :=
| IK (k : string) (f : file_id)
| IS (k : string).

Fixpoint flat (t : bt) : list item :=
  match t with
  | Lf _ kvs => (λ kv, IK kv.1 kv.2) <$> kvs
  | Nd _ ks cs =>
      (fix go (ks : list string) (cs : list bt) {struct cs} : list item :=
         match cs with
         | [] => []
         | c :: cs' =>
             flat c ++ match ks with [] => [] | k :: ks' => IS k :: go ks' cs' end
         end) ks cs
  end.

Definition flatL (ks : list string) (cs : list bt) : list item :=
  concat (zip_with (λ k c, flat c ++ [IS k]) ks cs).
Definition flatR (ks : list string) (cs : list bt) : list item :=
  concat (zip_with (λ k c, IS k :: flat c) ks cs).

(** Items in increasing order; a separator may equal the key that follows. *)
Definition item_lt (x y : item) : Prop :=
  match x, y with
  | IK a _, IK b _ | IK a _, IS b | IS a, IS b => str_lt a b
  | IS a, IK b _ => ¬ str_lt b a
  end.

Definition ordered (t : bt) : Prop := StronglySorted item_lt (flat t).

Definition kvs_of (l : list item) : list (string * file_id) :=
  omap (λ i, match i with IK k f => Some (k, f) | IS _ => None end) l.
Definition bindings (t : bt) : list (string * file_id) := kvs_of (flat t).
Definition to_map (t : bt) : gmap string file_id := list_to_map (bindings t).

(** ** Balance and occupancy *)
Fixpoint wfsh (root : bool) (n : nat) (t : bt) : Prop :=
  match t, n with
  | Lf _ kvs, 0 => (if root then 1 else 2) ≤ length kvs ≤ 4
  | Nd _ ks cs, S m =>
      length cs = S (length ks) ∧ (if root then 1 else 2) ≤ length ks ≤ 4 ∧
      (fix go cs := match cs with [] => True | c :: cs' => wfsh false m c ∧ go cs' end) cs
  | _, _ => False
  end.

(** All stored keys fit the [MAX_KEY_LEN] buffers. *)
Definition item_key (i : item) : string := match i with IK k _ | IS k => k end.
Definition fits (k : string) : Prop := String.length k < MAX_KEY_LEN.

(** The state of a live tree. *)
Record tree_inv (h : heap) (t : bt) : Prop := {
  inv_at : tree_at h t;
  inv_ord : ordered t;
  inv_fits : Forall (fits ∘ item_key) (flat t);
  inv_shape : ∃ n, wfsh true n t
}.

(** A node as [make_new_node] and [make_new_leaf] leave it. *)
Definition fresh_node (leaf : bool) : node :=
  mk_node (replicate 5 PNull) (replicate 4 None) None 0 leaf.

(** What a root pointer stands for: NULL and the empty leaf of
    [B_plus_tree_initial] are the empty map. *)
Definition tree_rep (h : heap) (root : option loc) (m : gmap string file_id) : Prop :=
  match root with
  | None => heap_ok h ∧ m = ∅
  | Some r =>
      (∃ t, addr t = r ∧ tree_inv h t ∧ to_map t = m) ∨
      (tree_at h (Lf r []) ∧ nodes h !! r = Some (fresh_node true) ∧ m = ∅)
  end.

(** ** Zippers *)
Record frame : Type := mk_frame {
  fr_addr : loc;
  fr_ks1 : list string; fr_cs1 : list bt;
  fr_ks2 : list string; fr_cs2 : list bt
}.

Definition fr_plug (F : frame) (t : bt) : bt :=
  Nd (fr_addr F) (fr_ks1 F ++ fr_ks2 F) (fr_cs1 F ++ t :: fr_cs2 F).
(** Innermost frame first. *)
Fixpoint plug (C : list frame) (t : bt) : bt :=
  match C with [] => t | F :: C' => plug C' (fr_plug F t) end.

Definition fr_ok (F : frame) : Prop :=
  length (fr_ks1 F) = length (fr_cs1 F) ∧ length (fr_ks2 F) = length (fr_cs2 F).

Definition par_of (C : list frame) : option loc := fr_addr <$> head C.
Fixpoint nxt_of (C : list frame) : ptr :=
  match C with [] => PNull | F :: C' => head_next (fr_cs2 F) (nxt_of C') end.
Definition first_of (cs : list bt) (hf : loc) : loc :=
  match cs with [] => hf | c :: _ => first_leaf c end.

(** What the frames own, around a hole at address [ha] whose first leaf is [hf]. *)
Fixpoint centries (C : list frame) (ha hf : loc) : list (loc * spec) :=
  match C with
  | [] => []
  | F :: C' =>
      (fr_addr F, (par_of C', SNode (fr_ks1 F ++ fr_ks2 F) ((addr <$> fr_cs1 F) ++ ha :: (addr <$> fr_cs2 F))))
        :: entries_list (Some (fr_addr F)) (fr_cs1 F) (PNode hf)
        ++ entries_list (Some (fr_addr F)) (fr_cs2 F) (nxt_of C')
        ++ centries C' (fr_addr F) (first_of (fr_cs1 F) hf)
  end.

Fixpoint cflatL (C : list frame) : list item :=
  match C with [] => [] | F :: C' => cflatL C' ++ flatL (fr_ks1 F) (fr_cs1 F) end.
Fixpoint cflatR (C : list frame) : list item :=
  match C with [] => [] | F :: C' => flatR (fr_ks2 F) (fr_cs2 F) ++ cflatR C' end.

(** Shape of the frames around a hole of height [m], in a tree of height [n]. *)
Fixpoint wfctx (n : nat) (C : list frame) (m : nat) : Prop :=
  match C with
  | [] => n = m
  | F :: C' =>
      fr_ok F ∧
      (if C' is [] then 1 else 2) ≤ length (fr_ks1 F) + length (fr_ks2 F) ≤ 4 ∧
      Forall (wfsh false m) (fr_cs1 F) ∧ Forall (wfsh false m) (fr_cs2 F) ∧
      wfctx n C' (S m)
  end.

Definition is_root (C : list frame) : bool := if C is [] then true else false.
