(* ===== verification/BPlusTreeLemmas.v ===== *)
(** * Lemmas on the representation of the B+ tree

    Ownership of node lists under heap updates, decomposition of a tree at a
    hole, the in-order sequence, and the bounds that make the fuel enough. *)
From S2P Require Import Prelude BPlusTree BPlusTreeSpec.

Create HintDb bptree.

(** ** Ownership *)
#[export] Instance owns_proper h : Proper (Permutation ==> iff) (owns h).
Proof. intros es es' H. unfold owns. by rewrite H. Qed.

Lemma owns_nil h : owns h [].
Proof. split; [done|apply NoDup_nil_2]. Qed.

Lemma owns_cons h e es : owns h (e :: es) ↔ sat h e ∧ e.1 ∉ es.*1 ∧ owns h es.
Proof. unfold owns. rewrite Forall_cons, fmap_cons, NoDup_cons. tauto. Qed.

Lemma owns_app h es es' :
  owns h (es ++ es') ↔ owns h es ∧ owns h es' ∧ (∀ l, l ∈ es.*1 → l ∉ es'.*1).
Proof. unfold owns. rewrite Forall_app, fmap_app, NoDup_app. tauto. Qed.

Lemma sat_insert_ne h e l nd : e.1 ≠ l → sat h e → sat (<[l := nd]> h) e.
Proof. intros Hne (n & Hn & Hok). exists n. by rewrite lookup_insert_ne by done. Qed.

Lemma sats_insert h es l nd :
  l ∉ es.*1 → Forall (sat h) es → Forall (sat (<[l := nd]> h)) es.
Proof.
  intros Hl H. induction H as [|e es He Hes IH]; [done|].
  rewrite fmap_cons, not_elem_of_cons in Hl. destruct Hl. constructor; [by apply sat_insert_ne|auto].
Qed.

Lemma owns_insert h l s s' es nd :
  owns h ((l, s) :: es) → node_ok nd s' → owns (<[l := nd]> h) ((l, s') :: es).
Proof.
  rewrite !owns_cons. intros (_ & Hl & Hes & Hnd) Hok. simpl in *. split; [|split; [done|split; [|done]]].
  - exists nd. by rewrite lookup_insert_eq.
  - by apply sats_insert.
Qed.

Lemma owns_fresh h l s es nd :
  owns h es → h !! l = None → node_ok nd s → owns (<[l := nd]> h) ((l, s) :: es).
Proof.
  intros [Hes Hnd] Hl Hok.
  assert (l ∉ es.*1) as Hni.
  { intros ((l' & s') & -> & Hin)%list_elem_of_fmap. rewrite Forall_forall in Hes.
    destruct (Hes _ Hin) as (n & Hn & _). simpl in *. congruence. }
  apply owns_cons. split; [|split; [done|split; [|done]]].
  - exists nd. by rewrite lookup_insert_eq.
  - by apply sats_insert.
Qed.

Lemma owns_delete h l s es : owns h ((l, s) :: es) → owns (delete l h) es.
Proof.
  rewrite owns_cons. intros (_ & Hl & Hes & Hnd). split; [|done]. simpl in Hl.
  clear Hnd. induction Hes as [|e es He Hes IH]; [done|].
  rewrite fmap_cons, not_elem_of_cons in Hl. destruct Hl as [Hne Hl]. constructor; [|auto].
  destruct He as (n & Hn & Hok). exists n. by rewrite lookup_delete_ne by done.
Qed.

Lemma owns_lookup h l s es :
  owns h es → (l, s) ∈ es → ∃ nd, h !! l = Some nd ∧ node_ok nd s.
Proof. intros [Hes _] Hin. rewrite Forall_forall in Hes. apply (Hes _ Hin). Qed.

Lemma owns_head h l s es : owns h ((l, s) :: es) → ∃ nd, h !! l = Some nd ∧ node_ok nd s.
Proof. intros H. eapply owns_lookup; [done|left]. Qed.

(** Each owned node is one node of the heap: the number of owned nodes, and so
    the length of a path, is at most the size of the heap. *)
Lemma owns_size h es : owns h es → length es ≤ size h.
Proof.
  intros [Hes Hnd]. rewrite <- (length_fmap fst es).
  rewrite <- (size_list_to_set (C := gset loc)) by done.
  rewrite <- size_dom. apply subseteq_size. intros l Hl.
  apply elem_of_list_to_set, list_elem_of_fmap in Hl as (e & -> & He).
  rewrite Forall_forall in Hes. destruct (Hes _ He) as (n & Hn & _).
  apply elem_of_dom. eauto.
Qed.

(** ** Trees at a hole *)
Lemma below_Nd nxt a ks cs : below nxt (Nd a ks cs) = entries_list (Some a) cs nxt.
Proof. simpl. induction cs as [|c cs IH]; simpl; [done|]. by rewrite IH. Qed.

Lemma entries_list_app par cs1 cs2 nxt :
  entries_list par (cs1 ++ cs2) nxt =
  entries_list par cs1 (head_next cs2 nxt) ++ entries_list par cs2 nxt.
Proof.
  induction cs1 as [|c cs1 IH]; [done|]. simpl. rewrite IH.
  destruct cs1; norm_app; done.
Qed.

Lemma first_leaf_plug F t : first_leaf (fr_plug F t) = first_of (fr_cs1 F) (first_leaf t).
Proof. destruct F as [? ? [|??] ? ?]; done. Qed.

Lemma entries_fr_plug par nxt F t :
  entries par nxt (fr_plug F t) ≡ₚ
  entries (Some (fr_addr F)) (head_next (fr_cs2 F) nxt) t ++
  (fr_addr F, (par, SNode (fr_ks1 F ++ fr_ks2 F) ((addr <$> fr_cs1 F) ++ addr t :: (addr <$> fr_cs2 F))))
    :: entries_list (Some (fr_addr F)) (fr_cs1 F) (PNode (first_leaf t))
    ++ entries_list (Some (fr_addr F)) (fr_cs2 F) nxt.
Proof.
  unfold entries at 1. unfold fr_plug. rewrite below_Nd, entries_list_app.
  change (entries_list ?p (t :: ?cs) nxt) with (entries p (head_next cs nxt) t ++ entries_list p cs nxt).
  cbn [addr top head_next]. rewrite fmap_app, fmap_cons.
  generalize (entries (Some (fr_addr F)) (head_next (fr_cs2 F) nxt) t).
  intros es. solve_Permutation.
Qed.

Lemma entries_plug C : ∀ t,
  entries None PNull (plug C t) ≡ₚ
  entries (par_of C) (nxt_of C) t ++ centries C (addr t) (first_leaf t).
Proof.
  induction C as [|F C IH]; intros t; [simpl; by rewrite app_nil_r|].
  cbn [plug]. rewrite IH, entries_fr_plug, first_leaf_plug. cbn [centries nxt_of par_of head fmap option_fmap option_map].
  rewrite <- app_assoc. apply Permutation_app_head. norm_app. done.
Qed.

(** ** The in-order sequence *)
Lemma flat_Nd a ks c cs : length ks = length cs → flat (Nd a ks (c :: cs)) = flat c ++ flatR ks cs.
Proof.
  revert ks c. induction cs as [|c' cs IH]; intros [|k ks] c Hl; try done.
  change (flat (Nd a (k :: ks) (c :: c' :: cs)))
    with (flat c ++ IS k :: flat (Nd a ks (c' :: cs))).
  rewrite IH by (simpl in Hl; lia). done.
Qed.

Lemma flatR_app ks1 cs1 ks2 cs2 : length ks1 = length cs1 →
  flatR (ks1 ++ ks2) (cs1 ++ cs2) = flatR ks1 cs1 ++ flatR ks2 cs2.
Proof. intros. unfold flatR. rewrite zip_with_app by done. apply concat_app. Qed.
Lemma flatL_app ks1 cs1 ks2 cs2 : length ks1 = length cs1 →
  flatL (ks1 ++ ks2) (cs1 ++ cs2) = flatL ks1 cs1 ++ flatL ks2 cs2.
Proof. intros. unfold flatL. rewrite zip_with_app by done. apply concat_app. Qed.

Lemma flat_Nd_hole a ks1 cs1 ks2 cs2 t :
  length ks1 = length cs1 → length ks2 = length cs2 →
  flat (Nd a (ks1 ++ ks2) (cs1 ++ t :: cs2)) = flatL ks1 cs1 ++ flat t ++ flatR ks2 cs2.
Proof.
  revert ks1. induction cs1 as [|c cs1 IH]; intros [|k ks1] H1 H2; try done.
  - simpl. by rewrite <- (flat_Nd a) by done.
  - assert (∀ d ds, flat (Nd a (k :: ks1 ++ ks2) (c :: d :: ds)) =
              flat c ++ IS k :: flat (Nd a (ks1 ++ ks2) (d :: ds))) as Hstep by done.
    simpl in H1. injection H1 as H1.
    specialize (IH ks1 H1 H2). unfold flatL in *. simpl.
    destruct cs1 as [|d cs1].
    + simpl in *. rewrite IH. destruct ks1; [|done]. simpl. by rewrite <- !app_assoc.
    + simpl in *. rewrite IH. rewrite <- !app_assoc. done.
Qed.

Lemma flat_fr_plug F t : fr_ok F →
  flat (fr_plug F t) = flatL (fr_ks1 F) (fr_cs1 F) ++ flat t ++ flatR (fr_ks2 F) (fr_cs2 F).
Proof. intros [H1 H2]. by apply flat_Nd_hole. Qed.

Lemma flat_plug C : ∀ t, Forall fr_ok C → flat (plug C t) = cflatL C ++ flat t ++ cflatR C.
Proof.
  induction C as [|F C IH]; intros t HC; [simpl; by rewrite app_nil_r|].
  apply Forall_cons in HC as [HF HC]. simpl. rewrite IH, flat_fr_plug by done.
  by rewrite <- !app_assoc.
Qed.

(** ** Shape *)
Lemma wfsh_Nd root n a ks cs :
  wfsh root n (Nd a ks cs) ↔
  ∃ m, n = S m ∧ length cs = S (length ks) ∧ (if root then 1 else 2) ≤ length ks ≤ 4 ∧
       Forall (wfsh false m) cs.
Proof.
  destruct n as [|m]; simpl; [naive_solver|].
  assert ((fix go cs := match cs with [] => True | c :: cs' => wfsh false m c ∧ go cs' end) cs
          ↔ Forall (wfsh false m) cs) as ->; [|naive_solver].
  induction cs as [|c cs IH]; [done|]. rewrite Forall_cons, <- IH. done.
Qed.

Lemma wfsh_plug C : ∀ n m t,
  wfctx n C m → wfsh (is_root C) m t → wfsh true n (plug C t).
Proof.
  induction C as [|F C IH]; simpl; intros n m t.
  { by intros ->. }
  intros ([H1 H2] & Hb & Hc1 & Hc2 & Hctx) Ht. apply (IH n (S m)); [done|].
  apply wfsh_Nd. exists m. rewrite !length_app. simpl. split; [done|]. split; [lia|].
  split; [destruct C; simpl; lia|]. apply Forall_app. split; [done|]. by constructor.
Qed.

Lemma wfsh_unplug C : ∀ n t, Forall fr_ok C → wfsh true n (plug C t) →
  ∃ m, wfctx n C m ∧ wfsh (is_root C) m t.
Proof.
  induction C as [|F C IH]; simpl; intros n t HC Ht; [by exists n|].
  apply Forall_cons in HC as [HF HC]. destruct (IH n _ HC Ht) as (m1 & Hctx & Hsh).
  apply wfsh_Nd in Hsh as (m & -> & _ & Hb & [Hc1 [Hc Hc2]%Forall_cons]%Forall_app).
  rewrite length_app in Hb. exists m. repeat split; try done; try apply HF; destruct C; simpl in *; lia.
Qed.

Lemma wfctx_frames C : ∀ n m, wfctx n C m → Forall fr_ok C.
Proof. induction C as [|F C IH]; [done|]. simpl. intros n m (HF & _ & _ & _ & Hc). constructor; eauto. Qed.

(** ** Fuel *)
Fixpoint height (t : bt) : nat :=
  match t with
  | Lf _ _ => 1
  | Nd _ _ cs => S (foldr (λ c n, height c `max` n) 0 cs)
  end.

Lemma height_child a ks cs1 c cs2 : height c < height (Nd a ks (cs1 ++ c :: cs2)).
Proof. simpl. induction cs1 as [|d cs1 IH]; simpl; lia. Qed.

Lemma height_entries t : ∀ par nxt, height t ≤ length (entries par nxt t).
Proof.
  induction t as [a kvs|a ks cs IH] using bt_ind'; intros par nxt; [simpl; lia|].
  unfold entries. rewrite below_Nd. simpl. apply le_n_S. clear ks.
  assert (∀ p, foldr (λ c n, height c `max` n) 0 cs ≤ length (entries_list p cs nxt)) as H; [|apply H].
  intros p. induction IH as [|c cs Hc Hcs IH2]; cbn [foldr entries_list]; [lia|].
  specialize (Hc p (head_next cs nxt)). rewrite length_app. lia.
Qed.

Lemma height_fuel h t par nxt es :
  owns h (entries par nxt t ++ es) → height t ≤ size h.
Proof.
  intros Ho%owns_size. rewrite length_app in Ho. pose proof (height_entries t par nxt). lia.
Qed.

Lemma centries_length C : ∀ ha hf, length C ≤ length (centries C ha hf).
Proof.
  induction C as [|F C IH]; intros; cbn [centries length]; [lia|]. rewrite !length_app.
  specialize (IH (fr_addr F) (first_of (fr_cs1 F) hf)). lia.
Qed.
