(* ===== verification/BPlusTreeFind.v ===== *)
(** * Searching the B+ tree

    [find_leaf] reaches the one leaf that can hold a key, and
    [B_plus_tree_find] is lookup in the finite map the tree represents. *)
From S2P Require Import Prelude BPlusTree BPlusTreeSpec BPlusTreeLemmas.

Definition item_before (key : string) (x : item) : Prop :=
  match x with IK a _ => str_lt a key | IS a => ¬ str_lt key a end.
Definition item_after (key : string) (x : item) : Prop := str_lt key (item_key x).

(** A leaf [a] with bindings [kvs] that is the place of [key] in [t]. *)
Definition leaf_of (t : bt) (key : string) (C : list frame) (a : loc) (kvs : list (string * file_id)) : Prop :=
  t = plug C (Lf a kvs) ∧ Forall fr_ok C ∧
  Forall (item_before key) (cflatL C) ∧ Forall (item_after key) (cflatR C).

(** ** Reading a well-formed node *)
Lemma take_lookup_fmap {A B} (f : A → B) (l : list A) (l' : list B) i x :
  take (length l) l' = f <$> l → l !! i = Some x → l' !! i = Some (f x).
Proof.
  intros H Hi. rewrite <- (lookup_take_lt _ (length l)) by (by eapply lookup_lt_Some).
  rewrite H, list_lookup_fmap, Hi. done.
Qed.

Lemma key_of_node nd par ks cs i k (h : heap) :
  node_ok nd (par, SNode ks cs) → ks !! i = Some k → key_of nd i h = Ok (k, h).
Proof.
  intros (_ & _ & _ & _ & _ & _ & _ & Hk & _) Hi. unfold key_of, key_slot.
  by rewrite (take_lookup_fmap Some ks _ _ _ Hk Hi).
Qed.

Lemma key_of_leaf nd par kvs nxt i kv (h : heap) :
  node_ok nd (par, SLeaf kvs nxt) → kvs !! i = Some kv → key_of nd i h = Ok (kv.1, h).
Proof.
  intros (_ & _ & _ & _ & _ & _ & Hk & _) Hi. unfold key_of, key_slot.
  by rewrite (take_lookup_fmap (Some ∘ fst) kvs _ _ _ Hk Hi).
Qed.

Lemma ptr_of_node nd par ks cs i c (h : heap) :
  node_ok nd (par, SNode ks cs) → cs !! i = Some c → ptr_of nd i h = Ok (PNode c, h).
Proof.
  intros (_ & _ & _ & _ & _ & _ & _ & _ & Hc) Hi. unfold ptr_of, ptr_slot.
  by rewrite (take_lookup_fmap PNode cs _ _ _ Hc Hi).
Qed.

Lemma child_of_node nd par ks cs i c (h : heap) :
  node_ok nd (par, SNode ks cs) → cs !! i = Some c → child_of nd i h = Ok (c, h).
Proof. intros Hok Hi. unfold child_of. by rewrite (bind_Ok _ _ _ _ _ (ptr_of_node _ _ _ _ _ _ h Hok Hi)). Qed.

Lemma ptr_of_leaf nd par kvs nxt i kv (h : heap) :
  node_ok nd (par, SLeaf kvs nxt) → kvs !! i = Some kv → ptr_of nd i h = Ok (rec_ptr kv, h).
Proof.
  intros (_ & _ & _ & _ & _ & _ & _ & Hp & _) Hi. unfold ptr_of, ptr_slot.
  by rewrite (take_lookup_fmap rec_ptr kvs _ _ _ Hp Hi).
Qed.

Lemma load_ok h l nd : nodes h !! l = Some nd → load l h = Ok (nd, h).
Proof. intros H. unfold load, get. unfold mbind, M_bind. by rewrite H. Qed.

Lemma heap_fuel_ok h : heap_fuel h = Ok (S (S (size (nodes h))), h).
Proof. done. Qed.

(** The separator scan. *)
Lemma scan_node nd par ks cs key h :
  node_ok nd (par, SNode ks cs) →
  for_while (num_keys nd) 0 (λ i, k ← key_of nd i; mret (bool_decide (strcmp k key <= 0)%Z)) h
  = Ok (find_from (λ k, bool_decide (strcmp k key <= 0)%Z) 0 ks, h).
Proof.
  intros Hok. pose proof Hok as (_ & _ & _ & _ & -> & _). apply for_while_find.
  intros j k Hj. simpl. by rewrite (bind_Ok _ _ _ _ _ (key_of_node _ _ _ _ _ _ h Hok Hj)).
Qed.

Lemma scan_leaf nd par kvs nxt key h :
  node_ok nd (par, SLeaf kvs nxt) →
  scan_equal nd key h = Ok (find_from (λ kv, bool_decide (strcmp kv.1 key ≠ 0)%Z) 0 kvs, h).
Proof.
  intros Hok. unfold scan_equal. pose proof Hok as (_ & _ & _ & _ & -> & _). apply for_while_find.
  intros j kv Hj. simpl. by rewrite (bind_Ok _ _ _ _ _ (key_of_leaf _ _ _ _ _ _ h Hok Hj)).
Qed.

(** ** Order at a separator *)
Lemma before_of_lt key x k : (strcmp k key <= 0)%Z → item_lt x (IS k) → item_before key x.
Proof.
  intros Hk. assert (¬ str_lt key k) as Hnk by (rewrite <- strcmp_gt; lia).
  apply str_not_lt in Hnk as [<-|Hk']; destruct x as [a f|a]; simpl; intros Ha.
  - done.
  - intros Hka. apply (irreflexivity str_lt a). by etrans.
  - by etrans.
  - intros Hka. apply (irreflexivity str_lt a). etrans; [done|]. by etrans.
Qed.

Lemma after_of_lt key x k : ¬ (strcmp k key <= 0)%Z → item_lt (IS k) x → item_after key x.
Proof.
  intros Hk. assert (str_lt key k) as Hnk by (apply strcmp_gt; lia). unfold item_after.
  destruct x as [a f|a]; simpl; intros Ha; [|by etrans].
  apply str_not_lt in Ha as [<-|Ha]; [done|]. by etrans.
Qed.

Lemma sorted_app_inv l1 l2 :
  StronglySorted item_lt (l1 ++ l2) →
  StronglySorted item_lt l1 ∧ StronglySorted item_lt l2 ∧ (∀ x y, x ∈ l1 → y ∈ l2 → item_lt x y).
Proof.
  induction l1 as [|a l1 IH]; simpl; intros H.
  - split; [constructor|]. split; [done|]. intros x y Hx. by apply elem_of_nil in Hx.
  - apply StronglySorted_inv in H as [H Ha]. destruct (IH H) as (H1 & H2 & H3).
    rewrite Forall_app in Ha. destruct Ha as [Ha1 Ha2].
    split; [by constructor|]. split; [done|].
    intros x y [->|Hx]%elem_of_cons Hy; [|by apply H3]. rewrite Forall_forall in Ha2. by apply Ha2.
Qed.

Lemma sorted_app l1 l2 :
  StronglySorted item_lt l1 → StronglySorted item_lt l2 →
  (∀ x y, x ∈ l1 → y ∈ l2 → item_lt x y) → StronglySorted item_lt (l1 ++ l2).
Proof.
  induction l1 as [|a l1 IH]; simpl; intros H1 H2 H3; [done|].
  apply StronglySorted_inv in H1 as [H1 Ha]. constructor.
  - apply IH; [done..|]. intros x y Hx. apply H3. by right.
  - apply Forall_app. split; [done|]. apply Forall_forall. intros y Hy. apply H3; [left|done].
Qed.

Lemma flatL_before key ks cs :
  length ks = length cs → StronglySorted item_lt (flatL ks cs) →
  Forall (λ k, bool_decide (strcmp k key <= 0)%Z) ks → Forall (item_before key) (flatL ks cs).
Proof.
  destruct ks as [|k ks _] using rev_ind; [by destruct cs|].
  destruct cs as [|c cs _] using rev_ind; [rewrite length_app; simpl; lia|].
  rewrite !length_app. simpl. intros Hl Hs Hk. rewrite flatL_app in * by lia.
  apply Forall_app in Hk as [_ Hk]. apply Forall_singleton, bool_decide_unpack in Hk.
  unfold flatL in *. simpl in *. rewrite app_nil_r in *. rewrite app_assoc in *.
  apply sorted_app_inv in Hs as (_ & _ & Hlt). apply Forall_app. split.
  - apply Forall_forall. intros x Hx. apply (before_of_lt key x k Hk). apply Hlt; [done|left].
  - constructor; [|done]. simpl. rewrite <- strcmp_gt. lia.
Qed.

Lemma flatR_after key ks cs :
  length ks = length cs → StronglySorted item_lt (flatR ks cs) →
  (∀ k, head ks = Some k → bool_decide (strcmp k key <= 0)%Z = false) →
  Forall (item_after key) (flatR ks cs).
Proof.
  destruct ks as [|k ks], cs as [|c cs]; simpl; try done. intros _ Hs Hk.
  specialize (Hk k eq_refl). apply bool_decide_eq_false in Hk.
  unfold flatR in *. simpl in *. apply StronglySorted_inv in Hs as [_ Hs].
  constructor; [unfold item_after; simpl; apply strcmp_gt; lia|]. rewrite Forall_forall in *.
  intros x Hx. apply (after_of_lt key x k Hk). by apply Hs.
Qed.

(** ** Descent *)
Lemma find_leaf_loop_ok h t0 key : ∀ t fuel C,
  plug C t = t0 → Forall fr_ok C → ordered t0 →
  owns (nodes h) (entries None PNull t0) →
  Forall (item_before key) (cflatL C) → Forall (item_after key) (cflatR C) →
  height t < fuel →
  ∃ C' a kvs, leaf_of t0 key C' a kvs ∧ find_leaf_loop fuel (addr t) key h = Ok (a, h).
Proof.
  induction t as [a kvs|a ks cs IH] using bt_ind'; intros fuel C Hp HC Hord Ho Hb Ha Hf;
    (destruct fuel as [|fuel]; [lia|]).
  - rewrite <- Hp, entries_plug in Ho. apply owns_head in Ho as (nd & Hnd & Hok).
    exists C, a, kvs. split; [done|]. simpl. rewrite (bind_Ok _ _ _ _ _ (load_ok _ _ _ Hnd)).
    destruct Hok as (_ & _ & _ & -> & _). done.
  - pose proof Ho as Ho'. rewrite <- Hp, entries_plug in Ho'. apply owns_head in Ho' as (nd & Hnd & Hok).
    pose proof Hok as (_ & _ & _ & Hnl & _ & _ & Hlen & _). rewrite length_fmap in Hlen.
    destruct (find_from_split (λ k, bool_decide (strcmp k key <= 0)%Z) ks 0)
      as (ks1 & ks2 & -> & Hi & H1 & H2).
    destruct (app_eq_length_split cs (length ks1)) as (cs1 & cs2 & -> & Hl1);
      [rewrite Hlen, length_app; simpl; lia|].
    destruct cs2 as [|c cs2]; [rewrite !length_app in Hlen; simpl in Hlen; lia|].
    assert (length ks2 = length cs2) as Hl2 by (rewrite !length_app in Hlen; simpl in Hlen; lia).
    set (F := mk_frame a ks1 cs1 ks2 cs2).
    assert (fr_ok F) as HF by (split; simpl; lia).
    assert (StronglySorted item_lt (flat (fr_plug F c))) as Hs.
    { unfold ordered in Hord. rewrite <- Hp, flat_plug in Hord by done.
      by apply sorted_app_inv in Hord as (_ & (Hs & _)%sorted_app_inv & _). }
    rewrite flat_fr_plug in Hs by done. simpl in Hs.
    apply sorted_app_inv in Hs as (HsL & (_ & HsR & _)%sorted_app_inv & _).
    apply Forall_app in IH as [_ IH]. apply Forall_cons in IH as [IH _].
    destruct (IH fuel (F :: C)) as (C' & a' & kvs & Hl & Hrun); [done|by constructor|done|done|..].
    + simpl. apply Forall_app. split; [done|]. by apply flatL_before.
    + simpl. apply Forall_app. split; [|done]. by apply (flatR_after key).
    + pose proof (height_child a (ks1 ++ ks2) cs1 c cs2). lia.
    + exists C', a', kvs. split; [done|]. simpl.
      rewrite (bind_Ok _ _ _ _ _ (load_ok _ _ _ Hnd)), Hnl.
      rewrite (bind_Ok _ _ _ _ _ (scan_node _ _ _ _ key h Hok)), Hi. simpl.
      erewrite bind_Ok; [exact Hrun|].
      eapply child_of_node; [done|]. rewrite fmap_app, fmap_cons.
      rewrite list_lookup_middle; [done|]. by rewrite length_fmap.
Qed.

Lemma find_leaf_ok h t key :
  tree_inv h t →
  ∃ C a kvs, leaf_of t key C a kvs ∧ find_leaf (Some (addr t)) key h = Ok (Some a, h).
Proof.
  intros [[_ Ho] Hord _ _].
  destruct (find_leaf_loop_ok h t key t (S (S (size (nodes h)))) []) as (C & a & kvs & Hl & Hr); try done.
  { pose proof (height_fuel (nodes h) t None PNull []). rewrite app_nil_r in *. naive_solver lia. }
  exists C, a, kvs. split; [done|]. unfold find_leaf. rewrite (bind_Ok _ _ _ _ _ (heap_fuel_ok h)).
  by rewrite (bind_Ok _ _ _ _ _ Hr).
Qed.

(** ** Lookup in the represented map *)
Lemma kvs_of_app l1 l2 : kvs_of (l1 ++ l2) = kvs_of l1 ++ kvs_of l2.
Proof. apply omap_app. Qed.

Lemma kvs_of_leaf kvs : kvs_of ((λ kv, IK kv.1 kv.2) <$> kvs) = kvs.
Proof. induction kvs as [|[k f] kvs IH]; [done|]. cbn. f_equal. apply IH. Qed.

Lemma kvs_of_elem k f l : (k, f) ∈ kvs_of l ↔ IK k f ∈ l.
Proof.
  unfold kvs_of. rewrite list_elem_of_omap. split.
  - intros ([k' f'|] & Hin & Heq); [|done]. by injection Heq as -> ->.
  - intros H. by exists (IK k f).
Qed.

Lemma kvs_of_before key l : Forall (item_before key) l → key ∉ (kvs_of l).*1.
Proof.
  rewrite Forall_forall. intros H ([k f] & -> & Hin%kvs_of_elem)%list_elem_of_fmap.
  specialize (H _ Hin). by apply (irreflexivity str_lt k).
Qed.

Lemma kvs_of_after key l : Forall (item_after key) l → key ∉ (kvs_of l).*1.
Proof.
  rewrite Forall_forall. intros H ([k f] & -> & Hin%kvs_of_elem)%list_elem_of_fmap.
  specialize (H _ Hin). by apply (irreflexivity str_lt k).
Qed.

Lemma sorted_NoDup l : StronglySorted item_lt l → NoDup (kvs_of l).*1.
Proof.
  induction l as [|[k f|k] l IH]; intros H; [constructor| |];
    apply StronglySorted_inv in H as [H Hx]; cbn.
  - apply NoDup_cons. split; [|by apply IH].
    apply kvs_of_after. eapply Forall_impl; [done|]. intros [a g|a]; done.
  - by apply IH.
Qed.

Lemma bindings_leaf_of t key C a kvs :
  leaf_of t key C a kvs → bindings t = kvs_of (cflatL C) ++ kvs ++ kvs_of (cflatR C).
Proof.
  intros (-> & HC & _). unfold bindings. rewrite flat_plug by done.
  rewrite !kvs_of_app. simpl. by rewrite kvs_of_leaf.
Qed.

Lemma to_map_leaf_of t key C a kvs :
  leaf_of t key C a kvs → to_map t !! key = (list_to_map kvs : gmap string file_id) !! key.
Proof.
  intros Hl. unfold to_map. rewrite (bindings_leaf_of _ _ _ _ _ Hl).
  destruct Hl as (_ & _ & Hb & Ha). rewrite !list_to_map_app.
  rewrite lookup_union_r, lookup_union_l; [done| |]; apply not_elem_of_list_to_map_1.
  - by apply kvs_of_after.
  - by apply kvs_of_before.
Qed.

Lemma find_equal_lookup (kvs : list (string * file_id)) key :
  let i := find_from (λ kv, bool_decide (strcmp kv.1 key ≠ 0)%Z) 0 kvs in
  (list_to_map kvs : gmap string file_id) !! key = snd <$> kvs !! i ∧
  (∀ kv, kvs !! i = Some kv → kv.1 = key) ∧ i ≤ length kvs.
Proof.
  simpl. destruct (find_from_split (λ kv : string * file_id, bool_decide (strcmp kv.1 key ≠ 0)%Z) kvs 0)
    as (l1 & l2 & -> & -> & H1 & H2).
  simpl. rewrite lookup_app_r, Nat.sub_diag by lia. rewrite list_to_map_app, lookup_union_r.
  - destruct l2 as [|[k f] l2]; [rewrite length_app; split; [done|split; [done|lia]]|].
    specialize (H2 _ eq_refl). simpl in H2. apply bool_decide_eq_false, dec_stable, strcmp_eq in H2 as ->.
    simpl. rewrite lookup_insert_eq, length_app. split; [done|]. split; [by intros ? [= <-]|lia].
  - apply not_elem_of_list_to_map_1. intros ([k f] & -> & Hin)%list_elem_of_fmap.
    rewrite Forall_forall in H1. specialize (H1 _ Hin). simpl in H1.
    apply bool_decide_unpack in H1. apply H1, strcmp_refl.
Qed.

Lemma leaf_node h t key C a kvs :
  tree_at h t → leaf_of t key C a kvs →
  ∃ nd, nodes h !! a = Some nd ∧ node_ok nd (par_of C, SLeaf kvs (nxt_of C)).
Proof.
  intros [_ Ho] (-> & _). rewrite entries_plug in Ho. by apply owns_head in Ho.
Qed.

Lemma find_in_leaf h nd par kvs nxt key :
  node_ok nd (par, SLeaf kvs nxt) →
  (i ← scan_equal nd key;
   if decide (i = num_keys nd) then mret None else
   p ← ptr_of nd i;
   match p with PRec r => mret (Some r) | PNull => mret None | PNode _ => fail TypeConfusion end) h
  = Ok (new_record <$> (list_to_map kvs : gmap string file_id) !! key, h).
Proof.
  intros Hok. rewrite (bind_Ok _ _ _ _ _ (scan_leaf _ _ _ _ key h Hok)).
  pose proof Hok as (_ & _ & _ & _ & -> & _).
  destruct (find_equal_lookup kvs key) as (-> & _ & Hle).
  set (i := find_from _ 0 kvs) in *. case_decide as Hi.
  - by rewrite (proj2 (lookup_ge_None kvs i)) by lia.
  - destruct (lookup_lt_is_Some_2 kvs i) as [kv Hkv]; [lia|].
    rewrite (bind_Ok _ _ _ _ _ (ptr_of_leaf _ _ _ _ _ _ h Hok Hkv)), Hkv. done.
Qed.

Lemma find_tree h t key :
  tree_inv h t → B_plus_tree_find (Some (addr t)) key h = Ok (new_record <$> to_map t !! key, h).
Proof.
  intros Hinv. destruct (find_leaf_ok h t key Hinv) as (C & a & kvs & Hl & Hrun).
  destruct (leaf_node h t key C a kvs (inv_at _ _ Hinv) Hl) as (nd & Hnd & Hok).
  unfold B_plus_tree_find. rewrite (bind_Ok _ _ _ _ _ Hrun), (bind_Ok _ _ _ _ _ (load_ok _ _ _ Hnd)).
  rewrite (to_map_leaf_of _ _ _ _ _ Hl). by eapply find_in_leaf.
Qed.

(** A lone leaf, which the tree of an empty file system is. *)
Lemma find_leaf_single h a kvs key :
  tree_at h (Lf a kvs) → find_leaf (Some a) key h = Ok (Some a, h).
Proof.
  intros [_ Ho]. apply owns_head in Ho as (nd & Hnd & _ & _ & _ & Hl & _).
  unfold find_leaf. rewrite (bind_Ok _ _ _ _ _ (heap_fuel_ok h)). simpl.
  rewrite bind_Ok with (a := a) (w' := h); [done|]. by rewrite (bind_Ok _ _ _ _ _ (load_ok _ _ _ Hnd)), Hl.
Qed.

(** Lookup in the tree is lookup in the map. *)
Lemma find_rep h root m key :
  tree_rep h root m → B_plus_tree_find root key h = Ok (new_record <$> m !! key, h).
Proof.
  destruct root as [r|]; simpl.
  - intros [(t & <- & Hinv & <-)|(Hat & _ & ->)]; [by apply find_tree|].
    unfold B_plus_tree_find. rewrite (bind_Ok _ _ _ _ _ (find_leaf_single _ _ _ key Hat)).
    destruct Hat as [_ Ho]. apply owns_head in Ho as (nd & Hnd & Hok).
    rewrite (bind_Ok _ _ _ _ _ (load_ok _ _ _ Hnd)).
    rewrite (find_in_leaf h nd _ _ _ key Hok). done.
  - intros [_ ->]. done.
Qed.
