(* ===== verification/BPlusTreeNode.v ===== *)
(** * The array manipulations of the B+ tree, one node at a time

    The loops that shift, split, move and merge the entries of a node, against
    list operations on the node's bindings.  With [MAX_KEY_NUM = 4] the arrays
    are finite, so each lemma is decided by running the code on every
    occupancy and every index. *)
From S2P Require Import Prelude BPlusTree BPlusTreeSpec.

(** Split a list whose length is bounded by a hypothesis into its elements. *)
Ltac explode_list l :=
  let rec go n l :=
    lazymatch n with
    | O => idtac
    | S ?n => destruct l as [|? l]; [|go n l]
    end in
  go 7 l; try (exfalso; simpl in *; lia).

Ltac explode_nat m :=
  let rec go n m :=
    lazymatch n with
    | O => idtac
    | S ?n => destruct m as [|m]; [|go n m]
    end in
  go 7 m; try (exfalso; simpl in *; lia).

Ltac open_node :=
  repeat match goal with
  | nd : node |- _ => destruct nd
  | H : node_ok _ _ |- _ =>
      unfold node_ok in H; cbn [pointers keys parent num_keys is_leaf fst snd] in H;
      destruct_and! H; subst
  end.

Ltac run_node :=
  eexists; split; [reflexivity|];
  unfold node_ok; cbn; simplify_eq/=; repeat split; (done || lia || congruence).

Ltac by_cases_on_lists :=
  repeat match goal with
  | H : length ?l = 5 |- _ => is_var l; explode_list l
  | H : length ?l = 4 |- _ => is_var l; explode_list l
  end; simpl in *; simplify_eq/=.

Definition leaf_insert (index : nat) (key : string) (rec : record) (n : node) : option node :=
  n ← shift_right 0 index n; n ← set_key index (Some key) n;
  n ← set_ptr index (PRec rec) n; Some (set_num_keys (S (num_keys n)) n).

Lemma leaf_insert_ok nd par kvs nxt i key f :
  node_ok nd (par, SLeaf kvs nxt) → length kvs < 4 → i ≤ length kvs →
  ∃ nd', leaf_insert i key (new_record f) nd = Some nd' ∧
         node_ok nd' (par, SLeaf (take i kvs ++ (key, f) :: drop i kvs) nxt).
Proof.
  intros. open_node. explode_list kvs; explode_nat i; by_cases_on_lists; run_node.
Qed.

Definition node_insert (index : nat) (key : string) (right : loc) (n : node) : option node :=
  n ← shift_right 1 index n; n ← set_key index (Some key) n;
  n ← set_ptr (index + 1) (PNode right) n; Some (set_num_keys (S (num_keys n)) n).

Lemma node_insert_ok nd par ks cs i key r :
  node_ok nd (par, SNode ks cs) → length ks < 4 → i ≤ length ks →
  ∃ nd', node_insert i key r nd = Some nd' ∧
         node_ok nd' (par, SNode (take i ks ++ key :: drop i ks) (take (S i) cs ++ r :: drop (S i) cs)).
Proof.
  intros. open_node. explode_list ks; explode_list cs; explode_nat i; by_cases_on_lists; run_node.
Qed.

(** ** Splitting *)
Lemma leaf_split_ok nd par kvs nxt i key f :
  node_ok nd (par, SLeaf kvs nxt) → length kvs = 4 → i ≤ 4 →
  ∃ tps tks,
    spread 5 i (PRec (new_record f)) (ptr_slot nd) = Some tps ∧
    spread 5 i key (key_value nd) = Some tks ∧
    (∃ n1, fill 2 0 tps tks (set_num_keys 2 nd) = Some n1 ∧
       node_ok n1 (par, SLeaf (take 2 (take i kvs ++ (key, f) :: drop i kvs)) nxt)) ∧
    (∃ n2, (n ← fill 3 2 tps tks (set_num_keys 3 (fresh_node true));
            set_ptr 4 nxt (set_parent par n)) = Some n2 ∧
       node_ok n2 (par, SLeaf (drop 2 (take i kvs ++ (key, f) :: drop i kvs)) nxt)).
Proof.
  intros. open_node. explode_list kvs. explode_nat i; by_cases_on_lists;
    (eexists _, _; split; [reflexivity|]; split; [reflexivity|]; split; run_node).
Qed.

Lemma set_next_ok nd par kvs nxt p :
  node_ok nd (par, SLeaf kvs nxt) →
  ∃ nd', set_ptr 4 p nd = Some nd' ∧ node_ok nd' (par, SLeaf kvs p).
Proof. intros. open_node. explode_list kvs; by_cases_on_lists; run_node. Qed.

Lemma node_split_ok nd par ks cs i key r :
  node_ok nd (par, SNode ks cs) → length ks = 4 → i ≤ 4 →
  let ks' := take i ks ++ key :: drop i ks in
  let cs' := take (S i) cs ++ r :: drop (S i) cs in
  ∃ tps tks sep,
    spread 6 (i + 1) (PNode r) (ptr_slot nd) = Some tps ∧
    spread 5 i key (key_value nd) = Some tks ∧
    tks !! 2 = Some sep ∧ ks' !! 2 = Some sep ∧
    (∃ n1, (n ← fill 2 0 tps tks (set_num_keys 2 nd);
            p ← tps !! 2; set_ptr 2 p n) = Some n1 ∧
       node_ok n1 (par, SNode (take 2 ks') (take 3 cs'))) ∧
    (∀ q, ∃ n2, (n ← fill 2 3 tps tks (set_num_keys 2 (fresh_node false));
            p ← tps !! 5; n ← set_ptr 2 p n; Some (set_parent q n)) = Some n2 ∧
       node_ok n2 (q, SNode (drop 3 ks') (drop 3 cs'))).
Proof.
  intros. subst ks' cs'. open_node. explode_list ks. explode_list cs. explode_nat i; by_cases_on_lists;
    (eexists _, _, _; repeat (split; [reflexivity|]); split; [run_node|intros ?; run_node]).
Qed.

Lemma set_parent_ok nd par par' sh :
  node_ok nd (par, sh) → (∀ n, sh ≠ SExact n) → node_ok (set_parent par' nd) (par', sh).
Proof. destruct sh; unfold node_ok; simpl; naive_solver. Qed.

(** ** Removing, merging and moving entries *)
Lemma remove_leaf_ok nd par kvs nxt i :
  node_ok nd (par, SLeaf kvs nxt) → i < length kvs →
  ∃ nd', remove_entry i nd = Some nd' ∧ node_ok nd' (par, SLeaf (take i kvs ++ drop (S i) kvs) nxt).
Proof.
  intros. open_node. explode_list kvs; explode_nat i; by_cases_on_lists; run_node.
Qed.

Lemma remove_node_ok nd par ks cs j :
  node_ok nd (par, SNode ks cs) → j < length ks →
  ∃ nd', remove_entry (S j) nd = Some nd' ∧
    node_ok nd' (par, SNode (take j ks ++ drop (S j) ks) (take (S j) cs ++ drop (S (S j)) cs)).
Proof.
  intros. open_node. explode_list ks; explode_list cs; explode_nat j; by_cases_on_lists; run_node.
Qed.

Lemma append_leaf_ok n b p p' kn kb nn nb :
  node_ok n (p, SLeaf kn nn) → node_ok b (p', SLeaf kb nb) → length kb + length kn ≤ 4 →
  ∃ b', append_leaf n b = Some b' ∧ node_ok b' (p', SLeaf (kb ++ kn) nn).
Proof.
  intros. open_node. explode_list kn; explode_list kb; by_cases_on_lists; run_node.
Qed.

Lemma append_internal_ok n b sep p p' kn kb cn cb :
  node_ok n (p, SNode kn cn) → node_ok b (p', SNode kb cb) → length kb + length kn ≤ 3 →
  ∃ b', append_internal sep n b = Some b' ∧ node_ok b' (p', SNode (kb ++ sep :: kn) (cb ++ cn)).
Proof.
  intros. open_node. explode_list kn; explode_list kb; explode_list cn; explode_list cb;
    by_cases_on_lists; run_node.
Qed.

Lemma overwrite_key_ok pn q ks1 k k' ks2 cs :
  node_ok pn (q, SNode (ks1 ++ k :: ks2) cs) →
  ∃ pn', overwrite_key (length ks1) k' pn = Some pn' ∧ set_key (length ks1) (Some k') pn = Some pn' ∧
         node_ok pn' (q, SNode (ks1 ++ k' :: ks2) cs).
Proof.
  intros. open_node. rewrite length_app in *.
  explode_list ks1; explode_list ks2; explode_list cs; by_cases_on_lists;
    (eexists; split; [reflexivity|]; split; [reflexivity|]; unfold node_ok; cbn; simplify_eq/=;
     repeat split; (done || lia || congruence)).
Qed.

Definition bump (n : node) : node := set_num_keys (S (num_keys n)) n.

Ltac run_moved := eexists; split; [reflexivity|]; unfold node_ok, bump; cbn; simplify_eq/=;
  repeat split; (done || lia || congruence).

Lemma take_last_leaf nd par kvs kv nxt :
  node_ok nd (par, SLeaf (kvs ++ [kv]) nxt) →
  key_slot nd (length kvs) = Some (Some kv.1) ∧ ptr_slot nd (length kvs) = Some (rec_ptr kv) ∧
  ∃ nd', (b ← set_key (length kvs) None nd; set_ptr (length kvs) PNull b) = Some nd' ∧
         node_ok (set_num_keys (length kvs) nd') (par, SLeaf kvs nxt).
Proof.
  intros. open_node. rewrite length_app in *. explode_list kvs; by_cases_on_lists;
    (split; [cbn; congruence|]; split; [cbn; congruence|]; run_moved).
Qed.

Lemma push_front_leaf nd par kvs kv nxt :
  node_ok nd (par, SLeaf kvs nxt) → length kvs < 4 →
  ∃ nd', (n ← shift_right 0 0 nd; n ← set_key 0 (Some kv.1) n; set_ptr 0 (rec_ptr kv) n) = Some nd' ∧
         node_ok (bump nd') (par, SLeaf (kv :: kvs) nxt).
Proof. intros. open_node. explode_list kvs; by_cases_on_lists; run_moved. Qed.

Lemma push_back_leaf nd par kvs kv nxt :
  node_ok nd (par, SLeaf kvs nxt) → length kvs < 4 →
  ∃ nd', (n ← set_key (num_keys nd) (Some kv.1) nd; set_ptr (num_keys n) (rec_ptr kv) n) = Some nd' ∧
         node_ok (bump nd') (par, SLeaf (kvs ++ [kv]) nxt).
Proof. intros. open_node. explode_list kvs; by_cases_on_lists; run_moved. Qed.

Definition shift_left (leaf : bool) (bn : nat) (b : node) : option node :=
  b ← for_up bn 0 (λ i b, k ← key_slot b (i + 1); p ← ptr_slot b (i + 1);
                          b ← set_key i k b; set_ptr i p b) b;
  b ← set_key bn None b;
  if leaf then set_ptr bn PNull b else p ← ptr_slot b (bn + 1); set_ptr bn p b.

Lemma pop_front_leaf nd par kv kv1 kvs nxt :
  node_ok nd (par, SLeaf (kv :: kv1 :: kvs) nxt) →
  ∃ nd', shift_left true (S (length kvs)) nd = Some nd' ∧
         node_ok (set_num_keys (S (length kvs)) nd') (par, SLeaf (kv1 :: kvs) nxt).
Proof. intros. open_node. explode_list kvs; by_cases_on_lists; run_moved. Qed.

Lemma pop_back_node nd par ks k cs c :
  node_ok nd (par, SNode (ks ++ [k]) (cs ++ [c])) →
  key_slot nd (length ks) = Some (Some k) ∧ ptr_slot nd (S (length ks)) = Some (PNode c) ∧
  ∃ nd', (b ← set_ptr (num_keys nd) PNull nd; set_key (length ks) None b) = Some nd' ∧
         node_ok (set_num_keys (length ks) nd') (par, SNode ks cs).
Proof.
  intros. open_node. rewrite !length_app in *. explode_list ks; explode_list cs; by_cases_on_lists;
    (split; [cbn; congruence|]; split; [cbn; congruence|]; run_moved).
Qed.

Lemma push_front_node nd par ks k cs c :
  node_ok nd (par, SNode ks cs) → length ks < 4 →
  ∃ nd', (p ← ptr_slot nd (num_keys nd); n ← set_ptr (num_keys nd + 1) p nd;
          n ← shift_right 0 0 n; n ← set_key 0 (Some k) n; set_ptr 0 (PNode c) n) = Some nd' ∧
         node_ok (bump nd') (par, SNode (k :: ks) (c :: cs)).
Proof. intros. open_node. explode_list ks; explode_list cs; by_cases_on_lists; run_moved. Qed.

Lemma push_back_node nd par ks k cs c :
  node_ok nd (par, SNode ks cs) → length ks < 4 →
  ∃ nd', (n ← set_key (num_keys nd) (Some k) nd; set_ptr (num_keys n + 1) (PNode c) n) = Some nd' ∧
         node_ok (bump nd') (par, SNode (ks ++ [k]) (cs ++ [c])).
Proof. intros. open_node. explode_list ks; explode_list cs; by_cases_on_lists; run_moved. Qed.

Lemma pop_front_node nd par k ks c cs :
  node_ok nd (par, SNode (k :: ks) (c :: cs)) →
  ∃ nd', shift_left false (length ks) nd = Some nd' ∧
         node_ok (set_num_keys (length ks) nd') (par, SNode ks cs).
Proof. intros. open_node. explode_list ks; explode_list cs; by_cases_on_lists; run_moved. Qed.
