(* ===== verification/BPlusTreeWp.v ===== *)
(** * A small program logic for the tree's heap

    [wp es m Q]: from any heap that owns the nodes [es], [m] terminates without
    fault, with a result and owned nodes satisfying [Q].  One rule per heap
    access; ownership lists are taken up to permutation. *)
From S2P Require Import Prelude BPlusTree BPlusTreeSpec BPlusTreeLemmas BPlusTreeFind BPlusTreeNode.

Definition ents : Type := list (loc * spec).

Definition wp {A} (es : ents) (m : M heap A) (Q : A → ents → Prop) : Prop :=
  ∀ h, heap_ok h → owns (nodes h) es →
  ∃ a h' es', m h = Ok (a, h') ∧ heap_ok h' ∧ owns (nodes h') es' ∧ Q a es'.

#[export] Instance wp_proper A :
  Proper (Permutation ==> (=) ==> (=) ==> iff) (@wp A).
Proof.
  intros es es' He m ? <- Q ? <-. unfold wp. setoid_rewrite He. done.
Qed.

Lemma wp_perm {A} es es' (m : M heap A) Q : es ≡ₚ es' → wp es' m Q → wp es m Q.
Proof. by intros ->. Qed.

(** Reorder the owned nodes as [es']. *)
Ltac focus es' := apply (wp_perm _ es'); [unfold entries; solve_Permutation|].

Lemma wp_ret {A} es (a : A) (Q : A → ents → Prop) : Q a es → wp es (mret a) Q.
Proof. intros HQ h Hh Ho. exists a, h, es. done. Qed.

Lemma wp_bind {A B} es (m : M heap A) (f : A → M heap B) Q :
  wp es m (λ a es', wp es' (f a) Q) → wp es (m ≫= f) Q.
Proof.
  intros H h Hh Ho. destruct (H h Hh Ho) as (a & h' & es' & Hm & Hh' & Ho' & Hf).
  destruct (Hf h' Hh' Ho') as (b & h'' & es'' & Hb & ?). exists b, h'', es''.
  split; [|done]. by rewrite (bind_Ok _ _ _ _ _ Hm).
Qed.

Lemma wp_assoc {A B C} es (m : M heap A) (f : A → M heap B) (g : B → M heap C) Q :
  wp es (m ≫= λ a, f a ≫= g) Q → wp es ((m ≫= f) ≫= g) Q.
Proof.
  intros H h Hh Ho. destruct (H h Hh Ho) as (a & h' & es' & Hm & ?). exists a, h', es'.
  split; [|done]. revert Hm. unfold mbind, M_bind. by destruct (m h) as [[? ?]|].
Qed.

Lemma wp_tail {A} es (m : M heap A) Q : wp es (m ≫= mret) Q → wp es m Q.
Proof.
  intros H h Hh Ho. destruct (H h Hh Ho) as (a & h' & es' & Hm & ?). exists a, h', es'.
  split; [|done]. revert Hm. unfold mbind, M_bind. by destruct (m h) as [[? ?]|].
Qed.

Lemma wp_mono {A} es (m : M heap A) (Q Q' : A → ents → Prop) :
  wp es m Q → (∀ a es', Q a es' → Q' a es') → wp es m Q'.
Proof.
  intros H HQ h Hh Ho. destruct (H h Hh Ho) as (a & h' & es' & Hm & Hh' & Ho' & Hf).
  exists a, h', es'. auto.
Qed.

(** Facts that follow from ownership may be assumed. *)
Lemma wp_owned {A} es (m : M heap A) Q :
  (∀ h, heap_ok h → owns h.(nodes) es → wp es m Q) → wp es m Q.
Proof. intros H h Hh Ho. by apply (H h Hh Ho h). Qed.

Lemma wp_NoDup {A} es (m : M heap A) Q : (NoDup es.*1 → wp es m Q) → wp es m Q.
Proof. intros H. apply wp_owned. intros h _ [_ Hnd]. auto. Qed.

Lemma wp_pure {A B} es (o : option A) (f : A → M heap B) e a Q :
  o = Some a → wp es (f a) Q → wp es (of_option e o ≫= f) Q.
Proof. intros ->. done. Qed.

(** A computation that only reads the heap. *)
Lemma wp_read {A B} es (m : M heap A) (f : A → M heap B) a Q :
  (∀ h, m h = Ok (a, h)) → wp es (f a) Q → wp es (m ≫= f) Q.
Proof.
  intros Hm Hf. apply wp_bind. intros h Hh Ho. exists a, h, es. rewrite Hm. done.
Qed.

Lemma wp_load {B} l s es (f : node → M heap B) Q :
  (∀ nd, node_ok nd s → wp ((l, s) :: es) (f nd) Q) → wp ((l, s) :: es) (load l ≫= f) Q.
Proof.
  intros H h Hh Ho. destruct (owns_head _ _ _ _ Ho) as (nd & Hnd & Hok).
  rewrite (bind_Ok _ _ _ _ _ (load_ok _ _ _ Hnd)). by apply H.
Qed.

(** As [wp_load], keeping track of the exact node that was read. *)
Lemma wp_load_exact {B} l s es (f : node → M heap B) Q :
  (∀ nd, node_ok nd s → wp ((l, (None, SExact nd)) :: es) (f nd) Q) → wp ((l, s) :: es) (load l ≫= f) Q.
Proof.
  intros H h Hh Ho. destruct (owns_head _ _ _ _ Ho) as (nd & Hnd & Hok).
  rewrite (bind_Ok _ _ _ _ _ (load_ok _ _ _ Hnd)). apply H; [done..|].
  apply owns_cons in Ho as (_ & ? & ?). apply owns_cons. split; [|done]. by exists nd.
Qed.

Lemma update_ok h l f nd nd' :
  nodes h !! l = Some nd → f nd = Some nd' →
  update l f h = Ok (tt, mk_heap (<[l := nd']> (nodes h)) (next_loc h)).
Proof.
  intros H Hf. unfold update. rewrite (bind_Ok _ _ _ _ _ (load_ok _ _ _ H)), Hf. done.
Qed.

Lemma heap_ok_insert h l nd nd' :
  heap_ok h → nodes h !! l = Some nd → heap_ok (mk_heap (<[l := nd']> (nodes h)) (next_loc h)).
Proof.
  intros Hh Hl l' Hl'. simpl in *. rewrite lookup_insert in Hl'. case_decide; [subst|by apply Hh].
  apply Hh. eauto.
Qed.

Lemma wp_update {B} l s s' es (f : node → option node) (k : unit → M heap B) Q :
  (∀ nd, node_ok nd s → ∃ nd', f nd = Some nd' ∧ node_ok nd' s') →
  wp ((l, s') :: es) (k tt) Q → wp ((l, s) :: es) (update l f ≫= k) Q.
Proof.
  intros Hf Hk. apply wp_bind. intros h Hh Ho.
  destruct (owns_head _ _ _ _ Ho) as (nd & Hnd & Hok). destruct (Hf nd Hok) as (nd' & Hfn & Hok').
  eexists tt, _, ((l, s') :: es). split; [by eapply update_ok|].
  split; [by eapply heap_ok_insert|]. split; [by eapply owns_insert|done].
Qed.

Lemma wp_alloc {B} es (k : loc → M heap B) Q :
  (∀ l, wp ((l, (None, SExact (fresh_node false))) :: es) (k l) Q) → wp es (make_new_node ≫= k) Q.
Proof.
  intros H. apply wp_bind. intros h Hh Ho.
  eexists (next_loc h), _, ((next_loc h, (None, SExact (fresh_node false))) :: es).
  split; [reflexivity|]. assert (nodes h !! next_loc h = None) as Hn.
  { destruct (nodes h !! next_loc h) eqn:E; [|done]. specialize (Hh _ (mk_is_Some _ _ E)). lia. }
  split; [|split; [|apply H]].
  - intros l Hl. simpl in *. rewrite lookup_insert in Hl. case_decide; [lia|].
    specialize (Hh _ Hl). lia.
  - by apply owns_fresh.
Qed.

Lemma wp_alloc_leaf {B} es (k : loc → M heap B) Q :
  (∀ l, wp ((l, (None, SExact (fresh_node true))) :: es) (k l) Q) → wp es (make_new_leaf ≫= k) Q.
Proof.
  intros H. apply wp_bind. unfold make_new_leaf. apply wp_alloc. intros l.
  apply (wp_update _ _ (None, SExact (fresh_node true))).
  { intros nd ->. eexists. split; [reflexivity|done]. }
  apply wp_ret. apply H.
Qed.

Lemma wp_destroy {B} l s es (k : unit → M heap B) Q :
  wp es (k tt) Q → wp ((l, s) :: es) (destroy_node l ≫= k) Q.
Proof.
  intros H. apply wp_bind. intros h Hh Ho. destruct (owns_head _ _ _ _ Ho) as (nd & Hnd & _).
  exists tt, (mk_heap (delete l (nodes h)) (next_loc h)), es. split; [|split; [|split; [apply (owns_delete _ _ _ _ Ho)|done]]].
  - unfold destroy_node. rewrite (bind_Ok _ _ _ _ _ (load_ok _ _ _ Hnd)). reflexivity.
  - intros l' Hl'. apply Hh. simpl in Hl'. rewrite lookup_delete in Hl'. case_decide; [by destruct Hl'|done].
Qed.

Lemma wp_copy_key {B} es key (k : string → M heap B) Q :
  fits key → wp es (k key) Q → wp es (copy_key key ≫= k) Q.
Proof.
  intros Hf Hk. eapply wp_read; [|done]. intros h. unfold copy_key.
  rewrite bool_decide_eq_true_2 by done. done.
Qed.

Lemma wp_fuel {B} es (k : nat → M heap B) Q :
  (∀ n, length es + 2 ≤ n → wp es (k n) Q) → wp es (heap_fuel ≫= k) Q.
Proof.
  intros H h Hh Ho. pose proof (owns_size _ _ Ho). rewrite (bind_Ok _ _ _ _ _ (heap_fuel_ok h)).
  apply H; [lia|done..].
Qed.

Lemma for_each_app {W} n1 : ∀ n2 i (body : nat → M W unit) w,
  for_each (n1 + n2) i body w = (for_each n1 i body ≫= λ _, for_each n2 (i + n1) body) w.
Proof.
  induction n1 as [|n1 IH]; intros n2 i body w; simpl.
  { rewrite bind_ret. by rewrite Nat.add_0_r. }
  unfold mbind, M_bind in *. destruct (body i w) as [[[] w']|e]; [|done].
  rewrite IH. by replace (S i + n1) with (i + S n1) by lia.
Qed.

Lemma wp_for_each_app {B} es n1 n2 i body (k : unit → M heap B) Q :
  wp es (for_each n1 i body ≫= λ _, for_each n2 (i + n1) body ≫= k) Q →
  wp es (for_each (n1 + n2) i body ≫= k) Q.
Proof.
  intros H h Hh Ho. destruct (H h Hh Ho) as (a & h' & es' & Hm & ?).
  exists a, h', es'. split; [|done]. revert Hm. unfold mbind, M_bind.
  rewrite for_each_app. unfold mbind, M_bind. by destruct (for_each n1 i body h) as [[? ?]|].
Qed.

(** The loop that makes [b] the parent of the children [cs] in its slots from [i] on. *)
Lemma wp_reparent {B} b q ks addrs nxt rest : ∀ cs p i es (k : unit → M heap B) Q,
  drop i addrs = (addr <$> cs) ++ rest →
  wp (entries_list (Some b) cs nxt ++ (b, (q, SNode ks addrs)) :: es) (k tt) Q →
  wp (entries_list p cs nxt ++ (b, (q, SNode ks addrs)) :: es)
    (for_each (length cs) i (λ i, nn ← load b; child ← child_of nn i;
                                  update child (λ c, Some (set_parent (Some b) c))) ≫= k) Q.
Proof.
  induction cs as [|c cs IH]; intros p i es k Q Hd HQ; [done|].
  cbn [length for_each entries_list] in *. apply wp_assoc. set (n := head_next cs nxt) in *.
  assert (addrs !! i = Some (addr c)) as Hi.
  { rewrite <- (Nat.add_0_r i), <- lookup_drop, Hd. done. }
  focus ((b, (q, SNode ks addrs)) :: (addr c, (p, top n c)) :: below n c ++ entries_list p cs nxt ++ es).
  apply wp_assoc, wp_load. intros nd Hok. apply wp_assoc. eapply wp_read.
  { intros h. eapply child_of_node; [exact Hok|exact Hi]. }
  focus ((addr c, (p, top n c)) :: (b, (q, SNode ks addrs)) :: below n c ++ entries_list p cs nxt ++ es).
  apply (wp_update _ _ (Some b, top n c)).
  { intros nd' Hok'. eexists. split; [reflexivity|]. apply (set_parent_ok _ p); [done|]. by destruct c. }
  focus (entries_list p cs nxt ++ (b, (q, SNode ks addrs)) :: (entries (Some b) n c ++ es)).
  apply IH.
  - replace (S i) with (i + 1) by lia. rewrite <- drop_drop, Hd. done.
  - eapply wp_perm; [|exact HQ]. unfold entries. solve_Permutation.
Qed.
