(* ===== verification/BPlusTreeInsert.v ===== *)
(** * Insertion into the B+ tree

    [B_plus_tree_insert] keeps the tree ordered, balanced and within its
    occupancy bounds, and adds one binding to the represented map. *)
From S2P Require Import Prelude BPlusTree BPlusTreeSpec BPlusTreeLemmas BPlusTreeFind BPlusTreeNode BPlusTreeWp.

Lemma scan_child pn par ks cs1 c cs2 (h : heap) :
  node_ok pn (par, SNode ks (cs1 ++ c :: cs2)) → c ∉ cs1 →
  for_while (num_keys pn) 0 (λ i, q ← ptr_of pn i; mret (bool_decide (q ≠ PNode c))) h
  = Ok (length cs1, h).
Proof.
  intros Hok Hc. pose proof Hok as (_ & _ & _ & _ & -> & _ & Hl & _).
  rewrite length_app in Hl. simpl in Hl.
  assert (length ks = length (take (length ks) (cs1 ++ c :: cs2))) as Hk.
  { rewrite length_take, length_app. simpl. lia. }
  rewrite Hk at 1. rewrite (for_while_find (λ x, bool_decide (PNode x ≠ PNode c))).
  - f_equal. f_equal. rewrite take_app_ge by lia. apply (find_from_prefix _ cs1 _ 0).
    + apply Forall_forall. intros x Hx. apply bool_decide_pack. intros [= ->]. done.
    + replace (length ks - length cs1) with (length cs2) by lia.
      destruct (length cs2); [done|]. intros ? [= <-]. by apply bool_decide_eq_false; intros [].
  - intros j x Hj. simpl. apply lookup_take_Some in Hj as [Hj _].
    by rewrite (bind_Ok _ _ _ _ _ (ptr_of_node _ _ _ _ _ _ h Hok Hj)).
Qed.

Lemma scan_child_wp {B} pn par ks cs1 c cs2 es (k : nat → M heap B) Q :
  node_ok pn (par, SNode ks (cs1 ++ c :: cs2)) → c ∉ cs1 →
  wp es (k (length cs1)) Q →
  wp es (for_while (num_keys pn) 0 (λ i, q ← ptr_of pn i; mret (bool_decide (q ≠ PNode c))) ≫= k) Q.
Proof. intros. eapply wp_read; [intros h; by eapply scan_child|done]. Qed.

Lemma addr_plug C t t' : addr t = addr t' → addr (plug C t) = addr (plug C t').
Proof. revert t t'. induction C as [|F C IH]; [done|]. intros. by apply IH. Qed.

Lemma addrs_entries_list par cs nxt : ∀ c, c ∈ cs → addr c ∈ (entries_list par cs nxt).*1.
Proof.
  induction cs as [|c' cs IH]; intros c Hc; [by apply elem_of_nil in Hc|].
  cbn [entries_list]. rewrite fmap_app, elem_of_app.
  apply elem_of_cons in Hc as [->|Hc]; [left; left|right; auto].
Qed.

Lemma head_next_app cs1 t cs2 nxt : head_next (cs1 ++ t :: cs2) nxt = PNode (first_of cs1 (first_leaf t)).
Proof. by destruct cs1. Qed.

(** Cut a list after its third element. *)
Lemma take_drop_3 {A} (l : list A) : length l = 6 →
  ∃ c0 c1 c2 d0 d1 d2, l = [c0; c1; c2; d0; d1; d2].
Proof. intros. do 7 (destruct l as [|? l]; try done). eauto 10. Qed.

(** ** Propagation to the parents *)
Definition ins_post (C : list frame) (l r : bt) (key : string) (root' : loc) (es' : ents) : Prop :=
  ∃ t', root' = addr t' ∧ es' ≡ₚ entries None PNull t' ∧
    flat t' = cflatL C ++ flat l ++ IS key :: flat r ++ cflatR C ∧
    (∀ n m, wfctx n C m → wfsh false m l → wfsh false m r → ∃ n', wfsh true n' t').

Definition ins_pre (C : list frame) (l r : bt) : ents :=
  entries (par_of C) (PNode (first_leaf r)) l ++ entries (par_of C) (nxt_of C) r ++
  centries C (addr l) (first_leaf l).

Definition ins_spec (fuel : nat) (C : list frame) (l r : bt) (key : string) (root : loc) : Prop :=
  2 * length C + 1 ≤ fuel → Forall fr_ok C → fits key →
  Forall (λ F, Forall fits (fr_ks1 F) ∧ Forall fits (fr_ks2 F)) C →
  root = addr (plug C l) →
  wp (ins_pre C l r) (insert_into_parent fuel root (addr l) (addr r) key) (ins_post C l r key).

Definition is_real (s : shape) : Prop := ∀ n, s ≠ SExact n.
Lemma top_real n t : is_real (top n t).
Proof. by destruct t. Qed.

Lemma wp_set_parent {B} t p p' n es (k : unit → M heap B) Q :
  wp (entries p' n t ++ es) (k tt) Q →
  wp (entries p n t ++ es) (update (addr t) (λ nd, Some (set_parent p' nd)) ≫= k) Q.
Proof.
  intros H. unfold entries in *. apply (wp_update _ _ (p', top n t)); [|done].
  intros nd Hok. eexists. split; [reflexivity|]. apply (set_parent_ok _ p); [done|apply top_real].
Qed.

Lemma ins_new_root fuel l r key root : ins_spec (S fuel) [] l r key root.
Proof.
  intros _ _ Hfit _ ->. unfold ins_pre. cbn [insert_into_parent par_of nxt_of centries].
  unfold entries at 1. apply wp_load. intros nd Hok.
  assert (parent nd = None) as ->.
  { destruct l; destruct Hok as (_ & _ & -> & _); done. }
  apply wp_alloc. intros b. apply wp_copy_key; [done|].
  apply (wp_update _ _ (None, SNode [key] [addr l; addr r])).
  { intros n ->. eexists. split; [reflexivity|]. unfold node_ok. cbn. repeat split; lia. }
  focus (entries None (PNode (first_leaf r)) l ++ (b, (None, SNode [key] [addr l; addr r])) :: entries None PNull r).
  apply (wp_set_parent l None (Some b)).
  focus (entries None PNull r ++ entries (Some b) (PNode (first_leaf r)) l ++ [(b, (None, SNode [key] [addr l; addr r]))]).
  apply (wp_set_parent r None (Some b)). apply wp_ret.
  exists (Nd b [key] [l; r]). split; [done|]. split; [|split].
  - unfold entries. rewrite below_Nd. cbn [entries_list head_next addr top fmap list_fmap]. unfold entries.
    solve_Permutation.
  - simpl. by rewrite !app_nil_r.
  - intros n m <- Hl Hr. exists (S n). simpl. split; [done|]. split; [lia|]. done.
Qed.

(** The hole of a frame is not among the siblings on its left. *)
Lemma hole_not_left F C l r :
  NoDup (ins_pre (F :: C) l r).*1 → addr l ∉ addr <$> fr_cs1 F.
Proof.
  intros Hnd (c & Heq & Hc)%list_elem_of_fmap. unfold ins_pre, entries in Hnd.
  cbn [par_of centries app] in Hnd. rewrite fmap_cons in Hnd. apply NoDup_cons in Hnd as [Hnd _].
  apply Hnd. simpl. rewrite Heq.
  pose proof (addrs_entries_list (Some (fr_addr F)) _ (PNode (first_leaf l)) _ Hc) as Hin.
  solve_elem.
Qed.

Lemma fr_plug_hole F l r key :
  fr_ok F → flat (fr_plug (mk_frame (fr_addr F) (fr_ks1 F) (fr_cs1 F) (key :: fr_ks2 F) (r :: fr_cs2 F)) l)
  = flatL (fr_ks1 F) (fr_cs1 F) ++ flat l ++ IS key :: flat r ++ flatR (fr_ks2 F) (fr_cs2 F).
Proof.
  intros [H1 H2]. rewrite flat_fr_plug by (split; simpl; lia). reflexivity.
Qed.

(** The common entry of [insert_into_parent] when [left] has a parent. *)
Lemma ins_enter fuel F C l r key root Q :
  fr_ok F → fits key → NoDup (ins_pre (F :: C) l r).*1 →
  (length (fr_ks1 F) + length (fr_ks2 F) < 4 → wp (ins_pre (F :: C) l r)
     (_ ← update (fr_addr F) (node_insert (length (fr_cs1 F)) key (addr r)); mret root) Q) →
  (4 ≤ length (fr_ks1 F) + length (fr_ks2 F) → wp (ins_pre (F :: C) l r)
     (insert_into_node_after_splitting fuel root (fr_addr F) (addr r) (length (fr_cs1 F)) key) Q) →
  wp (ins_pre (F :: C) l r) (insert_into_parent (S fuel) root (addr l) (addr r) key) Q.
Proof.
  intros HF Hfit Hnd. pose proof (hole_not_left _ _ _ _ Hnd) as Hl.
  unfold ins_pre. cbn [insert_into_parent par_of nxt_of centries]. intros Hroom Hfull.
  set (a := fr_addr F) in *.
  set (rest := below (PNode (first_leaf r)) l ++ entries (Some a) (head_next (fr_cs2 F) (nxt_of C)) r ++
      entries_list (Some a) (fr_cs1 F) (PNode (first_leaf l)) ++
      entries_list (Some a) (fr_cs2 F) (nxt_of C) ++ centries C a (first_of (fr_cs1 F) (first_leaf l))).
  match goal with |- wp ?es _ _ => set (ES := es) in * end.
  set (ae := (a, (par_of C, SNode (fr_ks1 F ++ fr_ks2 F) ((addr <$> fr_cs1 F) ++ addr l :: (addr <$> fr_cs2 F))))).
  set (le := (addr l, (Some a, top (PNode (first_leaf r)) l))).
  assert (ES ≡ₚ le :: ae :: rest) as Hperm.
  { subst ES. unfold entries, rest. subst le ae a. cbn [par_of head fmap option_fmap option_map].
    unfold entries. solve_Permutation. }
  apply (wp_perm _ _ _ _ Hperm), wp_load. intros nd Hok.
  assert (parent nd = Some a) as -> by (destruct l; destruct Hok as (_ & _ & -> & _); done).
  focus (ae :: le :: rest). apply wp_load. intros pn Hpn. eapply scan_child_wp; [exact Hpn|done|].
  rewrite length_fmap. pose proof Hpn as (_ & _ & _ & _ & -> & _). rewrite length_app.
  apply (wp_perm _ ES); [rewrite Hperm; apply perm_swap|].
  case_decide as Hd; unfold MAX_KEY_NUM in Hd; [|apply Hfull; lia].
  apply wp_copy_key; [done|]. apply Hroom. lia.
Qed.

Lemma ins_room fuel F C l r key root :
  length (fr_ks1 F) + length (fr_ks2 F) < 4 → ins_spec (S fuel) (F :: C) l r key root.
Proof.
  intros Hroom _ [HF HC]%Forall_cons Hfit _ ->. pose proof HF as [HF1 HF2].
  apply wp_NoDup. intros Hnd. apply ins_enter; [done..| |lia]. intros _.
  unfold ins_pre. cbn [par_of nxt_of centries]. set (a := fr_addr F). set (par := par_of C).
  set (sh := SNode (fr_ks1 F ++ fr_ks2 F) ((addr <$> fr_cs1 F) ++ addr l :: (addr <$> fr_cs2 F))).
  set (rest := below (PNode (first_leaf r)) l ++ entries (Some a) (head_next (fr_cs2 F) (nxt_of C)) r ++
      entries_list (Some a) (fr_cs1 F) (PNode (first_leaf l)) ++
      entries_list (Some a) (fr_cs2 F) (nxt_of C) ++ centries C a (first_of (fr_cs1 F) (first_leaf l))).
  focus ((a, (par, sh)) :: (addr l, (Some a, top (PNode (first_leaf r)) l)) :: rest).
  set (F' := mk_frame a (fr_ks1 F) (fr_cs1 F) (key :: fr_ks2 F) (r :: fr_cs2 F)).
  apply (wp_update _ _ (par, SNode (fr_ks1 F' ++ fr_ks2 F')
                               ((addr <$> fr_cs1 F') ++ addr l :: (addr <$> fr_cs2 F')))).
  { intros n Hn. destruct (node_insert_ok n _ _ _ (length (fr_cs1 F)) key (addr r) Hn) as (n' & Hrun & Hok');
      [rewrite length_app; lia..|]. exists n'. split; [exact Hrun|]. revert Hok'. simpl.
    rewrite take_mid, drop_mid by (by rewrite length_fmap).
    rewrite <- HF1, take_app_length, drop_app_length. norm_app. done. }
  apply wp_ret. exists (plug C (fr_plug F' l)). split; [by apply (addr_plug C)|]. split; [|split].
  - rewrite entries_plug, entries_fr_plug, first_leaf_plug. unfold entries, rest.
    cbn [fr_addr fr_ks1 fr_cs1 fr_ks2 fr_cs2 F' addr fr_plug entries_list head_next fmap list_fmap].
    unfold entries. fold a par. solve_Permutation.
  - subst F' a. rewrite flat_plug, fr_plug_hole by done. simpl. norm_app. done.
  - intros n m (_ & Hb & Hc1 & Hc2 & Hctx) Hwl Hwr. exists n.
    apply (wfsh_plug C n (S m)); [done|]. apply wfsh_Nd. exists m. simpl.
    rewrite !length_app. simpl. split; [done|]. split; [lia|]. split.
    { destruct C; simpl; lia. }
    apply Forall_app. split; [done|]. by repeat constructor.
Qed.

Lemma list_of_length_5 {A} (l : list A) : length l = 5 → ∃ a b c d e, l = [a; b; c; d; e].
Proof. intros. do 6 (destruct l as [|? l]; try done). eauto 10. Qed.

(** The six children and five keys of an over-full internal node. *)
Definition over_ks (F : frame) (key : string) : list string := fr_ks1 F ++ key :: fr_ks2 F.
Definition over_cs (F : frame) (l r : bt) : list bt := fr_cs1 F ++ l :: r :: fr_cs2 F.

Lemma over_flat F l r key a : fr_ok F →
  flat (Nd a (over_ks F key) (over_cs F l r)) =
  flatL (fr_ks1 F) (fr_cs1 F) ++ flat l ++ IS key :: flat r ++ flatR (fr_ks2 F) (fr_cs2 F).
Proof.
  intros [H1 H2]. unfold over_ks, over_cs. rewrite flat_Nd_hole by (simpl; lia). reflexivity.
Qed.

Lemma over_split F key l r :
  fr_ok F → let i := length (fr_cs1 F) in
  let addrs := (addr <$> fr_cs1 F) ++ addr l :: (addr <$> fr_cs2 F) in
  take i (fr_ks1 F ++ fr_ks2 F) ++ key :: drop i (fr_ks1 F ++ fr_ks2 F) = over_ks F key ∧
  take (S i) addrs ++ addr r :: drop (S i) addrs = addr <$> over_cs F l r.
Proof.
  intros [H1 H2]. simpl. rewrite take_mid, drop_mid by (by rewrite length_fmap).
  unfold over_ks, over_cs. rewrite <- H1, take_app_length, drop_app_length, fmap_app. norm_app. done.
Qed.

Lemma ins_split_call fuel F C l r key root k0 k1 k2 k3 k4 c0 c1 c2 c3 c4 c5 :
  fr_ok F → fits key →
  over_ks F key = [k0; k1; k2; k3; k4] → over_cs F l r = [c0; c1; c2; c3; c4; c5] →
  (∀ b, wp (ins_pre C (Nd (fr_addr F) [k0; k1] [c0; c1; c2]) (Nd b [k3; k4] [c3; c4; c5]))
           (insert_into_parent fuel root (fr_addr F) b k2) (ins_post (F :: C) l r key)) →
  wp (ins_pre (F :: C) l r)
     (insert_into_node_after_splitting (S fuel) root (fr_addr F) (addr r) (length (fr_cs1 F)) key)
     (ins_post (F :: C) l r key).
Proof.
  intros HF Hfit Hks Hcs IH. destruct (over_split F key l r HF) as [Htk Htc].
  cbn [insert_into_node_after_splitting]. unfold ins_pre. cbn [par_of nxt_of centries].
  set (a := fr_addr F) in *. set (par := par_of C) in *.
  set (addrs := (addr <$> fr_cs1 F) ++ addr l :: (addr <$> fr_cs2 F)) in *.
  set (ctx := centries C a (first_of (fr_cs1 F) (first_leaf l))).
  assert (length (fr_ks1 F ++ fr_ks2 F) = 4 ∧ length (fr_cs1 F) ≤ 4) as [Hfour Hi].
  { apply (f_equal length) in Hks. unfold over_ks in Hks. rewrite length_app in *.
    destruct HF. simpl in Hks. lia. }
  apply (wp_perm _ ((a, (par, SNode (fr_ks1 F ++ fr_ks2 F) addrs)) ::
                    entries_list (Some a) (over_cs F l r) (nxt_of C) ++ ctx)).
  { unfold over_cs. rewrite entries_list_app. cbn [entries_list head_next].
    subst ctx a. cbn [fmap option_fmap option_map head]. solve_Permutation. }
  rewrite Hcs. apply wp_load_exact. intros nd Hok.
  destruct (node_split_ok nd _ _ _ (length (fr_cs1 F)) key (addr r) Hok Hfour Hi)
    as (tps & tks & sep & Hps & Hkk & Hsep & Hsep' & Hn1 & Hn2).
  pose proof Hcs as Hcs0. rewrite Hks in Htk. rewrite Hcs in Htc. rewrite Htk, Htc in *. simpl in Hsep'. injection Hsep' as <-.
  eapply wp_pure; [exact Hps|]. apply wp_copy_key; [done|]. eapply wp_pure; [exact Hkk|].
  cbv zeta. rewrite (decide_False (P := ((MAX_KEY_NUM + 1) mod 2 = 0)%nat)) by done.
  change ((MAX_KEY_NUM + 1) / 2 + 1) with 3. cbn [Nat.sub].
  apply (wp_update _ _ (par, SNode [k0; k1] [addr c0; addr c1; addr c2])).
  { intros n ->. exact Hn1. }
  eapply wp_pure; [exact Hsep|]. apply wp_alloc. intros b.
  focus ((a, (par, SNode [k0; k1] [addr c0; addr c1; addr c2])) ::
         (b, (None, SExact (fresh_node false))) ::
         entries_list (Some a) [c0; c1; c2; c3; c4; c5] (nxt_of C) ++ ctx).
  apply wp_load. intros nd1 Hok1. assert (parent nd1 = par) as -> by (by destruct Hok1 as (_ & _ & -> & _)).
  focus ((b, (None, SExact (fresh_node false))) ::
         (a, (par, SNode [k0; k1] [addr c0; addr c1; addr c2])) ::
         entries_list (Some a) [c0; c1; c2; c3; c4; c5] (nxt_of C) ++ ctx).
  apply (wp_update _ _ (par, SNode [k3; k4] [addr c3; addr c4; addr c5])).
  { intros n ->. exact (Hn2 par). }
  rewrite (entries_list_app _ [c0; c1; c2] [c3; c4; c5]).
  focus (entries_list (Some a) [c3; c4; c5] (nxt_of C) ++
         (b, (par, SNode [k3; k4] [addr c3; addr c4; addr c5])) ::
         (a, (par, SNode [k0; k1] [addr c0; addr c1; addr c2])) ::
         entries_list (Some a) [c0; c1; c2] (head_next [c3; c4; c5] (nxt_of C)) ++ ctx).
  apply (wp_reparent b par [k3; k4] [addr c3; addr c4; addr c5] (nxt_of C) [] [c3; c4; c5]); [done|].
  eapply wp_perm; [|exact (IH b)]. unfold ins_pre. unfold entries. rewrite !below_Nd.
  assert (first_leaf (Nd a [k0; k1] [c0; c1; c2]) = first_of (fr_cs1 F) (first_leaf l)) as ->.
  { simpl. unfold over_cs in Hcs. destruct (fr_cs1 F); injection Hcs as <- _; done. }
  cbn [addr top fmap list_fmap]. fold ctx par.
  change (head_next [c3; c4; c5] (nxt_of C)) with (PNode (first_leaf c3)).
  change (first_leaf (Nd b [k3; k4] [c3; c4; c5])) with (first_leaf c3). solve_Permutation.
Qed.

Lemma ins_full fuel F C l r key root :
  length (fr_ks1 F) + length (fr_ks2 F) = 4 →
  (∀ l' r' k', ins_spec fuel C l' r' k' root) →
  ins_spec (S (S fuel)) (F :: C) l r key root.
Proof.
  intros Hfull IH Hfuel [HF HC]%Forall_cons Hfit [[Hf1 Hf2] HfC]%Forall_cons ->. pose proof HF as [HF1 HF2].
  destruct (list_of_length_5 (over_ks F key)) as (k0 & k1 & k2 & k3 & k4 & Hks).
  { unfold over_ks. rewrite length_app. simpl. lia. }
  destruct (take_drop_3 (over_cs F l r)) as (c0 & c1 & c2 & c3 & c4 & c5 & Hcs).
  { unfold over_cs. rewrite length_app. simpl. lia. }
  assert (fits k2) as Hfk.
  { assert (Forall fits (over_ks F key)) as Hall by (apply Forall_app_2; [done|by constructor]).
    rewrite Hks in Hall. do 3 apply Forall_cons in Hall as [? Hall]. done. }
  apply wp_NoDup. intros Hnd. pose proof (hole_not_left _ _ _ _ Hnd) as Hl.
  assert (wp (ins_pre (F :: C) l r)
            (insert_into_node_after_splitting (S fuel) (addr (plug (F :: C) l)) (fr_addr F) (addr r)
               (length (fr_cs1 F)) key) (ins_post (F :: C) l r key)) as Hcall.
  { eapply ins_split_call; [done|done|exact Hks|exact Hcs|]. intros b.
    eapply wp_mono; [apply IH|]; [simpl in Hfuel; lia|done|done|done|exact (addr_plug C (fr_plug F l) (Nd (fr_addr F) [k0; k1] [c0; c1; c2]) eq_refl)|].
    intros root' es' (t' & -> & Hes & Hflat & Hsh). exists t'. split; [done|]. split; [done|]. split.
    - rewrite Hflat. pose proof (over_flat F l r key (fr_addr F) HF) as Hover.
      rewrite Hks, Hcs in Hover. simpl. rewrite <- (app_assoc (cflatL C)). f_equal.
      simpl in Hover. transitivity ((flatL (fr_ks1 F) (fr_cs1 F) ++ flat l ++ IS key :: flat r ++
        flatR (fr_ks2 F) (fr_cs2 F)) ++ cflatR C); [|by norm_app].
      rewrite <- Hover. norm_app. done.
    - intros n m (_ & _ & Hc1 & Hc2 & Hctx) Hwl Hwr. apply (Hsh n (S m)); [done|..].
      all: assert (Forall (wfsh false m) (over_cs F l r)) as Hall
             by (apply Forall_app_2; [done|]; by repeat (constructor; [done|])).
      all: rewrite Hcs in Hall; repeat (apply Forall_cons in Hall as [? Hall]).
      all: apply wfsh_Nd; exists m; repeat split; simpl; try lia; by repeat constructor. }
  apply ins_enter; [done..|lia|]. intros _. exact Hcall.
Qed.

Lemma ins_frame_bound h F C l r :
  owns h (ins_pre (F :: C) l r) → length (fr_ks1 F) + length (fr_ks2 F) ≤ 4.
Proof.
  intros Ho. unfold ins_pre in Ho. cbn [centries] in Ho.
  apply owns_app in Ho as (_ & (_ & Ho & _)%owns_app & _).
  apply owns_head in Ho as (nd & _ & _ & _ & _ & _ & _ & Hle & _). by rewrite length_app in Hle.
Qed.

Lemma ins_parent_ok C : ∀ fuel l r key root, ins_spec fuel C l r key root.
Proof.
  induction C as [|F C IH]; intros fuel l r key root.
  - destruct fuel; [intros ?; simpl in *; lia|]. apply ins_new_root.
  - intros Hfuel HC Hfit HfC Hroot. destruct fuel as [|[|fuel]]; [simpl in Hfuel; lia..|].
    apply wp_owned. intros h _ Ho%ins_frame_bound.
    destruct (decide (length (fr_ks1 F) + length (fr_ks2 F) = 4)).
    + apply ins_full; [done| |done..]. intros. subst root. apply IH.
    + apply ins_room; [lia|done..].
Qed.

(** ** At the leaf *)
Definition items (kvs : list (string * file_id)) : list item := (λ kv, IK kv.1 kv.2) <$> kvs.

Definition leaf_post (C : list frame) (kvs : list (string * file_id)) (root' : loc) (es' : ents) : Prop :=
  ∃ t' mid, root' = addr t' ∧ es' ≡ₚ entries None PNull t' ∧
    flat t' = cflatL C ++ mid ++ cflatR C ∧
    (mid = items kvs ∨
     ∃ k1 k v k2, kvs = k1 ++ (k, v) :: k2 ∧ k1 ≠ [] ∧ mid = items k1 ++ IS k :: items ((k, v) :: k2)) ∧
    (∀ n, wfctx n C 0 → (if is_root C then 1 else 2) ≤ length kvs → ∃ n', wfsh true n' t').

Lemma entries_leaf par nxt a kvs : entries par nxt (Lf a kvs) = [(a, (par, SLeaf kvs nxt))].
Proof. done. Qed.

Lemma leaf_room C a kvs i key f root :
  Forall fr_ok C → length kvs < 4 → i ≤ length kvs → root = addr (plug C (Lf a kvs)) →
  wp (entries None PNull (plug C (Lf a kvs)))
     (_ ← update a (leaf_insert i key (new_record f)); mret (Some root))
     (λ o es', ∃ r', o = Some r' ∧ leaf_post C (take i kvs ++ (key, f) :: drop i kvs) r' es').
Proof.
  intros HC Hlen Hi ->. rewrite entries_plug, entries_leaf. cbn [addr first_leaf app].
  eapply wp_update.
  { intros nd Hok. destruct (leaf_insert_ok nd _ _ _ i key f Hok Hlen Hi) as (nd' & Hrun & Hok').
    exists nd'. split; [exact Hrun|exact Hok']. }
  apply wp_ret. eexists; split; [done|]. set (kvs' := take i kvs ++ (key, f) :: drop i kvs).
  exists (plug C (Lf a kvs')), (items kvs'). split; [by apply addr_plug|]. split.
  { by rewrite entries_plug. }
  split; [by rewrite flat_plug|]. split; [by left|]. intros n Hc Hb. exists n.
  apply (wfsh_plug C n 0); [done|]. simpl. split; [done|].
  unfold kvs'. rewrite length_app. simpl. rewrite length_take, length_drop. lia.
Qed.

Lemma leaf_full C a kvs i key f root :
  Forall fr_ok C → Forall (λ F, Forall fits (fr_ks1 F) ∧ Forall fits (fr_ks2 F)) C →
  Forall (fits ∘ fst) kvs → fits key →
  length kvs = 4 → i ≤ 4 → root = addr (plug C (Lf a kvs)) →
  wp (entries None PNull (plug C (Lf a kvs)))
     (insert_into_leaf_after_splitting root a i key (new_record f))
     (λ r' es', leaf_post C (take i kvs ++ (key, f) :: drop i kvs) r' es').
Proof.
  intros HC HfC Hfk Hfit Hlen Hi Hroot. rewrite entries_plug, entries_leaf. cbn [addr first_leaf app].
  unfold insert_into_leaf_after_splitting. apply wp_load_exact. intros nd Hok.
  destruct (leaf_split_ok nd _ _ _ i key f Hok Hlen Hi) as (tps & tks & Hps & Hks & Hn1 & Hn2).
  set (kvs' := take i kvs ++ (key, f) :: drop i kvs) in *.
  assert (length kvs' = 5) as Hlen'.
  { unfold kvs'. rewrite length_app. simpl. rewrite length_take, length_drop. lia. }
  assert (Forall (fits ∘ fst) kvs') as Hfk'.
  { apply Forall_app_2; [by apply Forall_take|]. constructor; [done|by apply Forall_drop]. }
  destruct (list_of_length_5 kvs' Hlen') as (e0 & e1 & [k v] & e3 & e4 & Heq). rewrite Heq in *.
  apply wp_copy_key; [done|]. eapply wp_pure; [exact Hps|]. eapply wp_pure; [exact Hks|]. cbv zeta.
  apply (wp_update _ _ (par_of C, SLeaf [e0; e1] (nxt_of C))); [by intros n ->|].
  apply wp_alloc_leaf. intros b.
  focus ((a, (par_of C, SLeaf [e0; e1] (nxt_of C))) :: (b, (None, SExact (fresh_node true))) :: centries C a a).
  apply wp_load. intros nd1 Hok1.
  eapply wp_read. { intros h. unfold ptr_of, ptr_slot.
    destruct Hok1 as (_ & _ & _ & _ & _ & _ & _ & _ & Hnext). simpl in Hnext.
    change MAX_KEY_NUM with 4. rewrite Hnext. reflexivity. }
  assert (parent nd1 = par_of C) as -> by (by destruct Hok1 as (_ & _ & -> & _)).
  focus ((b, (None, SExact (fresh_node true))) :: (a, (par_of C, SLeaf [e0; e1] (nxt_of C))) :: centries C a a).
  apply (wp_update _ _ (par_of C, SLeaf [(k, v); e3; e4] (nxt_of C))); [by intros n ->|].
  focus ((a, (par_of C, SLeaf [e0; e1] (nxt_of C))) :: (b, (par_of C, SLeaf [(k, v); e3; e4] (nxt_of C))) :: centries C a a).
  apply (wp_update _ _ (par_of C, SLeaf [e0; e1] (PNode b))); [intros n; apply set_next_ok|].
  focus ((b, (par_of C, SLeaf [(k, v); e3; e4] (nxt_of C))) :: (a, (par_of C, SLeaf [e0; e1] (PNode b))) :: centries C a a).
  apply wp_load. intros nd2 Hok2. eapply wp_read.
  { intros h. by apply (key_of_leaf nd2 _ _ _ 0 (k, v) h Hok2). }
  apply wp_fuel. intros fuel Hfuel. simpl in Hfuel.
  apply (wp_perm _ (ins_pre C (Lf a [e0; e1]) (Lf b [(k, v); e3; e4]))).
  { unfold ins_pre. rewrite !entries_leaf. simpl. solve_Permutation. }
  eapply wp_mono; [eapply (ins_parent_ok C)|].
  - pose proof (centries_length C a a). lia.
  - done.
  - by do 3 apply Forall_cons in Hfk' as [? Hfk'].
  - done.
  - subst root. by apply addr_plug.
  - intros r' es' (t' & -> & Hes & Hflat & Hsh).
    exists t', (items [e0; e1] ++ IS k :: items [(k, v); e3; e4]). split; [done|]. split; [done|].
    split; [rewrite Hflat; simpl; by norm_app|].
    split. { right. exists [e0; e1], k, v, [e3; e4]. done. }
    intros n Hc _. apply (Hsh n 0); [done|simpl; lia..].
Qed.

(** ** Order after the insertion *)
Lemma before_lt_key key f x : item_before key x → item_lt x (IK key f).
Proof. by destruct x. Qed.
Lemma after_lt_key key f x : item_after key x → item_lt (IK key f) x.
Proof. by destruct x as [a g|a]; unfold item_after. Qed.

Lemma sorted_insert l1 l2 key f :
  StronglySorted item_lt (l1 ++ l2) → Forall (item_before key) l1 → Forall (item_after key) l2 →
  StronglySorted item_lt (l1 ++ IK key f :: l2).
Proof.
  intros (H1 & H2 & H12)%sorted_app_inv Hb Ha. rewrite Forall_forall in *. apply sorted_app; [done| |].
  - constructor; [done|]. apply Forall_forall. intros x Hx. apply after_lt_key. auto.
  - intros x y Hx [->|Hy]%elem_of_cons; [apply before_lt_key; auto|auto].
Qed.

(** A separator may be put before the key it copies, when another key precedes. *)
Lemma sorted_separator l1 a g k v l2 :
  StronglySorted item_lt ((l1 ++ [IK a g]) ++ IK k v :: l2) →
  StronglySorted item_lt ((l1 ++ [IK a g]) ++ IS k :: IK k v :: l2).
Proof.
  intros (H1 & H2 & H12)%sorted_app_inv. pose proof H1 as (_ & _ & H1a)%sorted_app_inv.
  assert (str_lt a k) as Hak.
  { apply (H12 (IK a g) (IK k v)); [apply elem_of_app; right|]; left. }
  apply sorted_app; [done| |].
  - constructor; [done|]. apply StronglySorted_inv in H2 as [_ H2]. constructor.
    + simpl. apply irreflexivity, _.
    + eapply Forall_impl; [exact H2|]. intros [b h|b]; simpl; [|done].
      intros Hkb Hbk. apply (irreflexivity str_lt k). by etrans.
  - intros x y Hx [->|Hy]%elem_of_cons; [|by apply H12].
    apply elem_of_app in Hx as [Hx|[->|[]%elem_of_nil]%elem_of_cons]; [|done].
    specialize (H1a x (IK a g) Hx ltac:(left)). destruct x as [b h|b]; simpl in *; [by etrans|].
    apply str_not_lt in H1a as [<-|H1a]; [done|]. by etrans.
Qed.

Lemma leaf_post_sorted C kvs kvs1 key f kvs2 mid :
  kvs = kvs1 ++ (key, f) :: kvs2 →
  StronglySorted item_lt (cflatL C ++ items (kvs1 ++ kvs2) ++ cflatR C) →
  Forall (item_before key) (cflatL C ++ items kvs1) → Forall (item_after key) (items kvs2 ++ cflatR C) →
  (mid = items kvs ∨
   ∃ k1 k v k2, kvs = k1 ++ (k, v) :: k2 ∧ k1 ≠ [] ∧ mid = items k1 ++ IS k :: items ((k, v) :: k2)) →
  StronglySorted item_lt (cflatL C ++ mid ++ cflatR C).
Proof.
  intros -> Hs Hb Ha Hmid.
  assert (StronglySorted item_lt (cflatL C ++ items (kvs1 ++ (key, f) :: kvs2) ++ cflatR C)) as Hs'.
  { unfold items in *. rewrite fmap_app, ?fmap_cons in *. rewrite <- app_assoc, app_assoc in *.
    rewrite <- app_comm_cons. by apply sorted_insert. }
  destruct Hmid as [->|(k1 & k & v & k2 & Heq & Hne & ->)]; [done|].
  destruct k1 as [|[b g] k1 _] using rev_ind; [done|]. rewrite Heq in Hs'.
  unfold items in *. rewrite !fmap_app in *. simpl in *. rewrite <- !app_assoc in *. simpl in *.
  rewrite app_assoc, (cons_middle (IK b g)), app_assoc in Hs'.
  rewrite app_assoc, (cons_middle (IK b g)), app_assoc. by apply sorted_separator.
Qed.

(** ** Key lengths *)
Lemma flatL_fits ks : ∀ cs, length ks = length cs →
  Forall (fits ∘ item_key) (flatL ks cs) → Forall fits ks.
Proof.
  induction ks as [|k ks IH]; intros [|c cs] Hl H; try done. unfold flatL in H. simpl in H.
  apply Forall_app in H as [[_ H]%Forall_app H']. apply Forall_cons in H as [H _].
  constructor; [done|]. apply (IH cs); [by injection Hl|done].
Qed.
Lemma flatR_fits ks : ∀ cs, length ks = length cs →
  Forall (fits ∘ item_key) (flatR ks cs) → Forall fits ks.
Proof.
  induction ks as [|k ks IH]; intros [|c cs] Hl H; try done. unfold flatR in H. simpl in H.
  apply Forall_cons in H as [H H']. apply Forall_app in H' as [_ H'].
  constructor; [done|]. apply (IH cs); [by injection Hl|done].
Qed.
Lemma frames_fits C : Forall fr_ok C →
  Forall (fits ∘ item_key) (cflatL C) → Forall (fits ∘ item_key) (cflatR C) →
  Forall (λ F, Forall fits (fr_ks1 F) ∧ Forall fits (fr_ks2 F)) C.
Proof.
  induction C as [|F C IH]; intros HC HL HR; [done|]. simpl in *.
  apply Forall_cons in HC as [[H1 H2] HC]. apply Forall_app in HL as [HL1 HL2], HR as [HR1 HR2].
  constructor; [|auto]. split; [by eapply flatL_fits|by eapply flatR_fits].
Qed.
Lemma items_fits kvs : Forall (fits ∘ item_key) (items kvs) ↔ Forall (fits ∘ fst) kvs.
Proof. unfold items. rewrite Forall_fmap. done. Qed.

(** ** The scan for the insertion point *)
Definition key_less (key : string) (kv : string * file_id) : bool := bool_decide (strcmp kv.1 key < 0)%Z.

Lemma insert_scan_ok nd par kvs nxt key h : node_ok nd (par, SLeaf kvs nxt) → ∀ l2 l1 cond,
  kvs = l1 ++ l2 →
  ∃ c, insert_scan (length l2) (length l1) nd key cond h
       = Ok ((find_from (key_less key) (length l1) l2, c), h) ∧
  match drop (find_from (key_less key) (length l1) l2) kvs with
  | kv :: _ => c = strcmp kv.1 key
  | [] => l2 = [] ∧ c = cond ∨ c < 0
  end%Z.
Proof.
  intros Hok. induction l2 as [|kv l2 IH]; intros l1 cond ->; simpl.
  { rewrite app_nil_r, drop_all. exists cond. auto. }
  rewrite (bind_Ok _ _ _ kv.1 h) by (eapply key_of_leaf; [exact Hok|by apply list_lookup_middle]).
  unfold key_less at 1 3. destruct (decide (strcmp kv.1 key < 0)%Z) as [Hlt|Hge].
  - rewrite bool_decide_eq_true_2 by done.
    destruct (IH (l1 ++ [kv]) (strcmp kv.1 key)) as (c & Hrun & Hc); [by rewrite <- app_assoc|].
    rewrite length_app in *. simpl in *. rewrite Nat.add_1_r in *. exists c. split; [exact Hrun|].
    destruct (drop _ _); [|done]. right. destruct Hc as [[_ ->]|?]; lia.
  - rewrite bool_decide_eq_false_2 by done. exists (strcmp kv.1 key). split; [done|].
    by rewrite drop_app_length.
Qed.

(** What the scan tells about the position of a new key in a sorted leaf. *)
Lemma scan_position key (kvs : list (string * file_id)) :
  StronglySorted item_lt (items kvs) →
  let i := find_from (key_less key) 0 kvs in
  i ≤ length kvs ∧ Forall (item_before key) (items (take i kvs)) ∧
  match drop i kvs with
  | kv :: _ => (strcmp kv.1 key ≠ 0)%Z → Forall (item_after key) (items (drop i kvs))
  | [] => True
  end.
Proof.
  intros Hs. destruct (find_from_split (key_less key) kvs 0) as (l1 & l2 & -> & Hi & H1 & H2).
  simpl. rewrite Hi. simpl. rewrite take_app_length, drop_app_length, length_app. split; [lia|]. split.
  - unfold items. rewrite Forall_fmap. eapply Forall_impl; [exact H1|].
    intros kv H%bool_decide_unpack. by apply strcmp_lt.
  - destruct l2 as [|kv l2]; [done|]. intros Hne. specialize (H2 _ eq_refl).
    unfold key_less in H2. apply bool_decide_eq_false in H2.
    assert (str_lt key kv.1) as Hlt by (apply strcmp_gt; lia).
    unfold items in *. rewrite fmap_app in Hs. apply sorted_app_inv in Hs as (_ & Hs & _).
    rewrite fmap_cons in *. apply StronglySorted_inv in Hs as [_ Hs]. constructor; [done|].
    eapply Forall_impl; [exact Hs|]. unfold item_after. intros [b g|b]; simpl; intros ?; by etrans.
Qed.

Lemma bindings_insert C kvs1 key f kvs2 mid (m : gmap string file_id) t' :
  (mid = items (kvs1 ++ (key, f) :: kvs2) ∨
   ∃ k1 k v k2, kvs1 ++ (key, f) :: kvs2 = k1 ++ (k, v) :: k2 ∧ k1 ≠ [] ∧
     mid = items k1 ++ IS k :: items ((k, v) :: k2)) →
  flat t' = cflatL C ++ mid ++ cflatR C → ordered t' →
  m = list_to_map (kvs_of (cflatL C) ++ (kvs1 ++ kvs2) ++ kvs_of (cflatR C)) →
  to_map t' = <[key := f]> m.
Proof.
  intros Hmid Hflat Hord ->. pose proof (sorted_NoDup _ Hord) as Hnd.
  unfold to_map, bindings. rewrite Hflat in *. rewrite !kvs_of_app in *.
  assert (kvs_of mid = kvs1 ++ (key, f) :: kvs2) as Hk.
  { destruct Hmid as [->|(k1 & k & v & k2 & -> & _ & ->)]; [apply kvs_of_leaf|].
    rewrite kvs_of_app. cbn. unfold items. by rewrite !kvs_of_leaf. }
  rewrite Hk in *. rewrite (list_to_map_proper _ ((key, f) :: kvs_of (cflatL C) ++ (kvs1 ++ kvs2) ++ kvs_of (cflatR C)));
    [done|exact Hnd|solve_Permutation].
Qed.

(** ** The whole operation *)

(** From the leaf's postcondition to the tree's invariant. *)
Lemma leaf_post_inv C kvs1 key f kvs2 n r' h' es' (m : gmap string file_id) :
  Forall fr_ok C → wfctx n C 0 → (if is_root C then 0 else 2) ≤ length (kvs1 ++ kvs2) →
  StronglySorted item_lt (cflatL C ++ items (kvs1 ++ kvs2) ++ cflatR C) →
  Forall (item_before key) (cflatL C ++ items kvs1) → Forall (item_after key) (items kvs2 ++ cflatR C) →
  Forall (fits ∘ item_key) (cflatL C ++ items (kvs1 ++ kvs2) ++ cflatR C) → fits key →
  m = list_to_map (kvs_of (cflatL C) ++ (kvs1 ++ kvs2) ++ kvs_of (cflatR C)) →
  heap_ok h' → owns (nodes h') es' → leaf_post C (kvs1 ++ (key, f) :: kvs2) r' es' →
  ∃ t', r' = addr t' ∧ tree_inv h' t' ∧ to_map t' = <[key := f]> m.
Proof.
  intros HC Hctx Hocc Hs Hb Ha Hfits Hfit Hm Hh Ho (t' & mid & -> & Hes & Hflat & Hmid & Hsh).
  exists t'. split; [done|].
  assert (ordered t') as Hord.
  { unfold ordered. rewrite Hflat. by eapply leaf_post_sorted. }
  split; [|by eapply bindings_insert]. constructor.
  - split; [done|]. by rewrite Hes in Ho.
  - done.
  - rewrite Hflat. rewrite !Forall_app in *. destruct Hfits as (? & Hk & ?). split; [done|]. split; [|done].
    assert (Forall (fits ∘ fst) (kvs1 ++ (key, f) :: kvs2)) as Hall.
    { apply items_fits in Hk. apply Forall_app in Hk as [??]. apply Forall_app_2; [done|by constructor]. }
    destruct Hmid as [->|(k1 & k & v & k2 & Heq & _ & ->)]; [by apply items_fits|].
    rewrite Heq in Hall. apply Forall_app in Hall as [Hk1 Hk2]. apply Forall_app_2; [by apply items_fits|].
    constructor; [by apply Forall_cons in Hk2 as [? _]|by apply items_fits].
  - apply (Hsh n Hctx). rewrite length_app in *. simpl. destruct (is_root C); lia.
Qed.

(** Running [B_plus_tree_insert] once its leaf is known, for a key that is not there. *)
Lemma insert_at_leaf h C a kvs key f n cond0 :
  heap_ok h → owns (nodes h) (entries None PNull (plug C (Lf a kvs))) →
  find_leaf (Some (addr (plug C (Lf a kvs)))) key h = Ok (Some a, h) →
  Forall fr_ok C → wfctx n C 0 → (if is_root C then 0 else 2) ≤ length kvs →
  StronglySorted item_lt (cflatL C ++ items kvs ++ cflatR C) →
  Forall (item_before key) (cflatL C) → Forall (item_after key) (cflatR C) →
  Forall (fits ∘ item_key) (cflatL C ++ items kvs ++ cflatR C) → fits key →
  (list_to_map kvs : gmap string file_id) !! key = None → (kvs = [] → cond0 ≠ 0%Z) →
  ∃ t' h', B_plus_tree_insert cond0 (Some (addr (plug C (Lf a kvs)))) key f h = Ok (Some (addr t'), h') ∧
    tree_inv h' t' ∧
    to_map t' = <[key := f]> (list_to_map (kvs_of (cflatL C) ++ kvs ++ kvs_of (cflatR C))).
Proof.
  intros Hh Ho Hfind HC Hctx Hocc Hs Hb Ha Hfits Hfit Hnone Hcond.
  pose proof Ho as Ho1. rewrite entries_plug in Ho1. apply owns_head in Ho1 as (nd & Hnd & Hok).
  pose proof Hs as (_ & (Hsk & _ & _)%sorted_app_inv & _)%sorted_app_inv.
  destruct (insert_scan_ok nd _ kvs _ key h Hok kvs [] cond0 eq_refl) as (c & Hscan & Hc). simpl in Hscan, Hc.
  destruct (scan_position key kvs Hsk) as (Hi & Hbk & Hak). set (i := find_from (key_less key) 0 kvs) in *.
  assert (c ≠ 0%Z ∧ Forall (item_after key) (items (drop i kvs))) as [Hc0 Hak'].
  { destruct (drop i kvs) as [|kv l] eqn:Hd.
    - split; [|done]. destruct Hc as [[Hnil ->]|?]; [auto|lia].
    - assert (c ≠ 0%Z); [|split; [done|apply Hak; congruence]].
      intros ->. symmetry in Hc. apply strcmp_eq in Hc. apply not_elem_of_list_to_map_2 in Hnone.
      apply Hnone. rewrite <- (take_drop i kvs), Hd, fmap_app, fmap_cons, Hc. apply elem_of_app. right. left. }
  rewrite <- (take_drop i kvs) in Hs, Hfits, Hocc.
  assert (Forall (item_before key) (cflatL C ++ items (take i kvs))) as HB by by apply Forall_app_2.
  assert (Forall (item_after key) (items (drop i kvs) ++ cflatR C)) as HA by by apply Forall_app_2.
  assert (list_to_map (kvs_of (cflatL C) ++ kvs ++ kvs_of (cflatR C)) =@{gmap string file_id}
          list_to_map (kvs_of (cflatL C) ++ (take i kvs ++ drop i kvs) ++ kvs_of (cflatR C))) as ->
    by by rewrite take_drop.
  unfold B_plus_tree_insert. rewrite (bind_Ok _ _ _ _ _ Hfind), (bind_Ok _ _ _ _ _ (load_ok _ _ _ Hnd)).
  pose proof Hok as (_ & _ & _ & _ & Hnk & Hle & _). rewrite Hnk, (bind_Ok _ _ _ _ _ Hscan).
  rewrite decide_False by done. unfold MAX_KEY_NUM.
  pose proof Hfits as [HfL [Hfk HfR]%Forall_app]%Forall_app.
  case_decide as Hroom.
  - assert (copy_key key h = Ok (key, h)) as Hck.
    { unfold copy_key. by rewrite bool_decide_eq_true_2. }
    rewrite (bind_Ok _ _ _ _ _ Hck).
    destruct (leaf_room C a kvs i key f _ HC Hroom Hi eq_refl h Hh Ho)
      as (o & h' & es' & Hrun & Hh' & Ho' & r' & -> & Hpost).
    destruct (leaf_post_inv C (take i kvs) key f (drop i kvs) n r' h' es' _ HC Hctx Hocc Hs HB HA Hfits
      Hfit eq_refl Hh' Ho' Hpost) as (t' & -> & ? & ?).
    exists t', h'. split; [exact Hrun|done].
  - rewrite take_drop in Hfk. apply items_fits in Hfk.
    assert (length kvs = 4) as Hfour by lia. assert (i ≤ 4) as Hi4 by lia.
    destruct (leaf_full C a kvs i key f _ HC (frames_fits C HC HfL HfR) Hfk Hfit Hfour Hi4 eq_refl h Hh Ho)
      as (r' & h' & es' & Hrun & Hh' & Ho' & Hpost).
    destruct (leaf_post_inv C (take i kvs) key f (drop i kvs) n r' h' es' _ HC Hctx Hocc Hs HB HA Hfits
      Hfit eq_refl Hh' Ho' Hpost) as (t' & -> & ? & ?).
    exists t', h'. split; [|done]. rewrite (bind_Ok _ _ _ _ _ Hrun). done.
Qed.

Lemma insert_tree h cond0 t key f :
  tree_inv h t → fits key → to_map t !! key = None →
  ∃ t' h', B_plus_tree_insert cond0 (Some (addr t)) key f h = Ok (Some (addr t'), h') ∧
    tree_inv h' t' ∧ to_map t' = <[key := f]> (to_map t).
Proof.
  intros Hinv Hfit Hnone. destruct (find_leaf_ok h t key Hinv) as (C & a & kvs & Hl & Hfind).
  pose proof Hinv as [[Hh Ho] Hord Hfits [n Hshape]].
  pose proof (to_map_leaf_of _ _ _ _ _ Hl) as Hmap. rewrite Hnone in Hmap.
  unfold to_map. rewrite (bindings_leaf_of _ _ _ _ _ Hl). destruct Hl as (-> & HC & Hb & Ha).
  unfold ordered in Hord. rewrite flat_plug in Hord, Hfits by done. fold (items kvs) in *.
  destruct (wfsh_unplug C n _ HC Hshape) as ([|m] & Hctx & Hocc); [|done]. simpl in Hocc.
  apply (insert_at_leaf h C a kvs key f n cond0); try done; [destruct (is_root C); lia|].
  intros ->. simpl in Hocc. destruct (is_root C); lia.
Qed.

(** A key that is already bound: the root is returned and nothing changes. *)
Lemma insert_duplicate h cond0 t key f g :
  tree_inv h t → to_map t !! key = Some g →
  B_plus_tree_insert cond0 (Some (addr t)) key f h = Ok (Some (addr t), h).
Proof.
  intros Hinv Hsome. destruct (find_leaf_ok h t key Hinv) as (C & a & kvs & Hl & Hfind).
  destruct (leaf_node h t key C a kvs (inv_at _ _ Hinv) Hl) as (nd & Hnd & Hok).
  rewrite (to_map_leaf_of _ _ _ _ _ Hl) in Hsome.
  destruct Hinv as [[Hh Ho] Hord _ _]. destruct Hl as (-> & HC & _ & _).
  unfold ordered in Hord. rewrite flat_plug in Hord by done.
  apply sorted_app_inv in Hord as (_ & (Hsk & _ & _)%sorted_app_inv & _).
  destruct (insert_scan_ok nd _ kvs _ key h Hok kvs [] cond0 eq_refl) as (c & Hscan & Hc). simpl in Hscan, Hc.
  destruct (scan_position key kvs Hsk) as (Hi & Hbk & Hak). set (i := find_from (key_less key) 0 kvs) in *.
  assert (c = 0%Z) as ->.
  { apply elem_of_list_to_map_2 in Hsome. rewrite <- (take_drop i kvs) in Hsome.
    apply elem_of_app in Hsome as [Hin|Hin].
    - exfalso. rewrite Forall_forall in Hbk. apply (irreflexivity str_lt key).
      apply (Hbk (IK key g)). by apply (list_elem_of_fmap_2 (λ kv, IK kv.1 kv.2) _ (key, g)).
    - destruct (drop i kvs) as [|kv l]; [by apply elem_of_nil in Hin|].
      destruct (decide (strcmp kv.1 key = 0)%Z) as [Heq|Hne]; [by rewrite Hc|]. specialize (Hak Hne).
      exfalso. rewrite Forall_forall in Hak. apply (irreflexivity str_lt key).
      apply (Hak (IK key g)). by apply (list_elem_of_fmap_2 (λ kv, IK kv.1 kv.2) _ (key, g)). }
  unfold B_plus_tree_insert. rewrite (bind_Ok _ _ _ _ _ Hfind), (bind_Ok _ _ _ _ _ (load_ok _ _ _ Hnd)).
  pose proof Hok as (_ & _ & _ & _ & -> & _). by rewrite (bind_Ok _ _ _ _ _ Hscan).
Qed.

(** Insertion into NULL. *)
Lemma insert_null h cond0 key f :
  heap_ok h → fits key →
  ∃ t' h', B_plus_tree_insert cond0 None key f h = Ok (Some (addr t'), h') ∧
    tree_inv h' t' ∧ to_map t' = {[key := f]}.
Proof.
  intros Hh Hfit.
  assert (wp [] (B_plus_tree_insert cond0 None key f)
    (λ o es', ∃ a, o = Some a ∧ es' = [(a, (None, SLeaf [(key, f)] PNull))])) as Hwp.
  { unfold B_plus_tree_insert. eapply wp_read; [done|]. apply wp_alloc_leaf. intros a.
    apply wp_copy_key; [done|]. apply (wp_update _ _ (None, SLeaf [(key, f)] PNull)).
    - intros nd ->. eexists. split; [reflexivity|]. unfold node_ok. cbn. repeat split; lia.
    - apply wp_ret. eauto. }
  destruct (Hwp h Hh (owns_nil _)) as (o & h' & es' & Hrun & Hh' & Ho' & a & -> & ->).
  exists (Lf a [(key, f)]), h'. split; [done|]. split; [|apply insert_empty].
  constructor; [done| | |].
  - unfold ordered. simpl. by repeat constructor.
  - simpl. constructor; [exact Hfit|done].
  - exists 0. simpl. lia.
Qed.

(** Insertion into any tree the file system can hold. *)
Lemma insert_rep h cond0 root m key f :
  tree_rep h root m → fits key → m !! key = None → (m = ∅ → root = None ∨ cond0 ≠ 0%Z) →
  ∃ root' h', B_plus_tree_insert cond0 root key f h = Ok (root', h') ∧ tree_rep h' root' (<[key := f]> m).
Proof.
  intros Hrep Hfit Hnone Hcond. destruct root as [r|]; simpl in Hrep.
  - destruct Hrep as [(t & <- & Hinv & <-)|([Hh Ho] & _ & ->)].
    + destruct (insert_tree h cond0 t key f Hinv Hfit Hnone) as (t' & h' & Hrun & Hinv' & Hm).
      exists (Some (addr t')), h'. split; [done|]. left. eauto.
    + destruct (insert_at_leaf h [] r [] key f 0 cond0) as (t' & h' & Hrun & Hinv' & Hm);
        try done; [by apply (find_leaf_single h r [])|simpl; constructor|destruct (Hcond eq_refl); [done|auto]|].
      exists (Some (addr t')), h'. split; [done|]. left. eauto.
  - destruct Hrep as [Hh ->]. destruct (insert_null h cond0 key f Hh Hfit) as (t' & h' & Hrun & Hinv' & Hm).
    exists (Some (addr t')), h'. split; [done|]. left. eauto.
Qed.
