(* ===== verification/BPlusTreeRemove.v ===== *)
(** * Removal from the B+ tree

    [B_plus_tree_remove] takes one binding out of the represented map and
    restores the occupancy bounds by merging or redistributing siblings up to
    the root. *)
From S2P Require Import Prelude BPlusTree BPlusTreeSpec BPlusTreeLemmas BPlusTreeFind.
From S2P Require Import BPlusTreeNode BPlusTreeWp BPlusTreeInsert.

(** ** Siblings *)

(** A node that may be one entry short of its lower bound. *)
Definition low (root : bool) (n : nat) (t : bt) : Prop :=
  match t, n with
  | Lf _ kvs, 0 => (if root then 0 else 1) ≤ length kvs ≤ 4
  | Nd _ ks cs, S m => length cs = S (length ks) ∧ (if root then 0 else 1) ≤ length ks ≤ 4 ∧
                       Forall (wfsh false m) cs
  | _, _ => False
  end.

Definition width (t : bt) : nat := match t with Lf _ kvs => length kvs | Nd _ ks _ => length ks end.

Lemma wfsh_low n t : wfsh false n t ↔ low false n t ∧ 2 ≤ width t.
Proof.
  destruct t as [a kvs|a ks cs].
  - destruct n; simpl; split; (lia || tauto).
  - rewrite wfsh_Nd. destruct n as [|n]; simpl; split.
    + intros (m & ? & _). lia.
    + intros [[] _].
    + intros (m & [= <-] & ? & ? & ?). repeat split; (done || lia).
    + intros [(? & ? & ?) ?]. exists n. repeat split; (done || lia).
Qed.

Lemma low_wfsh root n t : low root n t → (if root then 1 else 2) ≤ width t → wfsh root n t.
Proof.
  destruct t as [a kvs|a ks cs].
  - destruct n; simpl; [|done]. destruct root; simpl; lia.
  - rewrite wfsh_Nd. destruct n as [|n]; simpl; [done|]. intros (? & ? & ?) ?. exists n.
    repeat split; (done || lia).
Qed.

Lemma wfsh_root n t : wfsh false n t → wfsh true n t.
Proof. intros [Hl Hw]%wfsh_low. apply low_wfsh; [|lia]. destruct t, n; simpl in *; naive_solver lia. Qed.

(** Two neighbouring children [x], [y] of a node, separated by [sep]; the frame
    [G] holds the other children. *)
Definition pair_tree (G : frame) (sep : string) (x y : bt) : bt :=
  Nd (fr_addr G) (fr_ks1 G ++ sep :: fr_ks2 G) (fr_cs1 G ++ x :: y :: fr_cs2 G).

Definition pair_shape (G : frame) (sep : string) (ax ay : loc) : shape :=
  SNode (fr_ks1 G ++ sep :: fr_ks2 G) ((addr <$> fr_cs1 G) ++ ax :: ay :: (addr <$> fr_cs2 G)).

(** What surrounds the two siblings and their parent. *)
Definition pair_rest (C : list frame) (G : frame) (fx : loc) : ents :=
  entries_list (Some (fr_addr G)) (fr_cs1 G) (PNode fx) ++
  entries_list (Some (fr_addr G)) (fr_cs2 G) (nxt_of C) ++
  centries C (fr_addr G) (first_of (fr_cs1 G) fx).

Definition pair_ents (C : list frame) (G : frame) (sep : string) (x y : bt) : ents :=
  entries (Some (fr_addr G)) (PNode (first_leaf y)) x ++
  entries (Some (fr_addr G)) (head_next (fr_cs2 G) (nxt_of C)) y ++
  (fr_addr G, (par_of C, pair_shape G sep (addr x) (addr y))) :: pair_rest C G (first_leaf x).

Lemma entries_pair C G sep x y :
  entries None PNull (plug C (pair_tree G sep x y)) ≡ₚ pair_ents C G sep x y.
Proof.
  rewrite entries_plug. unfold pair_ents, pair_rest, pair_shape, entries at 1. unfold pair_tree.
  rewrite below_Nd, entries_list_app. cbn [addr top head_next entries_list].
  rewrite fmap_app, !fmap_cons.
  assert (first_leaf (Nd (fr_addr G) (fr_ks1 G ++ sep :: fr_ks2 G) (fr_cs1 G ++ x :: y :: fr_cs2 G))
          = first_of (fr_cs1 G) (first_leaf x)) as -> by (by destruct (fr_cs1 G)).
  solve_Permutation.
Qed.

Lemma flat_pair G sep x y : fr_ok G →
  flat (pair_tree G sep x y) =
  flatL (fr_ks1 G) (fr_cs1 G) ++ (flat x ++ IS sep :: flat y) ++ flatR (fr_ks2 G) (fr_cs2 G).
Proof.
  intros [H1 H2]. unfold pair_tree. rewrite flat_Nd_hole by (simpl; lia). norm_app. done.
Qed.

(** The separator between two internal siblings is itself an item in place. *)
Lemma flat_merge a b c kx cx sep ky cy :
  length cx = S (length kx) → length cy = S (length ky) →
  flat (Nd a kx cx) ++ IS sep :: flat (Nd b ky cy) = flat (Nd c (kx ++ sep :: ky) (cx ++ cy)).
Proof.
  intros Hx Hy. destruct cx as [|cl cx _] using rev_ind; [done|]. destruct cy as [|d cy]; [done|].
  rewrite length_app in Hx. simpl in Hx, Hy.
  assert (flat (Nd a kx (cx ++ [cl])) = flatL kx cx ++ flat cl) as ->.
  { pose proof (flat_Nd_hole a kx cx [] [] cl) as H. rewrite app_nil_r in H.
    rewrite H by (simpl; lia). unfold flatR. simpl. by rewrite app_nil_r. }
  rewrite (flat_Nd b) by lia. rewrite <- (app_assoc cx). simpl (_ ++ d :: cy).
  rewrite flat_Nd_hole by (simpl; lia). unfold flatR at 2. simpl. norm_app. done.
Qed.

Definition merge (sep : string) (x y : bt) : bt :=
  match x, y with
  | Lf a kx, Lf _ ky => Lf a (kx ++ ky)
  | Nd a kx cx, Nd _ ky cy => Nd a (kx ++ sep :: ky) (cx ++ cy)
  | _, _ => x
  end.

Lemma sorted_drop l1 x l2 :
  StronglySorted item_lt (l1 ++ x :: l2) → StronglySorted item_lt (l1 ++ l2).
Proof.
  intros (H1 & H2 & H12)%sorted_app_inv. apply StronglySorted_inv in H2 as [H2 _].
  apply sorted_app; [done..|]. intros. apply H12; [done|by right].
Qed.

(** ** What removal leaves behind *)

(** A tree with the bindings [bs], or nothing at all. *)
Definition removed (bs : list (string * file_id)) (o : option loc) (es' : ents) : Prop :=
  match o with
  | None => es' = [] ∧ bs = []
  | Some r => ∃ t', r = addr t' ∧ es' ≡ₚ entries None PNull t' ∧ ordered t' ∧ bindings t' = bs ∧
                    Forall (fits ∘ item_key) (flat t') ∧ ∃ n, wfsh true n t'
  end.

Definition del_pre (C : list frame) (s : shape) (t1 : bt) : ents :=
  (addr t1, (par_of C, s)) :: below (nxt_of C) t1 ++ centries C (addr t1) (first_leaf t1).

(** [t1] is what removing entry [index] leaves of a node of shape [s]. *)
Record del_state (C : list frame) (s : shape) (index : nat) (t1 : bt) (root : loc) (n m : nat) : Prop := {
  ds_remove : ∀ nd, node_ok nd (par_of C, s) →
    ∃ nd', remove_entry index nd = Some nd' ∧ node_ok nd' (par_of C, top (nxt_of C) t1);
  ds_frames : Forall fr_ok C;
  ds_root : root = addr (plug C t1);
  ds_ctx : wfctx n C m;
  ds_low : low (is_root C) m t1;
  ds_ord : ordered (plug C t1);
  ds_fits : Forall (fits ∘ item_key) (flat (plug C t1))
}.

Definition del_spec (fuel : nat) (C : list frame) : Prop := ∀ s index t1 root n m,
  2 * length C + 1 ≤ fuel → del_state C s index t1 root n m →
  wp (del_pre C s t1) (delete_entry fuel root (addr t1) index) (removed (bindings (plug C t1))).

(** ** At the root *)
Lemma leaf_or_node_flags nd par n t : node_ok nd (par, top n t) →
  num_keys nd = width t ∧ is_leaf nd = (if t is Lf _ _ then true else false) ∧ parent nd = par.
Proof. destruct t; intros (? & ? & ? & ? & ? & _); repeat split; done. Qed.

Lemma del_root fuel : del_spec (S fuel) [].
Proof.
  intros s index t1 root n m _ [Hrem _ -> Hctx Hlow Hord Hfits]. simpl in *. subst m.
  unfold del_pre. cbn [par_of nxt_of centries head fmap option_fmap option_map] in *. cbn [delete_entry].
  apply (wp_update _ _ (None, top PNull t1)); [exact Hrem|]. rewrite decide_True by done.
  unfold adjust_root. apply wp_load. intros nd Hok.
  destruct (leaf_or_node_flags _ _ _ _ Hok) as (-> & -> & _).
  destruct (decide (0 < width t1)) as [Hw|Hw].
  - apply wp_ret. exists t1. split; [done|]. split; [by rewrite app_nil_r|].
    split; [done|]. split; [done|]. split; [done|]. exists n. apply low_wfsh; [done|lia].
  - destruct t1 as [a [|kv kvs]|a [|k ks] cs]; simpl in Hw; try lia.
    + apply wp_read with (a := None); [done|]. apply wp_destroy, wp_ret. split; done.
    + destruct n as [|n]; [done|]. destruct Hlow as (Hl & _ & Hcs). destruct cs as [|c [|]]; try done.
      apply Forall_cons in Hcs as [Hcs _].
      apply wp_assoc. eapply wp_read.
      { intros h. eapply child_of_node; [exact Hok|done]. }
      rewrite app_nil_r, below_Nd. cbn [entries_list head_next]. rewrite app_nil_r.
      focus (entries (Some a) PNull c ++ [(a, (None, top PNull (Nd a [] [c])))]).
      apply wp_assoc. apply (wp_set_parent c (Some a) None).
      focus ((a, (None, top PNull (Nd a [] [c]))) :: entries None PNull c).
      eapply wp_read with (a := Some (addr c)); [done|]. apply wp_destroy, wp_ret.
      exists c. split; [done|]. split; [done|].
      unfold ordered, bindings in *. simpl in Hord, Hfits. rewrite app_nil_r in Hord, Hfits.
      split; [done|]. split; [simpl; by rewrite app_nil_r|]. split; [done|].
      exists n. by apply wfsh_root.
Qed.

(** ** Merging two siblings *)
Lemma merge_addr sep x y : addr (merge sep x y) = addr x.
Proof. by destruct x, y. Qed.
Lemma merge_first sep x y : (∀ a k c, x = Nd a k c → c ≠ []) → first_leaf (merge sep x y) = first_leaf x.
Proof. destruct x as [|a k [|c cs]], y; try done. intros H. by destruct (H a k []). Qed.

(** The node operation of [coalesce_nodes], on two siblings of one kind. *)
Lemma merge_nodes {B} G sep q x y nxt R (k : loc → M heap B) Q m :
  low false m x → low false m y → width x + width y ≤ (if x is Lf _ _ then 4 else 3) → fits sep →
  let sh := pair_shape G sep (addr x) (addr y) in
  fr_ok G →
  (wp (entries (Some (fr_addr G)) nxt (merge sep x y) ++ (fr_addr G, (q, sh)) :: R)
      (k (fr_addr G)) Q) →
  wp (entries (Some (fr_addr G)) (PNode (first_leaf y)) x ++ entries (Some (fr_addr G)) nxt y ++
      (fr_addr G, (q, sh)) :: R)
    (n ← load (addr y);
     parent_loc ← of_option NullDeref (parent n);
     _ ← (if is_leaf n then update (addr x) (append_leaf n)
          else
            pn ← load parent_loc;
            k ← key_of pn (S (length (fr_cs1 G)) - 1);
            sep ← copy_key k;
            _ ← update (addr x) (append_internal sep n);
            b ← load (addr x);
            for_each (S (num_keys b)) 0 (λ i,
              b ← load (addr x); tmp ← child_of b i;
              update tmp (λ t, Some (set_parent (Some (addr x)) t))));
     _ ← destroy_node (addr y); k parent_loc) Q.
Proof.
  intros Hx Hy Hw Hfit sh HG Hk. set (a := fr_addr G) in *.
  focus ((addr y, (Some a, top nxt y)) :: (addr x, (Some a, top (PNode (first_leaf y)) x)) ::
         below (PNode (first_leaf y)) x ++ below nxt y ++ (a, (q, sh)) :: R).
  apply wp_load. intros nd Hok. destruct (leaf_or_node_flags _ _ _ _ Hok) as (_ & -> & ->).
  apply wp_pure with (a := a); [done|].
  destruct x as [ax kx|ax kx cx], y as [ay ky|ay ky cy]; try (destruct m; simpl in *; done).
  - cbn [addr first_leaf top below app width] in *.
    focus ((ax, (Some a, SLeaf kx (PNode ay))) :: (ay, (Some a, SLeaf ky nxt)) :: (a, (q, sh)) :: R).
    apply (wp_update _ _ (Some a, SLeaf (kx ++ ky) nxt)).
    { intros b Hb. by apply (append_leaf_ok nd b _ _ _ _ _ _ Hok Hb). }
    focus ((ay, (Some a, SLeaf ky nxt)) :: (ax, (Some a, SLeaf (kx ++ ky) nxt)) :: (a, (q, sh)) :: R).
    apply wp_destroy. exact Hk.
  - destruct m as [|m]; [done|]. destruct Hx as (Hlx & _ & _), Hy as (Hly & _ & _).
    destruct cy as [|d cy]; [simpl in Hly; lia|]. change (first_leaf (Nd ay ky (d :: cy))) with (first_leaf d).
    rewrite !below_Nd. cbn [addr top width] in *.
    set (fd := first_leaf d) in *.
    set (ex := (ax, (Some a, SNode kx (addr <$> cx)))). set (ey := (ay, (Some a, SNode ky (addr <$> d :: cy)))).
    focus ((a, (q, sh)) :: ex :: ey :: entries_list (Some ax) cx (PNode fd) ++ entries_list (Some ay) (d :: cy) nxt ++ R).
    apply wp_assoc, wp_load. intros pn Hpn. apply wp_assoc. eapply wp_read.
    { intros h. eapply key_of_node; [exact Hpn|]. destruct HG as [HG1 _]. simpl.
      rewrite Nat.sub_0_r, <- HG1. by apply list_lookup_middle. }
    apply wp_assoc, wp_copy_key; [done|].
    focus (ex :: ey :: (a, (q, sh)) :: entries_list (Some ax) cx (PNode fd) ++ entries_list (Some ay) (d :: cy) nxt ++ R).
    apply wp_assoc, (wp_update _ _ (Some a, SNode (kx ++ sep :: ky) (addr <$> (cx ++ d :: cy)))).
    { intros b Hb. rewrite fmap_app. apply (append_internal_ok nd b sep _ _ _ _ _ _ Hok Hb). lia. }
    apply wp_assoc, wp_load. intros b Hb. assert (num_keys b = length (kx ++ sep :: ky)) as -> by apply Hb.
    set (E := (ax, (Some a, SNode (kx ++ sep :: ky) (addr <$> (cx ++ d :: cy))))).
    replace (S (length (kx ++ sep :: ky))) with (length cx + length (d :: cy))
      by (rewrite length_app; simpl in *; lia).
    apply wp_for_each_app.
    focus (entries_list (Some ax) cx (PNode fd) ++ E :: ey :: (a, (q, sh)) :: entries_list (Some ay) (d :: cy) nxt ++ R).
    apply (wp_reparent ax (Some a) _ _ (PNode fd) (addr <$> d :: cy) cx (Some ax) 0); [by rewrite drop_0, fmap_app|].
    focus (entries_list (Some ay) (d :: cy) nxt ++ E :: ey :: (a, (q, sh)) :: entries_list (Some ax) cx (PNode fd) ++ R).
    apply (wp_reparent ax (Some a) _ _ nxt [] (d :: cy) (Some ay)).
    { rewrite fmap_app, drop_app_length' by (by rewrite length_fmap). by rewrite app_nil_r. }
    focus (ey :: E :: entries_list (Some ax) (d :: cy) nxt ++ (a, (q, sh)) :: entries_list (Some ax) cx (PNode fd) ++ R).
    apply wp_destroy. eapply wp_perm; [|exact Hk]. unfold entries. cbn [merge]. rewrite below_Nd, entries_list_app.
    cbn [addr top head_next]. fold fd. subst E. solve_Permutation.
Qed.

(** Two siblings of a live tree, one of which may be one entry short. *)
Record pair_state (C : list frame) (G : frame) (sep : string) (x y : bt) (root : loc) (n m : nat) : Prop := {
  ps_frames : Forall fr_ok C;
  ps_frame : fr_ok G;
  ps_root : root = addr (plug C (pair_tree G sep x y));
  ps_ctx : wfctx n C (S m);
  ps_width : (if is_root C then 1 else 2) ≤ S (length (fr_ks1 G) + length (fr_ks2 G)) ≤ 4;
  ps_cs1 : Forall (wfsh false m) (fr_cs1 G);
  ps_cs2 : Forall (wfsh false m) (fr_cs2 G);
  ps_x : low false m x;
  ps_y : low false m y;
  ps_ord : ordered (plug C (pair_tree G sep x y));
  ps_fits : Forall (fits ∘ item_key) (flat (plug C (pair_tree G sep x y)))
}.

Lemma flat_merged m sep x y :
  low false m x → low false m y →
  flat x ++ IS sep :: flat y = flat (merge sep x y) ∨
  flat (merge sep x y) = flat x ++ flat y.
Proof.
  destruct x as [a kx|a kx cx], y as [b ky|b ky cy]; try (destruct m; simpl; done).
  - intros _ _. right. simpl. by rewrite fmap_app.
  - destruct m as [|m]; [done|]. intros (Hx & _) (Hy & _). left. by apply flat_merge.
Qed.

Definition merged_tree (G : frame) (sep : string) (x y : bt) : bt :=
  fr_plug G (merge sep x y).

(** Merging keeps the bindings, the order and the key lengths. *)
Lemma merged_items C G sep x y m :
  Forall fr_ok C → fr_ok G → low false m x → low false m y →
  let T := plug C (pair_tree G sep x y) in let T' := plug C (merged_tree G sep x y) in
  bindings T' = bindings T ∧ (ordered T → ordered T') ∧
  (Forall (fits ∘ item_key) (flat T) → Forall (fits ∘ item_key) (flat T')).
Proof.
  intros HC HG Hx Hy T T'. subst T T'. unfold bindings, ordered, merged_tree.
  rewrite !flat_plug, flat_pair, flat_fr_plug by done.
  destruct (flat_merged m sep x y Hx Hy) as [-> | ->]; [done|].
  set (L := cflatL C). set (R := cflatR C).
  set (L1 := flatL (fr_ks1 G) (fr_cs1 G)). set (R1 := flatR (fr_ks2 G) (fr_cs2 G)).
  split; [|split].
  - rewrite !kvs_of_app. cbn. norm_app. done.
  - rewrite <- !app_assoc. simpl. rewrite !(app_assoc L), !(app_assoc _ (flat x)). apply sorted_drop.
  - rewrite !Forall_app, Forall_cons. tauto.
Qed.

Lemma low_merge m sep x y :
  low false m x → low false m y → 3 ≤ width x + width y →
  width x + width y ≤ (if x is Lf _ _ then 4 else 3) → wfsh false m (merge sep x y).
Proof.
  destruct x as [a kx|a kx cx], y as [b ky|b ky cy]; try (destruct m; simpl; done).
  - destruct m; simpl; [|done]. rewrite length_app. lia.
  - destruct m as [|m]; [done|]. cbn [low merge width]. intros (Hx & _ & Hcx) (Hy & _ & Hcy) ? ?.
    apply wfsh_Nd. exists m. rewrite !length_app. simpl. repeat split; try lia. by apply Forall_app.
Qed.

Lemma pair_sep_fits C G sep x y :
  Forall fr_ok C → fr_ok G →
  Forall (fits ∘ item_key) (flat (plug C (pair_tree G sep x y))) → fits sep.
Proof.
  intros HC HG. rewrite flat_plug, flat_pair by done. rewrite !Forall_app, Forall_cons. naive_solver.
Qed.

Lemma coalesce_ok fuel C G sep x y root n m :
  del_spec fuel C → 2 * length C + 1 ≤ fuel → pair_state C G sep x y root n m →
  3 ≤ width x + width y ≤ (if x is Lf _ _ then 4 else 3) →
  wp (pair_ents C G sep x y)
     (coalesce_nodes (S fuel) root (addr y) (addr x) (S (length (fr_cs1 G))))
     (removed (bindings (plug C (pair_tree G sep x y)))).
Proof.
  intros IH Hfuel [HC HG Hroot Hctx Hwid Hc1 Hc2 Hx Hy Hord Hfits] Hw.
  cbn [coalesce_nodes]. rewrite decide_False by lia.
  destruct (merged_items C G sep x y m HC HG Hx Hy) as (<- & Hord' & Hfits').
  unfold pair_ents. apply (merge_nodes G sep _ x y _ _ (λ p, delete_entry fuel root p (S (length (fr_cs1 G)))) _ m); try done; [lia|by eapply pair_sep_fits|].
  set (sh := pair_shape G sep (addr x) (addr y)). set (t1 := merged_tree G sep x y).
  assert (first_leaf (merge sep x y) = first_leaf x) as Hfl.
  { apply merge_first. intros a k c ->. destruct m; [done|]. destruct Hx as (Hl & _). by destruct c. }
  eapply wp_perm; [|apply (IH sh (S (length (fr_cs1 G))) t1 root n (S m)); [done|]].
  - subst t1. unfold del_pre, merged_tree. cbn [addr fr_plug].
    change (Nd (fr_addr G) (fr_ks1 G ++ fr_ks2 G) (fr_cs1 G ++ merge sep x y :: fr_cs2 G))
      with (fr_plug G (merge sep x y)).
    rewrite first_leaf_plug, Hfl. unfold fr_plug. rewrite below_Nd, entries_list_app. cbn [head_next entries_list].
    rewrite Hfl. unfold pair_rest. solve_Permutation.
  - constructor; try done.
    + intros nd Hok. destruct (remove_node_ok nd _ _ _ (length (fr_ks1 G)) Hok) as (nd' & Hrun & Hok').
      { rewrite length_app. simpl. lia. }
      destruct HG as [HG1 HG2]. rewrite HG1 in Hrun. exists nd'. split; [exact Hrun|]. revert Hok'.
      subst t1. unfold merged_tree, fr_plug. cbn [top]. rewrite fmap_app, fmap_cons, merge_addr.
      rewrite take_app_length, drop_mid by done.
      rewrite (cons_middle (addr x)), app_assoc, take_app_length', drop_mid, <- app_assoc
        by (rewrite ?length_app, length_fmap; simpl; lia). done.
    + rewrite Hroot. by apply addr_plug.
    + simpl. rewrite !length_app. simpl. destruct HG as [HG1 HG2]. split; [lia|].
      split; [destruct (is_root C); lia|]. apply Forall_app. split; [done|].
      constructor; [|done]. apply low_merge; (done || lia).
    + by apply Hord'.
    + by apply Hfits'.
Qed.

(** ** Moving one entry between two siblings *)

(** The end of [distribute_nodes]: both counters are brought up to date. *)
Lemma wp_counters b n nb nn sb sn m es (Q : unit → ents → Prop) :
  node_ok (set_num_keys m nb) sb → node_ok (bump nn) sn →
  Q tt ((n, sn) :: (b, sb) :: es) →
  wp ((b, (None, SExact nb)) :: (n, (None, SExact nn)) :: es)
     (_ ← update b (λ x, Some (set_num_keys m x)); update n (λ x, Some (set_num_keys (S (num_keys x)) x))) Q.
Proof.
  intros Hb Hn HQ. apply (wp_update _ _ sb); [intros nd ->; eauto|].
  focus ((n, (None, SExact nn)) :: (b, sb) :: es). apply wp_tail.
  apply (wp_update _ _ sn); [intros nd ->; eexists; split; [reflexivity|exact Hn]|].
  destruct sn; by apply wp_ret.
Qed.

Lemma wp_exact {B} l (nd nd' : node) (f : node → option node) es (k : unit → M heap B) Q :
  f nd = Some nd' →
  wp ((l, (None, SExact nd')) :: es) (k tt) Q → wp ((l, (None, SExact nd)) :: es) (update l f ≫= k) Q.
Proof. intros Hf Hk. eapply wp_update; [|exact Hk]. intros n ->. by exists nd'. Qed.

Lemma dist_left_leaf n b p q ks1 sep ks2 cs kx kv ky nx ny R :
  length ky < 4 →
  wp ((n, (Some p, SLeaf ky ny)) :: (b, (Some p, SLeaf (kx ++ [kv]) nx)) ::
      (p, (q, SNode (ks1 ++ sep :: ks2) cs)) :: R)
     (distribute_nodes n b (S (length ks1)))
     (λ _ es', es' ≡ₚ (n, (Some p, SLeaf (kv :: ky) ny)) :: (b, (Some p, SLeaf kx nx)) ::
                      (p, (q, SNode (ks1 ++ kv.1 :: ks2) cs)) :: R).
Proof.
  intros Hlen. unfold distribute_nodes. apply wp_load_exact. intros nn Hn.
  focus ((b, (Some p, SLeaf (kx ++ [kv]) nx)) :: (n, (None, SExact nn)) ::
         (p, (q, SNode (ks1 ++ sep :: ks2) cs)) :: R).
  apply wp_load_exact. intros nb Hb. pose proof Hn as (_ & _ & -> & -> & _). apply wp_pure with (a := p); [done|].
  focus ((p, (q, SNode (ks1 ++ sep :: ks2) cs)) :: (b, (None, SExact nb)) :: (n, (None, SExact nn)) :: R).
  apply wp_load. intros np Hp.
  assert (num_keys nb = S (length kx)) as Hnb by (destruct Hb as (_ & _ & _ & _ & -> & _); rewrite length_app; simpl; lia).
  rewrite Hnb. apply wp_pure with (a := length kx); [done|].
  destruct (take_last_leaf nb _ _ _ _ Hb) as (Hk & Hr & nb' & Htake & Hb').
  destruct (push_front_leaf nn _ _ kv _ Hn Hlen) as (nn' & Hpush & Hn').
  apply wp_assoc. eapply wp_pure; [exact Hk|]. apply wp_assoc. apply wp_pure with (a := kv.1); [done|].
  apply wp_assoc. eapply wp_read. { intros h. unfold ptr_of. by rewrite Hr. }
  focus ((n, (None, SExact nn)) :: (b, (None, SExact nb)) :: (p, (q, SNode (ks1 ++ sep :: ks2) cs)) :: R).
  apply wp_assoc. eapply wp_exact; [exact Hpush|].
  focus ((b, (None, SExact nb)) :: (n, (None, SExact nn')) :: (p, (q, SNode (ks1 ++ sep :: ks2) cs)) :: R).
  apply wp_assoc. eapply wp_exact; [exact Htake|].
  focus ((p, (q, SNode (ks1 ++ sep :: ks2) cs)) :: (b, (None, SExact nb')) :: (n, (None, SExact nn')) :: R).
  apply (wp_update _ _ (q, SNode (ks1 ++ kv.1 :: ks2) cs)).
  { intros nd Hnd. destruct (overwrite_key_ok nd _ _ _ kv.1 _ _ Hnd) as (nd' & ? & _ & ?). eauto. }
  focus ((b, (None, SExact nb')) :: (n, (None, SExact nn')) :: (p, (q, SNode (ks1 ++ kv.1 :: ks2) cs)) :: R).
  eapply wp_counters; [exact Hb'|exact Hn'|]. solve_Permutation.
Qed.

Lemma dist_right_leaf n b p q sep ks2 cs kx kv kv1 ky nx ny R :
  length kx < 4 →
  wp ((n, (Some p, SLeaf kx nx)) :: (b, (Some p, SLeaf (kv :: kv1 :: ky) ny)) ::
      (p, (q, SNode (sep :: ks2) cs)) :: R)
     (distribute_nodes n b 0)
     (λ _ es', es' ≡ₚ (n, (Some p, SLeaf (kx ++ [kv]) nx)) :: (b, (Some p, SLeaf (kv1 :: ky) ny)) ::
                      (p, (q, SNode (kv1.1 :: ks2) cs)) :: R).
Proof.
  intros Hlen. unfold distribute_nodes. apply wp_load_exact. intros nn Hn.
  focus ((b, (Some p, SLeaf (kv :: kv1 :: ky) ny)) :: (n, (None, SExact nn)) ::
         (p, (q, SNode (sep :: ks2) cs)) :: R).
  apply wp_load_exact. intros nb Hb. pose proof Hn as (_ & _ & -> & -> & _). apply wp_pure with (a := p); [done|].
  focus ((p, (q, SNode (sep :: ks2) cs)) :: (b, (None, SExact nb)) :: (n, (None, SExact nn)) :: R).
  apply wp_load. intros np Hp.
  assert (num_keys nb = S (S (length ky))) as Hnb by (destruct Hb as (_ & _ & _ & _ & -> & _); done).
  rewrite Hnb. apply wp_pure with (a := S (length ky)); [done|].
  destruct (pop_front_leaf nb _ _ _ _ _ Hb) as (nb' & Hpop & Hb').
  destruct (push_back_leaf nn _ _ kv _ Hn Hlen) as (nn' & Hpush & Hn').
  assert (key_slot nb 0 = Some (Some kv.1)) as Hk.
  { pose proof (λ h, key_of_leaf nb _ _ _ 0 kv h Hb eq_refl) as H. specialize (H empty_heap).
    unfold key_of in H. destruct (key_slot nb 0) as [[k|]|]; [|done..]. by injection H as ->. }
  do 2 apply wp_assoc. eapply wp_pure; [exact Hk|]. apply wp_assoc. eapply wp_read.
  { intros h. by apply (ptr_of_leaf nb _ _ _ 0 kv h Hb). }
  apply wp_assoc. eapply wp_read. { intros h. by apply (key_of_leaf nb _ _ _ 1 kv1 h Hb). }
  focus ((n, (None, SExact nn)) :: (b, (None, SExact nb)) :: (p, (q, SNode (sep :: ks2) cs)) :: R).
  apply wp_assoc. eapply wp_exact; [exact Hpush|].
  focus ((p, (q, SNode (sep :: ks2) cs)) :: (b, (None, SExact nb)) :: (n, (None, SExact nn')) :: R).
  apply (wp_update _ _ (q, SNode (kv1.1 :: ks2) cs)).
  { intros nd Hnd. destruct (overwrite_key_ok nd q [] sep kv1.1 ks2 cs Hnd) as (nd' & ? & _ & ?). eauto. }
  focus ((b, (None, SExact nb)) :: (n, (None, SExact nn')) :: (p, (q, SNode (kv1.1 :: ks2) cs)) :: R).
  eapply wp_exact; [exact Hpop|]. eapply wp_counters; [exact Hb'|exact Hn'|]. solve_Permutation.
Qed.

Lemma key_slot_node nd par ks cs i k : node_ok nd (par, SNode ks cs) → ks !! i = Some k →
  key_slot nd i = Some (Some k).
Proof.
  intros (_ & _ & _ & _ & _ & _ & _ & Hk & _) Hi. unfold key_slot.
  by rewrite (take_lookup_fmap Some ks _ _ _ Hk Hi).
Qed.

Lemma wp_set_parent_real {B} l p p' sh es (k : unit → M heap B) Q :
  is_real sh → wp ((l, (p', sh)) :: es) (k tt) Q →
  wp ((l, (p, sh)) :: es) (update l (λ nd, Some (set_parent p' nd)) ≫= k) Q.
Proof.
  intros Hr. apply wp_update. intros nd Hok. eexists. split; [reflexivity|].
  by apply (set_parent_ok _ p).
Qed.

Lemma dist_left_node n b p q ks1 sep ks2 cs kx k ky cx c cy sh R :
  length ky < 4 → is_real sh →
  wp ((n, (Some p, SNode ky cy)) :: (b, (Some p, SNode (kx ++ [k]) (cx ++ [c]))) ::
      (p, (q, SNode (ks1 ++ sep :: ks2) cs)) :: (c, (Some b, sh)) :: R)
     (distribute_nodes n b (S (length ks1)))
     (λ _ es', es' ≡ₚ (n, (Some p, SNode (sep :: ky) (c :: cy))) :: (b, (Some p, SNode kx cx)) ::
                      (p, (q, SNode (ks1 ++ k :: ks2) cs)) :: (c, (Some n, sh)) :: R).
Proof.
  intros Hlen Hreal. unfold distribute_nodes. apply wp_load_exact. intros nn Hn.
  set (ep := (p, (q, SNode (ks1 ++ sep :: ks2) cs))). set (ec := (c, (Some b, sh))).
  focus ((b, (Some p, SNode (kx ++ [k]) (cx ++ [c]))) :: (n, (None, SExact nn)) :: ep :: ec :: R).
  apply wp_load_exact. intros nb Hb. pose proof Hn as (_ & _ & -> & -> & _). apply wp_pure with (a := p); [done|].
  focus (ep :: (b, (None, SExact nb)) :: (n, (None, SExact nn)) :: ec :: R).
  apply wp_load. intros np Hp.
  assert (num_keys nb = S (length kx)) as Hnb by (destruct Hb as (_ & _ & _ & _ & -> & _); rewrite length_app; simpl; lia).
  destruct (pop_back_node nb _ _ _ _ _ Hb) as (Hk & Hr & nb' & Htake & Hb'). rewrite Hnb in Htake.
  rewrite Hnb. apply wp_pure with (a := length kx); [done|].
  destruct (push_front_node nn _ _ sep _ c Hn Hlen) as (nn' & Hpush & Hn').
  apply wp_assoc. eapply wp_pure; [eapply key_slot_node; [exact Hp|by apply list_lookup_middle]|].
  apply wp_assoc. eapply wp_read. { intros h. unfold ptr_of. by rewrite Hr. }
  apply wp_assoc. eapply wp_read; [done|].
  apply wp_assoc. eapply wp_pure; [exact Hk|].
  focus ((n, (None, SExact nn)) :: (b, (None, SExact nb)) :: ep :: ec :: R).
  apply wp_assoc. eapply wp_exact; [exact Hpush|].
  focus (ec :: (n, (None, SExact nn')) :: (b, (None, SExact nb)) :: ep :: R).
  apply wp_assoc. apply wp_set_parent_real; [done|].
  focus ((b, (None, SExact nb)) :: (n, (None, SExact nn')) :: (c, (Some n, sh)) :: ep :: R).
  apply wp_assoc. eapply wp_exact; [rewrite Hnb; exact Htake|].
  focus (ep :: (b, (None, SExact nb')) :: (n, (None, SExact nn')) :: (c, (Some n, sh)) :: R).
  apply (wp_update _ _ (q, SNode (ks1 ++ k :: ks2) cs)).
  { intros nd Hnd. destruct (overwrite_key_ok nd _ _ _ k _ _ Hnd) as (nd' & _ & ? & ?). eauto. }
  focus ((b, (None, SExact nb')) :: (n, (None, SExact nn')) :: (p, (q, SNode (ks1 ++ k :: ks2) cs)) :: (c, (Some n, sh)) :: R).
  eapply wp_counters; [exact Hb'|exact Hn'|]. solve_Permutation.
Qed.

Lemma dist_right_node n b p q sep ks2 cs kx k ky cx c cy sh R :
  length kx < 4 → is_real sh →
  wp ((n, (Some p, SNode kx cx)) :: (b, (Some p, SNode (k :: ky) (c :: cy))) ::
      (p, (q, SNode (sep :: ks2) cs)) :: (c, (Some b, sh)) :: R)
     (distribute_nodes n b 0)
     (λ _ es', es' ≡ₚ (n, (Some p, SNode (kx ++ [sep]) (cx ++ [c]))) :: (b, (Some p, SNode ky cy)) ::
                      (p, (q, SNode (k :: ks2) cs)) :: (c, (Some n, sh)) :: R).
Proof.
  intros Hlen Hreal. unfold distribute_nodes. apply wp_load_exact. intros nn Hn.
  set (ep := (p, (q, SNode (sep :: ks2) cs))). set (ec := (c, (Some b, sh))).
  focus ((b, (Some p, SNode (k :: ky) (c :: cy))) :: (n, (None, SExact nn)) :: ep :: ec :: R).
  apply wp_load_exact. intros nb Hb. pose proof Hn as (_ & _ & -> & -> & _). apply wp_pure with (a := p); [done|].
  focus (ep :: (b, (None, SExact nb)) :: (n, (None, SExact nn)) :: ec :: R).
  apply wp_load. intros np Hp.
  assert (num_keys nb = S (length ky)) as Hnb by (destruct Hb as (_ & _ & _ & _ & -> & _); done).
  rewrite Hnb. apply wp_pure with (a := length ky); [done|].
  destruct (pop_front_node nb _ _ _ _ _ Hb) as (nb' & Hpop & Hb').
  destruct (push_back_node nn _ _ sep _ c Hn Hlen) as (nn' & Hpush & Hn').
  do 2 apply wp_assoc. eapply wp_pure; [by eapply key_slot_node|].
  apply wp_assoc. eapply wp_read. { intros h. by apply (ptr_of_node nb _ _ _ 0 c h Hb). }
  apply wp_assoc. eapply wp_read; [done|].
  apply wp_assoc. eapply wp_pure; [by eapply key_slot_node|].
  focus ((n, (None, SExact nn)) :: (b, (None, SExact nb)) :: ep :: ec :: R).
  apply wp_assoc. eapply wp_exact; [exact Hpush|].
  focus (ec :: (n, (None, SExact nn')) :: (b, (None, SExact nb)) :: ep :: R).
  apply wp_assoc. apply wp_set_parent_real; [done|].
  focus (ep :: (b, (None, SExact nb)) :: (n, (None, SExact nn')) :: (c, (Some n, sh)) :: R).
  apply (wp_update _ _ (q, SNode (k :: ks2) cs)).
  { intros nd Hnd. destruct (overwrite_key_ok nd q [] sep k ks2 cs Hnd) as (nd' & _ & ? & ?). eauto. }
  focus ((b, (None, SExact nb)) :: (n, (None, SExact nn')) :: (p, (q, SNode (k :: ks2) cs)) :: (c, (Some n, sh)) :: R).
  eapply wp_exact; [exact Hpop|]. eapply wp_counters; [exact Hb'|exact Hn'|]. solve_Permutation.
Qed.

(** ** The effect of a redistribution on the items *)
Definition moved (sep : string) (x y : bt) (sep' : string) (x' y' : bt) : Prop :=
  flat x ++ IS sep :: flat y = flat x' ++ IS sep' :: flat y' ∨
  ∃ l a g v l2, flat x ++ flat y = (l ++ [IK a g]) ++ IK sep' v :: l2 ∧
    flat x' = l ++ [IK a g] ∧ flat y' = IK sep' v :: l2.

Lemma moved_items C G sep x y sep' x' y' :
  Forall fr_ok C → fr_ok G → moved sep x y sep' x' y' →
  let T := plug C (pair_tree G sep x y) in let T' := plug C (pair_tree G sep' x' y') in
  bindings T' = bindings T ∧ (ordered T → ordered T') ∧
  (Forall (fits ∘ item_key) (flat T) → Forall (fits ∘ item_key) (flat T')).
Proof.
  intros HC HG Hm T T'. subst T T'. unfold bindings, ordered. rewrite !flat_plug, !flat_pair by done.
  set (L := cflatL C). set (R := cflatR C).
  set (L1 := flatL (fr_ks1 G) (fr_cs1 G)). set (R1 := flatR (fr_ks2 G) (fr_cs2 G)).
  destruct Hm as [->|(l & a & g & v & l2 & Heq & Hx & Hy)]; [done|].
  split; [|split].
  - rewrite !kvs_of_app. cbn. change (omap _ ?l) with (kvs_of l).
    f_equal. f_equal. f_equal. f_equal. rewrite <- !kvs_of_app. f_equal. by rewrite Heq, Hx, Hy.
  - intros Hs. assert (StronglySorted item_lt ((L ++ L1 ++ flat x) ++ flat y ++ R1 ++ R)) as Hs'.
    { apply (sorted_drop _ (IS sep)). by rewrite <- !app_assoc in *. }
    assert (StronglySorted item_lt (((L ++ L1 ++ l) ++ [IK a g]) ++ IK sep' v :: (l2 ++ R1 ++ R))) as Hs2.
    { rewrite <- !app_assoc, (app_assoc (flat x)), Heq in Hs'. by rewrite <- !app_assoc in *. }
    apply sorted_separator in Hs2. rewrite Hx, Hy. by rewrite <- !app_assoc in *.
  - assert (Forall (fits ∘ item_key) (flat x ++ flat y) ↔ Forall (fits ∘ item_key) (flat x' ++ flat y')) as He
      by by rewrite Heq, Hx, Hy.
    assert (Forall (fits ∘ item_key) (flat y') → fits sep') as Hf by (rewrite Hy, Forall_cons; tauto).
    rewrite !Forall_app, !Forall_cons in *. tauto.
Qed.

Lemma pair_done C G sep x y sep' x' y' root n m es :
  pair_state C G sep x y root n m → moved sep x y sep' x' y' →
  wfsh false m x' → wfsh false m y' → es ≡ₚ pair_ents C G sep' x' y' →
  removed (bindings (plug C (pair_tree G sep x y))) (Some root) es.
Proof.
  intros [HC HG Hroot Hctx Hwid Hc1 Hc2 Hx Hy Hord Hfits] Hm Hx' Hy' Hes.
  destruct (moved_items C G _ _ _ _ _ _ HC HG Hm) as (Hb & Ho & Hf).
  exists (plug C (pair_tree G sep' x' y')). split; [rewrite Hroot; by apply addr_plug|].
  split; [by rewrite Hes, entries_pair|]. split; [by apply Ho|]. split; [done|]. split; [by apply Hf|].
  exists n. apply (wfsh_plug C n (S m)); [done|]. destruct HG as [HG1 HG2]. apply wfsh_Nd. exists m. split; [done|].
  rewrite !length_app. simpl. split; [lia|]. split; [destruct (is_root C); lia|].
  apply Forall_app. split; [done|]. by repeat constructor.
Qed.

Lemma items_snoc kvs kv : (λ kv : string * file_id, IK kv.1 kv.2) <$> (kvs ++ [kv]) =
  ((λ kv, IK kv.1 kv.2) <$> kvs) ++ [IK kv.1 kv.2].
Proof. by rewrite fmap_app. Qed.

Lemma moved_left_leaf sep a kx kv b ky :
  kx ≠ [] → moved sep (Lf a (kx ++ [kv])) (Lf b ky) kv.1 (Lf a kx) (Lf b (kv :: ky)).
Proof.
  intros Hne. destruct kx as [|[k0 f0] kx _] using rev_ind; [done|]. right.
  eexists _, k0, f0, kv.2, _. simpl. rewrite !items_snoc. split; [|split; reflexivity].
  norm_app. done.
Qed.

Lemma moved_right_leaf sep a kx kv b kv1 ky :
  moved sep (Lf a kx) (Lf b (kv :: kv1 :: ky)) kv1.1 (Lf a (kx ++ [kv])) (Lf b (kv1 :: ky)).
Proof.
  right. eexists _, kv.1, kv.2, kv1.2, _. simpl. rewrite items_snoc. split; [|split; reflexivity].
  norm_app. done.
Qed.

Lemma moved_left_node sep a kx k cx c b ky cy :
  length cx = S (length kx) → length cy = S (length ky) →
  moved sep (Nd a (kx ++ [k]) (cx ++ [c])) (Nd b ky cy) k (Nd a kx cx) (Nd b (sep :: ky) (c :: cy)).
Proof.
  intros Hx Hy. left. rewrite (flat_merge a b a), (flat_merge a b a)
    by (rewrite ?length_app; simpl; lia). by rewrite <- !app_assoc.
Qed.

Lemma moved_right_node sep a kx cx b k ky c cy :
  length cx = S (length kx) → length cy = S (length ky) →
  moved sep (Nd a kx cx) (Nd b (k :: ky) (c :: cy)) k (Nd a (kx ++ [sep]) (cx ++ [c])) (Nd b ky cy).
Proof.
  intros Hx Hy. left. rewrite (flat_merge a b a), (flat_merge a b a)
    by (rewrite ?length_app; simpl; lia). by rewrite <- !app_assoc.
Qed.

Lemma distribute_left_ok C G sep x y root n m :
  pair_state C G sep x y root n m → width y = 1 → (if x is Lf _ _ then 4 else 3) < width x + width y →
  wp (pair_ents C G sep x y) (distribute_nodes (addr y) (addr x) (S (length (fr_cs1 G))))
     (λ _, removed (bindings (plug C (pair_tree G sep x y))) (Some root)).
Proof.
  intros Hps Hy Hw. pose proof (ps_frame _ _ _ _ _ _ _ _ Hps) as [<- _].
  pose proof (ps_x _ _ _ _ _ _ _ _ Hps) as Hlx. pose proof (ps_y _ _ _ _ _ _ _ _ Hps) as Hly.
  unfold pair_ents, pair_shape. set (p := fr_addr G) in *.
  destruct x as [ax kx|ax kx cx], y as [ay ky|ay ky cy]; try (destruct m; simpl in *; done).
  - destruct m as [|m]; [|done]. cbn [width low] in *.
    destruct kx as [|kv kx _] using rev_ind; [simpl in *; lia|]. rewrite length_app in *. simpl in Hlx, Hw.
    rewrite !entries_leaf. cbn [addr first_leaf app]. eapply wp_perm; [apply perm_swap|].
    eapply wp_mono; [apply dist_left_leaf; lia|]. intros [] es' Hes.
    eapply (pair_done _ _ _ _ _ kv.1 (Lf ax kx) (Lf ay (kv :: ky))); [exact Hps|..].
    + apply moved_left_leaf. intros ->. simpl in *. lia.
    + simpl. lia.
    + simpl. lia.
    + rewrite Hes. unfold pair_ents, pair_shape. rewrite !entries_leaf. cbn [addr first_leaf app]. apply perm_swap.
  - destruct m as [|m]; [done|]. cbn [width low] in *. destruct Hlx as (Hlx & Hbx & Hcx), Hly as (Hly & Hby & Hcy).
    destruct kx as [|k kx _] using rev_ind; [simpl in *; lia|]. destruct cx as [|c cx _] using rev_ind; [done|].
    destruct cy as [|d cy]; [simpl in Hly; lia|]. rewrite !length_app in *. simpl in Hlx, Hbx, Hw.
    destruct cx as [|c0 cx]; [simpl in Hlx; lia|]. apply Forall_app in Hcx as [Hcx Hcl].
    unfold entries. rewrite !below_Nd, entries_list_app. cbn [addr top head_next entries_list]. unfold entries.
    rewrite (fmap_app addr (c0 :: cx)), app_nil_r.
    set (nxt := head_next (fr_cs2 G) (nxt_of C)).
    set (cs := (addr <$> fr_cs1 G) ++ ax :: ay :: (addr <$> fr_cs2 G)).
    set (fd := first_leaf (Nd ay ky (d :: cy))). set (fc := PNode (first_leaf c)).
    eapply wp_perm; [|eapply wp_mono; [apply (dist_left_node ay ax p (par_of C) (fr_ks1 G) sep (fr_ks2 G) cs kx k
      ky (addr <$> c0 :: cx) (addr c) (addr <$> d :: cy) (top (PNode fd) c)
      (entries_list (Some ax) (c0 :: cx) fc ++ below (PNode fd) c ++ entries_list (Some ay) (d :: cy) nxt ++
       pair_rest C G (first_leaf (Nd ax (kx ++ [k]) ((c0 :: cx) ++ [c]))))); [lia|apply top_real]|]].
    { cbn [entries_list]. unfold entries. fold p. solve_Permutation. }
    intros [] es' Hes.
    eapply (pair_done _ _ _ _ _ k (Nd ax kx (c0 :: cx)) (Nd ay (sep :: ky) (c :: d :: cy))); [exact Hps|..].
    + apply moved_left_node; simpl in *; lia.
    + apply wfsh_Nd. exists m. repeat split; try done; simpl in *; lia.
    + apply wfsh_Nd. exists m. apply Forall_cons in Hcl as [Hcl _].
      repeat split; simpl in *; try lia. by constructor.
    + rewrite Hes. unfold pair_ents, pair_shape. unfold entries. rewrite !below_Nd.
      cbn [addr top head_next entries_list first_leaf]. unfold entries. fold p cs nxt fc. subst fd. cbn [first_leaf].
      solve_Permutation.
Qed.

Lemma distribute_right_ok C G sep x y root n m :
  pair_state C G sep x y root n m → fr_ks1 G = [] → width x = 1 →
  (if x is Lf _ _ then 4 else 3) < width x + width y →
  wp (pair_ents C G sep x y) (distribute_nodes (addr x) (addr y) 0)
     (λ _, removed (bindings (plug C (pair_tree G sep x y))) (Some root)).
Proof.
  intros Hps Hks Hx Hw. pose proof (ps_frame _ _ _ _ _ _ _ _ Hps) as [HG1 _].
  pose proof (ps_x _ _ _ _ _ _ _ _ Hps) as Hlx. pose proof (ps_y _ _ _ _ _ _ _ _ Hps) as Hly.
  rewrite Hks in HG1. destruct (fr_cs1 G) as [|] eqn:Hcs; [clear HG1|done].
  unfold pair_ents, pair_shape. rewrite Hks, Hcs. set (p := fr_addr G) in *. simpl ([] ++ _).
  destruct x as [ax kx|ax kx cx], y as [ay ky|ay ky cy]; try (destruct m; simpl in *; done).
  - destruct m as [|m]; [|done]. cbn [width low] in *.
    destruct ky as [|kv [|kv1 ky]]; [simpl in *; lia..|].
    rewrite !entries_leaf. cbn [addr first_leaf app]. simpl in Hly, Hw.
    eapply wp_mono; [apply dist_right_leaf; lia|]. intros [] es' Hes.
    eapply (pair_done _ _ _ _ _ kv1.1 (Lf ax (kx ++ [kv])) (Lf ay (kv1 :: ky))); [exact Hps|..].
    + apply moved_right_leaf.
    + simpl. rewrite length_app. simpl. lia.
    + simpl. lia.
    + rewrite Hes. unfold pair_ents, pair_shape. rewrite Hks, Hcs, !entries_leaf. done.
  - destruct m as [|m]; [done|]. cbn [width low] in *. destruct Hlx as (Hlx & Hbx & Hcx), Hly as (Hly & Hby & Hcy).
    destruct ky as [|k ky]; [simpl in *; lia|]. destruct cy as [|c [|d cy]]; [done|simpl in *; lia|].
    destruct cx as [|c0 cx]; [simpl in Hlx; lia|]. apply Forall_cons in Hcy as [Hcl Hcy].
    unfold entries. rewrite !below_Nd. cbn [addr top head_next entries_list fmap list_fmap]. unfold entries.
    set (nxt := head_next (fr_cs2 G) (nxt_of C)).
    set (cs := ax :: ay :: (addr <$> fr_cs2 G)).
    set (fc := first_leaf (Nd ay (k :: ky) (c :: d :: cy))).
    eapply wp_perm; [|eapply wp_mono; [apply (dist_right_node ax ay p (par_of C) sep (fr_ks2 G) cs kx k
      ky (addr <$> c0 :: cx) (addr c) (addr <$> d :: cy) (top (PNode (first_leaf d)) c)
      (entries_list (Some ax) (c0 :: cx) (PNode fc) ++ below (PNode (first_leaf d)) c ++
       entries_list (Some ay) (d :: cy) nxt ++ pair_rest C G (first_leaf (Nd ax kx (c0 :: cx)))));
       [lia|apply top_real]|]].
    { cbn [entries_list fmap list_fmap]. unfold entries. fold p. solve_Permutation. }
    intros [] es' Hes.
    eapply (pair_done _ _ _ _ _ k (Nd ax (kx ++ [sep]) ((c0 :: cx) ++ [c])) (Nd ay ky (d :: cy))); [exact Hps|..].
    + apply moved_right_node; simpl in *; lia.
    + apply wfsh_Nd. exists m. rewrite !length_app. repeat split; simpl in *; try lia.
      apply (Forall_app_2 _ (c0 :: cx) [c]); [done|by constructor].
    + apply wfsh_Nd. exists m. repeat split; simpl in *; try lia; done.
    + rewrite Hes. unfold pair_ents, pair_shape. rewrite Hks, Hcs. unfold entries. rewrite !below_Nd.
      rewrite entries_list_app. cbn [addr top]. rewrite (fmap_app addr (c0 :: cx)).
      cbn [addr top head_next entries_list first_leaf app fmap list_fmap]. unfold entries. fold p cs nxt. subst fc. cbn [first_leaf].
      rewrite app_nil_r. solve_Permutation.
Qed.

(** ** One level of [delete_entry], below the root *)
Lemma addr_plug_centries C : ∀ F t hf, addr (plug (F :: C) t) ∈ (centries (F :: C) (addr t) hf).*1.
Proof.
  induction C as [|F' C IH]; intros F t hf; [left|].
  specialize (IH F' (fr_plug F t) (first_of (fr_cs1 F) hf)).
  change (plug (F :: F' :: C) t) with (plug (F' :: C) (fr_plug F t)).
  remember (F' :: C) as C' eqn:HC'. cbn [centries]. rewrite fmap_cons, !fmap_app.
  change (addr (fr_plug F t)) with (fr_addr F) in IH. solve_elem.
Qed.

(** The frame around a hole, seen as the parent of the hole and a sibling. *)
Lemma pair_of_frame F t :
  fr_ok F → 1 ≤ length (fr_ks1 F) + length (fr_ks2 F) →
  ∃ (left : bool) G sep s, fr_ok G ∧
    fr_plug F t = pair_tree G sep (if left then t else s) (if left then s else t) ∧
    (left = true → fr_ks1 G = []) ∧
    length (fr_ks1 F) + length (fr_ks2 F) = S (length (fr_ks1 G) + length (fr_ks2 G)) ∧
    (∀ P : bt → Prop, Forall P (fr_cs1 F) → Forall P (fr_cs2 F) →
       Forall P (fr_cs1 G) ∧ Forall P (fr_cs2 G) ∧ P s).
Proof.
  destruct F as [a ks1 cs1 ks2 cs2]. unfold fr_ok. simpl. intros [H1 H2] Hlen.
  destruct ks1 as [|sep ks1 _] using rev_ind.
  - destruct cs1; [|done]. destruct ks2 as [|sep ks2]; [simpl in Hlen; lia|]. destruct cs2 as [|s cs2]; [done|].
    exists true, (mk_frame a [] [] ks2 cs2), sep, s. simpl in *. split; [split; simpl; lia|].
    split; [done|]. split; [done|]. split; [lia|]. intros P _ [? ?]%Forall_cons. done.
  - destruct cs1 as [|s cs1 _] using rev_ind; [rewrite length_app in H1; simpl in H1; lia|].
    rewrite !length_app in *. simpl in *.
    exists false, (mk_frame a ks1 cs1 ks2 cs2), sep, s. simpl. split; [split; simpl; lia|].
    split; [unfold fr_plug, pair_tree; simpl; by rewrite <- !app_assoc|]. split; [done|]. split; [lia|].
    intros P [? [? _]%Forall_cons]%Forall_app ?. done.
Qed.

Lemma pair_not_left C G sep x y :
  NoDup (pair_ents C G sep x y).*1 →
  addr x ∉ addr <$> fr_cs1 G ∧ addr y ∉ addr <$> fr_cs1 G ++ [x].
Proof.
  intros Hnd. unfold pair_ents, entries in Hnd. cbn [app] in Hnd.
  assert (∀ c, c ∈ fr_cs1 G → addr c ∈ (pair_rest C G (first_leaf x)).*1) as Hin.
  { intros c Hc. unfold pair_rest. rewrite !fmap_app, !elem_of_app. left. by apply addrs_entries_list. }
  assert (addr x ≠ addr y ∧ (∀ c, c ∈ fr_cs1 G → addr x ≠ addr c ∧ addr y ≠ addr c)) as [Hxy Hc].
  { rewrite fmap_cons, fmap_app, !fmap_cons in Hnd. simpl in Hnd.
    apply NoDup_cons in Hnd as [Hx (Hy0 & _ & Hy)%NoDup_app].
    rewrite fmap_app, fmap_cons in *. apply NoDup_cons in Hy as [Hy _]. split.
    - intros Heq. apply Hx. rewrite Heq. solve_elem.
    - intros c Hc%Hin. split; intros Heq; [apply Hx|apply Hy]; rewrite Heq; solve_elem. }
  split.
  - intros (c & Heq & Hc')%list_elem_of_fmap. by destruct (Hc c Hc') as [[] _].
  - intros (c & Heq & [Hc'|Hc']%elem_of_app)%list_elem_of_fmap; [by destruct (Hc c Hc') as [_ []]|].
    apply list_elem_of_singleton in Hc' as ->. done.
Qed.

(** Where [t] and its sibling [s] are among the parent's children. *)
Lemma pair_shape_at G sep (left : bool) t s :
  length (fr_ks1 G) = length (fr_cs1 G) → (left = true → fr_ks1 G = []) →
  let x := if left then t else s in let y := if left then s else t in
  let before := if left then [] else fr_cs1 G ++ [s] in let i := if left then 0 else S (length (fr_cs1 G)) in
  pair_shape G sep (addr x) (addr y) = SNode (fr_ks1 G ++ sep :: fr_ks2 G)
    ((addr <$> before) ++ addr t :: (if left then [addr s] else []) ++ (addr <$> fr_cs2 G))
  ∧ (addr x ∉ addr <$> fr_cs1 G → addr y ∉ addr <$> fr_cs1 G ++ [x] → addr t ∉ addr <$> before)
  ∧ (if decide (i = 0) then 1 else i - 1) = (if left then 1 else length (fr_cs1 G))
  ∧ length (addr <$> before) = i.
Proof.
  intros HG Hleft. unfold pair_shape. destruct left.
  - rewrite (Hleft eq_refl) in HG |- *. destruct (fr_cs1 G); [|done].
    repeat split. intros _ _. by apply not_elem_of_nil.
  - rewrite decide_False by done. rewrite fmap_app, <- app_assoc. repeat split; [|simpl; lia|].
    + intros _. by rewrite <- fmap_app.
    + rewrite length_app, length_fmap. simpl. lia.
Qed.

Lemma rebalance_ok fuel C G sep (left : bool) t s root n m :
  let x := if left then t else s in let y := if left then s else t in
  del_spec fuel C → 2 * length C + 1 ≤ fuel → pair_state C G sep x y root n m →
  (left = true → fr_ks1 G = []) → width t = 1 → 2 ≤ width s ≤ 4 →
  wp (pair_ents C G sep x y)
    (n ← load (addr t);
     nd_index ← get_node_index (addr t);
     parent_loc ← of_option NullDeref (parent n);
     pn ← load parent_loc;
     neighbor ← (if decide (nd_index = 0) then child_of pn 1 else child_of pn (nd_index - 1));
     b ← load neighbor;
     if decide (num_keys b + num_keys n ≤ (if is_leaf n then MAX_KEY_NUM else MAX_KEY_NUM - 1)%nat) then
       coalesce_nodes (S fuel) root (addr t) neighbor nd_index
     else _ ← distribute_nodes (addr t) neighbor nd_index; mret (Some root))
    (removed (bindings (plug C (pair_tree G sep x y)))).
Proof.
  intros x y IH Hfuel Hps Hleft Ht Hs. pose proof (ps_frame _ _ _ _ _ _ _ _ Hps) as [HG1 HG2].
  pose proof (ps_x _ _ _ _ _ _ _ _ Hps) as Hlx. pose proof (ps_y _ _ _ _ _ _ _ _ Hps) as Hly.
  apply wp_NoDup. intros Hnd. apply pair_not_left in Hnd as [Hnx Hny].
  set (a := fr_addr G). set (nt := if left then PNode (first_leaf y) else head_next (fr_cs2 G) (nxt_of C)).
  set (ns := if left then head_next (fr_cs2 G) (nxt_of C) else PNode (first_leaf y)).
  set (et := (addr t, (Some a, top nt t))). set (es := (addr s, (Some a, top ns s))).
  set (ep := (a, (par_of C, pair_shape G sep (addr x) (addr y)))).
  set (R := below nt t ++ below ns s ++ pair_rest C G (first_leaf x)).
  assert (pair_ents C G sep x y ≡ₚ et :: ep :: es :: R) as HP.
  { unfold pair_ents, entries, R, et, es, ep. subst x y nt ns. destruct left; solve_Permutation. }
  set (i := if left then 0 else S (length (fr_cs1 G))).
  destruct (pair_shape_at G sep left t s HG1 Hleft) as (Hsh & Hnot & Hnb & Hi).
  specialize (Hnot Hnx Hny). fold x y in Hsh. fold i in Hnb, Hi.
  apply (wp_perm _ _ _ _ HP), wp_load. intros nd Hok.
  destruct (leaf_or_node_flags _ _ _ _ Hok) as (Hnk & Hlf & Hpar).
  unfold get_node_index. apply wp_assoc, wp_load. intros nd' Hok'.
  destruct (leaf_or_node_flags _ _ _ _ Hok') as (_ & _ & ->).
  apply wp_assoc, wp_pure with (a := a); [done|].
  focus (ep :: et :: es :: R). apply wp_assoc. subst ep. rewrite Hsh. apply wp_load. intros pn Hpn.
  eapply scan_child_wp; [exact Hpn|exact Hnot|]. rewrite Hi, Hpar. apply wp_pure with (a := a); [done|].
  apply wp_load. intros pn' Hpn'. eapply wp_read with (a := addr s).
  { intros h. transitivity (child_of pn' (if decide (i = 0) then 1 else i - 1) h); [by case_decide|].
    rewrite Hnb. eapply child_of_node; [exact Hpn'|]. destruct left; [done|].
    rewrite fmap_app, <- app_assoc. simpl. rewrite lookup_app_r by (by rewrite length_fmap).
    by rewrite length_fmap, Nat.sub_diag. }
  rewrite <- Hsh. set (ep := (a, (par_of C, pair_shape G sep (addr x) (addr y)))) in *.
  focus (es :: ep :: et :: R). apply wp_load. intros b Hb.
  destruct (leaf_or_node_flags _ _ _ _ Hb) as (-> & _ & _). rewrite Hnk, Hlf.
  apply (wp_perm _ (pair_ents C G sep x y)); [rewrite HP; solve_Permutation|].
  assert ((if if t is Lf _ _ then true else false then MAX_KEY_NUM else MAX_KEY_NUM - 1)
          = (if x is Lf _ _ then 4 else 3)) as ->.
  { subst x y. destruct left, t, s; try done; destruct m; simpl in *; done. }
  assert (width s + width t = width x + width y) as -> by (subst x y; destruct left; lia).
  clear Hnb. case_decide as Hcap.
  - replace (coalesce_nodes (S fuel) root (addr t) (addr s) i)
      with (coalesce_nodes (S fuel) root (addr y) (addr x) (S (length (fr_cs1 G)))).
    + eapply coalesce_ok; [done..|]. split; [subst x y; destruct left; lia|done].
    + subst x y i. destruct left; [|done]. rewrite (Hleft eq_refl) in HG1. by destruct (fr_cs1 G).
  - apply wp_bind. eapply (wp_mono _ _ (λ _, removed _ (Some root))); [|intros [] es' H; by apply wp_ret].
    subst x y i. destruct left; [eapply distribute_right_ok|eapply distribute_left_ok]; try done; [auto|lia|lia].
Qed.

Lemma low_to_pair F C G sep t (left : bool) s root n m :
  let x := if left then t else s in let y := if left then s else t in
  Forall fr_ok (F :: C) → wfctx n (F :: C) m → low false m t → root = addr (plug (F :: C) t) →
  ordered (plug (F :: C) t) → Forall (fits ∘ item_key) (flat (plug (F :: C) t)) →
  fr_ok G → fr_plug F t = pair_tree G sep x y →
  length (fr_ks1 F) + length (fr_ks2 F) = S (length (fr_ks1 G) + length (fr_ks2 G)) →
  (∀ P : bt → Prop, Forall P (fr_cs1 F) → Forall P (fr_cs2 F) →
       Forall P (fr_cs1 G) ∧ Forall P (fr_cs2 G) ∧ P s) →
  pair_state C G sep x y root n m ∧ 2 ≤ width s ≤ 4.
Proof.
  intros x y [HF HC]%Forall_cons (_ & Hb & Hc1 & Hc2 & Hctx) Hlow -> Hord Hfits HG Heq Hlen Hall.
  destruct (Hall (wfsh false m) Hc1 Hc2) as (Hg1 & Hg2 & [Hs Hw]%wfsh_low).
  simpl in Hord, Hfits |- *. rewrite Heq in *. split.
  - constructor; try done; [rewrite <- Hlen; destruct C; simpl in *; lia|..]; subst x y; by destruct left.
  - split; [done|]. destruct s, m; simpl in *; try done; lia.
Qed.

Lemma delete_ok C : ∀ fuel, del_spec fuel C.
Proof.
  induction C as [|F C IH]; intros fuel.
  { destruct fuel; [intros ??????; simpl; lia|]. apply del_root. }
  intros s index t1 root n m Hfuel [Hrem HC Hroot Hctx Hlow Hord Hfits].
  destruct fuel as [|[|fuel]]; [simpl in Hfuel; lia..|].
  unfold del_pre. cbn [delete_entry].
  apply (wp_update _ _ (par_of (F :: C), top (nxt_of (F :: C)) t1)); [exact Hrem|].
  apply wp_NoDup. intros Hnd. rewrite decide_False; last first.
  { intros Heq. rewrite fmap_cons in Hnd. apply NoDup_cons in Hnd as [Hnd _]. apply Hnd.
    rewrite fmap_app, elem_of_app. right. cbn [fst].
    rewrite Heq at 1. rewrite Hroot. apply addr_plug_centries. }
  destruct (decide (2 ≤ width t1)) as [Hw|Hw].
  - apply wp_load. intros nd Hok. destruct (leaf_or_node_flags _ _ _ _ Hok) as (Hnk & Hlf & _).
    rewrite Hnk, Hlf, decide_True by (by destruct t1). apply wp_ret.
    exists (plug (F :: C) t1). split; [done|]. split; [by rewrite entries_plug|]. do 3 (split; [done|]).
    exists n. apply (wfsh_plug _ _ m); [done|]. by apply low_wfsh.
  - assert (width t1 = 1) as Hw1 by (destruct t1, m; simpl in *; try done; lia).
    pose proof Hctx as (HF & Hb & _). apply Forall_cons in HC as HC'. destruct HC' as [_ HC'].
    destruct (pair_of_frame F t1) as (left & G & sep & sb & HG & Heq & Hleft & Hlen & Hall); [done|destruct C; lia|].
    destruct (low_to_pair F C G sep t1 left sb root n m HC Hctx Hlow Hroot Hord Hfits HG Heq Hlen Hall) as [Hps Hsb].
    eapply wp_perm.
    { symmetry. etrans; [symmetry; apply (entries_pair C G sep (if left then t1 else sb) (if left then sb else t1))|]. rewrite <- Heq.
      exact (entries_plug (F :: C) t1). }
    change (plug (F :: C) t1) with (plug C (fr_plug F t1)). rewrite Heq.
    pose proof (rebalance_ok fuel C G sep left t1 sb root n m (IH fuel)) as Hreb. simpl in Hreb.
    assert (∀ nd, node_ok nd (par_of (F :: C), top (nxt_of (F :: C)) t1) →
      (if is_leaf nd then (MAX_KEY_NUM + 1) / 2 else MAX_KEY_NUM / 2) ≤ num_keys nd → False) as Hmin.
    { intros nd (-> & -> & _)%leaf_or_node_flags. destruct t1; simpl in *; lia. }
    intros h Hh Ho. assert (∃ nd, nodes h !! addr t1 = Some nd ∧ node_ok nd (par_of (F :: C), top (nxt_of (F :: C)) t1))
      as (nd & Hnd1 & Hok1).
    { apply (owns_lookup _ _ _ _ Ho). rewrite <- entries_pair, <- Heq.
      setoid_rewrite (entries_plug (F :: C) t1). left. }
    destruct (Hreb ltac:(simpl in Hfuel; lia) Hps Hleft Hw1 Hsb h Hh Ho) as (o & h' & es' & Hrun & Hrest).
    exists o, h', es'. split; [|exact Hrest]. rewrite <- Hrun.
    rewrite !(bind_Ok _ _ _ _ _ (load_ok _ _ _ Hnd1)). rewrite decide_False; [done|].
    intros Hle. by apply (Hmin nd Hok1).
Qed.

(** ** The whole operation *)
Lemma list_to_map_remove (l1 : list (string * file_id)) k f l2 :
  NoDup (l1 ++ (k, f) :: l2).*1 →
  list_to_map (l1 ++ l2) =@{gmap string file_id} delete k (list_to_map (l1 ++ (k, f) :: l2)).
Proof.
  intros Hnd. rewrite (list_to_map_proper (l1 ++ (k, f) :: l2) ((k, f) :: l1 ++ l2)); [|done|solve_Permutation].
  simpl. rewrite delete_insert_id; [done|]. apply not_elem_of_list_to_map_1.
  assert ((l1 ++ (k, f) :: l2).*1 ≡ₚ k :: (l1 ++ l2).*1) as Hp by (rewrite !fmap_app; simpl; solve_Permutation).
  rewrite Hp in Hnd. by apply NoDup_cons in Hnd as [Hnd _].
Qed.

Lemma kvs_of_mid l1 k f l2 : kvs_of (l1 ++ IK k f :: l2) = kvs_of l1 ++ (k, f) :: kvs_of l2.
Proof. by rewrite kvs_of_app. Qed.

Lemma bindings_Nd a ks cs : length cs = S (length ks) → bindings (Nd a ks cs) = concat (bindings <$> cs).
Proof.
  unfold bindings. revert ks. induction cs as [|c cs IH]; intros ks Hl; [done|].
  destruct ks as [|k ks], cs as [|d cs]; try (simpl in Hl; lia).
  - simpl. by rewrite !app_nil_r.
  - specialize (IH ks ltac:(simpl in *; lia)).
    change (flat (Nd a (k :: ks) (c :: d :: cs))) with (flat c ++ IS k :: flat (Nd a ks (d :: cs))).
    rewrite kvs_of_app. change (kvs_of (IS k :: ?l)) with (kvs_of l). rewrite IH. done.
Qed.

Lemma wfsh_bindings n t : wfsh true n t → bindings t ≠ [].
Proof.
  assert (∀ m t, wfsh false m t → bindings t ≠ []) as H.
  { intros m s. revert m. induction s as [a kvs|a ks cs IH] using bt_ind'; intros [|m] Hw; try done.
    - unfold bindings. simpl in *. rewrite kvs_of_leaf. by destruct kvs; [simpl in Hw; lia|].
    - apply wfsh_Nd in Hw as (m' & [= <-] & Hl & _ & Hcs). rewrite bindings_Nd by done.
      destruct cs as [|c cs]; [done|]. apply Forall_cons in IH as [IH _], Hcs as [Hc _].
      intros [Hb _]%app_eq_nil. by apply (IH m). }
  destruct t as [a kvs|a ks cs], n as [|n]; try done; intros Hw.
  - unfold bindings. simpl in *. rewrite kvs_of_leaf. by destruct kvs; [simpl in Hw; lia|].
  - apply wfsh_Nd in Hw as (m' & [= <-] & Hl & _ & Hcs). rewrite bindings_Nd by done.
    destruct cs as [|c cs]; [done|]. apply Forall_cons in Hcs as [Hc _]. intros [Hb _]%app_eq_nil. by apply (H n c).
Qed.

(** What a removal makes of the represented map. *)
Lemma removed_rep bs o es h :
  removed bs o es → heap_ok h → owns (nodes h) es →
  tree_rep h o (list_to_map bs) ∧ (bs = [] → o = None).
Proof.
  destruct o as [r|]; simpl.
  - intros (t & -> & Hes & Hord & <- & Hfits & n & Hsh) Hh Ho. split.
    + left. exists t. split; [done|]. split; [|done].
      constructor; try done; [|eauto]. split; [done|]. by rewrite Hes in Ho.
    + intros Hb. by destruct (wfsh_bindings n t Hsh).
  - intros [-> ->] Hh _. done.
Qed.

Lemma remove_absent h root m key :
  tree_rep h root m → m !! key = None → B_plus_tree_remove root key h = Ok (root, h).
Proof.
  assert (∀ r C a kvs, find_leaf (Some r) key h = Ok (Some a, h) →
    (∃ nd, nodes h !! a = Some nd ∧ node_ok nd (par_of C, SLeaf kvs (nxt_of C))) →
    (list_to_map kvs : gmap string file_id) !! key = None →
    B_plus_tree_remove (Some r) key h = Ok (Some r, h)) as Hrun.
  { intros r C a kvs Hf (nd & Hnd & Hok) Hnone. unfold B_plus_tree_remove.
    rewrite (bind_Ok _ _ _ _ _ Hf), (bind_Ok _ _ _ _ _ (load_ok _ _ _ Hnd)).
    rewrite (bind_Ok _ _ _ _ _ (scan_leaf _ _ _ _ key h Hok)).
    pose proof Hok as (_ & _ & _ & _ & -> & _).
    destruct (find_equal_lookup kvs key) as (Hl & _ & Hle). rewrite Hnone in Hl.
    destruct (kvs !! _) as [|] eqn:E in Hl; [done|]. apply lookup_ge_None in E.
    rewrite decide_True; [done|lia]. }
  destruct root as [r|]; simpl; [|done].
  intros [(t & <- & Hinv & <-)|(Hat & _ & ->)] Hnone.
  - destruct (find_leaf_ok h t key Hinv) as (C & a & kvs & Hl & Hf). apply (Hrun _ C a kvs Hf).
    + by eapply leaf_node; [apply Hinv|].
    + by rewrite <- (to_map_leaf_of _ _ _ _ _ Hl).
  - apply (Hrun _ [] r []); [by eapply find_leaf_single| |done].
    destruct Hat as [_ Ho]. apply (owns_head _ _ _ _ Ho).
Qed.

Lemma remove_present h root m key f :
  tree_rep h root m → m !! key = Some f →
  ∃ root' h', B_plus_tree_remove root key h = Ok (root', h') ∧ tree_rep h' root' (delete key m) ∧
    (delete key m = ∅ → root' = None).
Proof.
  destruct root as [r|]; simpl; [|by intros [_ ->]]. intros [(t & <- & Hinv & <-)|(_ & _ & ->)] Hsome; [|done].
  destruct (find_leaf_ok h t key Hinv) as (C & a & kvs & Hl & Hf).
  destruct (leaf_node h t key C a kvs (inv_at _ _ Hinv) Hl) as (nd & Hnd & Hok).
  pose proof Hsome as Hleaf. rewrite (to_map_leaf_of _ _ _ _ _ Hl) in Hleaf.
  destruct (find_equal_lookup kvs key) as (Hlk & Hkey & Hle). rewrite Hleaf in Hlk.
  unfold B_plus_tree_remove. rewrite (bind_Ok _ _ _ _ _ Hf), (bind_Ok _ _ _ _ _ (load_ok _ _ _ Hnd)).
  rewrite (bind_Ok _ _ _ _ _ (scan_leaf _ _ _ _ key h Hok)).
  pose proof Hok as (_ & _ & _ & _ & -> & _).
  set (i := find_from _ 0 kvs) in *. destruct (kvs !! i) as [[k g]|] eqn:Hi; [|done].
  pose proof (lookup_lt_Some _ _ _ Hi) as Hlt. rewrite decide_False by lia.
  rewrite (bind_Ok _ _ _ _ _ (heap_fuel_ok h)). specialize (Hkey _ eq_refl). simpl in Hkey. subst k.
  pose proof (bindings_leaf_of _ _ _ _ _ Hl) as Hbs.
  destruct Hinv as [[Hh Ho] Hord Hfits [n Hsh]]. destruct Hl as (-> & HC & _ & _).
  destruct (wfsh_unplug C n _ HC Hsh) as ([|] & Hctx & Hocc); [|done]. simpl in Hocc.
  set (kvs' := take i kvs ++ drop (S i) kvs). set (t1 := Lf a kvs').
  pose proof (take_drop_middle _ _ _ Hi) as Hsplit.
  assert (flat (plug C t1) = (cflatL C ++ items (take i kvs)) ++ items (drop (S i) kvs) ++ cflatR C) as Hf1.
  { rewrite flat_plug by done. simpl. unfold kvs'. rewrite fmap_app. unfold items. by norm_app. }
  assert (flat (plug C (Lf a kvs)) = (cflatL C ++ items (take i kvs)) ++ IK key g :: items (drop (S i) kvs) ++ cflatR C) as Hf0.
  { rewrite flat_plug by done. simpl. rewrite <- Hsplit at 1. unfold items. rewrite fmap_app, fmap_cons. by norm_app. }
  destruct (delete_ok C (2 * S (S (size (nodes h)))) (SLeaf kvs (nxt_of C)) i t1 (addr (plug C (Lf a kvs))) n 0)
    with (h := h) as (o & h' & es & Hrun & Hh' & Ho' & Hrem).
  - pose proof (owns_size _ _ Ho) as Hsz. rewrite entries_plug, length_app in Hsz.
    pose proof (centries_length C (addr (Lf a kvs)) (first_leaf (Lf a kvs))). lia.
  - constructor; try done.
    + intros nd' Hok'. by apply remove_leaf_ok.
    + by apply addr_plug.
    + simpl. unfold kvs'. rewrite length_app, length_take, length_drop. destruct (is_root C); lia.
    + unfold ordered in *. rewrite Hf1. rewrite Hf0 in Hord. by apply sorted_drop in Hord.
    + rewrite Hf1. rewrite Hf0 in Hfits. rewrite !Forall_app, Forall_cons, Forall_app in Hfits. rewrite !Forall_app. tauto.
  - done.
  - rewrite entries_plug, entries_leaf in Ho. exact Ho.
  - exists o, h'. split; [exact Hrun|]. pose proof (removed_rep _ _ _ _ Hrem Hh' Ho') as [Hrep Hlast].
    replace (delete key (to_map (plug C (Lf a kvs)))) with (list_to_map (bindings (plug C t1)) : gmap string file_id).
    { split; [done|]. intros He. apply Hlast. revert He.
      destruct (bindings (plug C t1)) as [|[? ?] ?]; intros He; [done|]. by destruct (insert_non_empty _ _ _ He). }
    pose proof (sorted_NoDup _ Hord) as Hnd'. unfold to_map, bindings. rewrite Hf0 in *. rewrite Hf1.
    rewrite kvs_of_mid in *. rewrite kvs_of_app. by apply (list_to_map_remove _ key g).
Qed.

Lemma remove_rep h root m key :
  tree_rep h root m →
  ∃ root' h', B_plus_tree_remove root key h = Ok (root', h') ∧ tree_rep h' root' (delete key m).
Proof.
  intros Hrep. destruct (m !! key) as [f|] eqn:E.
  { destruct (remove_present h root m key f Hrep E) as (root' & h' & ? & ? & _). eauto. }
  exists root, h. rewrite delete_id by done. split; [by eapply remove_absent|done].
Qed.
