(* ===== verification/BPlusTreeWalk.v ===== *)
(** * Walking the leaves of the B+ tree

    [traverse_leaves], [B_plus_tree_get_first] and [B_plus_tree_get_next] visit
    the files in the order of their names; [delete_B_plus_tree] empties the
    tree. *)
From S2P Require Import Prelude BPlusTree BPlusTreeSpec BPlusTreeLemmas BPlusTreeFind.
From S2P Require Import BPlusTreeNode BPlusTreeWp BPlusTreeInsert BPlusTreeRemove.

Definition files (t : bt) : list file_id := snd <$> bindings t.
Definition files_list (cs : list bt) : list file_id := concat (files <$> cs).

Fixpoint nleaves (t : bt) : nat :=
  match t with
  | Lf _ _ => 1
  | Nd _ _ cs => foldr (λ c n, nleaves c + n) 0 cs
  end.
Definition nleaves_list (cs : list bt) : nat := foldr (λ c n, nleaves c + n) 0 cs.

Definition ptr_loc (p : ptr) : option loc := match p with PNode l => Some l | _ => None end.
Definition link (p : ptr) : Prop := match p with PRec _ => False | _ => True end.

Lemma files_Nd a ks cs : length cs = S (length ks) → files (Nd a ks cs) = files_list cs.
Proof.
  intros Hl. unfold files, files_list. rewrite bindings_Nd by done. clear.
  induction cs as [|c cs IH]; [done|]. rewrite !fmap_cons. cbn [concat]. by rewrite fmap_app, IH.
Qed.

(** ** Slots of one leaf *)
Lemma walk_slots_ok nd par nxt h : ∀ l2 l1,
  node_ok nd (par, SLeaf (l1 ++ l2) nxt) → walk_slots (length l2) (length l1) nd h = Ok (snd <$> l2, h).
Proof.
  induction l2 as [|kv l2 IH]; intros l1 Hok; [done|]. simpl.
  rewrite (bind_Ok _ _ _ _ _ (ptr_of_leaf nd _ _ _ (length l1) kv h Hok (list_lookup_middle _ _ _ _ eq_refl))).
  specialize (IH (l1 ++ [kv])). rewrite length_app, <- app_assoc, Nat.add_1_r in IH.
  erewrite bind_Ok by done. erewrite bind_Ok by (by apply IH). done.
Qed.

Lemma next_leaf_ok nd par kvs nxt h :
  node_ok nd (par, SLeaf kvs nxt) → link nxt → next_leaf nd h = Ok (ptr_loc nxt, h).
Proof.
  intros (_ & _ & _ & _ & _ & _ & _ & _ & Hn) Hl. unfold next_leaf, ptr_of, ptr_slot. change MAX_KEY_NUM with 4.
  rewrite Hn. destruct nxt; done.
Qed.

Lemma head_next_link cs nxt : link nxt → link (head_next cs nxt).
Proof. by destruct cs. Qed.

(** ** The chain of leaves *)
Lemma walk_tree h t : ∀ par nxt fuel r,
  owns (nodes h) (entries par nxt t) → link nxt →
  walk_leaves fuel (ptr_loc nxt) h = Ok (r, h) →
  walk_leaves (nleaves t + fuel) (Some (first_leaf t)) h = Ok (files t ++ r, h).
Proof.
  induction t as [a kvs|a ks cs IH] using bt_ind'; intros par nxt fuel r Ho Hl Hr.
  - apply owns_head in Ho as (nd & Hnd & Hok). simpl. rewrite (bind_Ok _ _ _ _ _ (load_ok _ _ _ Hnd)).
    pose proof Hok as (_ & _ & _ & _ & -> & _).
    rewrite (bind_Ok _ _ _ _ _ (walk_slots_ok nd _ _ h kvs [] Hok)).
    rewrite (bind_Ok _ _ _ _ _ (next_leaf_ok _ _ _ _ h Hok Hl)), (bind_Ok _ _ _ _ _ Hr).
    unfold files, bindings. simpl. by rewrite kvs_of_leaf.
  - pose proof Ho as Ho'. apply owns_head in Ho' as (nd & _ & Hok).
    pose proof Hok as (_ & _ & _ & _ & _ & _ & Hlen & _). rewrite length_fmap in Hlen.
    rewrite files_Nd by done. unfold entries in Ho. rewrite below_Nd in Ho. apply owns_cons in Ho as (_ & _ & Ho).
    assert (∀ p, cs ≠ [] → owns (nodes h) (entries_list p cs nxt) →
      walk_leaves (nleaves_list cs + fuel) (ptr_loc (head_next cs nxt)) h = Ok (files_list cs ++ r, h)) as Hcs.
    { clear Ho Hlen Hok. intros p _. induction IH as [|c cs Hc Hcs IH2]; intros Ho; [done|].
      cbn [entries_list] in Ho. apply owns_app in Ho as (Hoc & Hocs & _).
      simpl. rewrite <- Nat.add_assoc. unfold files_list. simpl. rewrite <- app_assoc.
      eapply Hc; [exact Hoc|by apply head_next_link|]. apply IH2, Hocs. }
    destruct cs as [|c cs]; [done|]. by apply (Hcs (Some a)).
Qed.

Lemma nleaves_entries t : ∀ par nxt, nleaves t ≤ length (entries par nxt t).
Proof.
  induction t as [a kvs|a ks cs IH] using bt_ind'; intros par nxt; [simpl; lia|].
  unfold entries. rewrite below_Nd. simpl. apply le_S. clear ks.
  assert (∀ p, nleaves_list cs ≤ length (entries_list p cs nxt)) as H; [|apply H].
  intros p. induction IH as [|c cs Hc Hcs IH2]; cbn [nleaves_list foldr entries_list]; [lia|].
  specialize (Hc p (head_next cs nxt)). rewrite length_app. unfold nleaves_list in IH2. lia.
Qed.

Lemma leftmost_ok h t : ∀ par nxt fuel es,
  owns (nodes h) (entries par nxt t ++ es) → height t ≤ fuel →
  leftmost_leaf fuel (addr t) h = Ok (first_leaf t, h).
Proof.
  induction t as [a kvs|a ks cs IH] using bt_ind'; intros par nxt fuel es Ho Hf;
    (destruct fuel as [|fuel]; [simpl in Hf; lia|]); pose proof Ho as Ho';
    apply owns_head in Ho' as (nd & Hnd & Hok); simpl; rewrite (bind_Ok _ _ _ _ _ (load_ok _ _ _ Hnd)).
  - by destruct Hok as (_ & _ & _ & -> & _).
  - pose proof Hok as (_ & _ & _ & -> & _ & _ & Hlen & _). destruct cs as [|c cs]; [done|].
    erewrite bind_Ok by (eapply child_of_node; [exact Hok|done]).
    apply Forall_cons in IH as [IH _]. eapply IH; [|pose proof (height_child a ks [] c cs); simpl in *; lia].
    unfold entries in Ho. rewrite below_Nd in Ho. cbn [entries_list app] in Ho.
    apply owns_cons in Ho as (_ & _ & Ho). rewrite <- app_assoc in Ho. exact Ho.
Qed.

(** Where a walk starts, for any root the file system can hold. *)
Lemma rep_start h root m :
  tree_rep h root m →
  match root with
  | None => m = ∅
  | Some r => ∃ t, addr t = r ∧ tree_at h t ∧ StronglySorted item_lt (flat t) ∧ to_map t = m ∧
                   leftmost_leaf (S (S (size (nodes h)))) r h = Ok (first_leaf t, h) ∧
                   nleaves t ≤ S (S (size (nodes h))) ∧
                   ((∃ n, wfsh true n t) ∨ (t = Lf r [] ∧ nodes h !! r = Some (fresh_node true)))
  end.
Proof.
  assert (∀ t, tree_at h t → leftmost_leaf (S (S (size (nodes h)))) (addr t) h = Ok (first_leaf t, h) ∧
                             nleaves t ≤ S (S (size (nodes h)))) as H.
  { intros t [_ Ho]. pose proof (nleaves_entries t None PNull) as Hn. pose proof (owns_size _ _ Ho) as Hs.
    pose proof (height_entries t None PNull) as Hh. split; [|lia].
    apply (leftmost_ok h t None PNull _ []); [by rewrite app_nil_r|lia]. }
  destruct root as [r|]; simpl; [|by intros [_ ->]].
  intros [(t & <- & [Hat Hord _ Hsh] & <-)|(Hat & Hf & ->)].
  - destruct (H t Hat) as [??]. exists t. eauto 10.
  - destruct (H _ Hat) as [??]. exists (Lf r []). split; [done|]. split; [done|].
    split; [constructor|]. split; [done|]. eauto.
Qed.

(** ** The order of a walk *)
Definition by_key (a b : string * file_id) : Prop := str_lt a.1 b.1.

Lemma kvs_of_sorted l : StronglySorted item_lt l → StronglySorted by_key (kvs_of l).
Proof.
  induction l as [|[k f|k] l IH]; intros H; [constructor| |];
    apply StronglySorted_inv in H as [H Hx]; cbn; [|by apply IH].
  constructor; [by apply IH|]. apply Forall_forall. intros [k' f'] Hin%kvs_of_elem.
  rewrite Forall_forall in Hx. exact (Hx _ Hin).
Qed.

(** [kvs] is the content of [m] in key order. *)
Definition in_order (m : gmap string file_id) (kvs : list (string * file_id)) : Prop :=
  StronglySorted by_key kvs ∧ kvs ≡ₚ map_to_list m.

Lemma bindings_in_order t : StronglySorted item_lt (flat t) → in_order (to_map t) (bindings t).
Proof.
  intros Hs. split; [by apply kvs_of_sorted|]. unfold to_map.
  by rewrite map_to_list_to_map by by apply sorted_NoDup.
Qed.

Lemma in_order_unique m kvs1 kvs2 : in_order m kvs1 → in_order m kvs2 → kvs1 = kvs2.
Proof.
  intros [H1 P1] [H2 P2]. apply (StronglySorted_unique_strong by_key); [|done|done|by rewrite P1, P2].
  intros a b _ _ Hab Hba. destruct (irreflexivity str_lt a.1). by etrans.
Qed.

Lemma in_order_empty kvs : in_order ∅ kvs → kvs = [].
Proof. intros [_ H]. rewrite map_to_list_empty in H. by apply Permutation_nil_r in H. Qed.

Lemma traverse_rep h root m :
  tree_rep h root m → ∃ kvs, in_order m kvs ∧ traverse_leaves root h = Ok (snd <$> kvs, h).
Proof.
  intros Hrep%rep_start. destruct root as [r|].
  - destruct Hrep as (t & <- & [_ Ho] & Hs & <- & Hlm & Hn & _). exists (bindings t).
    split; [by apply bindings_in_order|]. unfold traverse_leaves.
    rewrite (bind_Ok _ _ _ _ _ (heap_fuel_ok h)), (bind_Ok _ _ _ _ _ Hlm).
    replace (S (S (size (nodes h)))) with (nleaves t + (S (S (size (nodes h))) - nleaves t)) by lia.
    rewrite (walk_tree h t None PNull _ []); [by rewrite app_nil_r|done|done|]. by destruct (_ - _).
  - subst m. exists []. split; [|done]. split; [constructor|]. by rewrite map_to_list_empty.
Qed.

Lemma first_leaf_owned h t : ∀ par nxt, owns (nodes h) (entries par nxt t) →
  ∃ nd p kvs n, nodes h !! first_leaf t = Some nd ∧ node_ok nd (p, SLeaf kvs n) ∧
    ∃ rest, bindings t = kvs ++ rest ∧ ∀ m, wfsh true m t ∨ wfsh false m t → kvs ≠ [].
Proof.
  induction t as [a kvs|a ks cs IH] using bt_ind'; intros par nxt Ho; pose proof Ho as Ho';
    apply owns_head in Ho' as (nd & Hnd & Hok).
  - exists nd, par, kvs, nxt. split; [done|]. split; [done|]. exists []. unfold bindings. simpl.
    rewrite kvs_of_leaf, app_nil_r. split; [done|]. intros [|m] [Hw|Hw] ->; simpl in Hw; try done; lia.
  - pose proof Hok as (_ & _ & _ & _ & _ & _ & Hlen & _). rewrite length_fmap in Hlen.
    destruct cs as [|c cs]; [done|]. unfold entries in Ho. rewrite below_Nd in Ho. cbn [entries_list] in Ho.
    apply owns_cons in Ho as (_ & _ & Ho). apply owns_app in Ho as [Ho _]. apply Forall_cons in IH as [IH _].
    destruct (IH _ _ Ho) as (nd' & p & kvs & n & ? & ? & rest & Hb & Hne). exists nd', p, kvs, n.
    split; [done|]. split; [done|]. rewrite bindings_Nd by done. simpl. rewrite Hb, <- app_assoc. eexists.
    split; [done|]. intros m Hw. assert (∃ m', wfsh false m' c) as [m' Hm'].
    { destruct Hw as [Hw|Hw]; apply wfsh_Nd in Hw as (m' & _ & _ & _ & [Hc _]%Forall_cons); eauto. }
    apply (Hne m'). by right.
Qed.

Lemma get_first_rep h root m :
  tree_rep h root m →
  ∃ kvs, in_order m kvs ∧ B_plus_tree_get_first root h = Ok ((λ kv, new_record kv.2) <$> head kvs, h).
Proof.
  intros Hrep%rep_start. destruct root as [r|].
  - destruct Hrep as (t & <- & [_ Ho] & Hs & <- & Hlm & _ & Hshape). exists (bindings t).
    split; [by apply bindings_in_order|]. unfold B_plus_tree_get_first.
    rewrite (bind_Ok _ _ _ _ _ (heap_fuel_ok h)), (bind_Ok _ _ _ _ _ Hlm).
    destruct Hshape as [[n Hw]|[-> Hf]].
    + destruct (first_leaf_owned h t _ _ Ho) as (nd & p & kvs & nx & Hnd & Hok & rest & -> & Hne).
      rewrite (bind_Ok _ _ _ _ _ (load_ok _ _ _ Hnd)).
      destruct kvs as [|kv kvs]; [by destruct (Hne n (or_introl Hw))|].
      rewrite (bind_Ok _ _ _ _ _ (ptr_of_leaf nd _ _ _ 0 kv h Hok eq_refl)). done.
    + simpl in *. by rewrite (bind_Ok _ _ _ _ _ (load_ok _ _ _ Hf)).
  - subst m. exists []. split; [|done]. split; [constructor|]. by rewrite map_to_list_empty.
Qed.

(** ** The file after a given one *)
Fixpoint next_after (cur : file_id) (fs : list file_id) : option file_id :=
  match fs with
  | [] => None
  | f :: fs' => if decide (f = cur) then head fs' else next_after cur fs'
  end.

(** The scan of the leaves: the file found, or the flag it ends with. *)
Fixpoint scan_next (cur : file_id) (find : bool) (fs : list file_id) : file_id + bool :=
  match fs with
  | [] => inr find
  | f :: fs' => if find then inl f else scan_next cur (bool_decide (f = cur)) fs'
  end.

Lemma scan_next_app cur fs1 : ∀ find fs2,
  scan_next cur find (fs1 ++ fs2) =
  match scan_next cur find fs1 with inl f => inl f | inr b => scan_next cur b fs2 end.
Proof. induction fs1 as [|f fs1 IH]; intros [] fs2; simpl; (done || apply IH). Qed.

Lemma scan_next_after cur fs :
  match scan_next cur false fs with inl f => Some f | inr _ => None end = next_after cur fs.
Proof.
  induction fs as [|f fs IH]; [done|]. simpl. case_decide.
  - rewrite bool_decide_eq_true_2 by done. by destruct fs.
  - by rewrite bool_decide_eq_false_2.
Qed.

Lemma next_slots_ok nd par nxt cur h : ∀ l2 l1 find,
  node_ok nd (par, SLeaf (l1 ++ l2) nxt) →
  next_slots (length l2) (length l1) nd cur find h =
  Ok (match scan_next cur find (snd <$> l2) with
      | inl f => (Some (new_record f), true) | inr b => (None, b) end, h).
Proof.
  induction l2 as [|kv l2 IH]; intros l1 find Hok; [done|]. simpl.
  rewrite (bind_Ok _ _ _ _ _ (ptr_of_leaf nd _ _ _ (length l1) kv h Hok (list_lookup_middle _ _ _ _ eq_refl))).
  destruct find; [done|].
  specialize (IH (l1 ++ [kv])). rewrite length_app, <- app_assoc, Nat.add_1_r in IH.
  erewrite bind_Ok by done. by apply IH.
Qed.

Lemma next_tree h cur t : ∀ par nxt fuel find,
  owns (nodes h) (entries par nxt t) → link nxt →
  next_leaves (nleaves t + fuel) (Some (first_leaf t)) cur find h =
  match scan_next cur find (files t) with
  | inl f => Ok (Some (new_record f), h)
  | inr b => next_leaves fuel (ptr_loc nxt) cur b h
  end.
Proof.
  induction t as [a kvs|a ks cs IH] using bt_ind'; intros par nxt fuel find Ho Hl.
  - apply owns_head in Ho as (nd & Hnd & Hok). simpl. rewrite (bind_Ok _ _ _ _ _ (load_ok _ _ _ Hnd)).
    pose proof Hok as (_ & _ & _ & _ & -> & _).
    rewrite (bind_Ok _ _ _ _ _ (next_slots_ok nd _ _ cur h kvs [] find Hok)).
    unfold files, bindings. simpl. rewrite kvs_of_leaf. destruct (scan_next cur find (snd <$> kvs)); [done|].
    by rewrite (bind_Ok _ _ _ _ _ (next_leaf_ok _ _ _ _ h Hok Hl)).
  - pose proof Ho as Ho'. apply owns_head in Ho' as (nd & _ & Hok).
    pose proof Hok as (_ & _ & _ & _ & _ & _ & Hlen & _). rewrite length_fmap in Hlen.
    rewrite files_Nd by done. unfold entries in Ho. rewrite below_Nd in Ho. apply owns_cons in Ho as (_ & _ & Ho).
    assert (∀ p find, cs ≠ [] → owns (nodes h) (entries_list p cs nxt) →
      next_leaves (nleaves_list cs + fuel) (ptr_loc (head_next cs nxt)) cur find h =
      match scan_next cur find (files_list cs) with
      | inl f => Ok (Some (new_record f), h)
      | inr b => next_leaves fuel (ptr_loc nxt) cur b h
      end) as Hcs.
    { clear Ho Hlen Hok find. intros p find _. revert find.
      induction IH as [|c cs Hc Hcs IH2]; intros find Ho; [done|].
      cbn [entries_list] in Ho. apply owns_app in Ho as (Hoc & Hocs & _).
      simpl. rewrite <- Nat.add_assoc. unfold files_list. simpl. rewrite scan_next_app.
      rewrite (Hc _ _ _ find Hoc (head_next_link _ _ Hl)). destruct (scan_next cur find (files c)) as [f|b]; [done|].
      apply IH2, Hocs. }
    destruct cs as [|c cs]; [done|]. by apply (Hcs (Some a)).
Qed.

Lemma get_next_rep h root m cur :
  tree_rep h root m →
  ∃ kvs, in_order m kvs ∧
    B_plus_tree_get_next root cur h = Ok (new_record <$> next_after cur (snd <$> kvs), h).
Proof.
  intros Hrep%rep_start. destruct root as [r|].
  - destruct Hrep as (t & <- & [_ Ho] & Hs & <- & Hlm & Hn & _). exists (bindings t).
    split; [by apply bindings_in_order|]. unfold B_plus_tree_get_next.
    rewrite (bind_Ok _ _ _ _ _ (heap_fuel_ok h)), (bind_Ok _ _ _ _ _ Hlm).
    replace (S (S (size (nodes h)))) with (nleaves t + (S (S (size (nodes h))) - nleaves t)) by lia.
    rewrite (next_tree h cur t None PNull) by done. rewrite <- (scan_next_after cur (snd <$> bindings t)).
    fold (files t). destruct (scan_next cur false (files t)); [done|]. by destruct (_ - _).
  - subst m. exists []. split; [|done]. split; [constructor|]. by rewrite map_to_list_empty.
Qed.

(** ** Emptiness and destruction *)
Lemma empty_rep h r m :
  tree_rep h (Some r) m → B_plus_tree_empty (Some r) h = Ok (bool_decide (m = ∅), h).
Proof.
  intros Hrep%rep_start. destruct Hrep as (t & <- & [_ Ho] & Hs & <- & _ & _ & Hshape).
  apply owns_head in Ho as (nd & Hnd & Hok). unfold B_plus_tree_empty. erewrite bind_Ok by done.
  rewrite (bind_Ok _ _ _ _ _ (load_ok _ _ _ Hnd)).
  destruct (leaf_or_node_flags _ _ _ _ Hok) as (-> & _).
  unfold mret, M_ret. do 2 f_equal. apply bool_decide_ext.
  destruct Hshape as [[n Hw]|[-> _]]; [|done].
  pose proof (wfsh_bindings n t Hw) as Hne. split; intros H; exfalso.
  - destruct t, n; simpl in *; try done; lia.
  - apply Hne. apply in_order_empty. rewrite <- H. by apply bindings_in_order.
Qed.

(** The loop of [delete_B_plus_tree] removes the first key until none is left:
    one step per stored key. *)
Lemma delete_first h r m :
  tree_rep h (Some r) m → m ≠ ∅ →
  ∃ p nd k, leftmost_leaf (S (S (size (nodes h)))) r h = Ok (p, h) ∧ load p h = Ok (nd, h) ∧
    num_keys nd ≠ 0 ∧ key_of nd 0 h = Ok (k, h) ∧ is_Some (m !! k).
Proof.
  intros Hrep%rep_start Hne. destruct Hrep as (t & <- & [_ Ho] & Hs & <- & Hlm & _ & Hshape).
  destruct (first_leaf_owned h t _ _ Ho) as (nd & p & kvs & nx & Hnd & Hok & rest & Hb & Hkne).
  destruct Hshape as [[n Hw]|[Heq _]]; [|destruct Hne; by rewrite Heq].
  destruct kvs as [|kv kvs]; [by destruct (Hkne n (or_introl Hw))|].
  exists (first_leaf t), nd, kv.1. split; [done|]. split; [by apply load_ok|].
  split; [by destruct Hok as (_ & _ & _ & _ & -> & _)|]. split; [by eapply key_of_leaf|].
  exists kv.2. unfold to_map. apply elem_of_list_to_map_1; [by apply sorted_NoDup|].
  rewrite Hb. destruct kv. left.
Qed.

Lemma delete_loop_rep fuel : ∀ h root m,
  tree_rep h root m → size m ≤ fuel → m ≠ ∅ →
  ∃ h', delete_loop (S fuel) root h = Ok (None, h') ∧ heap_ok h'.
Proof.
  induction fuel as [|fuel IH]; intros h root m Hrep Hsz Hne; [by apply map_size_empty_inv in Hsz || (exfalso; apply Hne, map_size_empty_iff; lia)|].
  destruct root as [r|]; [|by destruct Hrep].
  destruct (delete_first h r m Hrep Hne) as (p & nd & k & Hlm & Hld & Hn & Hk & [f Hf]).
  remember (S fuel) as fuel1 eqn:Hfuel1. cbn [delete_loop].
  rewrite (bind_Ok _ _ _ _ _ (heap_fuel_ok h)), (bind_Ok _ _ _ _ _ Hlm), (bind_Ok _ _ _ _ _ Hld).
  rewrite decide_False by done. rewrite (bind_Ok _ _ _ _ _ Hk).
  destruct (remove_present h (Some r) m k f Hrep Hf) as (root' & h' & Hrun & Hrep' & Hlast).
  rewrite (bind_Ok _ _ _ _ _ Hrun). subst fuel1. destruct (decide (delete k m = ∅)) as [He|He].
  - rewrite (Hlast He) in Hrep' |- *. exists h'. split; [done|apply Hrep'].
  - apply (IH _ _ _ Hrep'); [|done]. rewrite map_size_delete_Some by eauto. lia.
Qed.

Lemma delete_tree_rep h root m fuel :
  tree_rep h root m → size m ≤ fuel →
  ∃ root' h', delete_B_plus_tree fuel root h = Ok (root', h') ∧ tree_rep h' root' ∅ ∧
              (m ≠ ∅ → root' = None) ∧ (m = ∅ → root' = root ∧ h' = h).
Proof.
  intros Hrep Hsz. unfold delete_B_plus_tree. destruct (decide (m = ∅)) as [->|Hne].
  - exists root, h. split; [|done]. pose proof Hrep as Hst. apply rep_start in Hst. destruct root as [r|]; [|done].
    destruct Hst as (t & <- & [_ Ho] & Hs & Hm & Hlm & _ & [[n Hw]|[Heq Hf]]).
    + destruct (wfsh_bindings n t Hw). apply in_order_empty. rewrite <- Hm. by apply bindings_in_order.
    + remember fuel as fuel'. cbn [delete_loop]. rewrite (bind_Ok _ _ _ _ _ (heap_fuel_ok h)), (bind_Ok _ _ _ _ _ Hlm).
      rewrite Heq. simpl. by rewrite (bind_Ok _ _ _ _ _ (load_ok _ _ _ Hf)).
  - destruct (delete_loop_rep fuel h root m Hrep Hsz Hne) as (h' & Hrun & Hh). exists None, h'.
    split; [done|]. split; [done|]. split; [done|]. done.
Qed.
