(* ===== verification/BPlusTreeTotal.v ===== *)
(** * The B+ tree operations on any input

    Lookups and walks change nothing, whatever the heap; an insertion that ends
    leaves a tree for the old map or for the map with the new binding; and
    [B_plus_tree_initial] makes an empty tree on any well-formed heap. *)
From S2P Require Import Prelude Triple BPlusTree BPlusTreeSpec BPlusTreeLemmas BPlusTreeFind.
From S2P Require Import BPlusTreeNode BPlusTreeWp BPlusTreeInsert BPlusTreeRemove BPlusTreeWalk.

(** ** Read-only operations *)
Notation readonly m := (∀ h0 : heap, triple (λ _, True) (λ h, h = h0) m (λ _ h, h = h0)) (only parsing).

Lemma readonly_inv {A} (m : M heap A) h a h' : readonly m → m h = Ok (a, h') → h' = h.
Proof. intros Hm E. specialize (Hm h h eq_refl). by rewrite E in Hm. Qed.

Lemma load_readonly l : readonly (load l).
Proof. intros h0. unfold load. vcg. Qed.
Lemma key_of_readonly n i : readonly (key_of n i).
Proof. intros h0. unfold key_of. vcg. Qed.
Lemma ptr_of_readonly n i : readonly (ptr_of n i).
Proof. intros h0. unfold ptr_of. vcg. Qed.
Lemma as_node_readonly p : readonly (as_node p).
Proof. intros h0. unfold as_node. vcg. Qed.
#[local] Hint Resolve load_readonly key_of_readonly ptr_of_readonly as_node_readonly : vcg.
Lemma child_of_readonly n i : readonly (child_of n i).
Proof. intros h0. unfold child_of. vcg. Qed.
Lemma heap_fuel_readonly : readonly heap_fuel.
Proof. intros h0. unfold heap_fuel. vcg. Qed.
Lemma for_while_readonly n (test : nat → M heap bool) : ∀ i, (∀ j, readonly (test j)) → readonly (for_while n i test).
Proof.
  induction n as [|n IH]; intros i Ht h0; simpl; [vcg|]. vcg_step; [apply Ht|]. vcg_step. vcg_step; [by apply IH|vcg].
Qed.
#[local] Hint Resolve child_of_readonly heap_fuel_readonly : vcg.
#[local] Hint Extern 3 (triple _ _ (for_while _ _ _) _) => apply for_while_readonly; intros ??; vcg : vcg.
Lemma find_leaf_loop_readonly fuel : ∀ l k, readonly (find_leaf_loop fuel l k).
Proof. induction fuel as [|fuel IH]; intros l k h0; simpl; vcg. Qed.
#[local] Hint Resolve find_leaf_loop_readonly : vcg.
Lemma find_leaf_readonly r k : readonly (find_leaf r k).
Proof. intros h0. unfold find_leaf. vcg. Qed.
Lemma insert_scan_readonly n : ∀ i nd k c, readonly (insert_scan n i nd k c).
Proof. induction n as [|n IH]; intros i nd k c h0; simpl; vcg. Qed.
Lemma leftmost_leaf_readonly fuel : ∀ p, readonly (leftmost_leaf fuel p).
Proof. induction fuel as [|fuel IH]; intros p h0; simpl; vcg. Qed.
Lemma rec_file_readonly p : readonly (rec_file p).
Proof. intros h0. unfold rec_file. vcg. Qed.
#[local] Hint Resolve find_leaf_readonly insert_scan_readonly leftmost_leaf_readonly rec_file_readonly : vcg.
Lemma walk_slots_readonly n : ∀ i nd, readonly (walk_slots n i nd).
Proof. induction n as [|n IH]; intros i nd h0; simpl; vcg. Qed.
Lemma next_leaf_readonly nd : readonly (next_leaf nd).
Proof. intros h0. unfold next_leaf. vcg. Qed.
#[local] Hint Resolve walk_slots_readonly next_leaf_readonly : vcg.
Lemma walk_leaves_readonly fuel : ∀ p, readonly (walk_leaves fuel p).
Proof. induction fuel as [|fuel IH]; intros p h0; simpl; vcg. Qed.
#[local] Hint Resolve walk_leaves_readonly : vcg.
Lemma traverse_leaves_readonly r : readonly (traverse_leaves r).
Proof. intros h0. unfold traverse_leaves. vcg. Qed.

(** ** Insertion of any key *)

Section misfit.
Variables (key : string) (Hfit : ¬ fits key).
Abbreviation anyf := (λ _ : fault, True).

Lemma copy_misfit P : triple (W := heap) anyf P (copy_key key) (λ _ _, False).
Proof. intros h _. unfold copy_key, fits in *. by rewrite bool_decide_eq_false_2. Qed.
Lemma triple_absurd {A} (m : M heap A) Q : triple anyf (λ _, False) m Q.
Proof. by intros h []. Qed.

Lemma leaf_misfit r l i rec P Q :
  (∀ h0, P h0 → True) → triple anyf P (insert_into_leaf_after_splitting r l i key rec) Q.
Proof.
  intros _. unfold insert_into_leaf_after_splitting. eapply triple_bind with (R := λ _ _, True).
  { intros h _. by destruct (load l h) as [[]|]. }
  intros n. eapply triple_bind; [apply copy_misfit|]. intros ?. apply triple_absurd.
Qed.

(** A key that does not fit is never stored. *)
Lemma insert_misfit h c root f root' h' :
  B_plus_tree_insert c root key f h = Ok (root', h') → root' = root ∧ h' = h.
Proof.
  assert (Ht : triple anyf (λ h1, h1 = h) (B_plus_tree_insert c root key f) (λ r h1, r = root ∧ h1 = h)).
  2:{ intros E. specialize (Ht h eq_refl). by rewrite E in Ht. }
  assert (Hmake : ∀ P Q f', triple anyf P (temp ← make_new_leaf; key' ← copy_key key; f' temp key' : M heap (option loc)) Q).
  { intros P Q f'. eapply triple_bind with (R := λ _ _, True).
    { intros h1 _. by destruct (make_new_leaf h1) as [[]|]. }
    intros ?. eapply triple_bind; [apply copy_misfit|]. intros ?. apply triple_absurd. }
  unfold B_plus_tree_insert. vcg_step; [apply find_leaf_readonly|]. intros [leaf|]; [|apply Hmake].
  destruct root as [r|]; [|apply Hmake]. vcg_step; [vcg|]. do 2 vcg_step; [apply insert_scan_readonly|].
  intros [index cond]. destruct (decide _); [by apply triple_ret|]. destruct (decide _).
  - eapply triple_bind; [apply copy_misfit|]. intros ?. apply triple_absurd.
  - eapply triple_bind; [by apply leaf_misfit with (Q := λ _ _, False)|]. intros ?. apply triple_absurd.
Qed.
End misfit.

(** Whatever the key and the initial value of [cond]. *)
Lemma insert_any h c root m key f root' h' :
  tree_rep h root m → B_plus_tree_insert c root key f h = Ok (root', h') →
  tree_rep h' root' m ∨ (m !! key = None ∧ tree_rep h' root' (<[key := f]> m)).
Proof.
  intros Hrep Hrun. destruct (decide (fits key)) as [Hfit|Hfit].
  2:{ destruct (insert_misfit key Hfit h c root f root' h' Hrun) as [-> ->]. by left. }
  destruct (m !! key) as [g|] eqn:Hkey.
  { left. destruct root as [r|]; simpl in Hrep; [|by destruct Hrep as [_ ->]].
    destruct Hrep as [(t & <- & Hinv & <-)|(_ & _ & ->)]; [|done].
    erewrite insert_duplicate in Hrun by done. injection Hrun as <- <-. left. eauto. }
  destruct (decide (m = ∅ → root = None ∨ c ≠ 0%Z)) as [Hc|Hc].
  { right. split; [done|]. destruct (insert_rep h c root m key f Hrep Hfit Hkey Hc) as (r1 & h1 & Hr & Hrep1).
    rewrite Hr in Hrun. by injection Hrun as <- <-. }
  left. destruct root as [r|]; [|exfalso; apply Hc; by left].
  assert (m = ∅ ∧ c = 0%Z) as [-> ->].
  { destruct (decide (m = ∅)); [|exfalso; apply Hc; done]. split; [done|].
    destruct (decide (c = 0%Z)); [done|]. exfalso. apply Hc. by right. }
  simpl in Hrep. destruct Hrep as [(t & <- & [_ Hord _ [n Hw]] & Hm)|(Hat & Hf & _)].
  { exfalso. pose proof (wfsh_bindings n t Hw) as Hne. apply Hne. apply in_order_empty.
    rewrite <- Hm. apply bindings_in_order. exact Hord. }
  unfold B_plus_tree_insert in Hrun. rewrite (bind_Ok _ _ _ _ _ (find_leaf_single _ _ _ key Hat)) in Hrun.
  rewrite (bind_Ok _ _ _ _ _ (load_ok _ _ _ Hf)) in Hrun. injection Hrun as <- <-. by right.
Qed.

Lemma initial_rep h : heap_ok h → ∃ r h', B_plus_tree_initial h = Ok (r, h') ∧ tree_rep h' (Some r) ∅.
Proof.
  intros Hh.
  assert (wp [] B_plus_tree_initial (λ r es', es' = [(r, (None, SExact (fresh_node true)))])) as Hwp.
  { apply wp_tail. unfold B_plus_tree_initial. apply wp_alloc_leaf. intros l. by apply wp_ret. }
  destruct (Hwp h Hh (owns_nil _)) as (r & h' & es' & Hrun & Hh' & Ho & ->).
  exists r, h'. split; [done|]. right. destruct Ho as [Hs Hnd].
  apply Forall_cons in Hs as [(nd & Hr & Hok) _]. change (nd = fresh_node true) in Hok. simpl in Hr. subst nd.
  split; [|done]. split; [done|]. split; [|done]. repeat constructor. exists (fresh_node true).
  split; [done|]. vm_compute. repeat split; lia.
Qed.

Lemma rep_heap_ok h root m : tree_rep h root m → heap_ok h.
Proof. destruct root; simpl; [|by intros []]. by intros [(t & _ & [[] _ _ _] & _)|([] & _)]. Qed.
