(* ===== verification/BPlusTreeTheorems.v ===== *)
(** * The B+ tree implements a finite map from names to files

    The contract of include/spdk/Bplus_Tree.h, operation by operation, and the
    refinement of a finite map by any sequence of operations. *)
From S2P Require Import Prelude BPlusTree BPlusTreeSpec BPlusTreeLemmas BPlusTreeFind.
From S2P Require Import BPlusTreeNode BPlusTreeWp BPlusTreeInsert BPlusTreeRemove BPlusTreeWalk.

(** ** A tree of five files: a root over two leaves *)
Fixpoint insert_all (kvs : list (string * file_id)) (root : option loc) : M heap (option loc) :=
  match kvs with
  | [] => mret root
  | (k, f) :: kvs' => root' ← B_plus_tree_insert 1 root k f; insert_all kvs' root'
  end.

Definition demo_files : list (string * file_id) :=
  [("log", 1); ("data", 2); ("index", 3); ("a", 4); ("tmp", 5)].
Definition demo_heap : heap :=
  match insert_all demo_files None empty_heap with Ok (_, h) => h | Fault _ => empty_heap end.
Definition demo_root : option loc :=
  match insert_all demo_files None empty_heap with Ok (r, _) => r | Fault _ => None end.
Definition demo_tree : bt :=
  Nd 3 ["index"] [Lf 1 [("a", 4); ("data", 2)]; Lf 2 [("index", 3); ("log", 1); ("tmp", 5)]].
Definition demo_map : gmap string file_id := list_to_map demo_files.

Lemma demo_rep : tree_rep demo_heap demo_root demo_map.
Proof.
  assert (demo_root = Some (addr demo_tree)) as -> by (vm_compute; reflexivity).
  left. exists demo_tree. split; [done|]. split; [constructor|].
  - split.
    + intros l Hl. assert (next_loc demo_heap = 4) as -> by (vm_compute; reflexivity).
      destruct (decide (l < 4)); [done|]. exfalso. apply elem_of_dom in Hl. revert Hl.
      assert (dom (nodes demo_heap) = ({[1; 2; 3]} : gset nat)) as -> by (vm_compute; reflexivity).
      set_solver by lia.
    + split.
      * repeat constructor; (eexists; split; [vm_compute; reflexivity|vm_compute; repeat split; lia]).
      * vm_compute. repeat constructor; set_solver.
  - unfold ordered. simpl. repeat constructor; vm_compute; congruence.
  - repeat constructor; vm_compute; lia.
  - exists 1. simpl. repeat split; lia.
  - vm_compute. reflexivity.
Qed.

(** ** Single operations *)

(** [B_plus_tree_find] on any tree that stands for a map [m] terminates
    without fault, leaves the tree as it is, and returns the record of the file
    stored under the key, or NULL when there is none. *)
Theorem find_correct h root m key :
  tree_rep h root m → B_plus_tree_find root key h = Ok (new_record <$> m !! key, h).
Proof. apply find_rep. Qed.

Lemma find_correct_witness :
  tree_rep demo_heap demo_root demo_map ∧
  B_plus_tree_find demo_root "index" demo_heap = Ok (Some (mk_record 3), demo_heap).
Proof. split; [exact demo_rep|]. exact (find_correct demo_heap demo_root demo_map "index" demo_rep). Defined.

Definition insert_new (m : gmap string file_id) (key : string) (f : file_id) : gmap string file_id :=
  match m !! key with Some _ => m | None => <[key := f]> m end.

Lemma insert_either h cond0 root m key f :
  tree_rep h root m → fits key → (m = ∅ → root = None ∨ cond0 ≠ 0%Z) →
  ∃ root' h', B_plus_tree_insert cond0 root key f h = Ok (root', h') ∧
    tree_rep h' root' (insert_new m key f).
Proof.
  intros Hrep Hfit Hc. unfold insert_new. destruct (m !! key) as [g|] eqn:E; [|by apply insert_rep].
  exists root, h. split; [|done]. destruct root as [r|]; simpl in Hrep.
  - destruct Hrep as [(t & <- & Hinv & <-)|(_ & _ & ->)]; [|done]. by eapply insert_duplicate.
  - by destruct Hrep as [_ ->].
Qed.

(** [B_plus_tree_insert] terminates without fault and the new tree, again
    ordered, balanced and with every node between its occupancy bounds, stands
    for the map with the binding added; when the key was bound already, the
    tree stands for the same map.  The one restriction is the code's: on the
    empty leaf of [B_plus_tree_initial] the uninitialised [cond] must not
    happen to be zero. *)
Theorem insert_correct h cond0 root m key f :
  tree_rep h root m → fits key → (m = ∅ → root = None ∨ cond0 ≠ 0%Z) →
  ∃ root' h', B_plus_tree_insert cond0 root key f h = Ok (root', h') ∧
    tree_rep h' root' (insert_new m key f).
Proof. apply insert_either. Qed.

Lemma insert_correct_witness :
  ∃ root' h', B_plus_tree_insert 0 demo_root "boot" 6 demo_heap = Ok (root', h') ∧
    tree_rep h' root' (<["boot" := 6]> demo_map).
Proof.
  apply (insert_correct demo_heap 0 demo_root demo_map "boot" 6).
  - exact demo_rep.
  - vm_compute. lia.
  - intros H. exfalso. revert H. vm_compute. discriminate.
Defined.

(** C17. [B_plus_tree_remove] terminates without fault, whatever merging and
    redistribution it takes, and the remaining tree, again ordered, balanced and
    within its occupancy bounds, stands for the map without the key; a key that
    is not there changes nothing. *)
Theorem remove_correct h root m key :
  tree_rep h root m →
  ∃ root' h', B_plus_tree_remove root key h = Ok (root', h') ∧ tree_rep h' root' (delete key m) ∧
    (m !! key = None → root' = root ∧ h' = h) ∧
    (is_Some (m !! key) → delete key m = ∅ → root' = None).
Proof.
  intros Hrep. destruct (m !! key) as [f|] eqn:E.
  - destruct (remove_present h root m key f Hrep E) as (root' & h' & ? & ? & ?).
    exists root', h'. naive_solver.
  - exists root, h. rewrite delete_id by done. split; [by eapply remove_absent|].
    split; [done|]. split; [done|]. by intros [].
Qed.

Lemma remove_correct_witness :
  ∃ root' h', B_plus_tree_remove demo_root "a" demo_heap = Ok (root', h') ∧
    tree_rep h' root' (delete "a" demo_map) ∧
    (demo_map !! "a" = None → root' = demo_root ∧ h' = demo_heap) ∧
    (is_Some (demo_map !! "a") → delete "a" demo_map = ∅ → root' = None).
Proof. apply (remove_correct demo_heap demo_root demo_map "a"). exact demo_rep. Defined.

(** ** The leaves in order *)

(** [traverse_leaves] calls its function on every stored file, once each, in
    increasing order of the file names. *)
Theorem traverse_correct h root m :
  tree_rep h root m → ∃ kvs, in_order m kvs ∧ traverse_leaves root h = Ok (snd <$> kvs, h).
Proof. apply traverse_rep. Qed.

Lemma traverse_correct_witness :
  ∃ kvs, in_order demo_map kvs ∧ traverse_leaves demo_root demo_heap = Ok (snd <$> kvs, demo_heap).
Proof. apply (traverse_correct demo_heap demo_root demo_map). exact demo_rep. Defined.

(** Iteration: [B_plus_tree_get_first] is the first file in name order and
    [B_plus_tree_get_next] the file that follows the given one, NULL at the end. *)
Theorem iterate_correct h root m cur :
  tree_rep h root m →
  ∃ kvs, in_order m kvs ∧
    B_plus_tree_get_first root h = Ok ((λ kv, new_record kv.2) <$> head kvs, h) ∧
    B_plus_tree_get_next root cur h = Ok (new_record <$> next_after cur (snd <$> kvs), h).
Proof.
  intros Hrep. destruct (get_first_rep h root m Hrep) as (kvs & Hkvs & Hf).
  destruct (get_next_rep h root m cur Hrep) as (kvs' & Hkvs' & Hn).
  exists kvs. split; [done|]. split; [done|]. by rewrite (in_order_unique _ _ _ Hkvs Hkvs').
Qed.

Lemma iterate_correct_witness :
  ∃ kvs, in_order demo_map kvs ∧
    B_plus_tree_get_first demo_root demo_heap = Ok ((λ kv, new_record kv.2) <$> head kvs, demo_heap) ∧
    B_plus_tree_get_next demo_root 2 demo_heap =
      Ok (new_record <$> next_after 2 (snd <$> kvs), demo_heap).
Proof. apply (iterate_correct demo_heap demo_root demo_map 2). exact demo_rep. Defined.

(** C30. [delete_B_plus_tree] terminates, after at most one removal per stored
    file, with nothing left. *)
Theorem delete_tree_correct h root m fuel :
  tree_rep h root m → size m ≤ fuel →
  ∃ root' h', delete_B_plus_tree fuel root h = Ok (root', h') ∧ tree_rep h' root' ∅ ∧
              (m ≠ ∅ → root' = None) ∧ (m = ∅ → root' = root ∧ h' = h).
Proof. apply delete_tree_rep. Qed.

Lemma delete_tree_correct_witness :
  ∃ root' h', delete_B_plus_tree 5 demo_root demo_heap = Ok (root', h') ∧ tree_rep h' root' ∅ ∧
              (demo_map ≠ ∅ → root' = None) ∧ (demo_map = ∅ → root' = demo_root ∧ h' = demo_heap).
Proof.
  apply (delete_tree_correct demo_heap demo_root demo_map 5); [exact demo_rep|vm_compute; lia].
Defined.

(** ** Sequences of operations *)
Inductive tree_op : Type :=
| OInsert (cond0 : Z) (key : string) (f : file_id)
| ORemove (key : string)
| OFind (key : string).

Definition op_fits (o : tree_op) : Prop := match o with OInsert _ k _ => fits k | _ => True end.

(** The tree's operations, with the answers to the lookups. *)
Fixpoint run_ops (ops : list tree_op) (root : option loc) : M heap (list (option file_id) * option loc) :=
  match ops with
  | [] => mret ([], root)
  | OInsert c k f :: ops' => root' ← B_plus_tree_insert c root k f; run_ops ops' root'
  | ORemove k :: ops' => root' ← B_plus_tree_remove root k; run_ops ops' root'
  | OFind k :: ops' =>
      r ← B_plus_tree_find root k; '(rs, root') ← run_ops ops' root;
      mret ((match r with Some (mk_record f) => Some f | None => None end) :: rs, root')
  end.

(** The specification: a finite map. *)
Fixpoint spec_ops (ops : list tree_op) (m : gmap string file_id) : list (option file_id) * gmap string file_id :=
  match ops with
  | [] => ([], m)
  | OInsert _ k f :: ops' => spec_ops ops' (insert_new m k f)
  | ORemove k :: ops' => spec_ops ops' (delete k m)
  | OFind k :: ops' => let '(rs, m') := spec_ops ops' m in (m !! k :: rs, m')
  end.

Lemma insert_new_ne m k f : insert_new m k f ≠ ∅.
Proof.
  unfold insert_new. destruct (m !! k) eqn:E; [|apply insert_non_empty]. intros ->. done.
Qed.

Lemma run_ops_refines ops : ∀ h root m,
  tree_rep h root m → (m = ∅ → root = None) → Forall op_fits ops →
  ∃ root' h', run_ops ops root h = Ok (((spec_ops ops m).1, root'), h') ∧
    tree_rep h' root' (spec_ops ops m).2.
Proof.
  induction ops as [|[c k f|k|k] ops IH]; intros h root m Hrep Hnull Hfit; simpl.
  - exists root, h. done.
  - apply Forall_cons in Hfit as [Hk Hfit].
    destruct (insert_either h c root m k f Hrep Hk) as (root' & h' & Hrun & Hrep'); [auto|].
    rewrite (bind_Ok _ _ _ _ _ Hrun). apply (IH _ _ _ Hrep'); [|done].
    intros He. by destruct (insert_new_ne m k f).
  - apply Forall_cons in Hfit as [_ Hfit]. destruct (m !! k) as [f|] eqn:E.
    + destruct (remove_present h root m k f Hrep E) as (root' & h' & Hrun & Hrep' & Hn).
      rewrite (bind_Ok _ _ _ _ _ Hrun). by apply (IH _ _ _ Hrep').
    + rewrite (bind_Ok _ _ _ _ _ (remove_absent h root m k Hrep E)), delete_id by done.
      by apply IH.
  - apply Forall_cons in Hfit as [_ Hfit]. rewrite (bind_Ok _ _ _ _ _ (find_rep h root m k Hrep)).
    destruct (IH h root m Hrep Hnull Hfit) as (root' & h' & Hrun & Hrep').
    rewrite (bind_Ok _ _ _ _ _ Hrun). destruct (spec_ops ops m) as [rs m'] eqn:E. simpl in *.
    exists root', h'. split; [|done]. by destruct (m !! k).
Qed.

(** C1. Refinement: any sequence of insertions, removals and lookups on a tree
    that starts as NULL runs without fault and answers every lookup as the
    finite map does. *)
Theorem tree_refines_map ops :
  Forall op_fits ops →
  ∃ root' h', run_ops ops None empty_heap = Ok (((spec_ops ops ∅).1, root'), h') ∧
    tree_rep h' root' (spec_ops ops ∅).2.
Proof.
  apply run_ops_refines; [|done]. split; [|done]. intros l [? H]. simpl in H; by rewrite lookup_empty in H.
Qed.

Lemma tree_refines_map_witness :
  ∃ root' h', run_ops [OInsert 0 "b" 1; OInsert 0 "a" 2; OFind "a"; ORemove "b"; OFind "b"] None empty_heap
    = Ok (([Some 2; None], root'), h') ∧ tree_rep h' root' {["a" := 2]}.
Proof.
  apply (tree_refines_map [OInsert 0 "b" 1; OInsert 0 "a" 2; OFind "a"; ORemove "b"; OFind "b"]).
  repeat constructor; vm_compute; lia.
Defined.

(** ** What the code does on an empty leaf *)

(** C31. The uninitialised [cond]: on the empty leaf that [B_plus_tree_initial]
    makes, an insertion whose stack slot happens to hold zero takes the new file
    for a duplicate and drops it, and the lookup that follows finds nothing. *)
Theorem first_insert_may_be_lost h r key f :
  tree_at h (Lf r []) → nodes h !! r = Some (fresh_node true) →
  B_plus_tree_insert 0 (Some r) key f h = Ok (Some r, h) ∧
  B_plus_tree_find (Some r) key h = Ok (None, h).
Proof.
  intros Hat Hf. split.
  - unfold B_plus_tree_insert. rewrite (bind_Ok _ _ _ _ _ (find_leaf_single _ _ _ key Hat)).
    by rewrite (bind_Ok _ _ _ _ _ (load_ok _ _ _ Hf)).
  - rewrite (find_rep h (Some r) ∅ key) by (by right). by rewrite lookup_empty.
Qed.

Lemma first_insert_may_be_lost_witness :
  ∃ h, B_plus_tree_initial empty_heap = Ok (1, h) ∧
    B_plus_tree_insert 0 (Some 1) "boot" 7 h = Ok (Some 1, h) ∧
    B_plus_tree_find (Some 1) "boot" h = Ok (None, h).
Proof.
  exists (mk_heap {[1 := fresh_node true]} 2). split; [vm_compute; reflexivity|].
  apply (first_insert_may_be_lost _ 1 "boot" 7).
  - split.
    + intros l Hl. simpl in *. destruct (decide (l = 1)) as [->|]; [lia|].
      destruct Hl as [? Hl]. by rewrite lookup_singleton_ne in Hl by done.
    + split; [repeat constructor; eexists; split; [reflexivity|vm_compute; repeat split; lia]|].
      repeat constructor. by intros ?%elem_of_nil.
  - reflexivity.
Defined.
