(* ===== verification/CacheTree.v ===== *)
(** * The tree of cache buffers of a file (lib/NBFS/tree.c, tree.h)

    A radix tree with 64 slots per node over blocks of 256 KiB.  A slot of the
    union [u] is NULL, a buffer or a child; reading a slot through the wrong
    member of the union is a fault.  The buffers live in a store shared by all
    files, together with the count of free elements of the memory pool that
    their data comes from. *)
From S2P Require Import Prelude.
Local Open Scope Z_scope.

Abbreviation buf_id := nat (only parsing).

Definition CACHE_BUFFER_SHIFT : Z := 18.
Definition CACHE_BUFFER_SIZE : Z := Z.shiftl 1 CACHE_BUFFER_SHIFT.
Definition CACHE_TREE_SHIFT : Z := 6.
Definition CACHE_TREE_WIDTH : Z := Z.shiftl 1 CACHE_TREE_SHIFT.
Definition CACHE_TREE_LEVEL_SHIFT (level : Z) : Z := CACHE_BUFFER_SHIFT + level * CACHE_TREE_SHIFT.

Definition NEXT_CACHE_BUFFER_OFFSET (offset : Z) : Z :=
  Z.shiftl (Z.shiftr (u64 (offset + CACHE_BUFFER_SIZE)) CACHE_BUFFER_SHIFT) CACHE_BUFFER_SHIFT.

(** [data] is the content of [buf]; only its first [buf_size] bytes are accessed. *)
Record cache_buffer : Type := mk_cache_buffer {
  buf_data : Z → Z;
  buf_offset : Z;
  buf_size : Z;
  bytes_filled : Z;
  bytes_flushed : Z;
  in_progress : bool
}.

Record pool : Type := mk_pool { bufs : gmap buf_id cache_buffer; pool_count : Z; next_buf : buf_id }.

Definition set_bufs (b : gmap buf_id cache_buffer) (p : pool) : pool := mk_pool b (pool_count p) (next_buf p).
Definition set_pool_count (n : Z) (p : pool) : pool := mk_pool (bufs p) n (next_buf p).

Definition load_buf (b : buf_id) : M pool cache_buffer :=
  p ← get; of_option UseAfterFree (bufs p !! b).
Definition store_buf (b : buf_id) (c : cache_buffer) : M pool unit :=
  modify (λ p, set_bufs (<[b := c]> (bufs p)) p).
(** The data goes back to the memory pool, the descriptor to the allocator. *)
Definition cache_buffer_free (b : buf_id) : M pool unit :=
  _ ← load_buf b;
  modify (λ p, set_pool_count (pool_count p + 1) (set_bufs (delete b (bufs p)) p)).

(** ** Trees *)
Inductive slot (T : Type) : Type :=
| SNull
| SBuf (b : buf_id)
| STree (t : T).
Arguments SNull {T}.
Arguments SBuf {T} _.
Arguments STree {T} _.

#[warnings="-register-all"]
Inductive cache_tree : Type :=
| CT (level : Z) (present_mask : Z) (u : list (slot cache_tree)).

Definition level (t : cache_tree) : Z := match t with CT l _ _ => l end.
Definition present_mask (t : cache_tree) : Z := match t with CT _ m _ => m end.
Definition slots (t : cache_tree) : list (slot cache_tree) := match t with CT _ _ u => u end.

(** [calloc(1, sizeof(struct cache_tree))] with its level set. *)
Definition empty_tree (l : Z) : cache_tree := CT l 0 (replicate 64 SNull).

(** [1ULL << shift]; a shift by 64 or more is undefined. *)
Definition CACHE_TREE_LEVEL_SIZE (l : Z) : M pool Z :=
  let s := CACHE_TREE_LEVEL_SHIFT l in
  if decide (s < 64) then mret (Z.shiftl 1 s) else fail BadShift.
Definition CACHE_TREE_LEVEL_MASK (l : Z) : M pool Z := s ← CACHE_TREE_LEVEL_SIZE l; mret (s - 1).
Definition CACHE_TREE_INDEX (l offset : Z) : M pool Z :=
  let s := CACHE_TREE_LEVEL_SHIFT l in
  if decide (s < 64) then mret (Z.land (Z.shiftr offset s) (CACHE_TREE_WIDTH - 1)) else fail BadShift.

(** Case analysis on slot [i] of the array. *)
Definition slot_case {T R} (oob null : R) (onbuf : buf_id → R) (ontree : T → R)
    : list (slot T) → nat → R :=
  fix go u i :=
    match u, i with
    | [], _ => oob
    | s :: _, O => match s with SNull => null | SBuf b => onbuf b | STree t => ontree t end
    | _ :: u', S i' => go u' i'
    end.

Fixpoint tree_find_buffer (tree : cache_tree) (offset : Z) : M pool (option buf_id) :=
  match tree with
  | CT l _ u =>
      size ← CACHE_TREE_LEVEL_SIZE l;
      let index := offset / size in
      if decide (CACHE_TREE_WIDTH <= index) then mret None else
      if decide (l = 0) then
        slot_case (fail OutOfBounds) (mret None) (λ b, mret (Some b)) (λ _, fail TypeConfusion) u (Z.to_nat index)
      else
        slot_case (fail OutOfBounds) (mret None) (λ _, fail TypeConfusion)
          (λ t, mask ← CACHE_TREE_LEVEL_MASK l; tree_find_buffer t (Z.land offset mask)) u (Z.to_nat index)
  end.

Definition tree_find_filled_buffer (tree : cache_tree) (offset : Z) : M pool (option buf_id) :=
  buf ← tree_find_buffer tree offset;
  match buf with
  | None => mret None
  | Some b => c ← load_buf b; mret (if decide (0 < bytes_filled c) then Some b else None)
  end.

(** The first loop of [tree_insert_buffer]: raise the root until it spans [offset]. *)
Fixpoint grow (fuel : nat) (root : cache_tree) (offset : Z) : M pool cache_tree :=
  match fuel with
  | O => fail OutOfFuel
  | S fuel' =>
      size ← CACHE_TREE_LEVEL_SIZE (level root + 1);
      if decide (size <= offset) then
        if decide (present_mask root ≠ 0) then
          grow fuel' (CT (level root + 1) 1 (STree root :: replicate 63 SNull)) offset
        else grow fuel' (CT (level root + 1) (present_mask root) (slots root)) offset
      else mret root
  end.

(** The second loop and the end of [tree_insert_buffer], from the root down. *)
Fixpoint place (fuel : nat) (tree : cache_tree) (offset : Z) (b : buf_id) : M pool cache_tree :=
  match fuel with
  | O => fail OutOfFuel
  | S fuel' =>
      match tree with
      | CT l m u =>
          if decide (0 < l) then
            size ← CACHE_TREE_LEVEL_SIZE l;
            let index := offset / size in
            _ ← guard_or AssertFailed (bool_decide (index < CACHE_TREE_WIDTH));
            mask ← CACHE_TREE_LEVEL_MASK l;
            let i := Z.to_nat index in
            s ← of_option OutOfBounds (u !! i);
            match s with
            | SBuf _ => fail TypeConfusion
            | SNull =>
                t' ← place fuel' (empty_tree (l - 1)) (Z.land offset mask) b;
                mret (CT l (Z.lor m (Z.shiftl 1 index)) (<[i := STree t']> u))
            | STree t =>
                t' ← place fuel' t (Z.land offset mask) b;
                mret (CT l m (<[i := STree t']> u))
            end
          else
            let index := offset / CACHE_BUFFER_SIZE in
            _ ← guard_or AssertFailed (bool_decide (index < CACHE_TREE_WIDTH));
            let i := Z.to_nat index in
            s ← of_option OutOfBounds (u !! i);
            match s with
            | SNull => mret (CT l (Z.lor m (Z.shiftl 1 index)) (<[i := SBuf b]> u))
            | _ => fail AssertFailed
            end
      end
  end.

(** The root climbs at most to level 8 before the shift overflows, and a tree
    of a given level has that many nodes on a path. *)
Definition tree_insert_buffer (root : cache_tree) (buffer : buf_id) : M pool cache_tree :=
  c ← load_buf buffer;
  tree ← grow 10 root (buf_offset c);
  place (S (Z.to_nat (level tree))) tree (buf_offset c) buffer.

Definition clear_bit (m index : Z) : Z := Z.ldiff m (Z.shiftl 1 index).

Fixpoint tree_remove_buffer (tree : cache_tree) (buffer : buf_id) : M pool cache_tree :=
  match tree with
  | CT l m u =>
      c ← load_buf buffer;
      index ← CACHE_TREE_INDEX l (buf_offset c);
      let i := Z.to_nat index in
      if decide (l = 0) then
        slot_case (fail OutOfBounds) (fail AssertFailed)
          (λ b, if decide (b = buffer) then
                  _ ← cache_buffer_free buffer;
                  mret (CT l (clear_bit m index) (<[i := SNull]> u))
                else fail AssertFailed)
          (λ _, fail TypeConfusion) u i
      else
        slot_case (fail OutOfBounds) (fail AssertFailed) (λ _, fail TypeConfusion)
          (λ child,
             child' ← tree_remove_buffer child buffer;
             mret (if decide (present_mask child' = 0) then CT l (clear_bit m index) (<[i := SNull]> u)
                   else CT l m (<[i := STree child']> u)))
          u i
  end.

(** A buffer that may be dropped: idle, and all of it on disk. *)
Definition clean (c : cache_buffer) : bool :=
  negb (in_progress c) && bool_decide (bytes_filled c = bytes_flushed c).

Definition is_null {T} (s : slot T) : bool := match s with SNull => true | _ => false end.

(** Both loops of [tree_free_buffers] go through the slots in order; a slot that
    becomes NULL loses its bit of the mask. *)
Definition slots_loop (f : slot cache_tree → M pool (slot cache_tree))
    : list (slot cache_tree) → Z → Z → M pool (Z * list (slot cache_tree)) :=
  fix go u i m :=
    match u with
    | [] => mret (m, [])
    | s :: u' =>
        s' ← f s;
        '(m', u'') ← go u' (i + 1) (if is_null s' && negb (is_null s) then clear_bit m i else m);
        mret (m', s' :: u'')
    end.

Definition free_clean (s : slot cache_tree) : M pool (slot cache_tree) :=
  match s with
  | SNull => mret SNull
  | SBuf b => c ← load_buf b; if clean c then _ ← cache_buffer_free b; mret SNull else mret s
  | STree _ => fail TypeConfusion
  end.

Fixpoint tree_free_buffers (tree : cache_tree) : M pool cache_tree :=
  match tree with
  | CT l m u =>
      if decide (m = 0) then mret tree else
      '(m', u') ←
        (if decide (l = 0) then slots_loop free_clean u 0 m
         else
           slots_loop (λ s,
             match s with
             | SNull => mret SNull
             | STree child =>
                 child' ← tree_free_buffers child;
                 mret (if decide (present_mask child' = 0) then SNull else STree child')
             | SBuf _ => fail TypeConfusion
             end) u 0 m);
      mret (CT l m' u')
  end.
