(* ===== verification/CacheTreeProofs.v ===== *)
(** * What the cache tree represents

    A well-formed tree of level [n] is a partial map from blocks of 256 KiB to
    buffers; [find_in] is that map, and each routine of tree.c is the operation
    on maps its name says. *)
From S2P Require Import Prelude CacheTree.
Local Open Scope Z_scope.

(** [present_mask] has exactly the bits of the slots in use. *)
Definition mask_ok (m : Z) (u : list (slot cache_tree)) : Prop :=
  length u = 64%nat ∧ 0 <= m ∧
  ∀ i, 0 <= i → Z.testbit m i = match u !! Z.to_nat i with Some s => negb (is_null s) | None => false end.

Fixpoint wf_tree (n : nat) (t : cache_tree) : Prop :=
  match t with
  | CT l m u =>
      l = Z.of_nat n ∧ (n <= 6)%nat ∧ mask_ok m u ∧
      Forall (λ s, match n, s with
                   | _, SNull => True
                   | O, SBuf _ => True
                   | S n', STree t' => wf_tree n' t' ∧ present_mask t' ≠ 0
                   | _, _ => False
                   end) u
  end.

Definition span (n : nat) : Z := 2 ^ (18 + 6 * Z.of_nat n).

Fixpoint find_in (n : nat) (t : cache_tree) (o : Z) : option buf_id :=
  match slots t !! Z.to_nat (o / span n) with
  | Some (SBuf b) => Some b
  | Some (STree t') => match n with O => None | S n' => find_in n' t' (o mod span n) end
  | _ => None
  end.

(** ** Arithmetic *)
Lemma span_pos n : 0 < span n.
Proof. apply Z.pow_pos_nonneg; lia. Qed.
Lemma span_S n : span (S n) = 64 * span n.
Proof.
  unfold span. replace (18 + 6 * Z.of_nat (S n)) with (6 + (18 + 6 * Z.of_nat n)) by lia.
  rewrite Z.pow_add_r by lia. done.
Qed.
Lemma span_block n : ∃ k, 0 < k ∧ span n = k * 2 ^ 18.
Proof.
  exists (2 ^ (6 * Z.of_nat n)). split; [apply Z.pow_pos_nonneg; lia|].
  unfold span. rewrite <- Z.pow_add_r by lia. f_equal. lia.
Qed.

Lemma level_size_ok n p : (n <= 6)%nat → CACHE_TREE_LEVEL_SIZE (Z.of_nat n) p = Ok (span n, p).
Proof.
  intros H. unfold CACHE_TREE_LEVEL_SIZE, CACHE_TREE_LEVEL_SHIFT, CACHE_BUFFER_SHIFT, CACHE_TREE_SHIFT.
  rewrite decide_True by lia. unfold mret, M_ret, span. do 2 f_equal. rewrite Z.shiftl_1_l. f_equal. lia.
Qed.
Lemma level_mask_ok n p : (n <= 6)%nat → CACHE_TREE_LEVEL_MASK (Z.of_nat n) p = Ok (span n - 1, p).
Proof. intros H. unfold CACHE_TREE_LEVEL_MASK. by rewrite (bind_Ok _ _ _ _ _ (level_size_ok n p H)). Qed.

Lemma land_span n o : Z.land o (span n - 1) = o mod span n.
Proof.
  unfold span. rewrite Z.sub_1_r, <- Z.ones_equiv, Z.land_ones by lia. done.
Qed.

Lemma span_split n o : 0 <= o → (o mod span (S n)) mod span n = o mod span n.
Proof.
  intros Ho. rewrite span_S, (Z.mul_comm 64). pose proof (span_pos n). rewrite Z.rem_mul_r by lia.
  rewrite (Z.mul_comm (span n)), Z.mod_add, Z.mod_mod by lia. done.
Qed.

Lemma index_ok n o p : (n <= 6)%nat → 0 <= o →
  CACHE_TREE_INDEX (Z.of_nat n) o p = Ok ((o mod span (S n)) / span n, p).
Proof.
  intros H H0. unfold CACHE_TREE_INDEX, CACHE_TREE_LEVEL_SHIFT, CACHE_BUFFER_SHIFT, CACHE_TREE_SHIFT.
  rewrite decide_True by lia. unfold mret, M_ret. do 2 f_equal.
  change (CACHE_TREE_WIDTH - 1) with (Z.ones 6). rewrite Z.land_ones, Z.shiftr_div_pow2 by lia.
  replace (2 ^ (18 + Z.of_nat n * 6)) with (span n) by (unfold span; f_equal; lia).
  rewrite span_S, (Z.mul_comm 64). pose proof (span_pos n). rewrite Z.rem_mul_r by lia.
  rewrite (Z.mul_comm (span n) (_ mod _)), Z.div_add by lia.
  rewrite (Z.div_small (o mod span n)) by (apply Z.mod_pos_bound; lia). done.
Qed.

Lemma idx_bound n o : 0 <= o < span (S n) → 0 <= o / span n < 64.
Proof.
  intros [H0 Ho]. rewrite span_S in Ho. pose proof (span_pos n). split; [by apply Z.div_pos|].
  apply Z.div_lt_upper_bound; lia.
Qed.
Lemma mod_bound n o : 0 <= o mod span n < span n.
Proof. apply Z.mod_pos_bound, span_pos. Qed.

(** Two offsets are in one block iff they share the index and the block below. *)
Lemma same_block n x y : 0 <= x → 0 <= y →
  x / 2 ^ 18 = y / 2 ^ 18 ↔
  x / span n = y / span n ∧ (x mod span n) / 2 ^ 18 = (y mod span n) / 2 ^ 18.
Proof.
  intros Hx Hy. destruct (span_block n) as (k & Hk & ->).
  assert (∀ z, 0 <= z → z / (k * 2 ^ 18) = z / 2 ^ 18 / k) as Hd.
  { intros z Hz. rewrite (Z.mul_comm k), Z.div_div by lia. done. }
  assert (∀ z, 0 <= z → (z mod (k * 2 ^ 18)) / 2 ^ 18 = (z / 2 ^ 18) mod k) as Hm.
  { intros z Hz. rewrite (Z.mul_comm k), Z.rem_mul_r by lia.
    rewrite (Z.mul_comm (2 ^ 18)), Z.div_add by lia.
    rewrite (Z.div_small (z mod 2 ^ 18)) by (apply Z.mod_pos_bound; lia). lia. }
  rewrite !Hd, !Hm by done. split; [by intros ->|]. intros [H1 H2].
  rewrite (Z.div_mod (x / 2 ^ 18) k), (Z.div_mod (y / 2 ^ 18) k) by lia. by rewrite H1, H2.
Qed.

(** ** Slots and masks *)
Lemma slot_case_lookup {T R} (oob null : R) onbuf ontree (u : list (slot T)) i :
  slot_case oob null onbuf ontree u i =
  match u !! i with
  | None => oob
  | Some s => match s with SNull => null | SBuf b => onbuf b | STree t => ontree t end
  end.
Proof. revert i. induction u as [|s u IH]; intros [|i]; simpl; (done || apply IH). Qed.

Lemma mask_zero m u : mask_ok m u → m = 0 ↔ Forall is_null u.
Proof.
  intros (Hl & Hm & Hb). split.
  - intros ->. apply Forall_lookup. intros i s Hi. specialize (Hb (Z.of_nat i) ltac:(lia)).
    rewrite Nat2Z.id, Hi, Z.bits_0 in Hb. by destruct s.
  - intros Hn. apply Z.bits_inj_0. intros i. destruct (Z.ltb_spec i 0); [by apply Z.testbit_neg_r|].
    rewrite Hb by done. destruct (u !! Z.to_nat i) as [s|] eqn:Hi; [|done].
    rewrite Forall_lookup in Hn. specialize (Hn _ _ Hi). by destruct s.
Qed.

Lemma mask_insert m u i s : mask_ok m u → 0 <= i < 64 → is_null s = false →
  mask_ok (Z.lor m (Z.shiftl 1 i)) (<[Z.to_nat i := s]> u).
Proof.
  intros (Hl & Hm & Hb) Hi Hs. split; [by rewrite length_insert|]. rewrite Z.shiftl_1_l.
  split; [apply Z.lor_nonneg; split; [done|apply Z.pow_nonneg; lia]|].
  intros j Hj. rewrite Z.lor_spec, Hb, Z.pow2_bits_eqb by lia. destruct (Z.eqb_spec i j) as [->|Hne].
  - rewrite list_lookup_insert_eq by lia. rewrite Hs. apply orb_true_r.
  - rewrite list_lookup_insert_ne by lia. apply orb_false_r.
Qed.

Lemma mask_clear m u i : mask_ok m u → 0 <= i < 64 →
  mask_ok (clear_bit m i) (<[Z.to_nat i := SNull]> u).
Proof.
  intros (Hl & Hm & Hb) Hi. split; [by rewrite length_insert|]. unfold clear_bit. rewrite Z.shiftl_1_l.
  split; [apply Z.ldiff_nonneg; lia|].
  intros j Hj. rewrite Z.ldiff_spec, Hb, Z.pow2_bits_eqb by lia. destruct (Z.eqb_spec i j) as [->|Hne].
  - rewrite list_lookup_insert_eq by lia. apply andb_false_r.
  - rewrite list_lookup_insert_ne by lia. apply andb_true_r.
Qed.

Lemma mask_replace m u i s s' : mask_ok m u → u !! i = Some s → is_null s = is_null s' →
  mask_ok m (<[i := s']> u).
Proof.
  intros (Hl & Hm & Hb) Hi Hs. split; [by rewrite length_insert|]. split; [done|].
  intros j Hj. rewrite Hb by done. destruct (decide (i = Z.to_nat j)) as [->|Hne].
  - rewrite list_lookup_insert_eq by (by eapply lookup_lt_Some). by rewrite Hi, Hs.
  - by rewrite list_lookup_insert_ne.
Qed.

Lemma empty_mask : mask_ok 0 (replicate 64 SNull).
Proof.
  split; [done|]. split; [done|]. intros i Hi. rewrite Z.bits_0.
  destruct (replicate 64 SNull !! Z.to_nat i) as [s|] eqn:E; [|done]. by apply lookup_replicate in E as [-> _].
Qed.
Lemma wf_empty n : (n <= 6)%nat → wf_tree n (empty_tree (Z.of_nat n)).
Proof.
  intros H. destruct n; simpl; (split; [done|]; split; [lia|]; split; [apply empty_mask|]);
    repeat constructor.
Qed.
Lemma find_null n t o : Forall is_null (slots t) → find_in n t o = None.
Proof.
  intros H. destruct n; simpl; (destruct (slots t !! _) as [s|] eqn:E; [|done]);
    rewrite Forall_lookup in H; specialize (H _ _ E); by destruct s.
Qed.
Lemma find_empty n l o : find_in n (empty_tree l) o = None.
Proof. apply find_null. simpl. by repeat constructor. Qed.

(** ** tree_find_buffer *)
Lemma find_ok n : ∀ t o p, wf_tree n t → 0 <= o → tree_find_buffer t o p = Ok (find_in n t o, p).
Proof.
  induction n as [|n IH]; intros [l m u] o p (-> & Hn & (Hlen & _) & Hu) Ho.
  all: cbn [tree_find_buffer]; match type of Hn with (?k <= _)%nat => rewrite (bind_Ok _ _ _ _ _ (level_size_ok k p Hn)) end.
  all: set (i := o / span _); cbn [find_in slots]; fold i.
  all: assert (0 <= i) as Hi by (apply Z.div_pos; [done|apply span_pos]).
  all: destruct (decide (CACHE_TREE_WIDTH <= i)) as [Hw|Hw];
    [change CACHE_TREE_WIDTH with 64 in Hw; by rewrite (proj2 (lookup_ge_None u (Z.to_nat i))) by lia|].
  all: change CACHE_TREE_WIDTH with 64 in Hw.
  all: destruct (lookup_lt_is_Some_2 u (Z.to_nat i)) as [s Hs]; [lia|].
  all: rewrite Forall_lookup in Hu; specialize (Hu _ _ Hs).
  - rewrite decide_True by done. rewrite slot_case_lookup, Hs. by destruct s.
  - rewrite decide_False by lia. rewrite slot_case_lookup, Hs. destruct s as [|b|t]; [done|done|].
    rewrite (bind_Ok _ _ _ _ _ (level_mask_ok (S n) p Hn)), land_span. apply IH; [apply Hu|apply mod_bound].
Qed.

(** ** tree_insert_buffer *)
Lemma find_beyond n t o : wf_tree n t → span (S n) <= o → find_in n t o = None.
Proof.
  intros Hw Ho. destruct t as [l m u]. assert (length u = 64%nat) as Hl by (destruct n; apply Hw).
  assert (u !! Z.to_nat (o / span n) = None) as Hi.
  { apply lookup_ge_None. rewrite span_S in Ho. pose proof (span_pos n).
    assert (64 <= o / span n) by (apply Z.div_le_lower_bound; lia). lia. }
  by destruct n; cbn [find_in slots]; rewrite Hi.
Qed.

Lemma wf_level n t : wf_tree n t → level t = Z.of_nat n ∧ (n <= 6)%nat ∧ mask_ok (present_mask t) (slots t).
Proof. destruct n, t; simpl; tauto. Qed.

Lemma grow_ok fuel : ∀ n t o p,
  wf_tree n t → 0 <= o < span 7 → (7 <= n + fuel)%nat →
  ∃ n' t', grow fuel t o p = Ok (t', p) ∧ wf_tree n' t' ∧ o < span (S n') ∧ (n <= n')%nat ∧
    ∀ x, 0 <= x → find_in n' t' x = find_in n t x.
Proof.
  induction fuel as [|fuel IH]; intros n t o p Hw Ho Hf; destruct (wf_level n t Hw) as (Hl & Hn & Hm); [lia|].
  cbn [grow]. rewrite Hl. replace (Z.of_nat n + 1) with (Z.of_nat (S n)) by lia.
  destruct (decide (n = 6)%nat) as [->|].
  { rewrite (bind_Ok _ _ _ (span 7) p) by done. rewrite decide_False by lia.
    exists 6%nat, t. repeat split; (done || lia). }
  rewrite (bind_Ok _ _ _ _ _ (level_size_ok (S n) p ltac:(lia))).
  destruct (decide (span (S n) <= o)) as [Hge|Hlt]; [|exists n, t; repeat split; (done || lia)].
  destruct (decide (present_mask t ≠ 0)) as [Hp|Hp].
  - destruct (IH (S n) (CT (Z.of_nat (S n)) 1 (STree t :: replicate 63 SNull)) o p) as (n' & t' & Hr & Hw' & ? & ? & Hfi);
      [|done|lia|].
    { split; [done|]. split; [lia|]. split.
      - replace 1 with (Z.lor 0 (Z.shiftl 1 0)) by done.
        apply (mask_insert 0 (replicate 64 SNull) 0 (STree t) empty_mask); [lia|done].
      - constructor; [done|]. repeat constructor. }
    exists n', t'. split; [exact Hr|]. split; [done|]. split; [done|]. split; [lia|]. intros x Hx. rewrite Hfi by done.
    cbn [find_in slots]. destruct (decide (x < span (S n))) as [Hlt|Hge'].
    + rewrite Z.div_small, Z.mod_small by lia. done.
    + rewrite (find_beyond n t x) by (done || lia).
      assert (0 < x / span (S n)) by (apply Z.div_str_pos; pose proof (span_pos (S n)); lia).
      destruct (Z.to_nat (x / span (S n))) as [|k] eqn:E; [lia|].
      change ((STree t :: replicate 63 SNull) !! S k) with (replicate 63 (@SNull cache_tree) !! k).
      destruct (replicate 63 SNull !! k) as [s|] eqn:Es; [|done]. by apply lookup_replicate in Es as [-> _].
  - apply dec_stable in Hp. pose proof Hm as Hnull. apply mask_zero in Hnull. apply Hnull in Hp as Hns.
    destruct (IH (S n) (CT (Z.of_nat (S n)) (present_mask t) (slots t)) o p) as (n' & t' & Hr & Hw' & ? & ? & Hfi);
      [|done|lia|].
    { split; [done|]. split; [lia|]. split; [done|]. eapply Forall_impl; [exact Hns|]. by intros []. }
    exists n', t'. split; [exact Hr|]. split; [done|]. split; [done|]. split; [lia|]. intros x Hx. rewrite Hfi by done.
    by rewrite !find_null.
Qed.

(** A slot of a well-formed tree, by kind of node. *)
Definition slot_ok (n : nat) (s : slot cache_tree) : Prop :=
  match n, s with
  | _, SNull => True
  | O, SBuf _ => True
  | S n', STree t' => wf_tree n' t' ∧ present_mask t' ≠ 0
  | _, _ => False
  end.

Lemma wf_CT n l m u :
  wf_tree n (CT l m u) ↔ l = Z.of_nat n ∧ (n <= 6)%nat ∧ mask_ok m u ∧ Forall (slot_ok n) u.
Proof. by destruct n. Qed.

Lemma find_CT n l m u o :
  find_in n (CT l m u) o =
  match u !! Z.to_nat (o / span n) with
  | Some (SBuf b) => Some b
  | Some (STree t') => match n with O => None | S n' => find_in n' t' (o mod span n) end
  | _ => None
  end.
Proof. by destruct n. Qed.

(** Replacing the slot of [o]: the rest of the tree is as before. *)
Lemma find_other n l m m' u s o x :
  0 <= o < span (S n) → 0 <= x → x / span n ≠ o / span n →
  find_in n (CT l m' (<[Z.to_nat (o / span n) := s]> u)) x = find_in n (CT l m u) x.
Proof.
  intros Ho Hx Hne. rewrite !find_CT. pose proof (idx_bound n o Ho).
  assert (0 <= x / span n) by (apply Z.div_pos; [done|apply span_pos]).
  rewrite list_lookup_insert_ne by lia. done.
Qed.
Lemma find_here n l m u s o :
  0 <= o < span (S n) → length u = 64%nat →
  ∀ x, x / span n = o / span n →
  find_in n (CT l m (<[Z.to_nat (o / span n) := s]> u)) x =
  match s with
  | SBuf b => Some b
  | STree t' => match n with O => None | S n' => find_in n' t' (x mod span n) end
  | SNull => None
  end.
Proof.
  intros Ho Hl x Hx. rewrite find_CT, Hx. pose proof (idx_bound n o Ho).
  rewrite list_lookup_insert_eq by lia. by destruct s.
Qed.

Lemma same_index n x y : 0 <= x → 0 <= y → x / 2 ^ 18 = y / 2 ^ 18 → x / span n = y / span n.
Proof. intros. by apply (same_block n). Qed.

Lemma place_ok b p : ∀ n t o,
  wf_tree n t → 0 <= o < span (S n) → find_in n t o = None →
  ∃ t', place (S n) t o b p = Ok (t', p) ∧ wf_tree n t' ∧ present_mask t' ≠ 0 ∧
    ∀ x, 0 <= x → find_in n t' x = if decide (x / 2 ^ 18 = o / 2 ^ 18) then Some b else find_in n t x.
Proof.
  induction n as [|n IH]; intros [l m u] o (-> & Hn & Hm & Hu)%wf_CT Ho Hnone; pose proof (idx_bound _ _ Ho) as Hi;
    pose proof Hm as (Hlen & Hm0 & _); rewrite find_CT in Hnone.
  all: assert (∀ k, 0 <= k → Z.lor m (Z.shiftl 1 k) ≠ 0) as Hne by
    (intros k Hk; rewrite Z.lor_eq_0_iff, Z.shiftl_1_l; intros [_ H]; pose proof (Z.pow_pos_nonneg 2 k); lia).
  - cbn [place]. rewrite decide_False by lia. change CACHE_BUFFER_SIZE with (span 0).
    rewrite bool_decide_eq_true_2 by (change CACHE_TREE_WIDTH with 64; lia).
    destruct (lookup_lt_is_Some_2 u (Z.to_nat (o / span 0))) as [s Hs]; [lia|].
    rewrite Hs in Hnone. rewrite Forall_lookup in Hu. pose proof (Hu _ _ Hs) as Hsk. rewrite <- Forall_lookup in Hu.
    destruct s as [|b'|t']; [|done|done].
    erewrite bind_Ok by done. rewrite (bind_Ok _ _ _ _ _ (of_option_Ok _ _ p _ Hs)).
    eexists. split; [reflexivity|]. split; [|split].
    + apply wf_CT. split; [done|]. split; [done|]. split; [by apply mask_insert|]. by apply Forall_insert.
    + simpl. apply Hne. lia.
    + intros x Hx. change (2 ^ 18) with (span 0). case_decide as Hd; [by rewrite (find_here 0)|by apply (find_other 0)].
  - cbn [place]. rewrite decide_True by lia. rewrite (bind_Ok _ _ _ _ _ (level_size_ok (S n) p Hn)).
    rewrite bool_decide_eq_true_2 by (change CACHE_TREE_WIDTH with 64; lia).
    destruct (lookup_lt_is_Some_2 u (Z.to_nat (o / span (S n)))) as [s Hs]; [lia|].
    rewrite Hs in Hnone. rewrite Forall_lookup in Hu. pose proof (Hu _ _ Hs) as Hsk. rewrite <- Forall_lookup in Hu.
    erewrite bind_Ok by done. rewrite (bind_Ok _ _ _ _ _ (level_mask_ok (S n) p Hn)).
    rewrite (bind_Ok _ _ _ _ _ (of_option_Ok _ _ p _ Hs)), land_span.
    assert (∃ child, slot_ok (S n) s ∧ (s = SNull ∧ child = empty_tree (Z.of_nat n) ∨ s = STree child) ∧
      wf_tree n child ∧ find_in n child (o mod span (S n)) = None) as (child & _ & Hcase & Hwc & Hfc).
    { destruct s as [|b'|t']; [|done|].
      - exists (empty_tree (Z.of_nat n)). split; [done|]. split; [by left|]. split; [apply wf_empty; lia|].
        apply find_empty.
      - exists t'. split; [done|]. split; [by right|]. split; [apply Hsk|done]. }
    destruct (IH child (o mod span (S n)) Hwc ltac:(apply mod_bound) Hfc) as (t' & Hrun & Hw' & Hp' & Hf').
    assert (∀ x, 0 <= x → ∀ m', find_in (S n) (CT (Z.of_nat (S n)) m' (<[Z.to_nat (o / span (S n)) := STree t']> u)) x =
      if decide (x / 2 ^ 18 = o / 2 ^ 18) then Some b else find_in (S n) (CT (Z.of_nat (S n)) m u) x) as Hfx.
    { intros x Hx m'. destruct (decide (x / span (S n) = o / span (S n))) as [Heq|Hdiff].
      - rewrite (find_here (S n)) by done. rewrite Hf' by apply mod_bound.
        rewrite (decide_ext _ (x / 2 ^ 18 = o / 2 ^ 18)); [|rewrite (same_block (S n) x o) by lia; naive_solver].
        case_decide; [done|]. rewrite find_CT, Heq, Hs. destruct Hcase as [[-> ->]| ->]; [apply find_empty|done].
      - rewrite decide_False by (intros Hb; apply Hdiff; apply same_index; lia).
        by apply (find_other (S n)). }
    replace (Z.of_nat (S n) - 1) with (Z.of_nat n) by lia.
    destruct Hcase as [[-> ->]| ->]; rewrite (bind_Ok _ _ _ _ _ Hrun); (eexists; split; [reflexivity|]).
    + split; [|split; [simpl; apply Hne; lia|intros; by apply Hfx]]. apply wf_CT. split; [done|]. split; [done|].
      split; [by apply mask_insert|]. by apply Forall_insert.
    + split; [|split; [|intros; by apply Hfx]].
      * apply wf_CT. split; [done|]. split; [done|].
        split; [by eapply mask_replace|]. by apply Forall_insert.
      * simpl. intros Hz. pose proof Hm as Hmz. apply mask_zero in Hmz. apply Hmz in Hz. rewrite Forall_lookup in Hz.
        by specialize (Hz _ _ Hs).
Qed.

(** The address space the shifts of tree.h can reach. *)
Definition MAX_OFFSET : Z := span 7.

Lemma insert_ok n t b c p :
  wf_tree n t → bufs p !! b = Some c → 0 <= buf_offset c < MAX_OFFSET → find_in n t (buf_offset c) = None →
  ∃ n' t', tree_insert_buffer t b p = Ok (t', p) ∧ wf_tree n' t' ∧ present_mask t' ≠ 0 ∧ (n <= n')%nat ∧
    ∀ x, 0 <= x →
      find_in n' t' x = if decide (x / 2 ^ 18 = buf_offset c / 2 ^ 18) then Some b else find_in n t x.
Proof.
  intros Hw Hb Ho Hnone. unfold tree_insert_buffer.
  rewrite (bind_Ok _ _ _ c p) by (unfold load_buf, mbind, M_bind, get; by rewrite Hb).
  destruct (grow_ok 10 n t (buf_offset c) p Hw Ho ltac:(lia)) as (n' & t' & Hg & Hw' & Hlt & Hle & Hf).
  rewrite (bind_Ok _ _ _ _ _ Hg). destruct (wf_level n' t' Hw') as (-> & _). rewrite Nat2Z.id.
  destruct (place_ok b p n' t' (buf_offset c) Hw') as (t'' & Hp & Hw'' & Hm & Hf''); [lia|by rewrite Hf by lia|].
  exists n', t''. split; [exact Hp|]. split; [done|]. split; [done|]. split; [done|].
  intros x Hx. rewrite Hf'' by done. by rewrite Hf.
Qed.

(** ** tree_remove_buffer *)
Definition freed (b : buf_id) (p : pool) : pool :=
  set_pool_count (pool_count p + 1) (set_bufs (delete b (bufs p)) p).

Lemma load_buf_ok b c p : bufs p !! b = Some c → load_buf b p = Ok (c, p).
Proof. intros H. unfold load_buf, get, mbind, M_bind. by rewrite H. Qed.
Lemma buffer_free_ok b c p : bufs p !! b = Some c → cache_buffer_free b p = Ok (tt, freed b p).
Proof. intros H. unfold cache_buffer_free. by rewrite (bind_Ok _ _ _ _ _ (load_buf_ok b c p H)). Qed.

Lemma remove_ok b c p : bufs p !! b = Some c → 0 <= buf_offset c → ∀ n t,
  wf_tree n t → find_in n t (buf_offset c mod span (S n)) = Some b →
  ∃ t', tree_remove_buffer t b p = Ok (t', freed b p) ∧ wf_tree n t' ∧
    ∀ x, 0 <= x → find_in n t' x =
      if decide (x / 2 ^ 18 = (buf_offset c mod span (S n)) / 2 ^ 18) then None else find_in n t x.
Proof.
  intros Hb Hc0. set (o := buf_offset c) in *.
  induction n as [|n IH]; intros [l m u] (-> & Hn & Hm & Hu)%wf_CT Hf;
    pose proof Hm as (Hlen & Hm0 & _); rewrite find_CT in Hf.
  all: match type of Hn with (?k <= _)%nat => pose proof (mod_bound (S k) o) as Ho; pose proof (idx_bound k _ Ho) as Hi end.
  all: cbn [tree_remove_buffer]; rewrite (bind_Ok _ _ _ _ _ (load_buf_ok b c p Hb)); fold o.
  - rewrite (bind_Ok _ _ _ _ _ (index_ok 0 o p Hn Hc0)). rewrite decide_True by done.
    rewrite slot_case_lookup. destruct (u !! _) as [[|b'|t']|] eqn:Hs; try done. injection Hf as ->.
    rewrite decide_True by done. rewrite (bind_Ok _ _ _ _ _ (buffer_free_ok b c p Hb)).
    eexists. split; [reflexivity|]. split.
    + apply wf_CT. split; [done|]. split; [done|]. split; [by apply mask_clear|]. by apply Forall_insert.
    + intros x Hx. change (2 ^ 18) with (span 0).
      case_decide as Hd; [by rewrite (find_here 0)|by apply (find_other 0)].
  - rewrite (bind_Ok _ _ _ _ _ (index_ok (S n) o p Hn Hc0)). rewrite decide_False by lia.
    rewrite slot_case_lookup. set (om := o mod span (S (S n))) in *.
    destruct (u !! _) as [[|b'|child]|] eqn:Hs; try done.
    { rewrite Forall_lookup in Hu. by specialize (Hu _ _ Hs). }
    rewrite Forall_lookup in Hu. pose proof (Hu _ _ Hs) as [Hwc Hpc]. rewrite <- Forall_lookup in Hu.
    unfold om in Hf at 1. rewrite span_split in Hf by done.
    destruct (IH child Hwc Hf) as (t' & Hrun & Hw' & Hf'). rewrite (bind_Ok _ _ _ _ _ Hrun).
    assert (∀ s' m', (is_null s' = true ∧ Forall is_null (slots t') ∨ s' = STree t') → ∀ x, 0 <= x →
      find_in (S n) (CT (Z.of_nat (S n)) m' (<[Z.to_nat (om / span (S n)) := s']> u)) x =
      if decide (x / 2 ^ 18 = om / 2 ^ 18) then None else find_in (S n) (CT (Z.of_nat (S n)) m u) x) as Hfx.
    { intros s' m' Hs' x Hx. destruct (decide (x / span (S n) = om / span (S n))) as [Heq|Hdiff].
      - rewrite (find_here (S n)) by done.
        assert (find_in n t' (x mod span (S n)) = if decide (x / 2 ^ 18 = om / 2 ^ 18) then None
          else find_in (S n) (CT (Z.of_nat (S n)) m u) x) as Hx'.
        { rewrite Hf' by apply mod_bound.
          rewrite (decide_ext _ (x / 2 ^ 18 = om / 2 ^ 18)).
          - case_decide; [done|]. by rewrite find_CT, Heq, Hs.
          - rewrite (same_block (S n) x om) by lia.
            replace (om mod span (S n)) with (o mod span (S n)) by (unfold om; by rewrite span_split). naive_solver. }
        rewrite <- Hx'. destruct Hs' as [[Hz Hz']| ->]; [|done]. destruct s'; [|done..]. by rewrite find_null.
      - rewrite decide_False by (intros He; apply Hdiff; apply same_index; lia). by apply (find_other (S n)). }
    case_decide as Hz; (eexists; split; [reflexivity|]; split).
    + apply wf_CT. split; [done|]. split; [done|]. split; [by apply mask_clear|]. by apply Forall_insert.
    + apply Hfx. left. split; [done|]. destruct (wf_level n t' Hw') as (_ & _ & Hm'). by apply (mask_zero _ _ Hm').
    + apply wf_CT. split; [done|]. split; [done|]. split; [by eapply mask_replace|]. by apply Forall_insert.
    + apply Hfx. by right.
Qed.

(** ** tree_free_buffers *)
Fixpoint bufs_of (n : nat) (t : cache_tree) : list buf_id :=
  flat_map (λ s, match s with
                 | SBuf b => [b]
                 | STree t' => match n with O => [] | S n' => bufs_of n' t' end
                 | SNull => []
                 end) (slots t).
Definition slot_bufs (n : nat) (s : slot cache_tree) : list buf_id :=
  match s with
  | SBuf b => [b]
  | STree t' => match n with O => [] | S n' => bufs_of n' t' end
  | SNull => []
  end.
Definition slot_find (n : nat) (s : slot cache_tree) (x : Z) : option buf_id :=
  match s with
  | SBuf b => Some b
  | STree t' => match n with O => None | S n' => find_in n' t' x end
  | SNull => None
  end.

Lemma bufs_of_CT n l m u : bufs_of n (CT l m u) = flat_map (slot_bufs n) u.
Proof. by destruct n. Qed.
Lemma find_slot n l m u o :
  find_in n (CT l m u) o = (u !! Z.to_nat (o / span n)) ≫= λ s, slot_find n s (o mod span n).
Proof. rewrite find_CT. by destruct (u !! _) as [[]|]. Qed.

(** A buffer is dropped when it is clean. *)
Definition drop_one (p : pool) (b : buf_id) : pool :=
  match bufs p !! b with Some c => if clean c then freed b p else p | None => p end.
Definition drop_clean (bs : list buf_id) (p : pool) : pool := foldl drop_one p bs.

Definition keep (p : pool) (o : option buf_id) : option buf_id :=
  b ← o; c ← bufs p !! b; if clean c then None else Some b.

Lemma drop_one_lookup p b b' :
  bufs (drop_one p b) !! b' = if decide (b' = b ∧ keep p (Some b) = None) then None else bufs p !! b'.
Proof.
  unfold drop_one, keep. simpl. destruct (bufs p !! b) as [c|] eqn:Hb; simpl.
  - destruct (clean c); simpl.
    + case_decide as Hd; [destruct Hd as [-> _]; apply lookup_delete_eq|].
      rewrite lookup_delete_ne; [done|]. naive_solver.
    + rewrite decide_False by naive_solver. done.
  - case_decide as Hd; [by destruct Hd as [-> _]|done].
Qed.

Lemma drop_clean_other bs b' : ∀ p, b' ∉ bs → bufs (drop_clean bs p) !! b' = bufs p !! b'.
Proof.
  induction bs as [|b bs IH]; intros p Hni; [done|]. apply not_elem_of_cons in Hni as [Hne Hni].
  simpl. rewrite IH by done. rewrite drop_one_lookup. rewrite decide_False by naive_solver. done.
Qed.

Lemma drop_clean_app bs1 bs2 p : drop_clean (bs1 ++ bs2) p = drop_clean bs2 (drop_clean bs1 p).
Proof. apply foldl_app. Qed.

Lemma keep_other p p' o :
  (∀ b, o = Some b → bufs p' !! b = bufs p !! b) → keep p' o = keep p o.
Proof. destruct o as [b|]; [|done]. intros H. unfold keep. simpl. by rewrite H. Qed.

(** What a routine on one slot must do for the loop to be right. *)
Definition frees (n : nat) (f : slot cache_tree → M pool (slot cache_tree)) : Prop :=
  ∀ s p, slot_ok n s → NoDup (slot_bufs n s) → Forall (λ b, is_Some (bufs p !! b)) (slot_bufs n s) →
  ∃ s', f s p = Ok (s', drop_clean (slot_bufs n s) p) ∧ slot_ok n s' ∧ (is_null s → is_null s') ∧
    ∀ x, 0 <= x → slot_find n s' x = keep p (slot_find n s x).

Lemma find_in_bufs n : ∀ t x b, find_in n t x = Some b → b ∈ bufs_of n t.
Proof.
  induction n as [|n IH]; intros [l m u] x b; rewrite find_slot, bufs_of_CT;
    (destruct (u !! _) as [s|] eqn:Hs; [|done]); simpl; intros Hf;
    apply list_elem_of_lookup_2 in Hs; apply list_elem_of_In, in_flat_map; exists s;
    (split; [by apply list_elem_of_In|]); destruct s as [|b'|t']; try done.
  - injection Hf as ->. by left.
  - injection Hf as ->. by left.
  - apply list_elem_of_In. by eapply IH.
Qed.
Lemma slot_find_bufs n s x b : slot_find n s x = Some b → b ∈ slot_bufs n s.
Proof.
  destruct s as [|b'|t], n as [|n]; simpl; try done.
  - intros [= ->]. left.
  - intros [= ->]. left.
  - apply find_in_bufs.
Qed.

Lemma slots_loop_ok n f : frees n f → ∀ u done i m p,
  i = Z.of_nat (length done) → mask_ok m (done ++ u) → Forall (slot_ok n) u →
  NoDup (flat_map (slot_bufs n) u) → Forall (λ b, is_Some (bufs p !! b)) (flat_map (slot_bufs n) u) →
  ∃ m' u', slots_loop f u i m p = Ok ((m', u'), drop_clean (flat_map (slot_bufs n) u) p) ∧
    mask_ok m' (done ++ u') ∧ Forall (slot_ok n) u' ∧
    Forall2 (λ s s', ∀ x, 0 <= x → slot_find n s' x = keep p (slot_find n s x)) u u'.
Proof.
  intros Hf. induction u as [|s u IH]; intros done i m p Hi Hm Hok Hnd Hin.
  { exists m, []. by rewrite app_nil_r in *. }
  simpl in Hnd, Hin. apply Forall_cons in Hok as [Hs Hok]. apply NoDup_app in Hnd as (Hnds & Hdis & Hnd).
  apply Forall_app in Hin as [Hins Hin].
  destruct (Hf s p Hs Hnds Hins) as (s' & Hrun & Hs' & Hnull & Hfind).
  simpl. rewrite (bind_Ok _ _ _ _ _ Hrun).
  set (m1 := if is_null s' && negb (is_null s) then clear_bit m i else m).
  assert (length done < 64)%nat as Hlt by (destruct Hm as (Hl & _); rewrite length_app in Hl; simpl in Hl; lia).
  assert (mask_ok m1 ((done ++ [s']) ++ u)) as Hm1.
  { rewrite <- app_assoc. simpl. replace (done ++ s' :: u) with (<[length done := s']> (done ++ s :: u))
      by (rewrite insert_app_r_alt, Nat.sub_diag by lia; done).
    subst m1. destruct s' as [|b'|t'] eqn:Es'; simpl.
    - destruct s as [|b|t]; simpl.
      + eapply mask_replace; [done|by apply list_lookup_middle|done].
      + subst i. rewrite <- (Nat2Z.id (length done)) at 2. apply mask_clear; [done|lia].
      + subst i. rewrite <- (Nat2Z.id (length done)) at 2. apply mask_clear; [done|lia].
    - eapply mask_replace; [done|by apply list_lookup_middle|]. destruct s; [by destruct (Hnull I)|done..].
    - eapply mask_replace; [done|by apply list_lookup_middle|]. destruct s; [by destruct (Hnull I)|done..]. }
  set (p1 := drop_clean (slot_bufs n s) p).
  assert (∀ b, b ∈ flat_map (slot_bufs n) u → bufs p1 !! b = bufs p !! b) as Hp1.
  { intros b Hb. apply drop_clean_other. intros Hb'. by apply (Hdis b). }
  destruct (IH (done ++ [s']) (i + 1) m1 p1) as (m' & u' & Hrun' & Hm' & Hok' & Hall);
    [rewrite length_app; simpl; lia|done|done|done| |].
  { rewrite Forall_forall in *. intros b Hb. rewrite Hp1 by done. by apply Hin. }
  rewrite (bind_Ok _ _ _ _ _ Hrun'). exists m', (s' :: u'). rewrite drop_clean_app.
  split; [done|]. split; [by rewrite <- app_assoc in Hm'|]. split; [by constructor|].
  constructor; [done|]. rewrite Forall2_same_length_lookup in Hall |- *. destruct Hall as [Hlen Hall].
  split; [done|]. intros j s1 s2 Hj1 Hj2 x Hx. rewrite (Hall j s1 s2 Hj1 Hj2 x Hx). apply keep_other.
  intros b Hb%slot_find_bufs. apply Hp1. apply list_elem_of_In, in_flat_map. exists s1.
  split; [by apply list_elem_of_In, (list_elem_of_lookup_2 _ j)|by apply list_elem_of_In].
Qed.

Lemma free_clean_frees : frees 0 free_clean.
Proof.
  intros [|b|t] p Hok Hnd Hin; [|..|done].
  - exists SNull. done.
  - apply Forall_cons in Hin as [[c Hc] _]. simpl.
    rewrite (bind_Ok _ _ _ _ _ (load_buf_ok b c p Hc)). unfold drop_one, keep. simpl. rewrite Hc. simpl.
    destruct (clean c).
    + rewrite (bind_Ok _ _ _ _ _ (buffer_free_ok b c p Hc)). exists SNull. done.
    + exists (SBuf b). done.
Qed.

Lemma fmap_find n u u' p x i : 0 <= x →
  Forall2 (λ s s', ∀ x, 0 <= x → slot_find n s' x = keep p (slot_find n s x)) u u' →
  (u' !! i ≫= λ s, slot_find n s x) = keep p (u !! i ≫= λ s, slot_find n s x).
Proof.
  intros Hx Hall. rewrite Forall2_same_length_lookup in Hall. destruct Hall as [Hlen Hall].
  destruct (u !! i) as [s|] eqn:Hs, (u' !! i) as [s'|] eqn:Hs'; simpl.
  - by eapply Hall.
  - apply lookup_ge_None in Hs'. apply lookup_lt_Some in Hs. lia.
  - apply lookup_ge_None in Hs. apply lookup_lt_Some in Hs'. lia.
  - done.
Qed.

Lemma free_ok n : ∀ t p,
  wf_tree n t → NoDup (bufs_of n t) → Forall (λ b, is_Some (bufs p !! b)) (bufs_of n t) →
  ∃ t', tree_free_buffers t p = Ok (t', drop_clean (bufs_of n t) p) ∧ wf_tree n t' ∧
    ∀ x, 0 <= x → find_in n t' x = keep p (find_in n t x).
Proof.
  induction n as [|n IH]; intros [l m u] p (-> & Hn & Hm & Hu)%wf_CT Hnd Hin; rewrite bufs_of_CT in *;
    cbn [tree_free_buffers].
  all: match type of Hn with (?k <= _)%nat => assert (m = 0 → flat_map (slot_bufs k) u = [] ∧
    (∀ x, find_in k (CT (Z.of_nat k) m u) x = None)) as Hz end.
  1, 3: intros Hz; apply (mask_zero _ _ Hm) in Hz; split; [|intros x; by apply find_null];
    clear -Hz; induction Hz as [|[] u]; done.
  all: destruct (decide (m = 0)) as [Hm0|Hm0];
    [destruct (Hz Hm0) as [-> Hzf]; eexists; split; [reflexivity|];
     split; [by apply wf_CT|]; intros x _; by rewrite Hzf|]; clear Hz.
  - rewrite decide_True by done.
    destruct (slots_loop_ok 0 free_clean free_clean_frees u [] 0 m p eq_refl Hm Hu Hnd Hin)
      as (m' & u' & Hrun & Hm' & Hu' & Hall).
    rewrite (bind_Ok _ _ _ _ _ Hrun). eexists. split; [reflexivity|]. split; [by apply wf_CT|].
    intros x Hx. rewrite !find_slot. apply fmap_find; [apply mod_bound|done].
  - rewrite decide_False by lia. match goal with |- context [slots_loop ?g u 0 m] => set (f := g) end.
    assert (frees (S n) f) as Hf.
    { intros [|b|child] q Hok Hndc Hinc; [exists SNull; done|done|]. destruct Hok as [Hwc Hpc].
      destruct (IH child q Hwc Hndc Hinc) as (t' & Hrun & Hw' & Hf'). subst f. simpl in *.
      rewrite (bind_Ok _ _ _ _ _ Hrun). case_decide as Hz.
      - exists SNull. split; [done|]. split; [done|]. split; [done|]. intros x Hx. simpl. rewrite <- Hf' by done.
        destruct (wf_level n t' Hw') as (_ & _ & Hm'). rewrite find_null; [done|]. by apply (mask_zero _ _ Hm').
      - exists (STree t'). done. }
    destruct (slots_loop_ok (S n) f Hf u [] 0 m p eq_refl Hm Hu Hnd Hin) as (m' & u' & Hrun & Hm' & Hu' & Hall).
    rewrite (bind_Ok _ _ _ _ _ Hrun). eexists. split; [reflexivity|]. split; [by apply wf_CT|].
    intros x Hx. rewrite !find_slot. apply fmap_find; [apply mod_bound|done].
Qed.

(** ** The buffers of a tree, each at one place *)
Lemma div_mod_at (i k y : Z) : 0 < k → 0 <= y < k → (i * k + y) / k = i ∧ (i * k + y) mod k = y.
Proof.
  intros Hk Hy. split; [rewrite Z.div_add_l by lia; rewrite Z.div_small by lia; lia|].
  rewrite Z.add_comm, Z.mod_add by lia. by apply Z.mod_small.
Qed.

(** The offset of something found at [y] below slot [i]. *)
Lemma find_at n l m u i s y : u !! i = Some s → length u = 64%nat → 0 <= y < span n →
  0 <= Z.of_nat i * span n + y < span (S n) ∧
  find_in n (CT l m u) (Z.of_nat i * span n + y) = slot_find n s y.
Proof.
  intros Hi Hl Hy. apply lookup_lt_Some in Hi as Hlt. pose proof (span_pos n).
  split; [rewrite span_S; nia|]. rewrite find_slot.
  destruct (div_mod_at (Z.of_nat i) (span n) y) as [-> ->]; [lia..|]. by rewrite Nat2Z.id, Hi.
Qed.

Lemma slot_bufs_find n s b :
  (∀ t, match n with O => False | S n' => wf_tree n' t end → b ∈ bufs_of (pred n) t →
        ∃ x, 0 <= x < span n ∧ find_in (pred n) t x = Some b) →
  slot_ok n s → b ∈ slot_bufs n s → ∃ y, 0 <= y < span n ∧ slot_find n s y = Some b.
Proof.
  intros IH Hok Hb. destruct s as [|b'|t].
  - by apply elem_of_nil in Hb.
  - apply list_elem_of_singleton in Hb as ->. exists 0. pose proof (span_pos n). split; [lia|done].
  - destruct n as [|n]; [done|]. destruct Hok as [Hw _]. by apply (IH t).
Qed.

Lemma bufs_find n : ∀ t b, wf_tree n t → b ∈ bufs_of n t → ∃ x, 0 <= x < span (S n) ∧ find_in n t x = Some b.
Proof.
  induction n as [|n IH]; intros [l m u] b (-> & _ & (Hl & _) & Hu)%wf_CT Hb; rewrite bufs_of_CT in Hb;
    apply list_elem_of_In, in_flat_map in Hb as (s & [i Hi]%list_elem_of_In%list_elem_of_lookup_1 & Hb%list_elem_of_In);
    rewrite Forall_lookup in Hu; specialize (Hu _ _ Hi).
  - destruct (slot_bufs_find 0 s b) as (y & Hy & Hf); [done|done|done|].
    eexists. destruct (find_at 0 (Z.of_nat 0) m u i s y Hi Hl Hy) as [Hx Hfx]. split; [exact Hx|by rewrite Hfx].
  - destruct (slot_bufs_find (S n) s b) as (y & Hy & Hf); [exact (λ t, IH t b)|done|done|].
    eexists. destruct (find_at (S n) (Z.of_nat (S n)) m u i s y Hi Hl Hy) as [Hx Hfx]. split; [exact Hx|by rewrite Hfx].
Qed.

Lemma NoDup_flat_map {A B} (f : A → list B) (l : list A) :
  (∀ i x, l !! i = Some x → NoDup (f x)) →
  (∀ i j x y b, l !! i = Some x → l !! j = Some y → b ∈ f x → b ∈ f y → i = j) →
  NoDup (flat_map f l).
Proof.
  induction l as [|x l IH]; intros Hnd Hdis; [constructor|]. simpl. apply NoDup_app. split; [by apply (Hnd 0%nat)|]. split.
  - intros b Hb (y & [j Hj]%list_elem_of_In%list_elem_of_lookup_1 & Hy%list_elem_of_In)%list_elem_of_In%in_flat_map.
    by specialize (Hdis 0%nat (S j) x y b eq_refl Hj Hb Hy).
  - apply IH; [intros i y Hi; by apply (Hnd (S i))|].
    intros i j y z b Hi Hj Hy Hz. specialize (Hdis (S i) (S j) y z b Hi Hj Hy Hz). lia.
Qed.

(** Distinct blocks hold distinct buffers. *)
Definition injective (n : nat) (t : cache_tree) : Prop :=
  ∀ x y b, 0 <= x → 0 <= y → find_in n t x = Some b → find_in n t y = Some b → x / 2 ^ 18 = y / 2 ^ 18.

Lemma bufs_NoDup n : ∀ t, wf_tree n t → injective n t → NoDup (bufs_of n t).
Proof.
  induction n as [|n IH]; intros [l m u] (-> & Hn & (Hl & _) & Hu)%wf_CT Hinj; rewrite bufs_of_CT.
  all: match type of Hn with (?k <= _)%nat => assert (∀ i s, u !! i = Some s →
    (∀ b, b ∈ slot_bufs k s → ∃ y, 0 <= y < span k ∧ slot_find k s y = Some b)) as Hsb;
    [intros i s Hi b Hb; rewrite Forall_lookup in Hu; pose proof (span_pos k);
     apply slot_bufs_find; [|by eapply Hu|done]; try done; intros t; apply bufs_find|]
  end.
  all: apply NoDup_flat_map; [|
    intros i j s s' b Hi Hj Hb Hb';
    destruct (Hsb i s Hi b Hb) as (y & Hy & Hf); destruct (Hsb j s' Hj b Hb') as (y' & Hy' & Hf');
    match type of Hn with (?k <= _)%nat =>
      destruct (find_at k (Z.of_nat k) m u i s y Hi Hl Hy) as [Hx Hfx];
      destruct (find_at k (Z.of_nat k) m u j s' y' Hj Hl Hy') as [Hx' Hfx'];
      rewrite Hf in Hfx; rewrite Hf' in Hfx';
      pose proof (Hinj _ _ b (proj1 Hx) (proj1 Hx') Hfx Hfx') as Heq;
      apply (same_index k) in Heq; [|lia..];
      destruct (div_mod_at (Z.of_nat i) (span k) y (span_pos k) Hy) as [He _];
      destruct (div_mod_at (Z.of_nat j) (span k) y' (span_pos k) Hy') as [He' _]; lia
    end].
  - intros i s Hi. rewrite Forall_lookup in Hu. specialize (Hu _ _ Hi). destruct s; try done; repeat constructor; by intros ?%elem_of_nil.
  - intros i s Hi. rewrite Forall_lookup in Hu. specialize (Hu _ _ Hi). destruct s as [|b|t]; [constructor|done|].
    destruct Hu as [Hw _]. apply IH; [done|]. intros x y b Hx Hy Hfx Hfy.
    destruct (decide (x < span (S n) ∧ y < span (S n))) as [[Hxs Hys]|Hout].
    + destruct (find_at (S n) (Z.of_nat (S n)) m u i (STree t) x Hi Hl ltac:(lia)) as [Hbx Hx'].
      destruct (find_at (S n) (Z.of_nat (S n)) m u i (STree t) y Hi Hl ltac:(lia)) as [Hby Hy'].
      simpl slot_find in Hx', Hy'. rewrite Hfx in Hx'. rewrite Hfy in Hy'.
      pose proof (Hinj _ _ b (proj1 Hbx) (proj1 Hby) Hx' Hy') as Heq.
      apply (same_block (S n)) in Heq as [_ Heq]; [|lia..].
      destruct (div_mod_at (Z.of_nat i) (span (S n)) x) as [_ He]; [apply span_pos|lia|].
      destruct (div_mod_at (Z.of_nat i) (span (S n)) y) as [_ He']; [apply span_pos|lia|]. by rewrite He, He' in Heq.
    + destruct (decide (x < span (S n))) as [?|Hge]; [rewrite (find_beyond n t y Hw) in Hfy by lia; done|].
      rewrite (find_beyond n t x Hw) in Hfx by lia. done.
Qed.

(** ** The map of blocks that a tree stands for *)
Definition block (o : Z) : Z := o / 2 ^ 18.

(** [t] holds the buffers of [m], indexed by block, and the pool knows them. *)
Record cache_rep (p : pool) (t : cache_tree) (m : gmap Z buf_id) : Prop := {
  cr_tree : ∃ n, wf_tree n t ∧ ∀ x, 0 <= x → find_in n t x = m !! block x;
  cr_bufs : ∀ k b, m !! k = Some b →
    ∃ c, bufs p !! b = Some c ∧ 0 <= buf_offset c < MAX_OFFSET ∧ block (buf_offset c) = k
}.

Lemma block_of k : 0 <= k → block (k * 2 ^ 18) = k.
Proof. intros H. unfold block. by rewrite Z.div_mul by lia. Qed.

Lemma rep_empty p : cache_rep p (empty_tree 0) ∅.
Proof.
  constructor.
  - exists 0%nat. split; [by apply (wf_empty 0); lia|]. intros x _. rewrite lookup_empty. apply find_empty.
  - intros k b H. by rewrite lookup_empty in H.
Qed.

Lemma rep_injective p t m n : cache_rep p t m → (∀ x, 0 <= x → find_in n t x = m !! block x) → injective n t.
Proof.
  intros [_ Hb] Hf x y b Hx Hy Hfx Hfy. rewrite Hf in Hfx, Hfy by done.
  destruct (Hb _ _ Hfx) as (c & Hc & _ & He). destruct (Hb _ _ Hfy) as (c' & Hc' & _ & He').
  rewrite Hc in Hc'. injection Hc' as <-. unfold block in *. lia.
Qed.

Lemma none_present n : ∀ t, wf_tree n t → (∀ y, 0 <= y < span (S n) → find_in n t y = None) → present_mask t = 0.
Proof.
  induction n as [|n IH]; intros [l m u] (-> & Hn & Hm & Hu)%wf_CT Hnone; pose proof Hm as (Hl & _ & _);
    cbn [present_mask]; apply (mask_zero _ _ Hm), Forall_lookup; intros i s Hi; rewrite Forall_lookup in Hu;
    specialize (Hu _ _ Hi); (destruct s as [|b|t]; [done| |]); try done.
  - pose proof (span_pos 0) as Hs.
    destruct (find_at 0 (Z.of_nat 0) m u i (SBuf b) 0 Hi Hl ltac:(lia)) as [Hx Hfx].
    rewrite Hnone in Hfx by done. done.
  - destruct Hu as [Hw Hp]. exfalso. apply Hp. apply (IH t Hw). intros y Hy.
    destruct (find_at (S n) (Z.of_nat (S n)) m u i (STree t) y Hi Hl ltac:(lia)) as [Hx Hfx].
    rewrite Hnone in Hfx by lia. done.
Qed.

Lemma rep_present p t m : cache_rep p t m → present_mask t = 0 ↔ m = ∅.
Proof.
  intros [(n & Hw & Hf) Hb]. destruct (wf_level n t Hw) as (_ & _ & Hm). split.
  - intros Hz. apply map_empty. intros k. destruct (m !! k) as [b|] eqn:E; [|done]. exfalso.
    destruct (Hb _ _ E) as (c & _ & [Ho _] & Hk). specialize (Hf _ Ho). rewrite Hk, E in Hf.
    rewrite find_null in Hf; [done|]. by apply (mask_zero _ _ Hm).
  - intros ->. apply (none_present n t Hw). intros y Hy. rewrite Hf by lia. apply lookup_empty.
Qed.

(** *** The routines on represented maps *)
Lemma cache_find_rep p t m x : cache_rep p t m → 0 <= x → tree_find_buffer t x p = Ok (m !! block x, p).
Proof. intros [(n & Hw & Hf) _] Hx. rewrite (find_ok n t x p Hw Hx). by rewrite Hf. Qed.

Lemma cache_insert_rep p t m b c :
  cache_rep p t m → bufs p !! b = Some c → 0 <= buf_offset c < MAX_OFFSET → m !! block (buf_offset c) = None →
  ∃ t', tree_insert_buffer t b p = Ok (t', p) ∧ cache_rep p t' (<[block (buf_offset c) := b]> m) ∧
    present_mask t' ≠ 0.
Proof.
  intros [(n & Hw & Hf) Hbs] Hb Ho Hnone.
  destruct (insert_ok n t b c p Hw Hb Ho) as (n' & t' & Hrun & Hw' & Hp & _ & Hf'); [by rewrite Hf by lia|].
  exists t'. split; [done|]. split; [|done]. constructor.
  - exists n'. split; [done|]. intros x Hx. rewrite Hf' by done. change (x / 2 ^ 18) with (block x).
    change (buf_offset c / 2 ^ 18) with (block (buf_offset c)). case_decide as Hd.
    + by rewrite Hd, lookup_insert_eq.
    + rewrite lookup_insert_ne by done. by apply Hf.
  - intros k b' [[<- <-]|[_ Hk]]%lookup_insert_Some; [by exists c|by apply Hbs].
Qed.

Lemma cache_remove_rep p t m b c :
  cache_rep p t m → bufs p !! b = Some c → 0 <= buf_offset c → m !! block (buf_offset c) = Some b →
  ∃ t', tree_remove_buffer t b p = Ok (t', freed b p) ∧
    cache_rep (freed b p) t' (delete (block (buf_offset c)) m).
Proof.
  intros Hrep Hb Ho Hsome. pose proof Hrep as [(n & Hw & Hf) Hbs].
  assert (buf_offset c < span (S n)) as Hlt.
  { destruct (decide (buf_offset c < span (S n))) as [?|Hge]; [done|].
    specialize (Hf _ Ho). rewrite (find_beyond n t) in Hf by (done || lia). congruence. }
  destruct (remove_ok b c p Hb Ho n t Hw) as (t' & Hrun & Hw' & Hf').
  { rewrite Z.mod_small by lia. by rewrite Hf. }
  exists t'. split; [done|]. rewrite Z.mod_small in Hf' by lia. constructor.
  - exists n. split; [done|]. intros x Hx. rewrite Hf' by done. change (x / 2 ^ 18) with (block x).
    change (buf_offset c / 2 ^ 18) with (block (buf_offset c)). case_decide as Hd.
    + by rewrite Hd, lookup_delete_eq.
    + rewrite lookup_delete_ne by done. by apply Hf.
  - intros k b' [Hk Hm]%lookup_delete_Some. destruct (Hbs _ _ Hm) as (c' & Hc' & Ho' & Hk').
    exists c'. split; [|done]. simpl. rewrite lookup_delete_ne; [done|]. intros <-.
    rewrite Hb in Hc'. injection Hc' as <-. congruence.
Qed.

(** The clean buffers of a map. *)
Definition dirty_map (p : pool) (m : gmap Z buf_id) : gmap Z buf_id := omap (λ b, keep p (Some b)) m.

Lemma drop_clean_lookup bs b : ∀ p, NoDup bs →
  bufs (drop_clean bs p) !! b = if decide (b ∈ bs ∧ keep p (Some b) = None) then None else bufs p !! b.
Proof.
  induction bs as [|b' bs IH]; intros p Hnd.
  { rewrite decide_False by (intros [[]%elem_of_nil _]). done. }
  apply NoDup_cons in Hnd as [Hni Hnd]. simpl. rewrite IH by done. destruct (decide (b = b')) as [->|Hne].
  - rewrite decide_False by naive_solver. rewrite drop_one_lookup. repeat case_decide; try done; exfalso; set_solver.
  - rewrite (keep_other p (drop_one p b') (Some b)).
    + rewrite drop_one_lookup. rewrite (decide_False (P := b = b' ∧ _)) by naive_solver.
      repeat case_decide; try done; exfalso; set_solver.
    + intros ? [= <-]. rewrite drop_one_lookup. rewrite decide_False by naive_solver. done.
Qed.

Lemma free_rep p t m :
  cache_rep p t m →
  ∃ t' p', tree_free_buffers t p = Ok (t', p') ∧ cache_rep p' t' (dirty_map p m) ∧
    (∀ b, (∃ k, m !! k = Some b) → bufs p' !! b = if decide (keep p (Some b) = None) then None else bufs p !! b) ∧
    (∀ b, ¬ (∃ k, m !! k = Some b) → bufs p' !! b = bufs p !! b).
Proof.
  intros Hrep. pose proof Hrep as [(n & Hw & Hf) Hbs].
  assert (∀ b, b ∈ bufs_of n t ↔ ∃ k, m !! k = Some b) as Hin.
  { intros b. split.
    - intros (x & [Hx _] & Hfx)%(bufs_find n t b Hw). exists (block x). by rewrite <- Hf.
    - intros [k Hk]. destruct (Hbs _ _ Hk) as (c & _ & [Ho _] & Hblk). eapply (find_in_bufs n t (buf_offset c)).
      by rewrite Hf, Hblk. }
  assert (NoDup (bufs_of n t)) as Hnd.
  { apply bufs_NoDup; [done|]. by eapply rep_injective. }
  destruct (free_ok n t p Hw Hnd) as (t' & Hrun & Hw' & Hf').
  { apply Forall_forall. intros b [k Hk]%Hin. destruct (Hbs _ _ Hk) as (c & -> & _). done. }
  exists t', (drop_clean (bufs_of n t) p). split; [done|].
  assert (∀ b, (∃ k, m !! k = Some b) → bufs (drop_clean (bufs_of n t) p) !! b =
    if decide (keep p (Some b) = None) then None else bufs p !! b) as Hd.
  { intros b Hb%Hin. rewrite drop_clean_lookup by done. repeat case_decide; naive_solver. }
  split; [|split; [done|]].
  - constructor.
    + exists n. split; [done|]. intros x Hx. rewrite Hf' by done. unfold dirty_map.
      rewrite lookup_omap, Hf by done. by destruct (m !! block x).
    + intros k b. unfold dirty_map. rewrite lookup_omap. destruct (m !! k) as [b0|] eqn:Hk; [|done]. simpl.
      intros Hkeep. destruct (Hbs _ _ Hk) as (c & Hc & Hrest). assert (b0 = b) as ->.
      { unfold keep in Hkeep. simpl in Hkeep. rewrite Hc in Hkeep. simpl in Hkeep. destruct (clean c); [done|]. by injection Hkeep. }
      exists c. split; [|done]. rewrite Hd by eauto. rewrite decide_False; [done|]. unfold keep in *. simpl in *.
      rewrite Hc in *. simpl in *. by destruct (clean c).
  - intros b Hb. rewrite drop_clean_lookup by done. rewrite decide_False; [done|]. intros [H _]. by apply Hb, Hin.
Qed.
