(* ===== verification/CacheTreeTheorems.v ===== *)
(** * The cache tree implements a map from blocks to buffers

    The contracts of lib/NBFS/tree.c that lib/NBFS/NBFS.c relies on. *)
From S2P Require Import Prelude CacheTree CacheTreeProofs.
Local Open Scope Z_scope.

(** ** A tree with three buffers, on two levels *)
Definition demo_buffer (o : Z) (filled flushed : Z) : cache_buffer :=
  mk_cache_buffer (λ _, 0) o CACHE_BUFFER_SIZE filled flushed false.
Definition demo_pool : pool :=
  mk_pool {[0%nat := demo_buffer 0 10 10; 1%nat := demo_buffer (5 * 2 ^ 18) 7 3;
            2%nat := demo_buffer (70 * 2 ^ 18) 9 9]} 10 3%nat.
Definition demo_cache : cache_tree :=
  match (t ← tree_insert_buffer (empty_tree 0) 0%nat; t ← tree_insert_buffer t 1%nat; tree_insert_buffer t 2%nat) demo_pool with
  | Ok (t, _) => t
  | Fault _ => empty_tree 0
  end.
Definition demo_blocks : gmap Z buf_id := <[70 := 2%nat]> (<[5 := 1%nat]> (<[0 := 0%nat]> ∅)).

Lemma demo_cache_rep : cache_rep demo_pool demo_cache demo_blocks.
Proof.
  destruct (cache_insert_rep demo_pool (empty_tree 0) ∅ 0%nat (demo_buffer 0 10 10)) as (t0 & R0 & H0 & _);
    [apply rep_empty|reflexivity|vm_compute; split; congruence|reflexivity|].
  destruct (cache_insert_rep demo_pool t0 _ 1%nat (demo_buffer (5 * 2 ^ 18) 7 3) H0) as (t1 & R1 & H1 & _);
    [reflexivity|vm_compute; split; congruence|reflexivity|].
  destruct (cache_insert_rep demo_pool t1 _ 2%nat (demo_buffer (70 * 2 ^ 18) 9 9) H1) as (t2 & R2 & H2 & _);
    [reflexivity|vm_compute; split; congruence|reflexivity|].
  assert (demo_cache = t2) as ->; [|exact H2]. unfold demo_cache.
  by rewrite (bind_Ok _ _ _ _ _ R0), (bind_Ok _ _ _ _ _ R1), R2.
Qed.

(** [tree_find_buffer] is lookup by block: any offset finds the buffer of
    the 256 KiB block it lies in, and offsets beyond the tree find nothing;
    [tree_find_filled_buffer] further requires the buffer to hold data. *)
Theorem cache_find_correct p t m x :
  cache_rep p t m → 0 <= x →
  tree_find_buffer t x p = Ok (m !! block x, p) ∧
  tree_find_filled_buffer t x p =
    Ok (match m !! block x with
        | Some b => match bufs p !! b with
                    | Some c => if decide (0 < bytes_filled c) then Some b else None
                    | None => None
                    end
        | None => None
        end, p).
Proof.
  intros Hrep Hx. pose proof (cache_find_rep p t m x Hrep Hx) as Hf. split; [done|].
  unfold tree_find_filled_buffer. rewrite (bind_Ok _ _ _ _ _ Hf). destruct (m !! block x) as [b|] eqn:Hb; [|done].
  destruct (cr_bufs _ _ _ Hrep _ _ Hb) as (c & Hc & _). rewrite (bind_Ok _ _ _ _ _ (load_buf_ok b c p Hc)).
  by rewrite Hc.
Qed.

Lemma cache_find_correct_witness :
  tree_find_buffer demo_cache (5 * 2 ^ 18 + 123) demo_pool = Ok (Some 1%nat, demo_pool) ∧
  tree_find_filled_buffer demo_cache (5 * 2 ^ 18 + 123) demo_pool = Ok (Some 1%nat, demo_pool).
Proof.
  apply (cache_find_correct demo_pool demo_cache demo_blocks (5 * 2 ^ 18 + 123)); [exact demo_cache_rep|lia].
Defined.

(** [tree_insert_buffer] puts a buffer in a free block, growing the tree as
    far as needed, without disturbing any other block; no assertion fires and
    no shift overflows for offsets below 2^60. *)
Theorem cache_insert_correct p t m b c :
  cache_rep p t m → bufs p !! b = Some c → 0 <= buf_offset c < MAX_OFFSET → m !! block (buf_offset c) = None →
  ∃ t', tree_insert_buffer t b p = Ok (t', p) ∧ cache_rep p t' (<[block (buf_offset c) := b]> m) ∧
    present_mask t' ≠ 0.
Proof. apply cache_insert_rep. Qed.

Definition demo_pool2 : pool := set_bufs (<[3%nat := demo_buffer (5000 * 2 ^ 18) 0 0]> (bufs demo_pool)) demo_pool.

Lemma demo_cache_rep2 : cache_rep demo_pool2 demo_cache demo_blocks.
Proof.
  destruct demo_cache_rep as [Ht Hb]. constructor; [done|]. intros k b Hk. destruct (Hb k b Hk) as (c & Hc & Hr).
  exists c. split; [|done]. simpl. rewrite lookup_insert_ne; [done|]. intros <-. discriminate.
Qed.

Lemma cache_insert_correct_witness :
  ∃ t', tree_insert_buffer demo_cache 3%nat demo_pool2 = Ok (t', demo_pool2) ∧
    cache_rep demo_pool2 t' (<[5000 := 3%nat]> demo_blocks) ∧ present_mask t' ≠ 0.
Proof.
  apply (cache_insert_correct demo_pool2 demo_cache demo_blocks 3%nat (demo_buffer (5000 * 2 ^ 18) 0 0)).
  - exact demo_cache_rep2.
  - reflexivity.
  - vm_compute. split; congruence.
  - reflexivity.
Defined.

(** [tree_remove_buffer] takes exactly the buffer's block out of the map and
    gives the buffer back to the pool. *)
Theorem cache_remove_correct p t m b c :
  cache_rep p t m → bufs p !! b = Some c → 0 <= buf_offset c → m !! block (buf_offset c) = Some b →
  ∃ t', tree_remove_buffer t b p = Ok (t', freed b p) ∧
    cache_rep (freed b p) t' (delete (block (buf_offset c)) m).
Proof. apply cache_remove_rep. Qed.

Lemma cache_remove_correct_witness :
  ∃ t', tree_remove_buffer demo_cache 2%nat demo_pool = Ok (t', freed 2%nat demo_pool) ∧
    cache_rep (freed 2%nat demo_pool) t' (delete 70 demo_blocks).
Proof.
  apply (cache_remove_correct demo_pool demo_cache demo_blocks 2%nat (demo_buffer (70 * 2 ^ 18) 9 9)).
  - exact demo_cache_rep.
  - reflexivity.
  - vm_compute. congruence.
  - reflexivity.
Defined.

(** A buffer with no I/O in progress whose every byte is flushed. *)
Definition evictable (p : pool) (b : buf_id) : Prop :=
  ∃ c, bufs p !! b = Some c ∧ in_progress c = false ∧ bytes_filled c = bytes_flushed c.
#[local] Instance evictable_dec p b : Decision (evictable p b).
Proof.
  unfold evictable. destruct (bufs p !! b) as [c|]; [|right; naive_solver].
  destruct (decide (in_progress c = false ∧ bytes_filled c = bytes_flushed c)); [left; eauto|right; naive_solver].
Defined.

(** C20. [tree_free_buffers] evicts exactly the clean buffers (idle, every byte
    flushed): no dirty or busy buffer is ever dropped, other files' buffers are
    untouched, and the tree ends empty exactly when nothing was dirty. *)
Theorem cache_free_correct p t m :
  cache_rep p t m →
  ∃ t' p' m', tree_free_buffers t p = Ok (t', p') ∧ cache_rep p' t' m' ∧
    (∀ k b, m' !! k = Some b ↔ m !! k = Some b ∧ ¬ evictable p b) ∧
    (∀ k b, m !! k = Some b → evictable p b → bufs p' !! b = None) ∧
    (∀ b, (∀ k, m !! k ≠ Some b) ∨ ¬ evictable p b → bufs p' !! b = bufs p !! b) ∧
    (present_mask t' = 0 ↔ m' = ∅).
Proof.
  intros Hrep. destruct (free_rep p t m Hrep) as (t' & p' & Hrun & Hrep' & H1 & H2).
  exists t', p', (dirty_map p m). split; [done|]. split; [done|].
  assert (Hkeep : ∀ k b, m !! k = Some b → keep p (Some b) = if decide (evictable p b) then None else Some b).
  { intros k b Hk. destruct (cr_bufs _ _ _ Hrep _ _ Hk) as (c & Hc & _). unfold keep. simpl. rewrite Hc. simpl.
    assert (He : evictable p b ↔ in_progress c = false ∧ bytes_filled c = bytes_flushed c) by (unfold evictable; naive_solver).
    unfold clean. destruct (in_progress c) eqn:Hp; simpl; [by rewrite decide_False by naive_solver|].
    case_bool_decide; [by rewrite decide_True by naive_solver|by rewrite decide_False by naive_solver]. }
  split; [|split; [|split; [|by eapply rep_present]]].
  - intros k b. unfold dirty_map. rewrite lookup_omap. split.
    + destruct (m !! k) as [b0|] eqn:Hk; [|done]. cbn [mbind option_bind]. rewrite (Hkeep _ _ Hk). 
      by destruct (decide _) as [|Hn]; [|intros [= <-]].
    + intros [Hk Hn]. rewrite Hk. cbn [mbind option_bind]. by rewrite (Hkeep _ _ Hk), decide_False.
  - intros k b Hk He. rewrite H1 by eauto. rewrite (Hkeep _ _ Hk), (decide_True (P := evictable p b)) by done. done.
  - intros b Hb. destruct (decide (map_Exists (λ _ b', b' = b) m)) as [(k & ? & Hk & ->)|Hk].
    + destruct Hb as [Hb|Hn]; [naive_solver|]. rewrite H1 by eauto.
      rewrite (Hkeep _ _ Hk), (decide_False (P := evictable p b)) by done. done.
    + apply H2. intros [k Hk']. apply Hk. by exists k, b.
Qed.

Lemma cache_free_correct_witness :
  ∃ t' p' m', tree_free_buffers demo_cache demo_pool = Ok (t', p') ∧ cache_rep p' t' m' ∧
    (∀ k b, m' !! k = Some b ↔ demo_blocks !! k = Some b ∧ ¬ evictable demo_pool b) ∧
    (∀ k b, demo_blocks !! k = Some b → evictable demo_pool b → bufs p' !! b = None) ∧
    (∀ b, (∀ k, demo_blocks !! k ≠ Some b) ∨ ¬ evictable demo_pool b → bufs p' !! b = bufs demo_pool !! b) ∧
    (present_mask t' = 0 ↔ m' = ∅).
Proof. apply (cache_free_correct demo_pool demo_cache demo_blocks). exact demo_cache_rep. Defined.
