(* ===== verification/Quiet.v ===== *)
(** * The trees take no locks

    The functions of the B+ tree and of the cache tree stop, if at all, with a
    fault other than [Deadlock]. *)
From S2P Require Import Prelude Triple BPlusTree CacheTree.
Local Open Scope Z_scope.

(** ** The cache tree *)
Lemma load_buf_quiet b : quiet (load_buf b).
Proof. unfold load_buf. vcg. Qed.
Lemma store_buf_quiet b c : quiet (store_buf b c).
Proof. unfold store_buf. vcg. Qed.
#[local] Hint Resolve load_buf_quiet store_buf_quiet : vcg.
Lemma cache_buffer_free_quiet b : quiet (cache_buffer_free b).
Proof. unfold cache_buffer_free. vcg. Qed.
Lemma level_size_quiet l : quiet (CACHE_TREE_LEVEL_SIZE l).
Proof. unfold CACHE_TREE_LEVEL_SIZE. vcg. Qed.
#[local] Hint Resolve cache_buffer_free_quiet level_size_quiet : vcg.
Lemma level_mask_quiet l : quiet (CACHE_TREE_LEVEL_MASK l).
Proof. unfold CACHE_TREE_LEVEL_MASK. vcg. Qed.
Lemma index_quiet l o : quiet (CACHE_TREE_INDEX l o).
Proof. unfold CACHE_TREE_INDEX. vcg. Qed.
#[local] Hint Resolve level_mask_quiet index_quiet : vcg.

Lemma slot_case_quiet {T A} (oob null : M pool A) onbuf (ontree : T → M pool A) u : ∀ i,
  quiet oob → quiet null → (∀ b, quiet (onbuf b)) → (∀ t, STree t ∈ u → quiet (ontree t)) →
  quiet (slot_case oob null onbuf ontree u i).
Proof.
  induction u as [|s u IH]; intros [|i] Ho Hn Hb Ht; simpl; [done|done| |].
  - destruct s; [done|done|]. apply Ht. left.
  - apply IH; [done..|]. intros t Hin. apply Ht. by right.
Qed.

(** Induction on a cache tree through its slots. *)
Lemma cache_tree_ind' (P : cache_tree → Prop) :
  (∀ l m u, (∀ t, STree t ∈ u → P t) → P (CT l m u)) → ∀ t, P t.
Proof.
  intros H. fix IH 1. intros [l m u]. apply H.
  induction u as [|s u IHu]; intros t Hin; [apply elem_of_nil in Hin; destruct Hin|].
  assert (Hs : ∀ t', s = STree t' → P t').
  { destruct s as [| |t'']; [discriminate|discriminate|].
    pose proof (IH t'') as HP. intros t' [= <-]. exact HP. }
  apply elem_of_cons in Hin as [Heq|Hin]; [apply Hs; symmetry; exact Heq|exact (IHu t Hin)].
Qed.

Lemma tree_find_buffer_quiet t : ∀ offset, quiet (tree_find_buffer t offset).
Proof.
  induction t as [l m u IH] using cache_tree_ind'. intros offset. cbn [tree_find_buffer]. vcg.
  - apply slot_case_quiet; intros; vcg.
  - apply slot_case_quiet; intros; vcg.
Qed.
#[local] Hint Resolve tree_find_buffer_quiet : vcg.
Lemma tree_find_filled_buffer_quiet t offset : quiet (tree_find_filled_buffer t offset).
Proof. unfold tree_find_filled_buffer. vcg. Qed.
#[local] Hint Resolve tree_find_filled_buffer_quiet : vcg.

Lemma grow_quiet fuel : ∀ root offset, quiet (grow fuel root offset).
Proof. induction fuel as [|fuel IH]; intros root offset; simpl; vcg. Qed.
Lemma place_quiet fuel : ∀ t offset b, quiet (place fuel t offset b).
Proof. induction fuel as [|fuel IH]; intros t offset b; simpl; vcg. Qed.
#[local] Hint Resolve grow_quiet place_quiet : vcg.
Lemma tree_insert_buffer_quiet t b : quiet (tree_insert_buffer t b).
Proof. unfold tree_insert_buffer. vcg. Qed.

Lemma tree_remove_buffer_quiet t : ∀ b, quiet (tree_remove_buffer t b).
Proof.
  induction t as [l m u IH] using cache_tree_ind'. intros b. cbn [tree_remove_buffer]. vcg.
  - apply slot_case_quiet; intros; vcg.
  - apply slot_case_quiet; intros; vcg.
Qed.

Lemma slots_loop_quiet f u : ∀ i m,
  (∀ s, s ∈ u → quiet (f s)) → quiet (slots_loop f u i m).
Proof.
  induction u as [|s u IH]; intros i m Hf; simpl; [vcg|].
  vcg_step; [apply Hf; left|]. vcg_step. vcg_step; [apply IH; intros s' Hs'; apply Hf; by right|]. vcg.
Qed.
Lemma free_clean_quiet s : quiet (free_clean s).
Proof. unfold free_clean. vcg. Qed.
#[local] Hint Resolve free_clean_quiet : vcg.
Lemma tree_free_buffers_quiet t : quiet (tree_free_buffers t).
Proof.
  induction t as [l m u IH] using cache_tree_ind'. cbn [tree_free_buffers].
  destruct (decide (m = 0)); [vcg|]. vcg_step; [|vcg].
  destruct (decide (l = 0)); apply slots_loop_quiet; intros s Hs; [vcg|].
  destruct s as [| |t]; [vcg|vcg|]. vcg_step; [by apply IH|]. vcg.
Qed.

(** ** The B+ tree *)
Lemma load_quiet l : quiet (load l).
Proof. unfold load. vcg. Qed.
Lemma store_quiet l n : quiet (store l n).
Proof. unfold store. vcg. Qed.
#[local] Hint Resolve load_quiet store_quiet : vcg.
Lemma update_quiet l f : quiet (update l f).
Proof. unfold update. vcg. Qed.
Lemma key_of_quiet n i : quiet (key_of n i).
Proof. unfold key_of. vcg. Qed.
Lemma ptr_of_quiet n i : quiet (ptr_of n i).
Proof. unfold ptr_of. vcg. Qed.
Lemma as_node_quiet p : quiet (as_node p).
Proof. unfold as_node. vcg. Qed.
#[local] Hint Resolve update_quiet key_of_quiet ptr_of_quiet as_node_quiet : vcg.
Lemma child_of_quiet n i : quiet (child_of n i).
Proof. unfold child_of. vcg. Qed.
Lemma copy_key_quiet k : quiet (copy_key k).
Proof. unfold copy_key. vcg. Qed.
Lemma heap_fuel_quiet : quiet heap_fuel.
Proof. unfold heap_fuel. vcg. Qed.
#[local] Hint Resolve child_of_quiet copy_key_quiet heap_fuel_quiet : vcg.

Lemma for_while_quiet n (test : nat → M heap bool) : ∀ i, (∀ j, quiet (test j)) → quiet (for_while n i test).
Proof.
  induction n as [|n IH]; intros i Ht; simpl; [vcg|]. vcg_step; [apply Ht|]. vcg_step. vcg_step; [by apply IH|vcg].
Qed.

Lemma for_each_quiet n (body : nat → M heap unit) : ∀ i, (∀ j, quiet (body j)) → quiet (for_each n i body).
Proof. induction n as [|n IH]; intros i Hb; simpl; [vcg|]. vcg_step; [apply Hb|]. vcg_step. by apply IH. Qed.
Hint Extern 3 (triple _ _ (for_while _ _ _) _) => apply for_while_quiet; intros ?; vcg : vcg.
Hint Extern 3 (triple _ _ (for_each _ _ _) _) => apply for_each_quiet; intros ?; vcg : vcg.

Lemma find_leaf_loop_quiet fuel : ∀ l k, quiet (find_leaf_loop fuel l k).
Proof. induction fuel as [|fuel IH]; intros l k; simpl; vcg. Qed.
#[local] Hint Resolve find_leaf_loop_quiet : vcg.
Lemma find_leaf_quiet r k : quiet (find_leaf r k).
Proof. unfold find_leaf. vcg. Qed.
Lemma scan_equal_quiet n k : quiet (scan_equal n k).
Proof. unfold scan_equal. vcg. Qed.
#[local] Hint Resolve find_leaf_quiet scan_equal_quiet : vcg.
Lemma B_plus_tree_find_quiet r k : quiet (B_plus_tree_find r k).
Proof. unfold B_plus_tree_find. vcg. Qed.
Lemma get_node_index_quiet l : quiet (get_node_index l).
Proof. unfold get_node_index. vcg. Qed.
Lemma make_new_node_quiet : quiet make_new_node.
Proof. unfold make_new_node. vcg. Qed.
#[local] Hint Resolve get_node_index_quiet make_new_node_quiet : vcg.
Lemma make_new_leaf_quiet : quiet make_new_leaf.
Proof. unfold make_new_leaf. vcg. Qed.
Lemma destroy_node_quiet l : quiet (destroy_node l).
Proof. unfold destroy_node. vcg. Qed.
#[local] Hint Resolve make_new_leaf_quiet destroy_node_quiet : vcg.

Lemma insert_parent_quiet fuel :
  (∀ root nd right i k, quiet (insert_into_node_after_splitting fuel root nd right i k)) ∧
  (∀ root l r k, quiet (insert_into_parent fuel root l r k)).
Proof.
  induction fuel as [|fuel [IH1 IH2]]; split; intros; cbn [insert_into_node_after_splitting insert_into_parent];
    vcg.
Qed.
Lemma insert_into_parent_quiet fuel root l r k : quiet (insert_into_parent fuel root l r k).
Proof. apply insert_parent_quiet. Qed.
#[local] Hint Resolve insert_into_parent_quiet : vcg.
Lemma insert_into_leaf_quiet root l i k r : quiet (insert_into_leaf_after_splitting root l i k r).
Proof. unfold insert_into_leaf_after_splitting. vcg. Qed.
Lemma insert_scan_quiet n : ∀ i nd k c, quiet (insert_scan n i nd k c).
Proof. induction n as [|n IH]; intros; simpl; vcg. Qed.
#[local] Hint Resolve insert_into_leaf_quiet insert_scan_quiet : vcg.
Lemma B_plus_tree_insert_quiet c r k f : quiet (B_plus_tree_insert c r k f).
Proof. unfold B_plus_tree_insert. vcg. Qed.

Lemma adjust_root_quiet r : quiet (adjust_root r).
Proof. unfold adjust_root. vcg. Qed.
Lemma distribute_nodes_quiet nd nb i : quiet (distribute_nodes nd nb i).
Proof. unfold distribute_nodes. vcg. Qed.
#[local] Hint Resolve adjust_root_quiet distribute_nodes_quiet : vcg.
Lemma delete_coalesce_quiet fuel :
  (∀ root nd i, quiet (delete_entry fuel root nd i)) ∧
  (∀ root nd nb i, quiet (coalesce_nodes fuel root nd nb i)).
Proof.
  induction fuel as [|fuel [IH1 IH2]]; split; intros; cbn [delete_entry coalesce_nodes]; vcg.
Qed.
Lemma delete_entry_quiet fuel root nd i : quiet (delete_entry fuel root nd i).
Proof. apply delete_coalesce_quiet. Qed.
#[local] Hint Resolve delete_entry_quiet : vcg.
Lemma B_plus_tree_remove_quiet r k : quiet (B_plus_tree_remove r k).
Proof. unfold B_plus_tree_remove. vcg. Qed.

Lemma leftmost_leaf_quiet fuel : ∀ p, quiet (leftmost_leaf fuel p).
Proof. induction fuel as [|fuel IH]; intros; simpl; vcg. Qed.
Lemma rec_file_quiet p : quiet (rec_file p).
Proof. unfold rec_file. vcg. Qed.
#[local] Hint Resolve leftmost_leaf_quiet rec_file_quiet : vcg.
Lemma walk_slots_quiet n : ∀ i nd, quiet (walk_slots n i nd).
Proof. induction n as [|n IH]; intros; simpl; vcg. Qed.
Lemma next_leaf_quiet nd : quiet (next_leaf nd).
Proof. unfold next_leaf. vcg. Qed.
#[local] Hint Resolve walk_slots_quiet next_leaf_quiet : vcg.
Lemma walk_leaves_quiet fuel : ∀ p, quiet (walk_leaves fuel p).
Proof. induction fuel as [|fuel IH]; intros; simpl; vcg. Qed.
#[local] Hint Resolve walk_leaves_quiet : vcg.
Lemma traverse_leaves_quiet r : quiet (traverse_leaves r).
Proof. unfold traverse_leaves. vcg. Qed.
Lemma B_plus_tree_initial_quiet : quiet B_plus_tree_initial.
Proof. unfold B_plus_tree_initial. vcg. Qed.
#[export] Hint Resolve load_buf_quiet store_buf_quiet tree_find_buffer_quiet tree_find_filled_buffer_quiet
  tree_insert_buffer_quiet tree_remove_buffer_quiet tree_free_buffers_quiet B_plus_tree_find_quiet
  B_plus_tree_insert_quiet B_plus_tree_remove_quiet traverse_leaves_quiet B_plus_tree_initial_quiet : vcg.
