(* ===== verification/FsState.v ===== *)
(** * The state of the file system (lib/NBFS/NBFS.c)

    One record per struct of NBFS.c, in stores indexed by identifiers; a pointer
    is an identifier, NULL is [None], and using a freed object is a fault.  The
    whole state is the [world]: the filesystem and its B+ tree, files, requests,
    channels, cache buffers, the file list [g_caches], the blobstore's metadata,
    and what is in flight: asynchronous blobstore calls, messages to other
    threads, and the completions the clients have received. *)
From S2P Require Import Prelude BPlusTree CacheTree.
Local Open Scope Z_scope.

Abbreviation req_id := nat (only parsing).
Abbreviation chan_id := nat (only parsing).
Abbreviation obj_id := nat (only parsing).
(** A [struct spdk_blob *] and a [spdk_blob_id]: the blobstore has one handle per blob. *)
Abbreviation blob_id := Z (only parsing).

Definition ENOENT : Z := 2.
Definition EBADF : Z := 9.
Definition ENOMEM : Z := 12.
Definition EPERM : Z := 1.
Definition EEXIST : Z := 17.
Definition EINVAL : Z := 22.
Definition ENAMETOOLONG : Z := 36.

Definition SPDK_FILE_NAME_MAX : nat := 255.
Definition SPDK_BLOBFS_OPEN_CREATE : Z := 1.
Definition SPDK_FILE_PRIORITY_LOW : Z := 0.
Definition BLOBFS_DEFAULT_CACHE_SIZE : Z := 4 * 1024 * 1024 * 1024.
Definition SPDK_BLOBFS_DEFAULT_OPTS_CLUSTER_SZ : Z := 1024 * 1024.
Definition CACHE_READAHEAD_THRESHOLD : Z := 128 * 1024.

(** ** Pointers to functions

    Every function of NBFS.c that is passed as a callback, as a request
    function or as a thread message; [CbUser n] is a client's callback. *)
Inductive callback : Type :=
| CbUser (n : nat)
| Cb__wake_caller | Cb__copy_stat
| Cb__fs_create_file_done | Cb_fs_open_blob_create_cb | Cb__fs_open_file_done
| Cb__fs_rename_file_done | Cb_fs_rename_delete_done | Cb__fs_delete_file_done
| Cb_blob_delete_cb | Cb__do_blob_read | Cb__rw_from_file_done | Cb__file_close_async__sync_done
| Cb_init_cb | Cb_load_cb | Cb_unload_cb | Cb_fs_load_done
| Cb_fs_create_blob_create_cb | Cb_fs_create_blob_open_cb | Cb_fs_create_blob_resize_cb
| Cb_fs_create_blob_close_cb | Cb_fs_open_blob_done
| Cb_fs_rename_blob_open_cb | Cb_fs_rename_blob_close_cb
| Cb_fs_truncate_resize_cb | Cb_fs_truncate_complete_cb
| Cb__rw_done | Cb__read_done | Cb__file_cache_finish_sync | Cb__file_flush_done
| Cb__file_extend_resize_cb | Cb__file_extend_done | Cb__readahead_done | Cb__file_close_async_done
| Cb__file_stat | Cb__fs_create_file | Cb__fs_open_file | Cb__fs_rename_file | Cb__fs_delete_file
| Cb__truncate | Cb__rw_from_file | Cb__file_flush | Cb__file_extend_blob | Cb__readahead | Cb__file_close
| Cb__start_cache_pool_mgmt | Cb__stop_cache_pool_mgmt
| Cb_add_file_to_cache_pool | Cb_remove_file_from_cache_pool | Cb_file_free
| Cb_put_io_channel.
#[export] Instance callback_eq_dec : EqDecision callback.
Proof. solve_decision. Defined.

(** A [void *] argument.  [args] is the first member of a request, so
    [&req->args] and [req] are one pointer. *)
Inductive void_ptr : Type :=
| VNull
| VReq (r : req_id)
| VFile (f : file_id)
| VChan (c : chan_id)
| VUser (n : nat).
#[export] Instance void_ptr_eq_dec : EqDecision void_ptr.
Proof. solve_decision. Defined.

Record file_stat : Type := mk_file_stat { stat_blobid : blob_id; stat_size : Z }.

(** The arguments a callback gets besides its [void *]. *)
Inductive outcome : Type :=
| Op (rc : Z)
| WithFs (ok : bool) (rc : Z)
| WithFile (f : option file_id) (rc : Z)
| WithStat (s : option file_stat) (rc : Z)
| WithBs (rc : Z)
| WithId (id : blob_id) (rc : Z)
| WithBlob (b : option blob_id) (rc : Z).

(** A data pointer: into a client's or a DMA object, or into a cache buffer. *)
Inductive data_ptr : Type :=
| PMem (o : obj_id) (off : Z)
| PBuf (b : buf_id) (off : Z).

Record iovec : Type := mk_iovec { iov_base : data_ptr; iov_len : Z }.

(** ** struct spdk_fs_cb_args: the union [op] *)
Inductive op_data : Type :=
| OpZero
| OpFsLoad (deleted_files : list blob_id)
| OpTruncate (length : Z)
| OpRw (channel : option nat) (pin_buf : option obj_id) (is_read : bool)
       (offset length start_lba num_lba blocklen : Z)
| OpRename (old_name new_name : string)
| OpFlush (cache_buffer : buf_id) (length : Z)
| OpReadahead (cache_buffer : option buf_id) (length offset : Z)
| OpSync (offset : Z) (xattr_in_progress : bool) (length : Z)
| OpResize (num_clusters : Z)
| OpOpen (name : string) (flags : Z)
| OpCreateBlob (blob : option blob_id)
| OpName (name : string).

(** struct spdk_fs_request with its [args]; an object without a channel is one
    that a function keeps on its stack.  [r_fs] is whether [args->fs] is set,
    [r_rwerrno] the cell [args->rwerrno] points to. *)
Record request : Type := mk_request {
  r_fn : option callback;
  r_arg : void_ptr;
  r_sem : option chan_id;
  r_fs : bool;
  r_file : option file_id;
  r_rc : Z;
  r_rwerrno : option nat;
  r_iovs : list iovec;
  r_iovcnt : Z;
  r_op : op_data;
  r_channel : option chan_id
}.
Definition set_r_fn (x : option callback) (r : request) : request := mk_request x (r_arg r) (r_sem r) (r_fs r)
  (r_file r) (r_rc r) (r_rwerrno r) (r_iovs r) (r_iovcnt r) (r_op r) (r_channel r).
Definition set_r_arg (x : void_ptr) (r : request) : request := mk_request (r_fn r) x (r_sem r) (r_fs r)
  (r_file r) (r_rc r) (r_rwerrno r) (r_iovs r) (r_iovcnt r) (r_op r) (r_channel r).
Definition set_r_sem (x : option chan_id) (r : request) : request := mk_request (r_fn r) (r_arg r) x (r_fs r)
  (r_file r) (r_rc r) (r_rwerrno r) (r_iovs r) (r_iovcnt r) (r_op r) (r_channel r).
Definition set_r_fs (x : bool) (r : request) : request := mk_request (r_fn r) (r_arg r) (r_sem r) x (r_file r)
  (r_rc r) (r_rwerrno r) (r_iovs r) (r_iovcnt r) (r_op r) (r_channel r).
Definition set_r_file (x : option file_id) (r : request) : request := mk_request (r_fn r) (r_arg r) (r_sem r)
  (r_fs r) x (r_rc r) (r_rwerrno r) (r_iovs r) (r_iovcnt r) (r_op r) (r_channel r).
Definition set_r_rc (x : Z) (r : request) : request := mk_request (r_fn r) (r_arg r) (r_sem r) (r_fs r)
  (r_file r) x (r_rwerrno r) (r_iovs r) (r_iovcnt r) (r_op r) (r_channel r).
Definition set_r_rwerrno (x : option nat) (r : request) : request := mk_request (r_fn r) (r_arg r) (r_sem r)
  (r_fs r) (r_file r) (r_rc r) x (r_iovs r) (r_iovcnt r) (r_op r) (r_channel r).
Definition set_r_iovs (x : list iovec) (r : request) : request := mk_request (r_fn r) (r_arg r) (r_sem r)
  (r_fs r) (r_file r) (r_rc r) (r_rwerrno r) x (r_iovcnt r) (r_op r) (r_channel r).
Definition set_r_iovcnt (x : Z) (r : request) : request := mk_request (r_fn r) (r_arg r) (r_sem r) (r_fs r)
  (r_file r) (r_rc r) (r_rwerrno r) (r_iovs r) x (r_op r) (r_channel r).
Definition set_r_op (x : op_data) (r : request) : request := mk_request (r_fn r) (r_arg r) (r_sem r) (r_fs r)
  (r_file r) (r_rc r) (r_rwerrno r) (r_iovs r) (r_iovcnt r) x (r_channel r).
Definition set_r_channel (x : option chan_id) (r : request) : request := mk_request (r_fn r) (r_arg r) (r_sem
  r) (r_fs r) (r_file r) (r_rc r) (r_rwerrno r) (r_iovs r) (r_iovcnt r) (r_op r) x.

Definition zero_request : request :=
  mk_request None VNull None false None 0 None [] 0 OpZero None.

(** struct spdk_fs_channel; [c_direct] is whether [send_request] is
    [__send_request_direct], as opposed to the client's message function. *)
Record channel : Type := mk_channel {
  c_reqs : list req_id;
  c_mem : list req_id;
  c_sem : Z;
  c_bs_channel : option nat;
  c_direct : bool;
  c_sync : bool;
  c_outstanding : Z;
  c_lock : bool
}.
Definition set_c_reqs (x : list req_id) (r : channel) : channel := mk_channel x (c_mem r) (c_sem r)
  (c_bs_channel r) (c_direct r) (c_sync r) (c_outstanding r) (c_lock r).
Definition set_c_mem (x : list req_id) (r : channel) : channel := mk_channel (c_reqs r) x (c_sem r)
  (c_bs_channel r) (c_direct r) (c_sync r) (c_outstanding r) (c_lock r).
Definition set_c_sem (x : Z) (r : channel) : channel := mk_channel (c_reqs r) (c_mem r) x (c_bs_channel r)
  (c_direct r) (c_sync r) (c_outstanding r) (c_lock r).
Definition set_c_bs_channel (x : option nat) (r : channel) : channel := mk_channel (c_reqs r) (c_mem r) (c_sem
  r) x (c_direct r) (c_sync r) (c_outstanding r) (c_lock r).
Definition set_c_direct (x : bool) (r : channel) : channel := mk_channel (c_reqs r) (c_mem r) (c_sem r)
  (c_bs_channel r) x (c_sync r) (c_outstanding r) (c_lock r).
Definition set_c_sync (x : bool) (r : channel) : channel := mk_channel (c_reqs r) (c_mem r) (c_sem r)
  (c_bs_channel r) (c_direct r) x (c_outstanding r) (c_lock r).
Definition set_c_outstanding (x : Z) (r : channel) : channel := mk_channel (c_reqs r) (c_mem r) (c_sem r)
  (c_bs_channel r) (c_direct r) (c_sync r) x (c_lock r).
Definition set_c_lock (x : bool) (r : channel) : channel := mk_channel (c_reqs r) (c_mem r) (c_sem r)
  (c_bs_channel r) (c_direct r) (c_sync r) (c_outstanding r) x.

(** struct spdk_file. *)
Record file : Type := mk_file {
  f_blob : option blob_id;
  f_name : option string;
  f_trace_arg_name : Z;
  f_length : Z;
  f_is_deleted : bool;
  f_open_for_writing : bool;
  f_length_flushed : Z;
  f_length_xattr : Z;
  f_append_pos : Z;
  f_seq_byte_count : Z;
  f_next_seq_offset : Z;
  f_priority : Z;
  f_blobid : blob_id;
  f_ref_count : Z;
  f_lock : bool;
  f_last : option buf_id;
  f_tree : cache_tree;
  f_open_requests : list req_id;
  f_sync_requests : list req_id
}.
Definition set_f_blob (x : option blob_id) (r : file) : file := mk_file x (f_name r) (f_trace_arg_name r)
  (f_length r) (f_is_deleted r) (f_open_for_writing r) (f_length_flushed r) (f_length_xattr r) (f_append_pos r)
  (f_seq_byte_count r) (f_next_seq_offset r) (f_priority r) (f_blobid r) (f_ref_count r) (f_lock r) (f_last r)
  (f_tree r) (f_open_requests r) (f_sync_requests r).
Definition set_f_name (x : option string) (r : file) : file := mk_file (f_blob r) x (f_trace_arg_name r)
  (f_length r) (f_is_deleted r) (f_open_for_writing r) (f_length_flushed r) (f_length_xattr r) (f_append_pos r)
  (f_seq_byte_count r) (f_next_seq_offset r) (f_priority r) (f_blobid r) (f_ref_count r) (f_lock r) (f_last r)
  (f_tree r) (f_open_requests r) (f_sync_requests r).
Definition set_f_trace_arg_name (x : Z) (r : file) : file := mk_file (f_blob r) (f_name r) x (f_length r)
  (f_is_deleted r) (f_open_for_writing r) (f_length_flushed r) (f_length_xattr r) (f_append_pos r)
  (f_seq_byte_count r) (f_next_seq_offset r) (f_priority r) (f_blobid r) (f_ref_count r) (f_lock r) (f_last r)
  (f_tree r) (f_open_requests r) (f_sync_requests r).
Definition set_f_length (x : Z) (r : file) : file := mk_file (f_blob r) (f_name r) (f_trace_arg_name r) x
  (f_is_deleted r) (f_open_for_writing r) (f_length_flushed r) (f_length_xattr r) (f_append_pos r)
  (f_seq_byte_count r) (f_next_seq_offset r) (f_priority r) (f_blobid r) (f_ref_count r) (f_lock r) (f_last r)
  (f_tree r) (f_open_requests r) (f_sync_requests r).
Definition set_f_is_deleted (x : bool) (r : file) : file := mk_file (f_blob r) (f_name r) (f_trace_arg_name r)
  (f_length r) x (f_open_for_writing r) (f_length_flushed r) (f_length_xattr r) (f_append_pos r)
  (f_seq_byte_count r) (f_next_seq_offset r) (f_priority r) (f_blobid r) (f_ref_count r) (f_lock r) (f_last r)
  (f_tree r) (f_open_requests r) (f_sync_requests r).
Definition set_f_open_for_writing (x : bool) (r : file) : file := mk_file (f_blob r) (f_name r)
  (f_trace_arg_name r) (f_length r) (f_is_deleted r) x (f_length_flushed r) (f_length_xattr r) (f_append_pos r)
  (f_seq_byte_count r) (f_next_seq_offset r) (f_priority r) (f_blobid r) (f_ref_count r) (f_lock r) (f_last r)
  (f_tree r) (f_open_requests r) (f_sync_requests r).
Definition set_f_length_flushed (x : Z) (r : file) : file := mk_file (f_blob r) (f_name r) (f_trace_arg_name
  r) (f_length r) (f_is_deleted r) (f_open_for_writing r) x (f_length_xattr r) (f_append_pos r)
  (f_seq_byte_count r) (f_next_seq_offset r) (f_priority r) (f_blobid r) (f_ref_count r) (f_lock r) (f_last r)
  (f_tree r) (f_open_requests r) (f_sync_requests r).
Definition set_f_length_xattr (x : Z) (r : file) : file := mk_file (f_blob r) (f_name r) (f_trace_arg_name r)
  (f_length r) (f_is_deleted r) (f_open_for_writing r) (f_length_flushed r) x (f_append_pos r) (f_seq_byte_count
  r) (f_next_seq_offset r) (f_priority r) (f_blobid r) (f_ref_count r) (f_lock r) (f_last r) (f_tree r)
  (f_open_requests r) (f_sync_requests r).
Definition set_f_append_pos (x : Z) (r : file) : file := mk_file (f_blob r) (f_name r) (f_trace_arg_name r)
  (f_length r) (f_is_deleted r) (f_open_for_writing r) (f_length_flushed r) (f_length_xattr r) x
  (f_seq_byte_count r) (f_next_seq_offset r) (f_priority r) (f_blobid r) (f_ref_count r) (f_lock r) (f_last r)
  (f_tree r) (f_open_requests r) (f_sync_requests r).
Definition set_f_seq_byte_count (x : Z) (r : file) : file := mk_file (f_blob r) (f_name r) (f_trace_arg_name
  r) (f_length r) (f_is_deleted r) (f_open_for_writing r) (f_length_flushed r) (f_length_xattr r) (f_append_pos
  r) x (f_next_seq_offset r) (f_priority r) (f_blobid r) (f_ref_count r) (f_lock r) (f_last r) (f_tree r)
  (f_open_requests r) (f_sync_requests r).
Definition set_f_next_seq_offset (x : Z) (r : file) : file := mk_file (f_blob r) (f_name r) (f_trace_arg_name
  r) (f_length r) (f_is_deleted r) (f_open_for_writing r) (f_length_flushed r) (f_length_xattr r) (f_append_pos
  r) (f_seq_byte_count r) x (f_priority r) (f_blobid r) (f_ref_count r) (f_lock r) (f_last r) (f_tree r)
  (f_open_requests r) (f_sync_requests r).
Definition set_f_priority (x : Z) (r : file) : file := mk_file (f_blob r) (f_name r) (f_trace_arg_name r)
  (f_length r) (f_is_deleted r) (f_open_for_writing r) (f_length_flushed r) (f_length_xattr r) (f_append_pos r)
  (f_seq_byte_count r) (f_next_seq_offset r) x (f_blobid r) (f_ref_count r) (f_lock r) (f_last r) (f_tree r)
  (f_open_requests r) (f_sync_requests r).
Definition set_f_blobid (x : blob_id) (r : file) : file := mk_file (f_blob r) (f_name r) (f_trace_arg_name r)
  (f_length r) (f_is_deleted r) (f_open_for_writing r) (f_length_flushed r) (f_length_xattr r) (f_append_pos r)
  (f_seq_byte_count r) (f_next_seq_offset r) (f_priority r) x (f_ref_count r) (f_lock r) (f_last r) (f_tree r)
  (f_open_requests r) (f_sync_requests r).
Definition set_f_ref_count (x : Z) (r : file) : file := mk_file (f_blob r) (f_name r) (f_trace_arg_name r)
  (f_length r) (f_is_deleted r) (f_open_for_writing r) (f_length_flushed r) (f_length_xattr r) (f_append_pos r)
  (f_seq_byte_count r) (f_next_seq_offset r) (f_priority r) (f_blobid r) x (f_lock r) (f_last r) (f_tree r)
  (f_open_requests r) (f_sync_requests r).
Definition set_f_lock (x : bool) (r : file) : file := mk_file (f_blob r) (f_name r) (f_trace_arg_name r)
  (f_length r) (f_is_deleted r) (f_open_for_writing r) (f_length_flushed r) (f_length_xattr r) (f_append_pos r)
  (f_seq_byte_count r) (f_next_seq_offset r) (f_priority r) (f_blobid r) (f_ref_count r) x (f_last r) (f_tree r)
  (f_open_requests r) (f_sync_requests r).
Definition set_f_last (x : option buf_id) (r : file) : file := mk_file (f_blob r) (f_name r) (f_trace_arg_name
  r) (f_length r) (f_is_deleted r) (f_open_for_writing r) (f_length_flushed r) (f_length_xattr r) (f_append_pos
  r) (f_seq_byte_count r) (f_next_seq_offset r) (f_priority r) (f_blobid r) (f_ref_count r) (f_lock r) x (f_tree
  r) (f_open_requests r) (f_sync_requests r).
Definition set_f_tree (x : cache_tree) (r : file) : file := mk_file (f_blob r) (f_name r) (f_trace_arg_name r)
  (f_length r) (f_is_deleted r) (f_open_for_writing r) (f_length_flushed r) (f_length_xattr r) (f_append_pos r)
  (f_seq_byte_count r) (f_next_seq_offset r) (f_priority r) (f_blobid r) (f_ref_count r) (f_lock r) (f_last r) x
  (f_open_requests r) (f_sync_requests r).
Definition set_f_open_requests (x : list req_id) (r : file) : file := mk_file (f_blob r) (f_name r)
  (f_trace_arg_name r) (f_length r) (f_is_deleted r) (f_open_for_writing r) (f_length_flushed r) (f_length_xattr
  r) (f_append_pos r) (f_seq_byte_count r) (f_next_seq_offset r) (f_priority r) (f_blobid r) (f_ref_count r)
  (f_lock r) (f_last r) (f_tree r) x (f_sync_requests r).
Definition set_f_sync_requests (x : list req_id) (r : file) : file := mk_file (f_blob r) (f_name r)
  (f_trace_arg_name r) (f_length r) (f_is_deleted r) (f_open_for_writing r) (f_length_flushed r) (f_length_xattr
  r) (f_append_pos r) (f_seq_byte_count r) (f_next_seq_offset r) (f_priority r) (f_blobid r) (f_ref_count r)
  (f_lock r) (f_last r) (f_tree r) (f_open_requests r) x.

(** struct spdk_filesystem; [fs_bs] is whether [bs] is set, [fs_direct] whether
    the client's [send_request] calls its argument at once. *)
Record filesystem : Type := mk_filesystem {
  fs_bs : bool;
  fs_files : option loc;
  fs_cluster_sz : Z;
  fs_direct : bool;
  fs_md_channel : option chan_id;
  fs_sync_channel : option chan_id;
  fs_md_max_ops : nat;
  fs_sync_max_ops : nat;
  fs_io_max_ops : nat
}.
Definition set_fs_bs (x : bool) (r : filesystem) : filesystem := mk_filesystem x (fs_files r) (fs_cluster_sz
  r) (fs_direct r) (fs_md_channel r) (fs_sync_channel r) (fs_md_max_ops r) (fs_sync_max_ops r) (fs_io_max_ops
  r).
Definition set_fs_files (x : option loc) (r : filesystem) : filesystem := mk_filesystem (fs_bs r) x
  (fs_cluster_sz r) (fs_direct r) (fs_md_channel r) (fs_sync_channel r) (fs_md_max_ops r) (fs_sync_max_ops r)
  (fs_io_max_ops r).
Definition set_fs_cluster_sz (x : Z) (r : filesystem) : filesystem := mk_filesystem (fs_bs r) (fs_files r) x
  (fs_direct r) (fs_md_channel r) (fs_sync_channel r) (fs_md_max_ops r) (fs_sync_max_ops r) (fs_io_max_ops r).
Definition set_fs_direct (x : bool) (r : filesystem) : filesystem := mk_filesystem (fs_bs r) (fs_files r)
  (fs_cluster_sz r) x (fs_md_channel r) (fs_sync_channel r) (fs_md_max_ops r) (fs_sync_max_ops r) (fs_io_max_ops
  r).
Definition set_fs_md_channel (x : option chan_id) (r : filesystem) : filesystem := mk_filesystem (fs_bs r)
  (fs_files r) (fs_cluster_sz r) (fs_direct r) x (fs_sync_channel r) (fs_md_max_ops r) (fs_sync_max_ops r)
  (fs_io_max_ops r).
Definition set_fs_sync_channel (x : option chan_id) (r : filesystem) : filesystem := mk_filesystem (fs_bs r)
  (fs_files r) (fs_cluster_sz r) (fs_direct r) (fs_md_channel r) x (fs_md_max_ops r) (fs_sync_max_ops r)
  (fs_io_max_ops r).
Definition set_fs_md_max_ops (x : nat) (r : filesystem) : filesystem := mk_filesystem (fs_bs r) (fs_files r)
  (fs_cluster_sz r) (fs_direct r) (fs_md_channel r) (fs_sync_channel r) x (fs_sync_max_ops r) (fs_io_max_ops r).
Definition set_fs_sync_max_ops (x : nat) (r : filesystem) : filesystem := mk_filesystem (fs_bs r) (fs_files r)
  (fs_cluster_sz r) (fs_direct r) (fs_md_channel r) (fs_sync_channel r) (fs_md_max_ops r) x (fs_io_max_ops r).
Definition set_fs_io_max_ops (x : nat) (r : filesystem) : filesystem := mk_filesystem (fs_bs r) (fs_files r)
  (fs_cluster_sz r) (fs_direct r) (fs_md_channel r) (fs_sync_channel r) (fs_md_max_ops r) (fs_sync_max_ops r) x.

(** ** The blobstore's side *)
Inductive xattr : Type :=
| XName (s : string)
| XLength (n : Z)
| XDeleted (b : bool).

Record blob : Type := mk_blob {
  b_clusters : Z;
  b_xattrs : gmap string xattr
}.
Definition set_b_clusters (x : Z) (r : blob) : blob := mk_blob x (b_xattrs r).
Definition set_b_xattrs (x : gmap string xattr) (r : blob) : blob := mk_blob (b_clusters r) x.

(** What the synchronous functions of the blobstore read and write; [bs_bstype]
    is [None] when all its bytes are zero. *)
Record blobstore : Type := mk_blobstore {
  bs_io_unit_size : Z;
  bs_cluster_size : Z;
  bs_bstype : option string;
  bs_blobs : gmap Z blob
}.
Definition set_bs_io_unit_size (x : Z) (r : blobstore) : blobstore := mk_blobstore x (bs_cluster_size r)
  (bs_bstype r) (bs_blobs r).
Definition set_bs_cluster_size (x : Z) (r : blobstore) : blobstore := mk_blobstore (bs_io_unit_size r) x
  (bs_bstype r) (bs_blobs r).
Definition set_bs_bstype (x : option string) (r : blobstore) : blobstore := mk_blobstore (bs_io_unit_size r)
  (bs_cluster_size r) x (bs_blobs r).
Definition set_bs_blobs (x : gmap Z blob) (r : blobstore) : blobstore := mk_blobstore (bs_io_unit_size r)
  (bs_cluster_size r) (bs_bstype r) x.

(** The asynchronous calls NBFS.c makes. *)
Inductive bs_call : Type :=
| BsInit (cluster_sz : Z)
| BsLoad (iter_cb_arg : void_ptr)
| BsUnload
| BsCreateBlob
| BsOpenBlob (id : blob_id)
| BsDeleteBlob (id : blob_id)
| BlobResize (b : blob_id) (num_clusters : Z)
| BlobSyncMd (b : blob_id)
| BlobClose (b : blob_id)
| BlobIoWrite (b : blob_id) (channel : option nat) (payload : data_ptr) (start_lba num_lba : Z)
| BlobIoRead (b : blob_id) (channel : option nat) (payload : data_ptr) (start_lba num_lba : Z).

Record pending : Type := mk_pending { p_call : bs_call; p_cb : callback; p_arg : void_ptr }.

(** The static variables of NBFS.c. *)
Record globals : Type := mk_globals {
  g_fs_cache_size : Z;
  g_cache_pool : bool;
  g_cache_pool_mgmt_poller : bool;
  g_cache_pool_thread : bool;
  g_fs_count : Z;
  g_caches : list file_id
}.
Definition set_g_fs_cache_size (x : Z) (r : globals) : globals := mk_globals x (g_cache_pool r)
  (g_cache_pool_mgmt_poller r) (g_cache_pool_thread r) (g_fs_count r) (g_caches r).
Definition set_g_cache_pool (x : bool) (r : globals) : globals := mk_globals (g_fs_cache_size r) x
  (g_cache_pool_mgmt_poller r) (g_cache_pool_thread r) (g_fs_count r) (g_caches r).
Definition set_g_cache_pool_mgmt_poller (x : bool) (r : globals) : globals := mk_globals (g_fs_cache_size r)
  (g_cache_pool r) x (g_cache_pool_thread r) (g_fs_count r) (g_caches r).
Definition set_g_cache_pool_thread (x : bool) (r : globals) : globals := mk_globals (g_fs_cache_size r)
  (g_cache_pool r) (g_cache_pool_mgmt_poller r) x (g_fs_count r) (g_caches r).
Definition set_g_fs_count (x : Z) (r : globals) : globals := mk_globals (g_fs_cache_size r) (g_cache_pool r)
  (g_cache_pool_mgmt_poller r) (g_cache_pool_thread r) x (g_caches r).
Definition set_g_caches (x : list file_id) (r : globals) : globals := mk_globals (g_fs_cache_size r)
  (g_cache_pool r) (g_cache_pool_mgmt_poller r) (g_cache_pool_thread r) (g_fs_count r) x.

(** The whole state.  [w_mem] holds the clients' and the DMA objects, [w_cells]
    the [int]s and [w_stats] the stat structures that callers pass by address,
    [w_msgs] the messages sent with [send_request], [w_cache_msgs] those for the
    cache thread, [w_done] the calls of client callbacks, [w_next] the next fresh
    identifier.  [w_malloc] says which of the coming allocations fail (none once
    it is used up), [w_junk] is the content of an uninitialised local, and
    [w_bad_unlocks] counts unlocks of a spinlock nobody holds (undefined in
    POSIX; the implementation leaves the lock free). *)
Record world : Type := mk_world {
  w_fs : option filesystem;
  w_heap : heap;
  w_files : gmap nat file;
  w_reqs : gmap nat request;
  w_chans : gmap nat channel;
  w_pool : pool;
  w_globals : globals;
  w_bs : blobstore;
  w_mem : gmap nat (Z → Z);
  w_cells : gmap nat Z;
  w_stats : gmap nat file_stat;
  w_calls : list pending;
  w_msgs : list (callback * void_ptr);
  w_cache_msgs : list (callback * void_ptr);
  w_done : list (nat * outcome);
  w_next : nat;
  w_malloc : list bool;
  w_junk : Z;
  w_bad_unlocks : nat
}.
Definition set_w_fs (x : option filesystem) (r : world) : world := mk_world x (w_heap r) (w_files r) (w_reqs
  r) (w_chans r) (w_pool r) (w_globals r) (w_bs r) (w_mem r) (w_cells r) (w_stats r) (w_calls r) (w_msgs r)
  (w_cache_msgs r) (w_done r) (w_next r) (w_malloc r) (w_junk r) (w_bad_unlocks r).
Definition set_w_heap (x : heap) (r : world) : world := mk_world (w_fs r) x (w_files r) (w_reqs r) (w_chans r)
  (w_pool r) (w_globals r) (w_bs r) (w_mem r) (w_cells r) (w_stats r) (w_calls r) (w_msgs r) (w_cache_msgs r)
  (w_done r) (w_next r) (w_malloc r) (w_junk r) (w_bad_unlocks r).
Definition set_w_files (x : gmap nat file) (r : world) : world := mk_world (w_fs r) (w_heap r) x (w_reqs r)
  (w_chans r) (w_pool r) (w_globals r) (w_bs r) (w_mem r) (w_cells r) (w_stats r) (w_calls r) (w_msgs r)
  (w_cache_msgs r) (w_done r) (w_next r) (w_malloc r) (w_junk r) (w_bad_unlocks r).
Definition set_w_reqs (x : gmap nat request) (r : world) : world := mk_world (w_fs r) (w_heap r) (w_files r) x
  (w_chans r) (w_pool r) (w_globals r) (w_bs r) (w_mem r) (w_cells r) (w_stats r) (w_calls r) (w_msgs r)
  (w_cache_msgs r) (w_done r) (w_next r) (w_malloc r) (w_junk r) (w_bad_unlocks r).
Definition set_w_chans (x : gmap nat channel) (r : world) : world := mk_world (w_fs r) (w_heap r) (w_files r)
  (w_reqs r) x (w_pool r) (w_globals r) (w_bs r) (w_mem r) (w_cells r) (w_stats r) (w_calls r) (w_msgs r)
  (w_cache_msgs r) (w_done r) (w_next r) (w_malloc r) (w_junk r) (w_bad_unlocks r).
Definition set_w_pool (x : pool) (r : world) : world := mk_world (w_fs r) (w_heap r) (w_files r) (w_reqs r)
  (w_chans r) x (w_globals r) (w_bs r) (w_mem r) (w_cells r) (w_stats r) (w_calls r) (w_msgs r) (w_cache_msgs r)
  (w_done r) (w_next r) (w_malloc r) (w_junk r) (w_bad_unlocks r).
Definition set_w_globals (x : globals) (r : world) : world := mk_world (w_fs r) (w_heap r) (w_files r) (w_reqs
  r) (w_chans r) (w_pool r) x (w_bs r) (w_mem r) (w_cells r) (w_stats r) (w_calls r) (w_msgs r) (w_cache_msgs r)
  (w_done r) (w_next r) (w_malloc r) (w_junk r) (w_bad_unlocks r).
Definition set_w_bs (x : blobstore) (r : world) : world := mk_world (w_fs r) (w_heap r) (w_files r) (w_reqs r)
  (w_chans r) (w_pool r) (w_globals r) x (w_mem r) (w_cells r) (w_stats r) (w_calls r) (w_msgs r) (w_cache_msgs
  r) (w_done r) (w_next r) (w_malloc r) (w_junk r) (w_bad_unlocks r).
Definition set_w_mem (x : gmap nat (Z → Z)) (r : world) : world := mk_world (w_fs r) (w_heap r) (w_files r)
  (w_reqs r) (w_chans r) (w_pool r) (w_globals r) (w_bs r) x (w_cells r) (w_stats r) (w_calls r) (w_msgs r)
  (w_cache_msgs r) (w_done r) (w_next r) (w_malloc r) (w_junk r) (w_bad_unlocks r).
Definition set_w_cells (x : gmap nat Z) (r : world) : world := mk_world (w_fs r) (w_heap r) (w_files r)
  (w_reqs r) (w_chans r) (w_pool r) (w_globals r) (w_bs r) (w_mem r) x (w_stats r) (w_calls r) (w_msgs r)
  (w_cache_msgs r) (w_done r) (w_next r) (w_malloc r) (w_junk r) (w_bad_unlocks r).
Definition set_w_stats (x : gmap nat file_stat) (r : world) : world := mk_world (w_fs r) (w_heap r) (w_files
  r) (w_reqs r) (w_chans r) (w_pool r) (w_globals r) (w_bs r) (w_mem r) (w_cells r) x (w_calls r) (w_msgs r)
  (w_cache_msgs r) (w_done r) (w_next r) (w_malloc r) (w_junk r) (w_bad_unlocks r).
Definition set_w_calls (x : list pending) (r : world) : world := mk_world (w_fs r) (w_heap r) (w_files r)
  (w_reqs r) (w_chans r) (w_pool r) (w_globals r) (w_bs r) (w_mem r) (w_cells r) (w_stats r) x (w_msgs r)
  (w_cache_msgs r) (w_done r) (w_next r) (w_malloc r) (w_junk r) (w_bad_unlocks r).
Definition set_w_msgs (x : list (callback * void_ptr)) (r : world) : world := mk_world (w_fs r) (w_heap r)
  (w_files r) (w_reqs r) (w_chans r) (w_pool r) (w_globals r) (w_bs r) (w_mem r) (w_cells r) (w_stats r)
  (w_calls r) x (w_cache_msgs r) (w_done r) (w_next r) (w_malloc r) (w_junk r) (w_bad_unlocks r).
Definition set_w_cache_msgs (x : list (callback * void_ptr)) (r : world) : world := mk_world (w_fs r) (w_heap
  r) (w_files r) (w_reqs r) (w_chans r) (w_pool r) (w_globals r) (w_bs r) (w_mem r) (w_cells r) (w_stats r)
  (w_calls r) (w_msgs r) x (w_done r) (w_next r) (w_malloc r) (w_junk r) (w_bad_unlocks r).
Definition set_w_done (x : list (nat * outcome)) (r : world) : world := mk_world (w_fs r) (w_heap r) (w_files
  r) (w_reqs r) (w_chans r) (w_pool r) (w_globals r) (w_bs r) (w_mem r) (w_cells r) (w_stats r) (w_calls r)
  (w_msgs r) (w_cache_msgs r) x (w_next r) (w_malloc r) (w_junk r) (w_bad_unlocks r).
Definition set_w_next (x : nat) (r : world) : world := mk_world (w_fs r) (w_heap r) (w_files r) (w_reqs r)
  (w_chans r) (w_pool r) (w_globals r) (w_bs r) (w_mem r) (w_cells r) (w_stats r) (w_calls r) (w_msgs r)
  (w_cache_msgs r) (w_done r) x (w_malloc r) (w_junk r) (w_bad_unlocks r).
Definition set_w_malloc (x : list bool) (r : world) : world := mk_world (w_fs r) (w_heap r) (w_files r)
  (w_reqs r) (w_chans r) (w_pool r) (w_globals r) (w_bs r) (w_mem r) (w_cells r) (w_stats r) (w_calls r) (w_msgs
  r) (w_cache_msgs r) (w_done r) (w_next r) x (w_junk r) (w_bad_unlocks r).
Definition set_w_junk (x : Z) (r : world) : world := mk_world (w_fs r) (w_heap r) (w_files r) (w_reqs r)
  (w_chans r) (w_pool r) (w_globals r) (w_bs r) (w_mem r) (w_cells r) (w_stats r) (w_calls r) (w_msgs r)
  (w_cache_msgs r) (w_done r) (w_next r) (w_malloc r) x (w_bad_unlocks r).
Definition set_w_bad_unlocks (x : nat) (r : world) : world := mk_world (w_fs r) (w_heap r) (w_files r) (w_reqs
  r) (w_chans r) (w_pool r) (w_globals r) (w_bs r) (w_mem r) (w_cells r) (w_stats r) (w_calls r) (w_msgs r)
  (w_cache_msgs r) (w_done r) (w_next r) (w_malloc r) (w_junk r) x.
