(* ===== verification/FsPrim.v ===== *)
(** * Primitives of the file system model

    Reading and writing the stores, memory allocation, spinlocks, semaphores,
    messages, the synchronous blobstore functions, and the request pool of a
    channel (alloc_fs_request and free_fs_request of lib/NBFS/NBFS.c). *)
From S2P Require Import Prelude BPlusTree CacheTree FsState.
Local Open Scope Z_scope.

(** ** Sub-states *)
Definition on_heap {A} (m : M heap A) : M world A := λ w,
  match m (w_heap w) with
  | Ok (a, h) => Ok (a, set_w_heap h w)
  | Fault e => Fault e
  end.
Definition on_pool {A} (m : M pool A) : M world A := λ w,
  match m (w_pool w) with
  | Ok (a, p) => Ok (a, set_w_pool p w)
  | Fault e => Fault e
  end.

Definition fresh : M world nat :=
  n ← gets w_next; _ ← modify (set_w_next (S n)); mret n.

(** Whether the next allocation succeeds. *)
Definition malloc_ok : M world bool :=
  l ← gets w_malloc;
  match l with
  | [] => mret true
  | b :: l' => _ ← modify (set_w_malloc l'); mret b
  end.

(** ** Objects *)
Definition load_fs : M world filesystem := o ← gets w_fs; of_option UseAfterFree o.
Definition upd_fs (g : filesystem → filesystem) : M world unit :=
  f ← load_fs; modify (set_w_fs (Some (g f))).

Definition load_file (f : file_id) : M world file :=
  m ← gets w_files; of_option UseAfterFree (m !! f).
Definition store_file (f : file_id) (x : file) : M world unit :=
  modify (λ w, set_w_files (<[f := x]> (w_files w)) w).
Definition upd_file (f : file_id) (g : file → file) : M world unit :=
  x ← load_file f; store_file f (g x).
Definition free_file (f : file_id) : M world unit :=
  _ ← load_file f; modify (λ w, set_w_files (delete f (w_files w)) w).

Definition load_req (r : req_id) : M world request :=
  m ← gets w_reqs; of_option UseAfterFree (m !! r).
Definition store_req (r : req_id) (x : request) : M world unit :=
  modify (λ w, set_w_reqs (<[r := x]> (w_reqs w)) w).
Definition upd_req (r : req_id) (g : request → request) : M world unit :=
  x ← load_req r; store_req r (g x).
Definition free_req (r : req_id) : M world unit :=
  _ ← load_req r; modify (λ w, set_w_reqs (delete r (w_reqs w)) w).

Definition load_chan (c : chan_id) : M world channel :=
  m ← gets w_chans; of_option UseAfterFree (m !! c).
Definition upd_chan (c : chan_id) (g : channel → channel) : M world unit :=
  x ← load_chan c; modify (λ w, set_w_chans (<[c := g x]> (w_chans w)) w).

Definition upd_globals (g : globals → globals) : M world unit :=
  modify (λ w, set_w_globals (g (w_globals w)) w).

Definition as_req (p : void_ptr) : M world req_id :=
  match p with VReq r => mret r | VNull => fail NullDeref | _ => fail TypeConfusion end.
Definition as_file (p : void_ptr) : M world file_id :=
  match p with VFile f => mret f | VNull => fail NullDeref | _ => fail TypeConfusion end.
Definition as_chan (p : void_ptr) : M world chan_id :=
  match p with VChan c => mret c | VNull => fail NullDeref | _ => fail TypeConfusion end.

(** A pointer that the code dereferences. *)
Definition deref {A} (o : option A) : M world A := of_option NullDeref o.

(** ** Locks and semaphores *)
Definition file_lock (f : file_id) : M world unit :=
  x ← load_file f;
  _ ← guard_or Deadlock (negb (f_lock x));
  store_file f (set_f_lock true x).
Definition file_unlock (f : file_id) : M world unit :=
  x ← load_file f;
  _ ← (if f_lock x then mret tt else modify (λ w, set_w_bad_unlocks (S (w_bad_unlocks w)) w));
  store_file f (set_f_lock false x).
(** [pthread_spin_trylock]: whether the lock was taken. *)
Definition file_trylock (f : file_id) : M world bool :=
  x ← load_file f;
  if f_lock x then mret false else _ ← store_file f (set_f_lock true x); mret true.

(** [if (channel->sync) pthread_spin_lock(&channel->lock)] and its counterpart. *)
Definition chan_lock (c : chan_id) : M world unit :=
  x ← load_chan c;
  if c_sync x then
    _ ← guard_or Deadlock (negb (c_lock x)); upd_chan c (set_c_lock true)
  else mret tt.
Definition chan_unlock (c : chan_id) : M world unit :=
  x ← load_chan c; if c_sync x then upd_chan c (set_c_lock false) else mret tt.

Definition sem_post (c : chan_id) : M world unit :=
  upd_chan c (λ x, set_c_sem (c_sem x + 1) x).
(** [sem_wait], entered when it does not block. *)
Definition sem_wait (c : chan_id) : M world unit :=
  x ← load_chan c;
  _ ← guard_or WouldBlock (bool_decide (0 < c_sem x));
  upd_chan c (set_c_sem (c_sem x - 1)).

(** ** Calls that leave the file system *)
Definition bs_async (c : bs_call) (cb : callback) (arg : void_ptr) : M world unit :=
  modify (λ w, set_w_calls (w_calls w ++ [mk_pending c cb arg]) w).

Definition load_blob (b : blob_id) : M world blob :=
  s ← gets w_bs; of_option UseAfterFree (bs_blobs s !! b).
Definition spdk_blob_get_num_clusters (b : blob_id) : M world Z :=
  x ← load_blob b; mret (b_clusters x).
Definition spdk_blob_set_xattr (b : blob_id) (name : string) (v : xattr) : M world unit :=
  x ← load_blob b;
  modify (λ w, set_w_bs (set_bs_blobs (<[b := set_b_xattrs (<[name := v]> (b_xattrs x)) x]>
                                         (bs_blobs (w_bs w))) (w_bs w)) w).
(** [None] is a negative return code. *)
Definition spdk_blob_get_xattr_value (b : blob_id) (name : string) : M world (option xattr) :=
  x ← load_blob b; mret (b_xattrs x !! name).
Definition spdk_bs_get_io_unit_size : M world Z := gets (λ w, bs_io_unit_size (w_bs w)).
Definition spdk_bs_get_cluster_size : M world Z := gets (λ w, bs_cluster_size (w_bs w)).
Definition spdk_bs_alloc_io_channel : M world (option nat) :=
  ok ← malloc_ok; if (ok : bool) then n ← fresh; mret (Some n) else mret None.

(** [spdk_thread_send_msg(g_cache_pool_thread, ...)] *)
Definition send_cache_msg (cb : callback) (arg : void_ptr) : M world unit :=
  modify (λ w, set_w_cache_msgs (w_cache_msgs w ++ [(cb, arg)]) w).

(** ** Calling back *)

(** How a function pointer is called; FsLoop ties the knot. *)
Class Invoke := invoke : callback → void_ptr → outcome → M world unit.

Section calls.
Context `{Invoke}.

(** [args->fn.xxx(args->arg, ...)] *)
Definition call_fn (args : request) (o : outcome) : M world unit :=
  fn ← deref (r_fn args); invoke fn (r_arg args) o.

(** [send_request(fn, arg)]: called at once, or left to the client's thread. *)
Definition send_msg (direct : bool) (fn : callback) (arg : void_ptr) : M world unit :=
  if direct then invoke fn arg (Op 0)
  else modify (λ w, set_w_msgs (w_msgs w ++ [(fn, arg)]) w).
Definition fs_send_request (fn : callback) (arg : void_ptr) : M world unit :=
  fs ← load_fs; send_msg (fs_direct fs) fn arg.
Definition chan_send_request (c : chan_id) (fn : callback) (arg : void_ptr) : M world unit :=
  ch ← load_chan c; send_msg (c_direct ch) fn arg.
End calls.

(** ** Requests *)

Definition zero_iovec : iovec := mk_iovec (PMem 0%nat 0) 0.

(** [iovs] is the request's own [iov] when there is at most one, an allocated
    array otherwise. *)
Definition alloc_fs_request_with_iov (channel : chan_id) (iovcnt : Z) : M world (option req_id) :=
  ok ← (if decide (1 < iovcnt) then malloc_ok else mret true);
  if negb (ok : bool) then mret None else
  _ ← chan_lock channel;
  ch ← load_chan channel;
  req ← (match c_reqs ch with
         | [] => mret None
         | req :: rest =>
             _ ← upd_chan channel (λ c, set_c_reqs rest (set_c_outstanding (u32 (c_outstanding c + 1)) c));
             mret (Some req)
         end);
  _ ← chan_unlock channel;
  match req with
  | None => mret None
  | Some req =>
      let iovs := if decide (1 < iovcnt) then replicate (Z.to_nat iovcnt) zero_iovec else [zero_iovec] in
      _ ← load_req req;
      _ ← store_req req (set_r_iovcnt iovcnt (set_r_iovs iovs (set_r_channel (Some channel) zero_request)));
      mret (Some req)
  end.

Definition alloc_fs_request (channel : chan_id) : M world (option req_id) :=
  alloc_fs_request_with_iov channel 0.

Definition free_fs_request (req : req_id) : M world unit :=
  r ← load_req req;
  channel ← deref (r_channel r);
  _ ← chan_lock channel;
  _ ← upd_chan channel (λ c, set_c_reqs (req :: c_reqs c) (set_c_outstanding (u32 (c_outstanding c - 1)) c));
  chan_unlock channel.

(** ** Channels *)
Definition fs_channel_create (max_ops : nat) : M world (option chan_id) :=
  ok ← malloc_ok;
  if negb (ok : bool) then mret None else
  c ← fresh;
  base ← gets w_next;
  let ids := seq base max_ops in
  _ ← modify (λ w, set_w_next (base + max_ops)%nat
        (set_w_reqs (foldr (λ r m, <[r := zero_request]> m) (w_reqs w) ids) w));
  _ ← modify (λ w, set_w_chans (<[c := mk_channel ids ids 0 None false false 0 false]> (w_chans w)) w);
  mret (Some c).

(** The io_device creation callbacks of the three targets. *)
Definition fs_md_channel_create : M world (option chan_id) :=
  fs ← load_fs; fs_channel_create (fs_md_max_ops fs).
Definition fs_sync_channel_create : M world (option chan_id) :=
  fs ← load_fs; fs_channel_create (fs_sync_max_ops fs).
Definition fs_io_channel_create : M world (option chan_id) :=
  fs ← load_fs; fs_channel_create (fs_io_max_ops fs).

(** [free(channel->req_mem)] and the release of the blobstore channel. *)
Definition fs_channel_destroy (channel : chan_id) : M world unit :=
  ch ← load_chan channel;
  modify (λ w, set_w_chans (delete channel (w_chans w))
                 (set_w_reqs (foldr delete (w_reqs w) (c_mem ch)) w)).

(** [spdk_put_io_channel]: the thread library destroys the channel from a
    message once its last reference is gone. *)
Definition spdk_fs_free_io_channel (channel : option chan_id) : M world unit :=
  c ← deref channel; modify (λ w, set_w_msgs (w_msgs w ++ [(Cb_put_io_channel, VChan c)]) w).
