(* ===== verification/FsRequests.v ===== *)
(** * Taking requests from a channel and giving them back

    The exact effect of alloc_fs_request_with_iov and free_fs_request. *)
From S2P Require Import Prelude Triple BPlusTree CacheTree FsState FsPrim.
Local Open Scope Z_scope.

(** The request as [alloc_fs_request_with_iov] leaves it. *)
Definition fresh_request (c : chan_id) (n : Z) : request :=
  set_r_iovcnt n (set_r_iovs (if decide (1 < n) then replicate (Z.to_nat n) zero_iovec else [zero_iovec])
    (set_r_channel (Some c) zero_request)).

Definition take_head (rest : list req_id) (ch : channel) : channel :=
  set_c_reqs rest (set_c_outstanding (u32 (c_outstanding ch + 1)) ch).
Definition put_head (r : req_id) (ch : channel) : channel :=
  set_c_reqs (r :: c_reqs ch) (set_c_outstanding (u32 (c_outstanding ch - 1)) ch).

Definition put_chan (c : chan_id) (ch : channel) (w : world) : world := set_w_chans (<[c := ch]> (w_chans w)) w.
Definition put_req (r : req_id) (x : request) (w : world) : world := set_w_reqs (<[r := x]> (w_reqs w)) w.

(** The oracle after the [calloc] of the iovecs, if there is one. *)
Definition after_calloc (n : Z) (l : list bool) : bool * list bool :=
  if decide (1 < n) then (match l with [] => (true, []) | b :: l' => (b, l') end) else (true, l).

Lemma after_calloc_small n l : n <= 1 → after_calloc n l = (true, l).
Proof. intros Hn. unfold after_calloc. by rewrite decide_False by lia. Qed.

Lemma set_malloc_id w : set_w_malloc (w_malloc w) w = w.
Proof. by destruct w. Qed.
Lemma set_chans_id w : set_w_chans (w_chans w) w = w.
Proof. by destruct w. Qed.
Lemma set_lock_id ch : c_lock ch = false → set_c_lock false ch = ch.
Proof. destruct ch; simpl. by intros ->. Qed.

Lemma calloc_spec n w :
  (if decide (1 < n) then malloc_ok else mret true) w =
  Ok ((after_calloc n (w_malloc w)).1, set_w_malloc (after_calloc n (w_malloc w)).2 w).
Proof.
  unfold after_calloc. destruct (decide (1 < n)); simpl; [|by rewrite set_malloc_id].
  unfold malloc_ok, gets, mbind, M_bind. destruct (w_malloc w) as [|b l'] eqn:Hm; simpl; [|done].
  f_equal. f_equal. rewrite <- Hm. by rewrite set_malloc_id.
Qed.

Lemma chan_lock_spec c w ch :
  w_chans w !! c = Some ch → c_lock ch = false →
  chan_lock c w = Ok (tt, if c_sync ch then put_chan c (set_c_lock true ch) w else w).
Proof.
  intros Hc Hl. unfold chan_lock, load_chan, gets, of_option, mbind, M_bind. simpl. rewrite Hc. simpl.
  destruct (c_sync ch) eqn:Hs; [|done]. simpl. rewrite Hl. simpl.
  unfold upd_chan, load_chan, gets, of_option, mbind, M_bind. simpl. by rewrite Hc.
Qed.

Lemma upd_chan_spec c g w ch :
  w_chans w !! c = Some ch → upd_chan c g w = Ok (tt, put_chan c (g ch) w).
Proof.
  intros Hc. unfold upd_chan, load_chan, gets, of_option, mbind, M_bind. simpl. by rewrite Hc.
Qed.

Lemma chan_unlock_spec c w ch :
  w_chans w !! c = Some ch →
  chan_unlock c w = Ok (tt, if c_sync ch then put_chan c (set_c_lock false ch) w else w).
Proof.
  intros Hc. unfold chan_unlock, load_chan, gets, of_option, mbind, M_bind. simpl. rewrite Hc. simpl.
  destruct (c_sync ch); [|done]. by apply upd_chan_spec.
Qed.
Lemma load_chan_spec c w ch : w_chans w !! c = Some ch → load_chan c w = Ok (ch, w).
Proof. intros Hc. unfold load_chan, gets, of_option, mbind, M_bind. simpl. by rewrite Hc. Qed.

Lemma put_chan_lookup c ch w : w_chans (put_chan c ch w) !! c = Some ch.
Proof. apply lookup_insert_eq. Qed.
Lemma put_chan_twice c x y w : put_chan c x (put_chan c y w) = put_chan c x w.
Proof. unfold put_chan. simpl. by rewrite insert_insert_eq. Qed.
Lemma put_chan_id c ch w : w_chans w !! c = Some ch → put_chan c ch w = w.
Proof. intros H. unfold put_chan. rewrite insert_id by done. apply set_chans_id. Qed.

(** The three ways [alloc_fs_request_with_iov] can go on an unlocked channel. *)
Lemma alloc_spec c n w ch :
  (after_calloc n (w_malloc w)).1 = true →
  w_chans w !! c = Some ch → c_lock ch = false →
  alloc_fs_request_with_iov c n w =
  let w1 := set_w_malloc (after_calloc n (w_malloc w)).2 w in
  match c_reqs ch with
  | [] => Ok (None, w1)
  | r :: rest =>
      match w_reqs w !! r with
      | None => Fault UseAfterFree
      | Some _ => Ok (Some r, put_req r (fresh_request c n) (put_chan c (take_head rest ch) w1))
      end
  end.
Proof.
  intros Ha Hc Hl. unfold alloc_fs_request_with_iov. rewrite (bind_Ok _ _ _ _ _ (calloc_spec n w)), Ha.
  cbn [negb]. cbv zeta. set (w1 := set_w_malloc _ w).
  assert (Hc1 : w_chans w1 !! c = Some ch) by done.
  assert (Hr1 : w_reqs w1 = w_reqs w) by done. clearbody w1. rewrite <- Hr1. clear Hr1.
  rewrite (bind_Ok _ _ _ _ _ (chan_lock_spec c w1 ch Hc1 Hl)).
  destruct ch as [rs mem sem bsc dir sync out lk]; simpl in Hl; subst lk; cbn [c_sync c_reqs].
  destruct sync; cbn [set_c_lock c_reqs].
  - rewrite (bind_Ok _ _ _ _ _ (load_chan_spec _ _ _ (put_chan_lookup _ _ _))). cbn [set_c_lock c_reqs].
    destruct rs as [|r rest]; cbv iota.
    + rewrite bind_ret, (bind_Ok _ _ _ _ _ (chan_unlock_spec _ _ _ (put_chan_lookup _ _ _))).
      cbn [c_sync]. rewrite put_chan_twice. unfold mret, M_ret. f_equal. f_equal. by apply put_chan_id.
    + rewrite (bind_Ok _ _ _ (Some r) _ (bind_Ok _ _ _ _ _ (upd_chan_spec _ _ _ _ (put_chan_lookup _ _ _)))).
      rewrite (bind_Ok _ _ _ _ _ (chan_unlock_spec _ _ _ (put_chan_lookup _ _ _))).
      cbn. rewrite !put_chan_twice. unfold load_req, gets, of_option, mbind, M_bind. simpl.
      by destruct (w_reqs w1 !! r).
  - rewrite (bind_Ok _ _ _ _ _ (load_chan_spec _ _ _ Hc1)). cbn [set_c_lock c_reqs].
    destruct rs as [|r rest]; cbv iota.
    + by rewrite bind_ret, (bind_Ok _ _ _ _ _ (chan_unlock_spec _ _ _ Hc1)).
    + rewrite (bind_Ok _ _ _ (Some r) _ (bind_Ok _ _ _ _ _ (upd_chan_spec _ _ _ _ Hc1))).
      rewrite (bind_Ok _ _ _ _ _ (chan_unlock_spec _ _ _ (put_chan_lookup _ _ _))).
      cbn. unfold load_req, gets, of_option, mbind, M_bind. simpl.
      by destruct (w_reqs w1 !! r).
Qed.

Lemma alloc_no_memory c n w :
  (after_calloc n (w_malloc w)).1 = false →
  alloc_fs_request_with_iov c n w = Ok (None, set_w_malloc (after_calloc n (w_malloc w)).2 w).
Proof.
  intros Ha. unfold alloc_fs_request_with_iov. by rewrite (bind_Ok _ _ _ _ _ (calloc_spec n w)), Ha.
Qed.

Lemma alloc_no_channel c n w :
  (after_calloc n (w_malloc w)).1 = true → w_chans w !! c = None →
  alloc_fs_request_with_iov c n w = Fault UseAfterFree.
Proof.
  intros Ha Hc. unfold alloc_fs_request_with_iov. rewrite (bind_Ok _ _ _ _ _ (calloc_spec n w)), Ha.
  cbn. unfold chan_lock, load_chan, gets, of_option, mbind, M_bind. simpl. by rewrite Hc.
Qed.

(** [alloc_fs_request] on an unlocked channel that has a request. *)
Lemma alloc_fs_request_spec c w ch r rest x :
  w_chans w !! c = Some ch → c_lock ch = false → c_reqs ch = r :: rest → w_reqs w !! r = Some x →
  alloc_fs_request c w = Ok (Some r, put_req r (fresh_request c 0) (put_chan c (take_head rest ch) w)).
Proof.
  intros Hc Hl Hr Hx. unfold alloc_fs_request. rewrite (alloc_spec c 0 w ch) by (by rewrite ?after_calloc_small).
  cbv zeta. rewrite Hr, Hx. rewrite after_calloc_small by lia. cbn [snd].
  by rewrite set_malloc_id.
Qed.
Lemma alloc_fs_request_empty c w ch :
  w_chans w !! c = Some ch → c_lock ch = false → c_reqs ch = [] → alloc_fs_request c w = Ok (None, w).
Proof.
  intros Hc Hl Hr. unfold alloc_fs_request. rewrite (alloc_spec c 0 w ch) by (by rewrite ?after_calloc_small).
  cbv zeta. rewrite Hr, after_calloc_small by lia. cbn [snd]. by rewrite set_malloc_id.
Qed.

Lemma free_spec r w x c ch :
  w_reqs w !! r = Some x → r_channel x = Some c → w_chans w !! c = Some ch → c_lock ch = false →
  free_fs_request r w = Ok (tt, put_chan c (put_head r ch) w).
Proof.
  intros Hr Hx Hc Hl. unfold free_fs_request, load_req, gets, deref, of_option.
  rewrite (bind_Ok _ _ w x w) by (unfold mbind, M_bind; simpl; by rewrite Hr). rewrite Hx, bind_ret.
  rewrite (bind_Ok _ _ _ _ _ (chan_lock_spec c w ch Hc Hl)).
  destruct ch as [rs mem sem bsc dir sync out lk]; simpl in Hl; subst lk; cbn [c_sync].
  destruct sync.
  - rewrite (bind_Ok _ _ _ _ _ (upd_chan_spec _ _ _ _ (put_chan_lookup _ _ _))).
    rewrite (chan_unlock_spec _ _ _ (put_chan_lookup _ _ _)). cbn. by rewrite !put_chan_twice.
  - rewrite (bind_Ok _ _ _ _ _ (upd_chan_spec _ _ _ _ Hc)).
    by rewrite (chan_unlock_spec _ _ _ (put_chan_lookup _ _ _)).
Qed.

(** A freeing that does not fit the above is a fault, but never a deadlock. *)
Lemma free_faults r w e :
  (∀ c ch, w_chans w !! c = Some ch → c_lock ch = false) → free_fs_request r w = Fault e → e ≠ Deadlock.
Proof.
  intros Hl. destruct (w_reqs w !! r) as [x|] eqn:Hr.
  2:{ unfold free_fs_request, load_req, gets, of_option, mbind, M_bind. simpl. rewrite Hr. by intros [= <-]. }
  destruct (r_channel x) as [c|] eqn:Hx.
  2:{ unfold free_fs_request, load_req, gets, of_option, mbind, M_bind. simpl. rewrite Hr. simpl. rewrite Hx.
      by intros [= <-]. }
  destruct (w_chans w !! c) as [ch|] eqn:Hc; [by erewrite free_spec by eauto|].
  unfold free_fs_request, load_req, gets, of_option, mbind, M_bind. simpl. rewrite Hr. simpl. rewrite Hx.
  unfold chan_lock, load_chan, gets, of_option, mbind, M_bind. simpl. rewrite Hc. by intros [= <-].
Qed.

Lemma free_inv r w w' :
  (∀ c ch, w_chans w !! c = Some ch → c_lock ch = false) → free_fs_request r w = Ok (tt, w') →
  ∃ x c ch, w_reqs w !! r = Some x ∧ r_channel x = Some c ∧ w_chans w !! c = Some ch ∧
    w' = put_chan c (put_head r ch) w.
Proof.
  intros Hl H. destruct (w_reqs w !! r) as [x|] eqn:Hr.
  2:{ revert H. unfold free_fs_request, load_req, gets, of_option, mbind, M_bind. simpl. by rewrite Hr. }
  destruct (r_channel x) as [c|] eqn:Hx.
  2:{ revert H. unfold free_fs_request, load_req, gets, of_option, mbind, M_bind. simpl. rewrite Hr. simpl.
      by rewrite Hx. }
  destruct (w_chans w !! c) as [ch|] eqn:Hc.
  { exists x, c, ch. erewrite free_spec in H by eauto. by simplify_eq. }
  revert H. unfold free_fs_request, load_req, gets, of_option, mbind, M_bind. simpl. rewrite Hr. simpl. rewrite Hx.
  unfold chan_lock, load_chan, gets, of_option, mbind, M_bind. simpl. by rewrite Hc.
Qed.
