(* ===== verification/FsFile.v ===== *)
(** * Files: allocation, lookup, release; the cache pool and its global state

    The parts of lib/NBFS/NBFS.c that create and destroy files, manage the pool
    of cache buffers and reclaim them. *)
From S2P Require Import Prelude BPlusTree CacheTree FsState FsPrim.
Local Open Scope Z_scope.

(** The first eight characters of a name as a little-endian integer. *)
Fixpoint chars_le (n : nat) (s : string) : Z :=
  match n, s with
  | S n', String c s' => Z.of_nat (Ascii.nat_of_ascii c) + 256 * chars_le n' s'
  | _, _ => 0
  end.
Definition fs_name_to_uint64 (name : string) : Z := chars_le 8 name.
Definition _file_build_trace_arg_name (f : file_id) : M world unit :=
  x ← load_file f;
  name ← deref (f_name x);
  upd_file f (set_f_trace_arg_name (fs_name_to_uint64 name)).

Definition zero_file : file :=
  mk_file None None 0 0 false false 0 0 0 0 0 0 0 0 false None (empty_tree 0) [] [].

(** [file_alloc]: the new file goes into the tree of files under [name]. *)
Definition file_alloc (name : string) : M world (option file_id) :=
  ok1 ← malloc_ok;
  if negb (ok1 : bool) then mret None else
  ok2 ← malloc_ok;
  if negb (ok2 : bool) then mret None else
  ok3 ← malloc_ok;
  if negb (ok3 : bool) then mret None else
  f ← fresh;
  _ ← store_file f zero_file;
  fs ← load_fs;
  junk ← gets w_junk;
  root ← on_heap (B_plus_tree_insert junk (fs_files fs) name f);
  _ ← upd_fs (set_fs_files root);
  _ ← upd_file f (set_f_priority SPDK_FILE_PRIORITY_LOW);
  mret (Some f).

Definition fs_find_file (name : string) : M world (option file_id) :=
  fs ← load_fs;
  rec ← on_heap (B_plus_tree_find (fs_files fs) name);
  mret (match rec with Some (mk_record f) => Some f | None => None end).

(** ** g_caches *)
Definition caches_remove (f : file_id) : M world unit :=
  g ← gets w_globals;
  _ ← guard_or ListCorruption (bool_decide (f ∈ g_caches g));
  upd_globals (λ g, set_g_caches (filter (λ x, x ≠ f) (g_caches g)) g).
Definition caches_insert_tail (f : file_id) : M world unit :=
  upd_globals (λ g, set_g_caches (g_caches g ++ [f]) g).

Definition _add_file_to_cache_pool (ctx : void_ptr) : M world unit :=
  f ← as_file ctx; _ ← load_file f; caches_insert_tail f.
Definition _remove_file_from_cache_pool (ctx : void_ptr) : M world unit :=
  f ← as_file ctx; _ ← load_file f; caches_remove f.

(** [_file_free], the end of a file whose cache was not empty. *)
Definition _file_free (ctx : void_ptr) : M world unit :=
  f ← as_file ctx;
  _ ← load_file f;
  _ ← caches_remove f;
  free_file f.

Definition file_free (f : file_id) : M world unit :=
  _ ← file_lock f;
  x ← load_file f;
  if decide (present_mask (f_tree x) = 0) then
    _ ← file_unlock f; free_file f
  else
    t ← on_pool (tree_free_buffers (f_tree x));
    _ ← upd_file f (set_f_tree t);
    _ ← guard_or AssertFailed (bool_decide (present_mask t = 0));
    _ ← send_cache_msg Cb_file_free (VFile f);
    file_unlock f.

(** ** Reclaiming cache buffers *)
Definition reclaim_cache_buffers (f : file_id) : M world Z :=
  got ← file_trylock f;
  if negb (got : bool) then mret (-1) else
  x ← load_file f;
  if decide (present_mask (f_tree x) = 0) then _ ← file_unlock f; mret (-1) else
  t ← on_pool (tree_free_buffers (f_tree x));
  _ ← upd_file f (set_f_tree t);
  _ ← caches_remove f;
  _ ← (if decide (present_mask t ≠ 0) then caches_insert_tail f else upd_file f (set_f_last None));
  _ ← file_unlock f;
  mret 0.

Definition blobfs_cache_pool_need_reclaim : M world bool :=
  p ← gets w_pool; g ← gets w_globals;
  mret (negb (bool_decide (g_fs_cache_size g / CACHE_BUFFER_SIZE / 5 < pool_count p))).

(** One [TAILQ_FOREACH_SAFE] of the poller over the files that satisfy [sel]:
    stop at the first file from which something could be reclaimed. *)
Fixpoint reclaim_first (sel : file → bool) (l : list file_id) : M world bool :=
  match l with
  | [] => mret false
  | f :: l' =>
      x ← load_file f;
      if sel x then
        rc ← reclaim_cache_buffers f;
        if decide (rc < 0) then reclaim_first sel l' else mret true
      else reclaim_first sel l'
  end.

(** Low-priority files not being written first, then any file not being
    written, then any file. *)
Definition _blobfs_cache_pool_reclaim : M world unit :=
  need ← blobfs_cache_pool_need_reclaim;
  if negb (need : bool) then mret tt else
  g ← gets w_globals;
  done ← reclaim_first (λ x, negb (f_open_for_writing x) &&
                             bool_decide (f_priority x = SPDK_FILE_PRIORITY_LOW)) (g_caches g);
  need ← (if done : bool then blobfs_cache_pool_need_reclaim else mret true);
  if negb (need : bool) then mret tt else
  g ← gets w_globals;
  done ← reclaim_first (λ x, negb (f_open_for_writing x)) (g_caches g);
  need ← (if done : bool then blobfs_cache_pool_need_reclaim else mret true);
  if negb (need : bool) then mret tt else
  g ← gets w_globals;
  _ ← reclaim_first (λ _, true) (g_caches g);
  mret tt.

(** ** The cache pool *)
Definition __start_cache_pool_mgmt : M world unit :=
  g ← gets w_globals;
  _ ← guard_or AssertFailed (negb (g_cache_pool g));
  ok ← malloc_ok;
  _ ← guard_or AssertFailed ok;
  _ ← upd_globals (set_g_cache_pool true);
  _ ← modify (λ w, set_w_pool (set_pool_count (g_fs_cache_size (w_globals w) / CACHE_BUFFER_SIZE) (w_pool w)) w);
  _ ← guard_or AssertFailed (negb (g_cache_pool_mgmt_poller g));
  upd_globals (set_g_cache_pool_mgmt_poller true).

Definition __stop_cache_pool_mgmt : M world unit :=
  _ ← upd_globals (set_g_cache_pool_mgmt_poller false);
  g ← gets w_globals;
  p ← gets w_pool;
  _ ← guard_or AssertFailed (g_cache_pool g);
  _ ← guard_or AssertFailed (bool_decide (pool_count p = g_fs_cache_size g / CACHE_BUFFER_SIZE));
  upd_globals (λ g, set_g_cache_pool_thread false (set_g_cache_pool false g)).

Definition initialize_global_cache : M world unit :=
  g ← gets w_globals;
  _ ← (if decide (g_fs_count g = 0) then
         ok ← malloc_ok;
         _ ← guard_or AssertFailed ok;
         _ ← upd_globals (set_g_cache_pool_thread true);
         send_cache_msg Cb__start_cache_pool_mgmt VNull
       else mret tt);
  upd_globals (λ g, set_g_fs_count (g_fs_count g + 1) g).

Definition free_global_cache : M world unit :=
  _ ← upd_globals (λ g, set_g_fs_count (g_fs_count g - 1) g);
  g ← gets w_globals;
  if decide (g_fs_count g = 0) then send_cache_msg Cb__stop_cache_pool_mgmt VNull else mret tt.

(** [-EPERM] once the pool exists. *)
Definition spdk_fs_set_cache_size (size_in_mb : Z) : M world Z :=
  g ← gets w_globals;
  if g_cache_pool g then mret (- EPERM) else
  _ ← upd_globals (set_g_fs_cache_size (u64 (u64 (size_in_mb * 1024) * 1024)));
  mret 0.
Definition spdk_fs_get_cache_size : M world Z :=
  g ← gets w_globals; mret (g_fs_cache_size g / (1024 * 1024)).

Definition __file_get_blob_size (f : file_id) : M world Z :=
  x ← load_file f;
  fs ← load_fs;
  b ← deref (f_blob x);
  n ← spdk_blob_get_num_clusters b;
  mret (u64 (fs_cluster_sz fs * n)).

(** ** Small accessors *)
Definition spdk_file_get_name (f : file_id) : M world (option string) :=
  x ← load_file f; mret (f_name x).
Definition spdk_file_get_length (f : file_id) : M world Z :=
  x ← load_file f;
  mret (if decide (f_length x <= f_append_pos x) then f_append_pos x else f_length x).
Definition spdk_file_set_priority (f : file_id) (priority : Z) : M world unit :=
  upd_file f (set_f_priority priority).
(** The size of the identifier, or [-EINVAL] when it does not fit. *)
Definition spdk_file_get_id (f : file_id) (size : Z) : M world (Z * option blob_id) :=
  if decide (size < 8) then mret (- EINVAL, None) else
  x ← load_file f; mret (8, Some (f_blobid x)).

Definition spdk_fs_iter_first : M world (option file_id) :=
  fs ← load_fs;
  rec ← on_heap (B_plus_tree_get_first (fs_files fs));
  mret (match rec with Some (mk_record f) => Some f | None => None end).
Definition spdk_fs_iter_next (iter : option file_id) : M world (option file_id) :=
  match iter with
  | None => mret None
  | Some f =>
      _ ← load_file f;
      fs ← load_fs;
      rec ← on_heap (B_plus_tree_get_next (fs_files fs) f);
      mret (match rec with Some (mk_record f) => Some f | None => None end)
  end.
