(* ===== verification/FsMeta.v ===== *)
(** * Metadata operations (lib/NBFS/NBFS.c)

    Mount and unmount, stat, create, open, rename, delete and truncate: each
    asynchronous function with the callbacks it goes through, and the request
    function that the synchronous version sends to the metadata thread.  The
    synchronous functions themselves are in FsSync. *)
From S2P Require Import Prelude BPlusTree CacheTree FsState FsPrim FsFile.
Local Open Scope Z_scope.

(** [strnlen(name, SPDK_FILE_NAME_MAX + 1) == SPDK_FILE_NAME_MAX + 1] *)
Definition name_too_long (name : string) : bool :=
  bool_decide (SPDK_FILE_NAME_MAX < String.length name)%nat.

Definition spdk_fs_opts_init : Z := SPDK_BLOBFS_DEFAULT_OPTS_CLUSTER_SZ.

Section meta.
Context `{Invoke}.

(** ** Channels of the filesystem *)
Definition fs_io_device_unregister : M world unit :=
  _ ← load_fs; modify (set_w_fs None).

Definition fs_free_io_channels : M world unit :=
  fs ← load_fs;
  _ ← spdk_fs_free_io_channel (fs_md_channel fs);
  spdk_fs_free_io_channel (fs_sync_channel fs).

Definition common_fs_bs_init : M world unit :=
  sz ← spdk_bs_get_cluster_size;
  _ ← upd_fs (λ fs, set_fs_cluster_sz sz (set_fs_bs true fs));
  fs ← load_fs;
  md ← deref (fs_md_channel fs);
  ch ← spdk_bs_alloc_io_channel;
  _ ← upd_chan md (λ c, set_c_direct true (set_c_bs_channel ch c));
  sync ← deref (fs_sync_channel fs);
  ch ← spdk_bs_alloc_io_channel;
  _ ← upd_chan sync (λ c, set_c_direct true (set_c_bs_channel ch c));
  initialize_global_cache.

(** [fs_alloc]: whether it succeeded. *)
Definition fs_alloc (direct : bool) : M world bool :=
  ok ← malloc_ok;
  if negb (ok : bool) then mret false else
  files ← on_heap B_plus_tree_initial;
  _ ← modify (set_w_fs (Some (mk_filesystem false (Some files) 0 direct None None 512 512 512)));
  md ← fs_md_channel_create;
  _ ← upd_fs (set_fs_md_channel md);
  sync ← fs_sync_channel_create;
  _ ← upd_fs (set_fs_sync_channel sync);
  mret true.

(** ** Initialising a new filesystem *)
Definition init_cb (ctx : void_ptr) (bserrno : Z) : M world unit :=
  req ← as_req ctx;
  _ ← (if decide (bserrno = 0) then common_fs_bs_init else modify (set_w_fs None));
  args ← load_req req;
  _ ← call_fn args (WithFs (bool_decide (bserrno = 0)) bserrno);
  free_fs_request req.

Definition spdk_fs_init (opt : option Z) (direct : bool) (cb_fn : callback) (cb_arg : void_ptr) : M world unit :=
  ok ← fs_alloc direct;
  if negb (ok : bool) then invoke cb_fn cb_arg (WithFs false (- ENOMEM)) else
  fs ← load_fs;
  md ← deref (fs_md_channel fs);
  req ← alloc_fs_request md;
  match req with
  | None =>
      _ ← fs_free_io_channels;
      _ ← fs_io_device_unregister;
      invoke cb_fn cb_arg (WithFs false (- ENOMEM))
  | Some req =>
      _ ← upd_req req (λ r, set_r_fs true (set_r_arg cb_arg (set_r_fn (Some cb_fn) r)));
      let cluster_sz := match opt with Some sz => sz | None => SPDK_BLOBFS_DEFAULT_OPTS_CLUSTER_SZ end in
      bs_async (BsInit cluster_sz) Cb_init_cb (VReq req)
  end.

(** ** Loading an existing filesystem *)
Definition deleted_files (op : op_data) : M world (list blob_id) :=
  match op with OpFsLoad l => mret l | _ => fail TypeConfusion end.

(** 0 when a deletion was started. *)
Definition _handle_deleted_files (req : req_id) : M world Z :=
  args ← load_req req;
  l ← deleted_files (r_op args);
  match l with
  | [] => mret 1
  | id :: l' =>
      _ ← upd_req req (set_r_op (OpFsLoad l'));
      _ ← bs_async (BsDeleteBlob id) Cb_fs_load_done (VReq req);
      mret 0
  end.

Definition fs_load_done (ctx : void_ptr) (bserrno : Z) : M world unit :=
  req ← as_req ctx;
  rc ← _handle_deleted_files req;
  if decide (rc = 0) then mret tt else
  args ← load_req req;
  _ ← call_fn args (WithFs true 0);
  free_fs_request req.

(** [iter_cb], which the blobstore calls on every blob while it loads. *)
Definition iter_cb (ctx : void_ptr) (blob : option blob_id) (rc : Z) : M world unit :=
  req ← as_req ctx;
  args ← load_req req;
  let stop_with rc := (_ ← call_fn args (WithFs true rc); free_fs_request req) in
  if decide (rc < 0) then stop_with rc else
  b ← deref blob;
  name ← spdk_blob_get_xattr_value b "name";
  match name with
  | None => stop_with (- ENOENT)
  | Some (XLength _) | Some (XDeleted _) => fail TypeConfusion
  | Some (XName name) =>
      len ← spdk_blob_get_xattr_value b "length";
      match len with
      | None => stop_with (- ENOENT)
      | Some (XName _) | Some (XDeleted _) => fail AssertFailed
      | Some (XLength len) =>
          del ← spdk_blob_get_xattr_value b "is_deleted";
          match del with
          | None =>
              f ← file_alloc name;
              match f with
              | None => stop_with (- ENOMEM)
              | Some f =>
                  _ ← upd_file f (set_f_name (Some name));
                  _ ← _file_build_trace_arg_name f;
                  upd_file f (λ x, set_f_append_pos len (set_f_length_xattr len
                    (set_f_length_flushed len (set_f_length len (set_f_blobid b x)))))
              end
          | Some _ =>
              ok ← malloc_ok;
              if negb (ok : bool) then stop_with (- ENOMEM) else
              args ← load_req req;
              l ← deleted_files (r_op args);
              upd_req req (set_r_op (OpFsLoad (l ++ [b])))
          end
      end
  end.

Definition SPDK_BLOBFS_SIGNATURE : string := "BLOBFS".

Definition load_cb (ctx : void_ptr) (bserrno : Z) : M world unit :=
  req ← as_req ctx;
  args ← load_req req;
  let stop_with rc :=
    (_ ← call_fn args (WithFs false rc);
     _ ← free_fs_request req;
     _ ← fs_free_io_channels;
     fs_io_device_unregister) in
  if decide (bserrno ≠ 0) then stop_with bserrno else
  bs ← gets w_bs;
  match bs_bstype bs with
  | None =>
      _ ← modify (λ w, set_w_bs (set_bs_bstype (Some SPDK_BLOBFS_SIGNATURE) (w_bs w)) w);
      _ ← common_fs_bs_init;
      fs_load_done ctx 0
  | Some t =>
      if decide (t ≠ SPDK_BLOBFS_SIGNATURE) then stop_with (- EINVAL) else
      _ ← common_fs_bs_init;
      fs_load_done ctx 0
  end.

Definition spdk_fs_load (direct : bool) (cb_fn : callback) (cb_arg : void_ptr) : M world unit :=
  ok ← fs_alloc direct;
  if negb (ok : bool) then invoke cb_fn cb_arg (WithFs false (- ENOMEM)) else
  fs ← load_fs;
  md ← deref (fs_md_channel fs);
  req ← alloc_fs_request md;
  match req with
  | None =>
      _ ← fs_free_io_channels;
      _ ← fs_io_device_unregister;
      invoke cb_fn cb_arg (WithFs false (- ENOMEM))
  | Some req =>
      _ ← upd_req req (λ r, set_r_op (OpFsLoad []) (set_r_fs true (set_r_arg cb_arg (set_r_fn (Some cb_fn) r))));
      bs_async (BsLoad (VReq req)) Cb_load_cb (VReq req)
  end.

(** ** Unloading *)
Fixpoint free_files (l : list file_id) : M world unit :=
  match l with [] => mret tt | f :: l' => _ ← file_free f; free_files l' end.

Definition unload_cb (ctx : void_ptr) (bserrno : Z) : M world unit :=
  req ← as_req ctx;
  args ← load_req req;
  fs ← load_fs;
  l ← on_heap (traverse_leaves (fs_files fs));
  _ ← free_files l;
  _ ← free_global_cache;
  _ ← call_fn args (Op bserrno);
  _ ← free_req req;
  fs_io_device_unregister.

Definition spdk_fs_unload (cb_fn : callback) (cb_arg : void_ptr) : M world unit :=
  ok ← malloc_ok;
  if negb (ok : bool) then invoke cb_fn cb_arg (Op (- ENOMEM)) else
  req ← fresh;
  _ ← store_req req (set_r_fs true (set_r_arg cb_arg (set_r_fn (Some cb_fn) zero_request)));
  _ ← fs_free_io_channels;
  bs_async BsUnload Cb_unload_cb (VReq req).

(** ** Stat *)
Definition spdk_fs_file_stat_async (name : string) (cb_fn : callback) (cb_arg : void_ptr) : M world unit :=
  if name_too_long name then invoke cb_fn cb_arg (WithStat None (- ENAMETOOLONG)) else
  f ← fs_find_file name;
  match f with
  | Some f =>
      x ← load_file f;
      let size := if decide (f_length x <= f_append_pos x) then f_append_pos x else f_length x in
      invoke cb_fn cb_arg (WithStat (Some (mk_file_stat (f_blobid x) size)) 0)
  | None => invoke cb_fn cb_arg (WithStat None (- ENOENT))
  end.

Definition __copy_stat (arg : void_ptr) (stat : option file_stat) (fserrno : Z) : M world unit :=
  req ← as_req arg;
  _ ← upd_req req (set_r_rc fserrno);
  args ← load_req req;
  _ ← (if decide (fserrno = 0) then
         s ← deref stat;
         match r_arg args with
         | VUser n => modify (λ w, set_w_stats (<[n := s]> (w_stats w)) w)
         | _ => fail TypeConfusion
         end
       else mret tt);
  sem ← deref (r_sem args);
  sem_post sem.

Definition op_name (op : op_data) : M world string :=
  match op with OpName n | OpOpen n _ => mret n | _ => fail TypeConfusion end.

Definition __file_stat (arg : void_ptr) : M world unit :=
  req ← as_req arg;
  args ← load_req req;
  name ← op_name (r_op args);
  fn ← deref (r_fn args);
  spdk_fs_file_stat_async name fn (VReq req).

(** ** Waking the thread that waits in a synchronous function *)
Definition __wake_caller (arg : void_ptr) (fserrno : Z) : M world unit :=
  req ← as_req arg;
  args ← load_req req;
  _ ← (match r_rwerrno args with
       | None => mret tt
       | Some cell =>
           m ← gets w_cells;
           v ← of_option UseAfterFree (m !! cell);
           if decide (v = 0 ∧ fserrno ≠ 0) then
             modify (λ w, set_w_cells (<[cell := fserrno]> (w_cells w)) w)
           else mret tt
       end);
  _ ← upd_req req (set_r_rc fserrno);
  sem ← deref (r_sem args);
  sem_post sem.

(** ** Create *)
Definition fs_create_blob_close_cb (ctx : void_ptr) (bserrno : Z) : M world unit :=
  req ← as_req ctx;
  args ← load_req req;
  let rc := if decide (r_rc args ≠ 0) then r_rc args else bserrno in
  _ ← call_fn args (Op rc);
  free_fs_request req.

Definition op_blob (op : op_data) : M world (option blob_id) :=
  match op with OpCreateBlob b => mret b | _ => fail TypeConfusion end.

Definition fs_create_blob_resize_cb (ctx : void_ptr) (bserrno : Z) : M world unit :=
  req ← as_req ctx;
  args ← load_req req;
  f ← deref (r_file args);
  blob ← op_blob (r_op args);
  b ← deref blob;
  _ ← upd_req req (set_r_rc bserrno);
  if decide (bserrno ≠ 0) then bs_async (BlobClose b) Cb_fs_create_blob_close_cb (VReq req) else
  x ← load_file f;
  name ← deref (f_name x);
  _ ← spdk_blob_set_xattr b "name" (XName name);
  _ ← spdk_blob_set_xattr b "length" (XLength 0);
  bs_async (BlobClose b) Cb_fs_create_blob_close_cb (VReq req).

Definition fs_create_blob_open_cb (ctx : void_ptr) (blob : option blob_id) (bserrno : Z) : M world unit :=
  req ← as_req ctx;
  args ← load_req req;
  if decide (bserrno ≠ 0) then _ ← call_fn args (Op bserrno); free_fs_request req else
  _ ← upd_req req (set_r_op (OpCreateBlob blob));
  b ← deref blob;
  bs_async (BlobResize b 1) Cb_fs_create_blob_resize_cb (VReq req).

Definition fs_create_blob_create_cb (ctx : void_ptr) (blobid : blob_id) (bserrno : Z) : M world unit :=
  req ← as_req ctx;
  args ← load_req req;
  if decide (bserrno ≠ 0) then _ ← call_fn args (Op bserrno); free_fs_request req else
  f ← deref (r_file args);
  _ ← upd_file f (set_f_blobid blobid);
  bs_async (BsOpenBlob blobid) Cb_fs_create_blob_open_cb (VReq req).

Definition spdk_fs_create_file_async (name : string) (cb_fn : callback) (cb_arg : void_ptr) : M world unit :=
  if name_too_long name then invoke cb_fn cb_arg (Op (- ENAMETOOLONG)) else
  file ← fs_find_file name;
  match file with
  | Some _ => invoke cb_fn cb_arg (Op (- EEXIST))
  | None =>
      file ← file_alloc name;
      match file with
      | None => invoke cb_fn cb_arg (Op (- ENOMEM))
      | Some file =>
          fs ← load_fs;
          md ← deref (fs_md_channel fs);
          req ← alloc_fs_request md;
          match req with
          | None => invoke cb_fn cb_arg (Op (- ENOMEM))
          | Some req =>
              _ ← upd_req req (λ r, set_r_arg cb_arg (set_r_fn (Some cb_fn) (set_r_file (Some file) r)));
              _ ← upd_file file (set_f_name (Some name));
              _ ← _file_build_trace_arg_name file;
              bs_async BsCreateBlob Cb_fs_create_blob_create_cb (VReq req)
          end
      end
  end.

Definition __fs_create_file_done (arg : void_ptr) (fserrno : Z) : M world unit :=
  __wake_caller arg fserrno.

Definition __fs_create_file (arg : void_ptr) : M world unit :=
  req ← as_req arg;
  args ← load_req req;
  name ← op_name (r_op args);
  spdk_fs_create_file_async name Cb__fs_create_file_done (VReq req).

(** ** Open *)

(** Complete the open requests of a file in order, as long as there are any. *)
Fixpoint complete_opens (fuel : nat) (f : file_id) (bserrno : Z) : M world unit :=
  match fuel with
  | O => fail OutOfFuel
  | S fuel' =>
      x ← load_file f;
      match f_open_requests x with
      | [] => mret tt
      | req :: rest =>
          args ← load_req req;
          _ ← upd_file f (set_f_open_requests rest);
          _ ← call_fn args (WithFile (Some f) bserrno);
          _ ← free_fs_request req;
          complete_opens fuel' f bserrno
      end
  end.

Definition fs_open_blob_done (ctx : void_ptr) (blob : option blob_id) (bserrno : Z) : M world unit :=
  req ← as_req ctx;
  args ← load_req req;
  f ← deref (r_file args);
  _ ← upd_file f (set_f_blob blob);
  x ← load_file f;
  complete_opens (S (length (f_open_requests x))) f bserrno.

Definition fs_open_blob_create_cb (ctx : void_ptr) (bserrno : Z) : M world unit :=
  req ← as_req ctx;
  args ← load_req req;
  file ← (match r_file args with
          | Some f => mret f
          | None =>
              name ← op_name (r_op args);
              f ← fs_find_file name;
              match f with
              | None => fail AssertFailed
              | Some f => _ ← upd_req req (set_r_file (Some f)); mret f
              end
          end);
  _ ← upd_file file (λ x, set_f_ref_count (u32 (f_ref_count x + 1)) x);
  _ ← upd_file file (λ x, set_f_open_requests (f_open_requests x ++ [req]) x);
  x ← load_file file;
  if decide (f_ref_count x = 1) then
    _ ← guard_or AssertFailed (bool_decide (f_blob x = None));
    bs_async (BsOpenBlob (f_blobid x)) Cb_fs_open_blob_done (VReq req)
  else
    match f_blob x with
    | Some b => fs_open_blob_done (VReq req) (Some b) 0
    | None => mret tt
    end.

Definition spdk_fs_open_file_async (name : string) (flags : Z) (cb_fn : callback) (cb_arg : void_ptr) : M world unit :=
  if name_too_long name then invoke cb_fn cb_arg (WithFile None (- ENAMETOOLONG)) else
  f ← fs_find_file name;
  deleted ← (match f with Some f => x ← load_file f; mret (f_is_deleted x) | None => mret false end);
  if decide (f = None ∧ Z.land flags SPDK_BLOBFS_OPEN_CREATE = 0) then
    invoke cb_fn cb_arg (WithFile None (- ENOENT))
  else if (deleted : bool) then invoke cb_fn cb_arg (WithFile None (- ENOENT)) else
  fs ← load_fs;
  md ← deref (fs_md_channel fs);
  req ← alloc_fs_request md;
  match req with
  | None => invoke cb_fn cb_arg (WithFile None (- ENOMEM))
  | Some req =>
      _ ← upd_req req (λ r, set_r_op (OpOpen name 0) (set_r_fs true (set_r_file f
            (set_r_arg cb_arg (set_r_fn (Some cb_fn) r)))));
      match f with
      | None => spdk_fs_create_file_async name Cb_fs_open_blob_create_cb (VReq req)
      | Some _ => fs_open_blob_create_cb (VReq req) 0
      end
  end.

Definition __fs_open_file_done (arg : void_ptr) (file : option file_id) (bserrno : Z) : M world unit :=
  req ← as_req arg;
  _ ← upd_req req (set_r_file file);
  __wake_caller arg bserrno.

Definition __fs_open_file (arg : void_ptr) : M world unit :=
  req ← as_req arg;
  args ← load_req req;
  match r_op args with
  | OpOpen name flags => spdk_fs_open_file_async name flags Cb__fs_open_file_done (VReq req)
  | _ => fail TypeConfusion
  end.

(** ** Delete *)
Definition blob_delete_cb (ctx : void_ptr) (bserrno : Z) : M world unit :=
  req ← as_req ctx;
  args ← load_req req;
  _ ← call_fn args (Op bserrno);
  free_fs_request req.

Definition spdk_fs_delete_file_async (name : string) (cb_fn : callback) (cb_arg : void_ptr) : M world unit :=
  if name_too_long name then invoke cb_fn cb_arg (Op (- ENAMETOOLONG)) else
  f ← fs_find_file name;
  match f with
  | None => invoke cb_fn cb_arg (Op (- ENOENT))
  | Some f =>
      fs ← load_fs;
      md ← deref (fs_md_channel fs);
      req ← alloc_fs_request md;
      match req with
      | None => invoke cb_fn cb_arg (Op (- ENOMEM))
      | Some req =>
          _ ← upd_req req (λ r, set_r_arg cb_arg (set_r_fn (Some cb_fn) r));
          x ← load_file f;
          if decide (0 < f_ref_count x) then
            _ ← upd_file f (set_f_is_deleted true);
            b ← deref (f_blob x);
            _ ← spdk_blob_set_xattr b "is_deleted" (XDeleted true);
            bs_async (BlobSyncMd b) Cb_blob_delete_cb (VReq req)
          else
            let blobid := f_blobid x in
            fname ← deref (f_name x);
            (* strcpy into char filename[SPDK_FILE_NAME_MAX] *)
            _ ← guard_or StringOverflow (bool_decide (String.length fname < SPDK_FILE_NAME_MAX)%nat);
            _ ← file_free f;
            fs ← load_fs;
            root ← on_heap (B_plus_tree_remove (fs_files fs) fname);
            _ ← upd_fs (set_fs_files root);
            bs_async (BsDeleteBlob blobid) Cb_blob_delete_cb (VReq req)
      end
  end.

Definition __fs_delete_file_done (arg : void_ptr) (fserrno : Z) : M world unit :=
  __wake_caller arg fserrno.

Definition __fs_delete_file (arg : void_ptr) : M world unit :=
  req ← as_req arg;
  args ← load_req req;
  name ← op_name (r_op args);
  spdk_fs_delete_file_async name Cb__fs_delete_file_done (VReq req).

(** ** Rename *)
Definition op_rename (op : op_data) : M world (string * string) :=
  match op with OpRename o n => mret (o, n) | _ => fail TypeConfusion end.

Definition fs_rename_blob_close_cb (ctx : void_ptr) (bserrno : Z) : M world unit :=
  req ← as_req ctx;
  args ← load_req req;
  _ ← call_fn args (Op bserrno);
  free_fs_request req.

Definition fs_rename_blob_open_cb (ctx : void_ptr) (blob : option blob_id) (bserrno : Z) : M world unit :=
  req ← as_req ctx;
  args ← load_req req;
  '(_, new_name) ← op_rename (r_op args);
  b ← deref blob;
  _ ← spdk_blob_set_xattr b "name" (XName new_name);
  bs_async (BlobClose b) Cb_fs_rename_blob_close_cb (VReq req).

Definition _fs_md_rename_file (req : req_id) : M world unit :=
  args ← load_req req;
  '(old_name, new_name) ← op_rename (r_op args);
  f_old ← fs_find_file old_name;
  match f_old with
  | None => _ ← call_fn args (Op (- ENOENT)); free_fs_request req
  | Some f =>
      x ← load_file f;
      name ← deref (f_name x);
      fs ← load_fs;
      root ← on_heap (B_plus_tree_remove (fs_files fs) name);
      _ ← upd_fs (set_fs_files root);
      junk ← gets w_junk;
      root ← on_heap (B_plus_tree_insert junk root new_name f);
      _ ← upd_fs (set_fs_files root);
      _ ← upd_file f (set_f_name (Some new_name));
      _ ← _file_build_trace_arg_name f;
      _ ← upd_req req (set_r_file (Some f));
      x ← load_file f;
      bs_async (BsOpenBlob (f_blobid x)) Cb_fs_rename_blob_open_cb (VReq req)
  end.

Definition fs_rename_delete_done (arg : void_ptr) (fserrno : Z) : M world unit :=
  req ← as_req arg; _fs_md_rename_file req.

Definition spdk_fs_rename_file_async (old_name new_name : string) (cb_fn : callback) (cb_arg : void_ptr) : M world unit :=
  if name_too_long new_name then invoke cb_fn cb_arg (Op (- ENAMETOOLONG)) else
  fs ← load_fs;
  md ← deref (fs_md_channel fs);
  req ← alloc_fs_request md;
  match req with
  | None => invoke cb_fn cb_arg (Op (- ENOMEM))
  | Some req =>
      _ ← upd_req req (λ r, set_r_op (OpRename old_name new_name) (set_r_arg cb_arg (set_r_fs true
            (set_r_fn (Some cb_fn) r))));
      f ← fs_find_file new_name;
      match f with
      | None => _fs_md_rename_file req
      | Some _ => spdk_fs_delete_file_async new_name Cb_fs_rename_delete_done (VReq req)
      end
  end.

Definition __fs_rename_file_done (arg : void_ptr) (fserrno : Z) : M world unit :=
  __wake_caller arg fserrno.

Definition __fs_rename_file (arg : void_ptr) : M world unit :=
  req ← as_req arg;
  args ← load_req req;
  '(old_name, new_name) ← op_rename (r_op args);
  spdk_fs_rename_file_async old_name new_name Cb__fs_rename_file_done (VReq req).

(** ** Truncate *)
Definition op_truncate (op : op_data) : M world Z :=
  match op with OpTruncate n => mret n | _ => fail TypeConfusion end.

Definition fs_truncate_complete_cb (ctx : void_ptr) (bserrno : Z) : M world unit :=
  req ← as_req ctx;
  args ← load_req req;
  _ ← call_fn args (Op bserrno);
  free_fs_request req.

Definition fs_truncate_resize_cb (ctx : void_ptr) (bserrno : Z) : M world unit :=
  req ← as_req ctx;
  args ← load_req req;
  file ← deref (r_file args);
  if decide (bserrno ≠ 0) then _ ← call_fn args (Op bserrno); free_fs_request req else
  length ← op_truncate (r_op args);
  x ← load_file file;
  b ← deref (f_blob x);
  _ ← spdk_blob_set_xattr b "length" (XLength length);
  _ ← upd_file file (λ x, set_f_append_pos (if decide (length < f_append_pos x) then length else f_append_pos x)
                           (set_f_length length x));
  bs_async (BlobSyncMd b) Cb_fs_truncate_complete_cb (VReq req).

Definition __bytes_to_clusters (length cluster_sz : Z) : Z := u64 (length + cluster_sz - 1) / cluster_sz.

Definition spdk_file_truncate_async (file : file_id) (length : Z) (cb_fn : callback) (cb_arg : void_ptr) : M world unit :=
  x ← load_file file;
  if decide (length = f_length x) then invoke cb_fn cb_arg (Op 0) else
  fs ← load_fs;
  md ← deref (fs_md_channel fs);
  req ← alloc_fs_request md;
  match req with
  | None => invoke cb_fn cb_arg (Op (- ENOMEM))
  | Some req =>
      _ ← upd_req req (λ r, set_r_op (OpTruncate length) (set_r_file (Some file)
            (set_r_arg cb_arg (set_r_fn (Some cb_fn) r))));
      let num_clusters := __bytes_to_clusters length (fs_cluster_sz fs) in
      b ← deref (f_blob x);
      bs_async (BlobResize b num_clusters) Cb_fs_truncate_resize_cb (VReq req)
  end.

Definition __truncate (arg : void_ptr) : M world unit :=
  req ← as_req arg;
  args ← load_req req;
  file ← deref (r_file args);
  length ← op_truncate (r_op args);
  fn ← deref (r_fn args);
  spdk_file_truncate_async file length fn (VReq req).
End meta.
