(* ===== verification/FsData.v ===== *)
(** * Data operations (lib/NBFS/NBFS.c)

    Reading and writing through the blobstore with a pinned buffer, the write
    cache and its flushing, synchronisation of the length, readahead, and
    closing. *)
From S2P Require Import Prelude BPlusTree CacheTree FsState FsPrim FsFile FsMeta.
Local Open Scope Z_scope.

(** ** Memory *)
Definition read_ptr (p : data_ptr) : M world (Z → Z) :=
  match p with
  | PMem o off => m ← gets w_mem; d ← of_option UseAfterFree (m !! o); mret (λ i, d (off + i))
  | PBuf b off => c ← on_pool (load_buf b); mret (λ i, buf_data c (off + i))
  end.

(** [n] bytes from [off] on replaced by those of [src]. *)
Definition splice (old : Z → Z) (off n : Z) (src : Z → Z) : Z → Z :=
  λ j, if decide (off <= j < off + n) then src (j - off) else old j.

Definition set_buf_data (d : Z → Z) (c : cache_buffer) : cache_buffer :=
  mk_cache_buffer d (buf_offset c) (buf_size c) (bytes_filled c) (bytes_flushed c) (in_progress c).
Definition set_bytes_filled (n : Z) (c : cache_buffer) : cache_buffer :=
  mk_cache_buffer (buf_data c) (buf_offset c) (buf_size c) n (bytes_flushed c) (in_progress c).
Definition set_bytes_flushed (n : Z) (c : cache_buffer) : cache_buffer :=
  mk_cache_buffer (buf_data c) (buf_offset c) (buf_size c) (bytes_filled c) n (in_progress c).
Definition set_in_progress (b : bool) (c : cache_buffer) : cache_buffer :=
  mk_cache_buffer (buf_data c) (buf_offset c) (buf_size c) (bytes_filled c) (bytes_flushed c) b.

Definition get_buf (b : buf_id) : M world cache_buffer := on_pool (load_buf b).
Definition upd_buf (b : buf_id) (g : cache_buffer → cache_buffer) : M world unit :=
  c ← get_buf b; on_pool (store_buf b (g c)).

Definition write_ptr (p : data_ptr) (n : Z) (src : Z → Z) : M world unit :=
  match p with
  | PMem o off =>
      m ← gets w_mem; d ← of_option UseAfterFree (m !! o);
      modify (set_w_mem (<[o := splice d off n src]> m))
  | PBuf b off => upd_buf b (λ c, set_buf_data (splice (buf_data c) off n src) c)
  end.
Definition memcpy (dst src : data_ptr) (n : Z) : M world unit :=
  s ← read_ptr src; write_ptr dst n s.

Definition ptr_add (p : data_ptr) (n : Z) : data_ptr :=
  match p with PMem o off => PMem o (off + n) | PBuf b off => PBuf b (off + n) end.

Definition spdk_malloc : M world (option obj_id) :=
  ok ← malloc_ok;
  if negb (ok : bool) then mret None else
  o ← fresh;
  _ ← modify (λ w, set_w_mem (<[o := λ _, 0]> (w_mem w)) w);
  mret (Some o).
Definition spdk_free (o : option obj_id) : M world unit :=
  match o with None => mret tt | Some o => modify (λ w, set_w_mem (delete o (w_mem w)) w) end.

(** ** Scatter and gather *)
Fixpoint _copy_iovs_to_buf (buf : data_ptr) (buf_len : Z) (iovs : list iovec) : M world unit :=
  match iovs with
  | [] => mret tt
  | v :: iovs' =>
      let len := Z.min (iov_len v) buf_len in
      _ ← memcpy buf (iov_base v) len;
      _ ← guard_or AssertFailed (bool_decide (len <= buf_len));
      _copy_iovs_to_buf (ptr_add buf len) (buf_len - len) iovs'
  end.

Fixpoint _copy_buf_to_iovs (iovs : list iovec) (buf : data_ptr) (buf_len : Z) : M world unit :=
  match iovs with
  | [] => mret tt
  | v :: iovs' =>
      let len := Z.min (iov_len v) buf_len in
      _ ← memcpy (iov_base v) buf len;
      _ ← guard_or AssertFailed (bool_decide (len <= buf_len));
      _copy_buf_to_iovs iovs' (ptr_add buf len) (buf_len - len)
  end.

(** [start_lba], [num_lba] for a range of bytes and a block size. *)
Definition page_parameters (lba_size offset length : Z) : Z * Z :=
  let start_lba := offset / lba_size in
  let end_lba := u64 (offset + length - 1) / lba_size in
  (start_lba, u64 (end_lba - start_lba + 1)).
Definition __get_page_parameters (offset length : Z) : M world (Z * Z * Z) :=
  lba_size ← spdk_bs_get_io_unit_size;
  let '(start_lba, num_lba) := page_parameters lba_size offset length in
  mret (start_lba, lba_size, num_lba).

Definition __is_lba_aligned (offset length : Z) : M world bool :=
  lba_size ← spdk_bs_get_io_unit_size;
  mret (bool_decide (offset mod lba_size = 0 ∧ length mod lba_size = 0)).

Section data.
Context `{Invoke}.

(** ** Reading and writing through a pinned buffer *)
Definition __rw_done (ctx : void_ptr) (bserrno : Z) : M world unit :=
  req ← as_req ctx;
  args ← load_req req;
  match r_op args with
  | OpRw _ pin_buf _ _ _ _ _ _ =>
      _ ← spdk_free pin_buf;
      _ ← call_fn args (Op bserrno);
      free_fs_request req
  | _ => fail TypeConfusion
  end.

Definition __read_done (ctx : void_ptr) (bserrno : Z) : M world unit :=
  req ← as_req ctx;
  args ← load_req req;
  match r_op args with
  | OpRw channel pin_buf is_read offset length start_lba num_lba blocklen =>
      pin ← deref pin_buf;
      let buf := PMem pin (Z.land offset (blocklen - 1)) in
      if (is_read : bool) then
        _ ← _copy_buf_to_iovs (r_iovs args) buf length;
        __rw_done ctx 0
      else
        _ ← _copy_iovs_to_buf buf length (r_iovs args);
        file ← deref (r_file args);
        x ← load_file file;
        b ← deref (f_blob x);
        bs_async (BlobIoWrite b channel (PMem pin 0) start_lba num_lba) Cb__rw_done (VReq req)
  | _ => fail TypeConfusion
  end.

Definition __do_blob_read (ctx : void_ptr) (fserrno : Z) : M world unit :=
  req ← as_req ctx;
  args ← load_req req;
  if decide (fserrno ≠ 0) then __rw_done ctx fserrno else
  match r_op args with
  | OpRw channel pin_buf _ _ _ start_lba num_lba _ =>
      file ← deref (r_file args);
      x ← load_file file;
      b ← deref (f_blob x);
      pin ← deref pin_buf;
      bs_async (BlobIoRead b channel (PMem pin 0) start_lba num_lba) Cb__read_done (VReq req)
  | _ => fail TypeConfusion
  end.

Definition _fs_request_setup_iovs (req : req_id) (iovs : list iovec) : M world unit :=
  upd_req req (λ r, set_r_iovs (iovs ++ drop (length iovs) (r_iovs r)) r).

Definition __readvwritev (file : file_id) (channel : chan_id) (iovs : list iovec) (offset length : Z)
    (cb_fn : callback) (cb_arg : void_ptr) (is_read : bool) : M world unit :=
  x ← load_file file;
  if is_read && bool_decide (f_length x < u64 (offset + length)) then invoke cb_fn cb_arg (Op (- EINVAL)) else
  req ← alloc_fs_request_with_iov channel (Z.of_nat (List.length iovs));
  match req with
  | None => invoke cb_fn cb_arg (Op (- ENOMEM))
  | Some req =>
      '(start_lba, lba_size, num_lba) ← __get_page_parameters offset length;
      ch ← load_chan channel;
      _ ← upd_req req (λ r, set_r_file (Some file) (set_r_arg cb_arg (set_r_fn (Some cb_fn) r)));
      _ ← _fs_request_setup_iovs req iovs;
      let pin_buf_length := u64 (num_lba * lba_size) in
      pin_buf ← spdk_malloc;
      _ ← upd_req req (set_r_op (OpRw (c_bs_channel ch) pin_buf is_read offset pin_buf_length start_lba num_lba lba_size));
      match pin_buf with
      | None => _ ← free_fs_request req; invoke cb_fn cb_arg (Op (- ENOMEM))
      | Some pin =>
          aligned ← __is_lba_aligned offset length;
          if negb is_read && bool_decide (f_length x < u64 (offset + length)) then
            spdk_file_truncate_async file (u64 (offset + length)) Cb__do_blob_read (VReq req)
          else if negb is_read && (aligned : bool) then
            args ← load_req req;
            _ ← _copy_iovs_to_buf (PMem pin 0) pin_buf_length (r_iovs args);
            b ← deref (f_blob x);
            bs_async (BlobIoWrite b (c_bs_channel ch) (PMem pin 0) start_lba num_lba) Cb__rw_done (VReq req)
          else __do_blob_read (VReq req) 0
      end
  end.

Definition __readwrite (file : file_id) (channel : chan_id) (payload : data_ptr) (offset length : Z)
    (cb_fn : callback) (cb_arg : void_ptr) (is_read : bool) : M world unit :=
  __readvwritev file channel [mk_iovec payload length] offset length cb_fn cb_arg is_read.

Definition spdk_file_write_async (file : file_id) (channel : chan_id) (payload : data_ptr) (offset length : Z)
    (cb_fn : callback) (cb_arg : void_ptr) : M world unit :=
  __readwrite file channel payload offset length cb_fn cb_arg false.
Definition spdk_file_writev_async (file : file_id) (channel : chan_id) (iovs : list iovec) (offset length : Z)
    (cb_fn : callback) (cb_arg : void_ptr) : M world unit :=
  __readvwritev file channel iovs offset length cb_fn cb_arg false.
Definition spdk_file_read_async (file : file_id) (channel : chan_id) (payload : data_ptr) (offset length : Z)
    (cb_fn : callback) (cb_arg : void_ptr) : M world unit :=
  __readwrite file channel payload offset length cb_fn cb_arg true.
Definition spdk_file_readv_async (file : file_id) (channel : chan_id) (iovs : list iovec) (offset length : Z)
    (cb_fn : callback) (cb_arg : void_ptr) : M world unit :=
  __readvwritev file channel iovs offset length cb_fn cb_arg true.

(** [spdk_fs_alloc_io_channel]: a channel of the calling thread. *)
Definition spdk_fs_alloc_io_channel : M world (option chan_id) :=
  c ← fs_io_channel_create;
  match c with
  | None => fail NullDeref
  | Some c =>
      ch ← spdk_bs_alloc_io_channel;
      _ ← upd_chan c (λ x, set_c_direct true (set_c_bs_channel ch x));
      mret (Some c)
  end.

Definition spdk_fs_alloc_thread_ctx : M world (option chan_id) :=
  ok1 ← malloc_ok;
  if negb (ok1 : bool) then mret None else
  ok2 ← malloc_ok;
  if negb (ok2 : bool) then mret None else
  c ← fs_channel_create 512;
  match c with
  | None => c ← fresh;
      _ ← modify (λ w, set_w_chans (<[c := mk_channel [] [] 0 None false true 0 false]> (w_chans w)) w);
      mret (Some c)
  | Some c =>
      fs ← load_fs;
      _ ← upd_chan c (λ x, set_c_sync true (set_c_direct (fs_direct fs) x));
      mret (Some c)
  end.

(** [spdk_fs_free_thread_ctx] polls until no request is outstanding; [false] is
    one more turn of that loop. *)
Definition spdk_fs_free_thread_ctx (c : chan_id) : M world bool :=
  x ← load_chan c;
  _ ← guard_or AssertFailed (c_sync x);
  _ ← chan_lock c;
  x ← load_chan c;
  _ ← chan_unlock c;
  if decide (c_outstanding x = 0) then _ ← fs_channel_destroy c; mret true else mret false.

(** ** Inserting cache buffers *)

(** [spdk_mempool_get], tried up to 101 times. *)
Fixpoint mempool_get (tries : nat) : M world bool :=
  match tries with
  | O => mret false
  | S t =>
      p ← gets w_pool;
      if decide (0 < pool_count p) then _ ← modify (set_w_pool (set_pool_count (pool_count p - 1) p)); mret true
      else mempool_get t
  end.

Definition cache_insert_buffer (file : file_id) (offset : Z) : M world (option buf_id) :=
  ok ← malloc_ok;
  if negb (ok : bool) then mret None else
  got ← mempool_get 101;
  if negb (got : bool) then mret None else
  p ← gets w_pool;
  let b := next_buf p in
  let c := mk_cache_buffer (λ _, 0) offset CACHE_BUFFER_SIZE 0 0 false in
  _ ← modify (set_w_pool (mk_pool (<[b := c]> (bufs p)) (pool_count p) (S b)));
  x ← load_file file;
  let need_update := bool_decide (present_mask (f_tree x) = 0) in
  t ← on_pool (tree_insert_buffer (f_tree x) b);
  _ ← upd_file file (set_f_tree t);
  _ ← (if need_update then send_cache_msg Cb_add_file_to_cache_pool (VFile file) else mret tt);
  mret (Some b).

Definition cache_append_buffer (file : file_id) : M world (option buf_id) :=
  x ← load_file file;
  _ ← (match f_last x with
       | None => mret tt
       | Some l => c ← get_buf l; guard_or AssertFailed (bool_decide (bytes_filled c = buf_size c))
       end);
  _ ← guard_or AssertFailed (bool_decide (f_append_pos x mod CACHE_BUFFER_SIZE = 0));
  last ← cache_insert_buffer file (f_append_pos x);
  match last with
  | None => mret None
  | Some b => _ ← upd_file file (set_f_last (Some b)); mret (Some b)
  end.

(** ** Synchronising the length *)
Definition op_sync (op : op_data) : M world (Z * bool * Z) :=
  match op with OpSync o p l => mret (o, p, l) | _ => fail TypeConfusion end.

(** The first sync request of the file whose data is all flushed. *)
Fixpoint first_flushed (flushed : Z) (l : list req_id) : M world (option req_id) :=
  match l with
  | [] => mret None
  | r :: l' =>
      args ← load_req r;
      '(offset, _, _) ← op_sync (r_op args);
      if decide (offset <= flushed) then mret (Some r) else first_flushed flushed l'
  end.

Definition __check_sync_reqs (file : file_id) : M world unit :=
  _ ← file_lock file;
  x ← load_file file;
  sync_req ← first_flushed (f_length_flushed x) (f_sync_requests x);
  match sync_req with
  | None => file_unlock file
  | Some r =>
      args ← load_req r;
      '(offset, xattr_in_progress, _) ← op_sync (r_op args);
      if (xattr_in_progress : bool) then file_unlock file else
      _ ← upd_req r (set_r_op (OpSync offset true (f_length_flushed x)));
      b ← deref (f_blob x);
      _ ← spdk_blob_set_xattr b "length" (XLength (f_length_flushed x));
      _ ← file_unlock file;
      bs_async (BlobSyncMd b) Cb__file_cache_finish_sync (VReq r)
  end.

Definition __file_cache_finish_sync (ctx : void_ptr) (bserrno : Z) : M world unit :=
  sync_req ← as_req ctx;
  args ← load_req sync_req;
  file ← deref (r_file args);
  _ ← file_lock file;
  '(offset, _, length) ← op_sync (r_op args);
  _ ← upd_file file (set_f_length_xattr length);
  x ← load_file file;
  _ ← guard_or AssertFailed (bool_decide (offset <= f_length_flushed x));
  _ ← guard_or ListCorruption (bool_decide (sync_req ∈ f_sync_requests x));
  _ ← upd_file file (λ x, set_f_sync_requests (filter (λ r, r ≠ sync_req) (f_sync_requests x)) x);
  _ ← file_unlock file;
  _ ← call_fn args (Op bserrno);
  _ ← free_fs_request sync_req;
  __check_sync_reqs file.

(** ** Flushing *)
Definition __file_flush (ctx : void_ptr) : M world unit :=
  req ← as_req ctx;
  args ← load_req req;
  file ← deref (r_file args);
  _ ← file_lock file;
  x ← load_file file;
  next ← on_pool (tree_find_buffer (f_tree x) (f_length_flushed x));
  match next with
  | None =>
      _ ← free_fs_request req;
      _ ← upd_file file (λ x, set_f_length_flushed (f_append_pos x) x);
      _ ← file_unlock file;
      __check_sync_reqs file
  | Some next =>
      c ← get_buf next;
      if in_progress c || (bool_decide (bytes_filled c < buf_size c) && bool_decide (f_sync_requests x = []))
      then _ ← free_fs_request req; file_unlock file
      else
        let offset := u64 (buf_offset c + bytes_flushed c) in
        let length := u32 (bytes_filled c - bytes_flushed c) in
        if decide (length = 0) then
          _ ← free_fs_request req;
          _ ← file_unlock file;
          __check_sync_reqs file
        else
          _ ← upd_req req (set_r_op (OpFlush next length));
          '(start_lba, lba_size, num_lba) ← __get_page_parameters offset length;
          _ ← upd_buf next (set_in_progress true);
          _ ← file_unlock file;
          b ← deref (f_blob x);
          fs ← load_fs;
          sync ← deref (fs_sync_channel fs);
          ch ← load_chan sync;
          bs_async (BlobIoWrite b (c_bs_channel ch) (PBuf next (start_lba * lba_size - buf_offset c)) start_lba num_lba)
            Cb__file_flush_done (VReq req)
  end.

Definition __file_flush_done (ctx : void_ptr) (bserrno : Z) : M world unit :=
  req ← as_req ctx;
  args ← load_req req;
  file ← deref (r_file args);
  match r_op args with
  | OpFlush next length =>
      _ ← file_lock file;
      _ ← upd_buf next (λ c, set_bytes_flushed (u32 (bytes_flushed c + length)) (set_in_progress false c));
      _ ← upd_file file (λ x, set_f_length_flushed (u64 (f_length_flushed x + length)) x);
      _ ← upd_file file (λ x, set_f_length (Z.max (f_length x) (f_length_flushed x)) x);
      x ← load_file file;
      c ← get_buf next;
      next ← (if decide (bytes_flushed c = buf_size c) then
                on_pool (tree_find_buffer (f_tree x) (f_length_flushed x))
              else mret (Some next));
      _ ← (match next with
           | None => mret tt
           | Some n =>
               c ← get_buf n;
               size ← __file_get_blob_size file;
               guard_or AssertFailed (bool_decide (buf_offset c < size ∨ bytes_filled c = 0))
           end);
      _ ← file_unlock file;
      _ ← __check_sync_reqs file;
      __file_flush ctx
  | _ => fail TypeConfusion
  end.

(** ** Growing the blob under a cached write *)
Definition __file_extend_done (arg : void_ptr) (bserrno : Z) : M world unit := __wake_caller arg bserrno.

Definition __file_extend_resize_cb (args : void_ptr) (bserrno : Z) : M world unit :=
  req ← as_req args;
  a ← load_req req;
  file ← deref (r_file a);
  if decide (bserrno ≠ 0) then __wake_caller args bserrno else
  x ← load_file file;
  b ← deref (f_blob x);
  bs_async (BlobSyncMd b) Cb__file_extend_done args.

Definition __file_extend_blob (args : void_ptr) : M world unit :=
  req ← as_req args;
  a ← load_req req;
  file ← deref (r_file a);
  x ← load_file file;
  b ← deref (f_blob x);
  match r_op a with
  | OpResize n => bs_async (BlobResize b n) Cb__file_extend_resize_cb args
  | _ => fail TypeConfusion
  end.

(** ** Reads and writes that bypass the cache *)
Definition __rw_from_file_done (ctx : void_ptr) (bserrno : Z) : M world unit :=
  req ← as_req ctx;
  _ ← __wake_caller ctx bserrno;
  free_fs_request req.

Definition __rw_from_file (ctx : void_ptr) : M world unit :=
  req ← as_req ctx;
  args ← load_req req;
  file ← deref (r_file args);
  fs ← load_fs;
  sync ← deref (fs_sync_channel fs);
  v ← of_option OutOfBounds (r_iovs args !! 0%nat);
  match r_op args with
  | OpRw _ _ is_read offset _ _ _ _ =>
      if (is_read : bool) then
        spdk_file_read_async file sync (iov_base v) offset (iov_len v) Cb__rw_from_file_done (VReq req)
      else
        spdk_file_write_async file sync (iov_base v) offset (iov_len v) Cb__rw_from_file_done (VReq req)
  | _ => fail TypeConfusion
  end.

(** 0, or an error; [cell] is the caller's [arg->rwerrno]. *)
Definition __send_rw_from_file (file : file_id) (payload : data_ptr) (offset length : Z) (is_read : bool)
    (channel : chan_id) (cell : nat) : M world Z :=
  req ← alloc_fs_request_with_iov channel 1;
  match req with
  | None => _ ← sem_post channel; mret (- ENOMEM)
  | Some req =>
      _ ← upd_req req (λ r, set_r_rwerrno (Some cell) (set_r_op (OpRw None None is_read offset 0 0 0 0)
            (set_r_iovs [mk_iovec payload length] (set_r_sem (Some channel) (set_r_file (Some file) r)))));
      _ ← fs_send_request Cb__rw_from_file (VReq req);
      mret 0
  end.

(** ** Readahead *)
Definition __readahead_done (ctx : void_ptr) (bserrno : Z) : M world unit :=
  req ← as_req ctx;
  args ← load_req req;
  file ← deref (r_file args);
  match r_op args with
  | OpReadahead b length _ =>
      b ← deref b;
      _ ← file_lock file;
      _ ← upd_buf b (λ c, set_in_progress false (set_bytes_flushed length (set_bytes_filled length c)));
      _ ← file_unlock file;
      free_fs_request req
  | _ => fail TypeConfusion
  end.

Definition __readahead (ctx : void_ptr) : M world unit :=
  req ← as_req ctx;
  args ← load_req req;
  file ← deref (r_file args);
  match r_op args with
  | OpReadahead b length offset =>
      _ ← guard_or AssertFailed (bool_decide (0 < length));
      '(start_lba, _, num_lba) ← __get_page_parameters offset length;
      x ← load_file file;
      blob ← deref (f_blob x);
      fs ← load_fs;
      sync ← deref (fs_sync_channel fs);
      ch ← load_chan sync;
      b ← deref b;
      bs_async (BlobIoRead blob (c_bs_channel ch) (PBuf b 0) start_lba num_lba) Cb__readahead_done (VReq req)
  | _ => fail TypeConfusion
  end.

Definition __next_cache_buffer_offset (offset : Z) : Z :=
  Z.ldiff (u64 (offset + CACHE_BUFFER_SIZE)) (CACHE_BUFFER_SIZE - 1).

Definition check_readahead (file : file_id) (offset : Z) (channel : chan_id) : M world unit :=
  let offset := __next_cache_buffer_offset offset in
  x ← load_file file;
  found ← on_pool (tree_find_buffer (f_tree x) offset);
  if decide (found ≠ None ∨ f_length x <= offset) then mret tt else
  req ← alloc_fs_request channel;
  match req with
  | None => mret tt
  | Some req =>
      _ ← upd_req req (set_r_file (Some file));
      b ← cache_insert_buffer file offset;
      match b with
      | None => free_fs_request req
      | Some b =>
          _ ← upd_buf b (set_in_progress true);
          let length := if decide (f_length x < u64 (offset + CACHE_BUFFER_SIZE))
                        then Z.land (f_length x) (CACHE_BUFFER_SIZE - 1) else CACHE_BUFFER_SIZE in
          _ ← upd_req req (set_r_op (OpReadahead (Some b) length offset));
          fs_send_request Cb__readahead (VReq req)
      end
  end.

(** ** _file_sync *)
Definition _file_sync (file : file_id) (channel : chan_id) (cb_fn : callback) (cb_arg : void_ptr) : M world unit :=
  _ ← file_lock file;
  x ← load_file file;
  if decide (f_append_pos x <= f_length_xattr x) then
    _ ← file_unlock file; invoke cb_fn cb_arg (Op 0)
  else
  sync_req ← alloc_fs_request channel;
  match sync_req with
  | None => _ ← file_unlock file; invoke cb_fn cb_arg (Op (- ENOMEM))
  | Some sync_req =>
      flush_req ← alloc_fs_request channel;
      match flush_req with
      | None =>
          _ ← free_fs_request sync_req;
          _ ← file_unlock file;
          invoke cb_fn cb_arg (Op (- ENOMEM))
      | Some flush_req =>
          _ ← upd_req sync_req (λ r, set_r_op (OpSync (f_append_pos x) false 0) (set_r_arg cb_arg
                (set_r_fn (Some cb_fn) (set_r_file (Some file) r))));
          _ ← upd_file file (λ x, set_f_sync_requests (f_sync_requests x ++ [sync_req]) x);
          _ ← file_unlock file;
          _ ← upd_req flush_req (set_r_file (Some file));
          chan_send_request channel Cb__file_flush (VReq flush_req)
      end
  end.

Definition spdk_file_sync_async (file : file_id) (channel : chan_id) (cb_fn : callback) (cb_arg : void_ptr) : M world unit :=
  _file_sync file channel cb_fn cb_arg.

(** ** Close *)
Definition __file_close_async_done (ctx : void_ptr) (bserrno : Z) : M world unit :=
  req ← as_req ctx;
  args ← load_req req;
  file ← deref (r_file args);
  x ← load_file file;
  if f_is_deleted x then
    name ← deref (f_name x);
    spdk_fs_delete_file_async name Cb_blob_delete_cb ctx
  else
    _ ← call_fn args (Op bserrno);
    free_fs_request req.

Definition __file_close_async (file : file_id) (req : req_id) : M world unit :=
  _ ← file_lock file;
  x ← load_file file;
  if decide (f_ref_count x = 0) then
    _ ← file_unlock file; __file_close_async_done (VReq req) (- EBADF)
  else
    _ ← upd_file file (λ x, set_f_ref_count (f_ref_count x - 1) x);
    if decide (0 < f_ref_count x - 1) then
      _ ← file_unlock file;
      args ← load_req req;
      _ ← call_fn args (Op 0);
      free_fs_request req
    else
      _ ← file_unlock file;
      b ← deref (f_blob x);
      _ ← upd_file file (set_f_blob None);
      bs_async (BlobClose b) Cb__file_close_async_done (VReq req).

Definition __file_close_async__sync_done (arg : void_ptr) (fserrno : Z) : M world unit :=
  req ← as_req arg;
  args ← load_req req;
  file ← deref (r_file args);
  __file_close_async file req.

Definition spdk_file_close_async (file : file_id) (cb_fn : callback) (cb_arg : void_ptr) : M world unit :=
  _ ← load_file file;
  fs ← load_fs;
  md ← deref (fs_md_channel fs);
  req ← alloc_fs_request md;
  match req with
  | None => invoke cb_fn cb_arg (Op (- ENOMEM))
  | Some req =>
      _ ← upd_req req (λ r, set_r_arg cb_arg (set_r_fn (Some cb_fn) (set_r_file (Some file) r)));
      spdk_file_sync_async file md Cb__file_close_async__sync_done (VReq req)
  end.

Definition __file_close (arg : void_ptr) : M world unit :=
  req ← as_req arg;
  args ← load_req req;
  file ← deref (r_file args);
  __file_close_async file req.
End data.
