(* ===== verification/FsSync.v ===== *)
(** * The synchronous functions (lib/NBFS/NBFS.c)

    Called on a client's thread, they hand the work to another thread and wait
    on the semaphore of the thread's context.  A call runs up to [sem_wait],
    where it is [Blocked] with what it needs to go on; [resume] is the rest of
    the function, entered once the semaphore is positive. *)
From S2P Require Import Prelude BPlusTree CacheTree FsState FsPrim FsFile FsMeta FsData.
Local Open Scope Z_scope.

Inductive blocked : Type :=
| W_rc (req : req_id)
| W_open (req : req_id)
| W_direct_write (cell : nat)
| W_extend (file : file_id) (payload : data_ptr) (offset length : Z) (extend_args : req_id)
| W_read (cell : nat) (sub_reads : nat) (final_length : Z)
| W_sync (args : req_id)
| W_close_sync (file : file_id) (args : req_id) (req : req_id)
| W_close (req : req_id).

(** What a synchronous function is after its next step: returned, with the file
    it stores through its pointer argument, or waiting. *)
Inductive progress : Type :=
| Returned (rc : Z) (file : option file_id)
| Blocked (channel : chan_id) (b : blocked).

Definition returned (rc : Z) : M world progress := mret (Returned rc None).

(** A zeroed [struct spdk_fs_cb_args] on the stack, and an [int] there. *)
Definition stack_args : M world req_id :=
  r ← fresh; _ ← store_req r zero_request; mret r.
Definition stack_int : M world nat :=
  c ← fresh; _ ← modify (λ w, set_w_cells (<[c := 0]> (w_cells w)) w); mret c.
Definition load_int (c : nat) : M world Z :=
  m ← gets w_cells; of_option UseAfterFree (m !! c).
Definition drop_int (c : nat) : M world unit :=
  modify (λ w, set_w_cells (delete c (w_cells w)) w).

Section sync.
Context `{Invoke}.

Definition spdk_fs_file_stat (channel : chan_id) (name : string) (stat : nat) : M world progress :=
  req ← alloc_fs_request channel;
  match req with
  | None => returned (- ENOMEM)
  | Some req =>
      _ ← upd_req req (λ r, set_r_sem (Some channel) (set_r_arg (VUser stat) (set_r_fn (Some Cb__copy_stat)
            (set_r_op (OpName name) (set_r_fs true r)))));
      _ ← chan_send_request channel Cb__file_stat (VReq req);
      mret (Blocked channel (W_rc req))
  end.

Definition spdk_fs_create_file (channel : chan_id) (name : string) : M world progress :=
  req ← alloc_fs_request channel;
  match req with
  | None => returned (- ENOMEM)
  | Some req =>
      _ ← upd_req req (λ r, set_r_sem (Some channel) (set_r_op (OpName name) (set_r_fs true r)));
      _ ← fs_send_request Cb__fs_create_file (VReq req);
      mret (Blocked channel (W_rc req))
  end.

Definition spdk_fs_open_file (channel : chan_id) (name : string) (flags : Z) : M world progress :=
  req ← alloc_fs_request channel;
  match req with
  | None => returned (- ENOMEM)
  | Some req =>
      _ ← upd_req req (λ r, set_r_sem (Some channel) (set_r_op (OpOpen name flags) (set_r_fs true r)));
      _ ← fs_send_request Cb__fs_open_file (VReq req);
      mret (Blocked channel (W_open req))
  end.

Definition spdk_fs_rename_file (channel : chan_id) (old_name new_name : string) : M world progress :=
  req ← alloc_fs_request channel;
  match req with
  | None => returned (- ENOMEM)
  | Some req =>
      _ ← upd_req req (λ r, set_r_sem (Some channel) (set_r_op (OpRename old_name new_name) (set_r_fs true r)));
      _ ← fs_send_request Cb__fs_rename_file (VReq req);
      mret (Blocked channel (W_rc req))
  end.

Definition spdk_fs_delete_file (channel : chan_id) (name : string) : M world progress :=
  req ← alloc_fs_request channel;
  match req with
  | None => returned (- ENOMEM)
  | Some req =>
      _ ← upd_req req (λ r, set_r_sem (Some channel) (set_r_op (OpName name) (set_r_fs true r)));
      _ ← fs_send_request Cb__fs_delete_file (VReq req);
      mret (Blocked channel (W_rc req))
  end.

(** [args->arg] is not set, [__truncate] passes the request itself. *)
Definition spdk_file_truncate (file : file_id) (channel : chan_id) (length : Z) : M world progress :=
  req ← alloc_fs_request channel;
  match req with
  | None => returned (- ENOMEM)
  | Some req =>
      _ ← upd_req req (λ r, set_r_sem (Some channel) (set_r_fn (Some Cb__wake_caller)
            (set_r_op (OpTruncate length) (set_r_file (Some file) r))));
      _ ← chan_send_request channel Cb__truncate (VReq req);
      mret (Blocked channel (W_rc req))
  end.

(** ** Write *)

(** The copying loop of [spdk_file_write]: the number of buffers it filled, or
    [None] when there was no buffer for the rest. *)
Fixpoint fill_buffers (fuel : nat) (file : file_id) (last : buf_id) (cur_payload : data_ptr) (rem_length : Z)
    (cache_buffers_filled : Z) : M world (option Z) :=
  if decide (rem_length <= 0) then mret (Some cache_buffers_filled) else
  match fuel with
  | O => fail OutOfFuel
  | S fuel' =>
      c ← get_buf last;
      let copy := Z.min (u32 (buf_size c - bytes_filled c)) rem_length in
      _ ← memcpy (PBuf last (bytes_filled c)) cur_payload copy;
      _ ← upd_file file (λ x, set_f_append_pos (u64 (f_append_pos x + copy)) x);
      _ ← upd_file file (λ x, set_f_length (Z.max (f_length x) (f_append_pos x)) x);
      _ ← upd_buf last (λ c, set_bytes_filled (u32 (bytes_filled c + copy)) c);
      c ← get_buf last;
      let cur_payload := ptr_add cur_payload copy in
      let rem_length := rem_length - copy in
      if decide (bytes_filled c = buf_size c) then
        l ← cache_append_buffer file;
        match l with
        | None => mret None
        | Some l => fill_buffers fuel' file l cur_payload rem_length (cache_buffers_filled + 1)
        end
      else fill_buffers fuel' file last cur_payload rem_length cache_buffers_filled
  end.

Definition fill_fuel (length : Z) : nat := S (S (Z.to_nat (length / CACHE_BUFFER_SIZE))).

(** From [flush_req = alloc_fs_request(channel)] to the end of [spdk_file_write]. *)
Definition write_cached (file : file_id) (channel : chan_id) (payload : data_ptr) (length : Z) : M world progress :=
  flush_req ← alloc_fs_request channel;
  match flush_req with
  | None => _ ← file_unlock file; returned (- ENOMEM)
  | Some flush_req =>
      x ← load_file file;
      last ← deref (f_last x);
      filled ← fill_buffers (fill_fuel length) file last payload length 0;
      match filled with
      | None =>
          _ ← free_fs_request flush_req;
          _ ← file_unlock file;
          returned (- ENOMEM)
      | Some n =>
          _ ← file_unlock file;
          if decide (n = 0) then _ ← free_fs_request flush_req; returned 0 else
          _ ← upd_req flush_req (set_r_file (Some file));
          _ ← fs_send_request Cb__file_flush (VReq flush_req);
          returned 0
      end
  end.

Definition spdk_file_write (file : file_id) (channel : chan_id) (payload : data_ptr) (offset length : Z) : M world progress :=
  if decide (length = 0) then returned 0 else
  x ← load_file file;
  if decide (offset ≠ f_append_pos x) then returned (- EINVAL) else
  _ ← file_lock file;
  _ ← upd_file file (set_f_open_for_writing true);
  _ ← (if decide (f_last x = None ∧ f_append_pos x mod CACHE_BUFFER_SIZE = 0)
       then _ ← cache_append_buffer file; mret tt else mret tt);
  x ← load_file file;
  match f_last x with
  | None =>
      cell ← stack_int;
      _ ← upd_file file (set_f_append_pos (u64 (f_append_pos x + length)));
      _ ← file_unlock file;
      rc ← __send_rw_from_file file payload offset length false channel cell;
      if decide (rc ≠ 0) then _ ← drop_int cell; returned rc else
      mret (Blocked channel (W_direct_write cell))
  | Some _ =>
      blob_size ← __file_get_blob_size file;
      if decide (blob_size < u64 (offset + length)) then
        fs ← load_fs;
        args ← stack_args;
        let n := u32 (__bytes_to_clusters (u64 (offset + length)) (fs_cluster_sz fs)) in
        _ ← upd_req args (λ r, set_r_file (Some file) (set_r_op (OpResize n) (set_r_sem (Some channel) r)));
        _ ← file_unlock file;
        _ ← fs_send_request Cb__file_extend_blob (VReq args);
        mret (Blocked channel (W_extend file payload offset length args))
      else write_cached file channel payload length
  end.

(** ** Read *)

(** The loop of [spdk_file_read], from [offset] to [final_offset]: the number
    of reads sent, the bytes covered and the error it stopped at. *)
Fixpoint read_loop (fuel : nat) (file : file_id) (channel : chan_id) (cell : nat) (payload : data_ptr)
    (offset final_offset : Z) (sub_reads : nat) (final_length : Z) : M world (nat * Z * Z) :=
  if decide (final_offset <= offset) then mret (sub_reads, final_length, 0) else
  match fuel with
  | O => fail OutOfFuel
  | S fuel' =>
      let length := Z.min (NEXT_CACHE_BUFFER_OFFSET offset - offset) (final_offset - offset) in
      x ← load_file file;
      buf ← on_pool (tree_find_filled_buffer (f_tree x) offset);
      ret ← (match buf with
             | None =>
                 _ ← file_unlock file;
                 ret ← __send_rw_from_file file payload offset length true channel cell;
                 _ ← file_lock file;
                 mret ret
             | Some b =>
                 c ← get_buf b;
                 let read_len := if decide (buf_offset c + bytes_filled c < offset + length)
                                 then u64 (buf_offset c + bytes_filled c - offset) else length in
                 _ ← memcpy payload (PBuf b (offset - buf_offset c)) read_len;
                 _ ← (if decide ((offset + read_len) mod CACHE_BUFFER_SIZE = 0) then
                        x ← load_file file;
                        t ← on_pool (tree_remove_buffer (f_tree x) b);
                        _ ← upd_file file (set_f_tree t);
                        if decide (present_mask t = 0)
                        then send_cache_msg Cb_remove_file_from_cache_pool (VFile file) else mret tt
                      else mret tt);
                 mret 0
             end);
      if decide (ret = 0) then
        let sent := match buf with None => S sub_reads | Some _ => sub_reads end in
        read_loop fuel' file channel cell (ptr_add payload length) (offset + length) final_offset
          sent (final_length + length)
      else mret (sub_reads, final_length, ret)
  end.

Definition read_fuel (length : Z) : nat := S (S (Z.to_nat (length / CACHE_BUFFER_SIZE))).

(** The end of [spdk_file_read]: wait for each read, then the result. *)
Definition read_wait (channel : chan_id) (cell : nat) (sub_reads : nat) (final_length : Z) : M world progress :=
  match sub_reads with
  | S _ => mret (Blocked channel (W_read cell sub_reads final_length))
  | O => e ← load_int cell; _ ← drop_int cell; returned (if decide (e = 0) then final_length else e)
  end.

Definition spdk_file_read (file : file_id) (channel : chan_id) (payload : data_ptr) (offset length : Z) : M world progress :=
  _ ← file_lock file;
  _ ← upd_file file (set_f_open_for_writing false);
  x ← load_file file;
  if decide (length = 0 ∨ f_append_pos x <= offset) then _ ← file_unlock file; returned 0 else
  let length := if decide (f_append_pos x < u64 (offset + length)) then f_append_pos x - offset else length in
  _ ← (if decide (offset ≠ f_next_seq_offset x) then upd_file file (set_f_seq_byte_count 0) else mret tt);
  _ ← upd_file file (λ x, set_f_next_seq_offset (u64 (offset + length))
                           (set_f_seq_byte_count (u64 (f_seq_byte_count x + length)) x));
  x ← load_file file;
  _ ← (if decide (CACHE_READAHEAD_THRESHOLD <= f_seq_byte_count x) then
         _ ← check_readahead file offset channel;
         check_readahead file (u64 (offset + CACHE_BUFFER_SIZE)) channel
       else mret tt);
  cell ← stack_int;
  '(sub_reads, final_length, err) ←
    read_loop (read_fuel length) file channel cell payload offset (u64 (offset + length)) 0%nat 0;
  _ ← (if decide (err = 0) then mret tt else modify (λ w, set_w_cells (<[cell := err]> (w_cells w)) w));
  _ ← file_unlock file;
  read_wait channel cell sub_reads final_length.

(** ** Sync and close *)
Definition spdk_file_sync (file : file_id) (channel : chan_id) : M world progress :=
  args ← stack_args;
  _ ← upd_req args (set_r_sem (Some channel));
  _ ← _file_sync file channel Cb__wake_caller (VReq args);
  mret (Blocked channel (W_sync args)).

(** Up to the [sem_wait] of the [spdk_file_sync] it calls. *)
Definition spdk_file_close (file : file_id) (channel : chan_id) : M world progress :=
  req ← alloc_fs_request channel;
  match req with
  | None => returned (- ENOMEM)
  | Some req =>
      args ← stack_args;
      _ ← upd_req args (set_r_sem (Some channel));
      _ ← _file_sync file channel Cb__wake_caller (VReq args);
      mret (Blocked channel (W_close_sync file args req))
  end.

(** The end of most of them: [rc = args->rc; free_fs_request(req); return rc]. *)
Definition finish_rc (req : req_id) : M world progress :=
  args ← load_req req;
  _ ← free_fs_request req;
  returned (r_rc args).

(** ** What follows [sem_wait(&channel->sem)] *)
Definition resume (channel : chan_id) (b : blocked) : M world progress :=
  _ ← sem_wait channel;
  match b with
  | W_rc req => finish_rc req
  | W_open req =>
      args ← load_req req;
      _ ← free_fs_request req;
      mret (Returned (r_rc args) (if decide (r_rc args = 0) then r_file args else None))
  | W_direct_write cell => e ← load_int cell; _ ← drop_int cell; returned e
  | W_extend file payload offset length args =>
      a ← load_req args;
      _ ← free_req args;
      if decide (r_rc a ≠ 0) then returned (r_rc a)
      else write_cached file channel payload length
  | W_read cell sub_reads final_length => read_wait channel cell (pred sub_reads) final_length
  | W_sync args =>
      a ← load_req args;
      _ ← free_req args;
      returned (r_rc a)
  | W_close_sync file args req =>
      _ ← free_req args;
      _ ← upd_req req (λ r, set_r_arg (VReq req) (set_r_fn (Some Cb__wake_caller)
            (set_r_sem (Some channel) (set_r_file (Some file) r))));
      _ ← chan_send_request channel Cb__file_close (VReq req);
      mret (Blocked channel (W_close req))
  | W_close req =>
      args ← load_req req;
      returned (r_rc args)
  end.
End sync.
