(* ===== verification/FsLoop.v ===== *)
(** * The whole system: callbacks tied together, events, runs

    [invoke_n] calls the function a callback names; a client's callback is
    recorded in [w_done] and what the client does next is a later event.  An
    event is a call of the API, the end of a wait on a semaphore, the completion
    of a call to the blobstore, the delivery of a message, or a turn of the
    cache pool's poller.  Each event runs to its end: the threads of the program
    interleave at events, not inside them. *)
From S2P Require Import Prelude BPlusTree CacheTree FsState FsPrim FsFile FsMeta FsData FsSync.
Local Open Scope Z_scope.

(** ** Function pointers *)
Section dispatch.
Context `{Invoke}.

Definition dispatch_op (fn : callback) (arg : void_ptr) (rc : Z) : M world unit :=
  match fn with
  | Cb__wake_caller => __wake_caller arg rc
  | Cb__fs_create_file_done => __fs_create_file_done arg rc
  | Cb_fs_open_blob_create_cb => fs_open_blob_create_cb arg rc
  | Cb__fs_rename_file_done => __fs_rename_file_done arg rc
  | Cb_fs_rename_delete_done => fs_rename_delete_done arg rc
  | Cb__fs_delete_file_done => __fs_delete_file_done arg rc
  | Cb_blob_delete_cb => blob_delete_cb arg rc
  | Cb__do_blob_read => __do_blob_read arg rc
  | Cb__rw_from_file_done => __rw_from_file_done arg rc
  | Cb__file_close_async__sync_done => __file_close_async__sync_done arg rc
  | Cb_unload_cb => unload_cb arg rc
  | Cb_fs_load_done => fs_load_done arg rc
  | Cb_fs_create_blob_resize_cb => fs_create_blob_resize_cb arg rc
  | Cb_fs_create_blob_close_cb => fs_create_blob_close_cb arg rc
  | Cb_fs_rename_blob_close_cb => fs_rename_blob_close_cb arg rc
  | Cb_fs_truncate_resize_cb => fs_truncate_resize_cb arg rc
  | Cb_fs_truncate_complete_cb => fs_truncate_complete_cb arg rc
  | Cb__rw_done => __rw_done arg rc
  | Cb__read_done => __read_done arg rc
  | Cb__file_cache_finish_sync => __file_cache_finish_sync arg rc
  | Cb__file_flush_done => __file_flush_done arg rc
  | Cb__file_extend_resize_cb => __file_extend_resize_cb arg rc
  | Cb__file_extend_done => __file_extend_done arg rc
  | Cb__readahead_done => __readahead_done arg rc
  | Cb__file_close_async_done => __file_close_async_done arg rc
  | Cb__file_stat => __file_stat arg
  | Cb__fs_create_file => __fs_create_file arg
  | Cb__fs_open_file => __fs_open_file arg
  | Cb__fs_rename_file => __fs_rename_file arg
  | Cb__fs_delete_file => __fs_delete_file arg
  | Cb__truncate => __truncate arg
  | Cb__rw_from_file => __rw_from_file arg
  | Cb__file_flush => __file_flush arg
  | Cb__file_extend_blob => __file_extend_blob arg
  | Cb__readahead => __readahead arg
  | Cb__file_close => __file_close arg
  | Cb__start_cache_pool_mgmt => __start_cache_pool_mgmt
  | Cb__stop_cache_pool_mgmt => __stop_cache_pool_mgmt
  | Cb_add_file_to_cache_pool => _add_file_to_cache_pool arg
  | Cb_remove_file_from_cache_pool => _remove_file_from_cache_pool arg
  | Cb_file_free => _file_free arg
  | Cb_put_io_channel => c ← as_chan arg; fs_channel_destroy c
  | _ => fail TypeConfusion
  end.

(** A callback called with arguments of another type is a fault. *)
Definition dispatch (fn : callback) (arg : void_ptr) (o : outcome) : M world unit :=
  match fn, o with
  | CbUser n, _ => modify (λ w, set_w_done (w_done w ++ [(n, o)]) w)
  | Cb__copy_stat, WithStat s rc => __copy_stat arg s rc
  | Cb__fs_open_file_done, WithFile f rc => __fs_open_file_done arg f rc
  | Cb_init_cb, WithBs rc => init_cb arg rc
  | Cb_load_cb, WithBs rc => load_cb arg rc
  | Cb_fs_create_blob_create_cb, WithId id rc => fs_create_blob_create_cb arg id rc
  | Cb_fs_create_blob_open_cb, WithBlob b rc => fs_create_blob_open_cb arg b rc
  | Cb_fs_open_blob_done, WithBlob b rc => fs_open_blob_done arg b rc
  | Cb_fs_rename_blob_open_cb, WithBlob b rc => fs_rename_blob_open_cb arg b rc
  | _, Op rc => dispatch_op fn arg rc
  | _, _ => fail TypeConfusion
  end.
End dispatch.

Fixpoint invoke_n (n : nat) : Invoke :=
  match n with
  | O => λ _ _ _, fail OutOfFuel
  | S n' => @dispatch (invoke_n n')
  end.

(** Callbacks nest a few calls deep: an API call, its completion with an error,
    the completion of the request it served, and a client's callback. *)
Definition depth : nat := 16.
#[export] Instance invoke_depth : Invoke := invoke_n depth.

(** ** The blobstore's answers *)

(** What a call does when it succeeds: the metadata that the synchronous
    functions read, and the bytes read into memory. *)
Definition bs_effect (c : bs_call) (id : blob_id) (data : Z → Z) : M world unit :=
  let set_blobs g := modify (λ w, set_w_bs (set_bs_blobs (g (bs_blobs (w_bs w))) (w_bs w)) w) in
  match c with
  | BsInit sz =>
      modify (λ w, set_w_bs (set_bs_bstype (Some SPDK_BLOBFS_SIGNATURE) (set_bs_cluster_size sz (w_bs w))) w)
  | BsCreateBlob => set_blobs (λ m, <[id := mk_blob 0 ∅]> m)
  | BsDeleteBlob b => set_blobs (delete b)
  | BlobResize b n => x ← load_blob b; set_blobs (λ m, <[b := set_b_clusters n x]> m)
  | BlobIoRead _ _ payload _ num_lba =>
      sz ← spdk_bs_get_io_unit_size; write_ptr payload (num_lba * sz) data
  | _ => mret tt
  end.

Definition bs_outcome (c : bs_call) (id : blob_id) (rc : Z) : outcome :=
  match c with
  | BsInit _ | BsLoad _ => WithBs rc
  | BsCreateBlob => WithId id rc
  | BsOpenBlob b => WithBlob (if decide (rc = 0) then Some b else None) rc
  | _ => Op rc
  end.

(** ** The API *)
Inductive api : Type :=
| A_init (opt : option Z) (direct : bool) (n : nat)
| A_load (direct : bool) (n : nat)
| A_unload (n : nat)
| A_stat (name : string) (n : nat)
| A_create (name : string) (n : nat)
| A_open (name : string) (flags : Z) (n : nat)
| A_delete (name : string) (n : nat)
| A_rename (old_name new_name : string) (n : nat)
| A_truncate (file : file_id) (length : Z) (n : nat)
| A_write (file : file_id) (channel : chan_id) (payload : data_ptr) (offset length : Z) (n : nat)
| A_writev (file : file_id) (channel : chan_id) (iovs : list iovec) (offset length : Z) (n : nat)
| A_read (file : file_id) (channel : chan_id) (payload : data_ptr) (offset length : Z) (n : nat)
| A_readv (file : file_id) (channel : chan_id) (iovs : list iovec) (offset length : Z) (n : nat)
| A_sync (file : file_id) (channel : chan_id) (n : nat)
| A_close (file : file_id) (n : nat)
| A_alloc_io_channel
| A_free_io_channel (channel : chan_id)
| A_alloc_thread_ctx
| A_free_thread_ctx (channel : chan_id)
| A_set_cache_size (size_in_mb : Z)
| A_set_priority (file : file_id) (priority : Z)
| S_stat (channel : chan_id) (name : string) (stat : nat)
| S_create (channel : chan_id) (name : string)
| S_open (channel : chan_id) (name : string) (flags : Z)
| S_rename (channel : chan_id) (old_name new_name : string)
| S_delete (channel : chan_id) (name : string)
| S_truncate (file : file_id) (channel : chan_id) (length : Z)
| S_write (file : file_id) (channel : chan_id) (payload : data_ptr) (offset length : Z)
| S_read (file : file_id) (channel : chan_id) (payload : data_ptr) (offset length : Z)
| S_sync (file : file_id) (channel : chan_id)
| S_close (file : file_id) (channel : chan_id).

(** A call of the API; [None] for an asynchronous one.  The model has one
    filesystem at a time: a mount while one exists is not an event of it. *)
#[export] Instance filesystem_eq_dec : EqDecision filesystem.
Proof. solve_decision. Defined.

Definition run_api (a : api) : M world (option progress) :=
  let async (m : M world unit) := (_ ← m; mret None) in
  let sync (m : M world progress) := (p ← m; mret (Some p)) in
  let mount (m : M world unit) := (o ← gets w_fs; _ ← guard_or NoEvent (bool_decide (o = None)); m) in
  match a with
  | A_init opt direct n => async (mount (spdk_fs_init opt direct (CbUser n) VNull))
  | A_load direct n => async (mount (spdk_fs_load direct (CbUser n) VNull))
  | A_unload n => async (spdk_fs_unload (CbUser n) VNull)
  | A_stat name n => async (spdk_fs_file_stat_async name (CbUser n) VNull)
  | A_create name n => async (spdk_fs_create_file_async name (CbUser n) VNull)
  | A_open name flags n => async (spdk_fs_open_file_async name flags (CbUser n) VNull)
  | A_delete name n => async (spdk_fs_delete_file_async name (CbUser n) VNull)
  | A_rename o nw n => async (spdk_fs_rename_file_async o nw (CbUser n) VNull)
  | A_truncate f len n => async (spdk_file_truncate_async f len (CbUser n) VNull)
  | A_write f c p off len n => async (spdk_file_write_async f c p off len (CbUser n) VNull)
  | A_writev f c v off len n => async (spdk_file_writev_async f c v off len (CbUser n) VNull)
  | A_read f c p off len n => async (spdk_file_read_async f c p off len (CbUser n) VNull)
  | A_readv f c v off len n => async (spdk_file_readv_async f c v off len (CbUser n) VNull)
  | A_sync f c n => async (spdk_file_sync_async f c (CbUser n) VNull)
  | A_close f n => async (spdk_file_close_async f (CbUser n) VNull)
  | A_alloc_io_channel => async (_ ← spdk_fs_alloc_io_channel; mret tt)
  | A_free_io_channel c => async (spdk_fs_free_io_channel (Some c))
  | A_alloc_thread_ctx => async (_ ← spdk_fs_alloc_thread_ctx; mret tt)
  | A_free_thread_ctx c => async (_ ← spdk_fs_free_thread_ctx c; mret tt)
  | A_set_cache_size n => async (_ ← spdk_fs_set_cache_size n; mret tt)
  | A_set_priority f p => async (spdk_file_set_priority f p)
  | S_stat c name s => sync (spdk_fs_file_stat c name s)
  | S_create c name => sync (spdk_fs_create_file c name)
  | S_open c name flags => sync (spdk_fs_open_file c name flags)
  | S_rename c o n => sync (spdk_fs_rename_file c o n)
  | S_delete c name => sync (spdk_fs_delete_file c name)
  | S_truncate f c len => sync (spdk_file_truncate f c len)
  | S_write f c p off len => sync (spdk_file_write f c p off len)
  | S_read f c p off len => sync (spdk_file_read f c p off len)
  | S_sync f c => sync (spdk_file_sync f c)
  | S_close f c => sync (spdk_file_close f c)
  end.

(** ** Events *)
Inductive event : Type :=
| E_call (a : api)
| E_resume (i : nat)
| E_complete (i : nat) (rc : Z) (id : blob_id) (data : Z → Z)
| E_iterate (i : nat) (b : option blob_id) (rc : Z)
| E_msg
| E_cache_msg
| E_poll.

(** The world with the synchronous calls that wait and those that returned. *)
Record system : Type := mk_system {
  sys_world : world;
  sys_waiting : list (chan_id * blocked);
  sys_returned : list (Z * option file_id)
}.

Definition note_progress (p : option progress) (s : system) : system :=
  match p with
  | None => s
  | Some (Returned rc f) => mk_system (sys_world s) (sys_waiting s) (sys_returned s ++ [(rc, f)])
  | Some (Blocked c b) => mk_system (sys_world s) (sys_waiting s ++ [(c, b)]) (sys_returned s)
  end.

Definition take_call (i : nat) : M world pending :=
  l ← gets w_calls;
  p ← of_option NoEvent (l !! i);
  _ ← modify (set_w_calls (delete i l));
  mret p.

Definition complete (i : nat) (rc : Z) (id : blob_id) (data : Z → Z) : M world unit :=
  p ← take_call i;
  _ ← (if decide (rc = 0) then bs_effect (p_call p) id data else mret tt);
  invoke (p_cb p) (p_arg p) (bs_outcome (p_call p) id rc).

Definition iterate (i : nat) (b : option blob_id) (rc : Z) : M world unit :=
  l ← gets w_calls;
  p ← of_option NoEvent (l !! i);
  match p_call p with
  | BsLoad arg => iter_cb arg b rc
  | _ => fail NoEvent
  end.

Definition deliver_msg : M world unit :=
  l ← gets w_msgs;
  match l with
  | [] => fail NoEvent
  | (fn, arg) :: l' => _ ← modify (set_w_msgs l'); invoke fn arg (Op 0)
  end.
Definition deliver_cache_msg : M world unit :=
  l ← gets w_cache_msgs;
  match l with
  | [] => fail NoEvent
  | (fn, arg) :: l' => _ ← modify (set_w_cache_msgs l'); invoke fn arg (Op 0)
  end.

Definition poll : M world unit :=
  g ← gets w_globals;
  _ ← guard_or NoEvent (g_cache_pool_mgmt_poller g);
  _blobfs_cache_pool_reclaim.

(** One event, on the world alone; a wait is taken from [waiting]. *)
Definition run_event (waiting : list (chan_id * blocked)) (e : event) : M world (option progress) :=
  let async (m : M world unit) := (_ ← m; mret None) in
  match e with
  | E_call a => run_api a
  | E_resume i =>
      '(c, b) ← of_option NoEvent (waiting !! i);
      p ← resume c b; mret (Some p)
  | E_complete i rc id data => async (complete i rc id data)
  | E_iterate i b rc => async (iterate i b rc)
  | E_msg => async deliver_msg
  | E_cache_msg => async deliver_cache_msg
  | E_poll => async poll
  end.

Definition still_waiting (waiting : list (chan_id * blocked)) (e : event) : list (chan_id * blocked) :=
  match e with E_resume i => delete i waiting | _ => waiting end.

(** A step of the system; an event that does not apply, and one that runs into
    undefined behaviour, is no step. *)
Definition step_event (e : event) (s : system) : res system :=
  match run_event (sys_waiting s) e (sys_world s) with
  | Ok (p, w) => Ok (note_progress p (mk_system w (still_waiting (sys_waiting s) e) (sys_returned s)))
  | Fault x => Fault x
  end.

Fixpoint run_events (es : list event) (s : system) : res system :=
  match es with
  | [] => Ok s
  | e :: es' => match step_event e s with Ok s' => run_events es' s' | Fault x => Fault x end
  end.

(** The process before any call: nothing allocated. *)
Definition initial_world (bs : blobstore) (mem : gmap nat (Z → Z)) (next : nat) (malloc : list bool) (junk : Z) : world :=
  mk_world None empty_heap ∅ ∅ ∅ (mk_pool ∅ 0 0) (mk_globals BLOBFS_DEFAULT_CACHE_SIZE false false false 0 [])
    bs mem ∅ ∅ [] [] [] [] next malloc junk 0.

Inductive reachable : system → Prop :=
| reachable_initial bs mem next malloc junk :
    reachable (mk_system (initial_world bs mem next malloc junk) [] [])
| reachable_step s e s' : reachable s → step_event e s = Ok s' → reachable s'.
