(* ===== verification/FsInv.v ===== *)
(** * Invariants of the file system, as an interface

    [Inv E I] collects what a family of assertions [I] has to satisfy to be an
    invariant of every operation: [I None] holds between operations and
    [I (Some f)] while the spinlock of file [f] is held; [E] is the set of faults
    an operation may stop with.  FsInvOps derives from it that every function of
    NBFS.c preserves [I None]; an invariant is then an instance. *)
From S2P Require Import Prelude Triple BPlusTree CacheTree FsState FsPrim FsFile FsMeta FsData FsSync FsLoop.
Local Open Scope Z_scope.

(** Every request that belongs to a channel belonged to it before. *)
Definition same_reqs (m m' : gmap nat request) : Prop :=
  ∀ r x', m' !! r = Some x' → r_channel x' = None ∨ ∃ x, m !! r = Some x ∧ r_channel x = r_channel x'.
Lemma same_reqs_refl m : same_reqs m m.
Proof. intros r x H. right. by exists x. Qed.
Lemma same_reqs_trans m1 m2 m3 : same_reqs m1 m2 → same_reqs m2 m3 → same_reqs m1 m3.
Proof.
  intros H1 H2 r x3 H3. destruct (H2 r x3 H3) as [?|(x2 & Hx2 & <-)]; [by left|]. by apply H1.
Qed.
Lemma same_reqs_store m r x' :
  (r_channel x' = None ∨ ∃ x, m !! r = Some x ∧ r_channel x = r_channel x') → same_reqs m (<[r := x']> m).
Proof. intros H d y [[<- <-]|[_ Hy]]%lookup_insert_Some; [done|]. right. by exists y. Qed.
Lemma same_reqs_delete m r : same_reqs m (delete r m).
Proof. intros d y [_ Hy]%lookup_delete_Some. right. by exists y. Qed.
Lemma same_reqs_zero m l : same_reqs m (foldr (λ r m, <[r := zero_request]> m) m l).
Proof.
  induction l as [|r l IH]; [apply same_reqs_refl|]. eapply same_reqs_trans; [exact IH|].
  apply same_reqs_store. by left.
Qed.
Lemma same_reqs_deletes m l : same_reqs m (foldr delete m l).
Proof.
  induction l as [|r l IH]; [apply same_reqs_refl|]. eapply same_reqs_trans; [exact IH|apply same_reqs_delete].
Qed.

(** Two worlds with the same filesystem, tree, files and channels, the second
    no earlier; no request has moved to a channel. *)
Record same_core (w w' : world) : Prop := {
  sc_fs : w_fs w' = w_fs w;
  sc_heap : w_heap w' = w_heap w;
  sc_files : w_files w' = w_files w;
  sc_chans : w_chans w' = w_chans w;
  sc_next : (w_next w <= w_next w')%nat;
  sc_reqs : same_reqs (w_reqs w) (w_reqs w')
}.
Lemma same_core_refl w : same_core w w.
Proof. split; try done. apply same_reqs_refl. Qed.

(** The same calls and messages are in flight. *)
Definition same_queues (w w' : world) : Prop :=
  w_calls w' = w_calls w ∧ w_msgs w' = w_msgs w ∧ w_cache_msgs w' = w_cache_msgs w.

(** ** Types of callbacks

    [takes fn o]: the function [fn] has the parameters that a caller with [o]
    passes it; a client's callback is of the type that its request asks for. *)
Definition takes (fn : callback) (o : outcome) : bool :=
  match fn, o with
  | CbUser _, _ => true
  | Cb__copy_stat, WithStat _ _ | Cb__fs_open_file_done, WithFile _ _ => true
  | (Cb_init_cb | Cb_load_cb), WithBs _ => true
  | Cb_fs_create_blob_create_cb, WithId _ _ => true
  | (Cb_fs_create_blob_open_cb | Cb_fs_open_blob_done | Cb_fs_rename_blob_open_cb), WithBlob _ _ => true
  | (Cb__copy_stat | Cb__fs_open_file_done | Cb_init_cb | Cb_load_cb | Cb_fs_create_blob_create_cb |
     Cb_fs_create_blob_open_cb | Cb_fs_open_blob_done | Cb_fs_rename_blob_open_cb), _ => false
  | _, Op _ => true
  | _, _ => false
  end.

(** What a function takes its [void *] for. *)
Definition arg_of (fn : callback) (arg : void_ptr) : Prop :=
  match fn with
  | CbUser _ | Cb__start_cache_pool_mgmt | Cb__stop_cache_pool_mgmt => True
  | Cb_add_file_to_cache_pool | Cb_remove_file_from_cache_pool | Cb_file_free => ∃ f, arg = VFile f
  | Cb_put_io_channel => ∃ c, arg = VChan c
  | _ => ∃ r, arg = VReq r
  end.
Definition call_typed (p : pending) : Prop :=
  (∀ id rc, takes (p_cb p) (bs_outcome (p_call p) id rc) = true) ∧ ∃ r, p_arg p = VReq r.
Definition msg_typed (m : callback * void_ptr) : Prop := takes m.1 (Op 0) = true ∧ arg_of m.1 m.2.

(** What an invariant may see of a file, and of a channel. *)
Definition same_file (x y : file) : Prop := f_lock y = f_lock x ∧ f_name y = f_name x.
Definition same_channel (x y : channel) : Prop :=
  c_reqs y = c_reqs x ∧ c_mem y = c_mem x ∧ c_outstanding y = c_outstanding x ∧ c_lock y = c_lock x.

Definition set_files (g : gmap nat file → gmap nat file) (w : world) : world := set_w_files (g (w_files w)) w.
Definition set_chans (g : gmap nat channel → gmap nat channel) (w : world) : world := set_w_chans (g (w_chans w)) w.

(** The closure conditions on the state. *)
Class Stable (E : fault → Prop) (I : option file_id → world → Prop) : Prop := {
  st_core o w w' : same_core w w' → same_queues w w' → I o w → I o w';
  st_file o w f x y : w_files w !! f = Some x → same_file x y → I o w → I o (set_files <[f := y]> w);
  st_free_file o w f : I o w → I o (set_files (delete f) w);
  st_chan o w c x y : w_chans w !! c = Some x → same_channel x y → I o w → I o (set_chans <[c := y]> w);
  st_free_chan o w c : I o w → I o (set_chans (delete c) w);
  st_new_chan o w w' ids b : same_core w w' → same_queues w w' → (w_next w < w_next w')%nat → I o w →
    I o (set_chans <[w_next w := mk_channel ids ids 0 None false b 0 false]> w');
  st_fs o w fs fs' : w_fs w = Some fs → fs_files fs' = fs_files fs → I o w → I o (set_w_fs (Some fs') w);
  st_no_fs o w : I o w → I o (set_w_fs None w);
  st_lock f : triple E (I None) (file_lock f) (λ _, I (Some f));
  st_trylock f : triple E (I None) (file_trylock f) (λ b, I (if b then Some f else None));
  st_unlock f : triple E (I (Some f)) (file_unlock f) (λ _, I None);
  st_unlock_free f : triple E (I None) (file_unlock f) (λ _, I None);
  st_alloc_req o c n : triple E (I o) (alloc_fs_request_with_iov c n) (λ _, I o);
  st_free_req o r : triple E (I o) (free_fs_request r) (λ _, I o);
  st_free_ctx c : triple E (I None) (spdk_fs_free_thread_ctx c) (λ _, I None)
}.

(** The closure conditions on what is in flight: only well-typed calls and messages
    are added. *)
Class Queues (I : option file_id → world → Prop) : Prop := {
  qu_calls o w l : (∀ p, p ∈ l → p ∈ w_calls w ∨ call_typed p) → I o w → I o (set_w_calls l w);
  qu_msgs o w l : (∀ m, m ∈ l → m ∈ w_msgs w ∨ msg_typed m) → I o w → I o (set_w_msgs l w);
  qu_cache_msgs o w l : (∀ m, m ∈ l → m ∈ w_cache_msgs w ∨ msg_typed m) → I o w → I o (set_w_cache_msgs l w)
}.

(** An invariant that says nothing about them. *)
Lemma core_queues (I : option file_id → world → Prop) :
  (∀ o w w', same_core w w' → I o w → I o w') → Queues I.
Proof. intros H. split; intros o w l _; apply H; split; try done; apply same_reqs_refl. Qed.

(** The operations that change the tree of files or a file's name. *)
Class StableNames (E : fault → Prop) (I : option file_id → world → Prop) : Prop := {
  sn_find o name : triple E (I o) (fs_find_file name) (λ _, I o);
  sn_traverse o root : triple E (I o) (on_heap (traverse_leaves root)) (λ _, I o);
  sn_alloc direct : triple E (λ w, w_fs w = None ∧ I None w) (fs_alloc direct) (λ _, I None);
  sn_iter_cb : ∀ `{Invoke}, (∀ fn arg o, triple E (I None) (invoke fn arg o) (λ _, I None)) →
    ∀ ctx b rc, triple E (I None) (iter_cb ctx b rc) (λ _, I None);
  sn_create : ∀ `{Invoke}, (∀ fn arg o, triple E (I None) (invoke fn arg o) (λ _, I None)) →
    ∀ name fn arg, triple E (I None) (spdk_fs_create_file_async name fn arg) (λ _, I None);
  sn_delete : ∀ `{Invoke}, (∀ fn arg o, triple E (I None) (invoke fn arg o) (λ _, I None)) →
    ∀ name fn arg, triple E (I None) (spdk_fs_delete_file_async name fn arg) (λ _, I None);
  sn_rename : ∀ `{Invoke}, (∀ fn arg o, triple E (I None) (invoke fn arg o) (λ _, I None)) →
    ∀ req, triple E (I None) (_fs_md_rename_file req) (λ _, I None)
}.

#[export] Hint Extern 1 (call_typed _) => split; [intros; reflexivity | eexists; reflexivity] : vcg.
#[export] Hint Extern 1 (msg_typed _) => split; [reflexivity | first [exact Logic.I | eexists; reflexivity]] : vcg.
