(* ===== verification/FsInvOps.v ===== *)
(** * Every operation preserves an invariant

    For any [I] that satisfies the interface of FsInv, each function of NBFS.c
    started in [I None] ends in [I None]; between taking and releasing the lock
    of a file it goes through [I (Some f)].  The lemmas follow the files FsPrim to
    FsLoop. *)
From S2P Require Import Prelude Triple BPlusTree CacheTree Quiet FsState FsPrim FsFile FsMeta FsData FsSync FsLoop FsInv.
Local Open Scope Z_scope.

Section ops.
Context {E : fault → Prop} {I : option file_id → world → Prop}.
Context `{!Faults E, !Stable E I, !Queues I}.

#[local] Hint Resolve st_lock st_trylock st_unlock st_unlock_free st_alloc_req st_free_req : vcg.

Abbreviation pres m := (∀ o, triple E (I o) m (λ _, I o)) (only parsing).

(** ** Updates that leave the core alone *)
Lemma pres_core (f : world → world) :
  (∀ w, same_core w (f w)) → (∀ w, same_queues w (f w)) → pres (modify f).
Proof. intros Hf Hq o. apply triple_modify_same. intros w. by apply st_core. Qed.
Hint Extern 2 (triple _ (I _) (modify _) _) =>
  apply pres_core; intros []; repeat split; simpl; first [done | lia | apply same_reqs_refl] : vcg.

Lemma fresh_pres : pres fresh.
Proof. intros o w Hw. cbn. revert Hw. apply st_core; destruct w; repeat split; simpl; first [done | lia | apply same_reqs_refl]. Qed.
Lemma malloc_ok_pres : pres malloc_ok.
Proof. intros o. unfold malloc_ok. vcg. Qed.
Lemma load_fs_pres : pres load_fs.
Proof. intros o. unfold load_fs. vcg. Qed.
Lemma load_file_pres f : pres (load_file f).
Proof. intros o. unfold load_file. vcg. Qed.
Lemma load_req_pres r : pres (load_req r).
Proof. intros o. unfold load_req. vcg. Qed.
Lemma load_chan_pres c : pres (load_chan c).
Proof. intros o. unfold load_chan. vcg. Qed.
Lemma load_blob_pres b : pres (load_blob b).
Proof. intros o. unfold load_blob. vcg. Qed.
(** A request that is written is on no channel, or on the one it was on. *)
Lemma store_req_pres r x : r_channel x = None → pres (store_req r x).
Proof.
  intros Hx o. apply triple_modify_same. intros w. apply st_core; [|by destruct w].
  destruct w; split; simpl; try done. apply same_reqs_store. by left.
Qed.
Hint Extern 2 (triple _ (I _) (store_req _ _) _) => apply store_req_pres; reflexivity : vcg.
#[local] Hint Resolve fresh_pres malloc_ok_pres load_fs_pres load_file_pres load_req_pres load_chan_pres
  load_blob_pres : vcg.
Lemma upd_req_pres r g : (∀ x, r_channel (g x) = r_channel x) → pres (upd_req r g).
Proof.
  intros Hg o w Hw. unfold upd_req, load_req, gets, of_option, mbind, M_bind. simpl.
  destruct (w_reqs w !! r) as [x|] eqn:Hr; [|by apply faults_but_deadlock].
  revert Hw. apply st_core; [|by destruct w]. destruct w; split; simpl in *; try done.
  apply same_reqs_store. right. by exists x.
Qed.
Hint Extern 2 (triple _ (I _) (upd_req _ _) _) => apply upd_req_pres; intros []; reflexivity : vcg.
Lemma free_req_pres r : pres (free_req r).
Proof.
  intros o. unfold free_req. vcg. apply triple_modify_same. intros w. apply st_core; [|by destruct w].
  destruct w; split; simpl; try done. apply same_reqs_delete.
Qed.
Lemma deref_pres {A} (x : option A) : pres (deref x).
Proof. intros o. unfold deref. vcg. Qed.
Lemma as_req_pres p : pres (as_req p).
Proof. intros o. unfold as_req. vcg. Qed.
(** A request function's argument is a request. *)
Lemma as_req_is {A} p (k : req_id → M world A) o Q :
  (∀ r, p = VReq r → triple E (I o) (k r) Q) → triple E (I o) (as_req p ≫= k) Q.
Proof.
  intros Hk. eapply triple_bind with (R := λ r w, p = VReq r ∧ I o w).
  - intros w Hw. destruct p; cbn; first [by split | apply (faults_but_deadlock (E := E)); discriminate].
  - intros r. apply (triple_pure E (p = VReq r) (I o)). apply Hk.
Qed.
Lemma as_file_pres p : pres (as_file p).
Proof. intros o. unfold as_file. vcg. Qed.
Lemma as_chan_pres p : pres (as_chan p).
Proof. intros o. unfold as_chan. vcg. Qed.
Lemma upd_globals_pres g : pres (upd_globals g).
Proof. intros o. unfold upd_globals. vcg. Qed.
Lemma bs_async_pres c cb a : call_typed (mk_pending c cb a) → pres (bs_async c cb a).
Proof.
  intros Ht o. unfold bs_async. apply triple_modify_same. intros w. apply qu_calls.
  intros p [Hp| ->%list_elem_of_singleton]%elem_of_app; auto.
Qed.
Lemma queue_msg_pres fn arg : msg_typed (fn, arg) → pres (modify (λ w, set_w_msgs (w_msgs w ++ [(fn, arg)]) w)).
Proof.
  intros Ht o. apply triple_modify_same. intros w. apply qu_msgs.
  intros m [Hm| ->%list_elem_of_singleton]%elem_of_app; auto.
Qed.
Lemma set_xattr_pres b n v : pres (spdk_blob_set_xattr b n v).
Proof. intros o. unfold spdk_blob_set_xattr. vcg. Qed.
Lemma get_xattr_pres b n : pres (spdk_blob_get_xattr_value b n).
Proof. intros o. unfold spdk_blob_get_xattr_value. vcg. Qed.
Lemma num_clusters_pres b : pres (spdk_blob_get_num_clusters b).
Proof. intros o. unfold spdk_blob_get_num_clusters. vcg. Qed.
Lemma io_unit_pres : pres spdk_bs_get_io_unit_size.
Proof. intros o. unfold spdk_bs_get_io_unit_size. vcg. Qed.
Lemma cluster_size_pres : pres spdk_bs_get_cluster_size.
Proof. intros o. unfold spdk_bs_get_cluster_size. vcg. Qed.
Lemma bs_channel_pres : pres spdk_bs_alloc_io_channel.
Proof. intros o. unfold spdk_bs_alloc_io_channel. vcg. Qed.
Lemma send_cache_msg_pres cb a : msg_typed (cb, a) → pres (send_cache_msg cb a).
Proof.
  intros Ht o. unfold send_cache_msg. apply triple_modify_same. intros w. apply qu_cache_msgs.
  intros m [Hm| ->%list_elem_of_singleton]%elem_of_app; auto.
Qed.
#[local] Hint Resolve free_req_pres deref_pres as_req_pres as_file_pres as_chan_pres upd_globals_pres
  bs_async_pres set_xattr_pres get_xattr_pres num_clusters_pres io_unit_pres cluster_size_pres bs_channel_pres
  send_cache_msg_pres : vcg.

(** ** Files, channels, the filesystem *)
Lemma upd_file_pres f g : (∀ x, same_file x (g x)) → pres (upd_file f g).
Proof.
  intros Hg o w Hw. unfold upd_file, load_file, gets, of_option, mbind, M_bind. simpl.
  destruct (w_files w !! f) as [x|] eqn:Hf; [|by apply faults_but_deadlock].
  by eapply st_file.
Qed.
Lemma free_file_pres f : pres (free_file f).
Proof.
  intros o. unfold free_file. vcg. apply triple_modify_same. intros w. apply st_free_file.
Qed.
Lemma upd_chan_pres c g : (∀ x, same_channel x (g x)) → pres (upd_chan c g).
Proof.
  intros Hg o w Hw. unfold upd_chan, load_chan, gets, of_option, mbind, M_bind. simpl.
  destruct (w_chans w !! c) as [x|] eqn:Hc; [|by apply faults_but_deadlock].
  by eapply st_chan.
Qed.
Lemma upd_fs_pres g : (∀ fs, fs_files (g fs) = fs_files fs) → pres (upd_fs g).
Proof.
  intros Hg o w Hw. unfold upd_fs, load_fs, gets, of_option, mbind, M_bind. simpl.
  destruct (w_fs w) as [fs|] eqn:Hfs; [|by apply faults_but_deadlock].
  by eapply st_fs.
Qed.
Hint Extern 2 (triple _ (I _) (upd_file _ _) _) => apply upd_file_pres; intros []; split; reflexivity : vcg.
Hint Extern 2 (triple _ (I _) (upd_chan _ _) _) => apply upd_chan_pres; intros []; repeat split; reflexivity : vcg.
Hint Extern 2 (triple _ (I _) (upd_fs _) _) => apply upd_fs_pres; intros []; reflexivity : vcg.
#[local] Hint Resolve free_file_pres : vcg.

Lemma no_fs_pres : pres (modify (set_w_fs None)).
Proof. intros o. apply triple_modify_same. intros w. apply st_no_fs. Qed.
#[local] Hint Resolve no_fs_pres : vcg.

Lemma alloc_fs_request_pres c : pres (alloc_fs_request c).
Proof. intros o. unfold alloc_fs_request. vcg. Qed.
Lemma sem_post_pres c : pres (sem_post c).
Proof. intros o. unfold sem_post. vcg. Qed.
Lemma sem_wait_pres c : pres (sem_wait c).
Proof. intros o. unfold sem_wait. vcg. Qed.
Lemma fs_channel_create_pres n : pres (fs_channel_create n).
Proof.
  intros o. unfold fs_channel_create. vcg_step; [vcg|]. do 2 vcg_step; [|vcg]. intros w Hw. cbn.
  apply (st_new_chan o w); [..|done].
  - destruct w; split; simpl; try done; [lia|apply same_reqs_zero].
  - by destruct w.
  - destruct w; simpl; lia.
Qed.
#[local] Hint Resolve alloc_fs_request_pres sem_post_pres sem_wait_pres fs_channel_create_pres : vcg.
End ops.

#[export] Hint Extern 0 (Faults _) => apply _ : vcg.
#[export] Hint Extern 0 (Stable _ _) => apply _ : vcg.
#[export] Hint Extern 0 (Queues _) => apply _ : vcg.
#[export] Hint Extern 0 (StableNames _ _) => apply _ : vcg.

(** The entries of the database a section over an invariant starts from. *)
#[export] Hint Resolve st_lock st_trylock st_unlock st_unlock_free st_alloc_req st_free_req : vcg.
#[export] Hint Extern 2 (triple _ (_ _) (modify _) _) =>
  apply pres_core; intros []; repeat split; simpl; first [done | lia | apply same_reqs_refl] : vcg.
#[export] Hint Resolve fresh_pres malloc_ok_pres load_fs_pres load_file_pres load_req_pres load_chan_pres
  load_blob_pres free_req_pres deref_pres as_req_pres as_file_pres as_chan_pres
  upd_globals_pres bs_async_pres queue_msg_pres set_xattr_pres get_xattr_pres num_clusters_pres io_unit_pres cluster_size_pres
  bs_channel_pres send_cache_msg_pres free_file_pres no_fs_pres alloc_fs_request_pres sem_post_pres
  sem_wait_pres fs_channel_create_pres : vcg.
#[export] Hint Extern 2 (triple _ (_ _) (store_req _ _) _) => apply store_req_pres; reflexivity : vcg.
#[export] Hint Extern 2 (triple _ (_ _) (upd_req _ _) _) => apply upd_req_pres; intros []; reflexivity : vcg.
#[export] Hint Extern 2 (triple _ (_ _) (upd_file _ _) _) => apply upd_file_pres; intros []; split; reflexivity : vcg.
#[export] Hint Extern 2 (triple _ (_ _) (upd_chan _ _) _) =>
  apply upd_chan_pres; intros []; repeat split; reflexivity : vcg.
#[export] Hint Extern 2 (triple _ (_ _) (upd_fs _) _) => apply upd_fs_pres; intros []; reflexivity : vcg.


Section ops2.
Context {E : fault → Prop} {I : option file_id → world → Prop}.
Context `{!Faults E, !Stable E I, !Queues I, !StableNames E I}.
Abbreviation pres m := (∀ o, triple E (I o) m (λ _, I o)) (only parsing).

Lemma on_pool_pres {A} (m : M pool A) o : quiet m → triple E (I o) (on_pool m) (λ _, I o).
Proof.
  intros Hm w Hw. unfold on_pool. specialize (Hm (w_pool w) Logic.I).
  destruct (m (w_pool w)) as [[a p]|e]; [|by apply faults_but_deadlock].
  revert Hw. apply st_core; destruct w; [|done]. split; simpl; try done. apply same_reqs_refl.
Qed.
Hint Extern 2 (triple _ (I _) (on_pool _) _) => apply on_pool_pres; eauto with vcg : vcg.
#[local] Hint Resolve sn_find sn_traverse : vcg.

(** ** FsFile *)
Lemma get_buf_pres b : pres (get_buf b).
Proof. intros o. unfold get_buf. vcg. Qed.
#[local] Hint Resolve get_buf_pres : vcg.
Lemma upd_buf_pres b g : pres (upd_buf b g).
Proof. intros o. unfold upd_buf. vcg. Qed.
Lemma caches_remove_pres f : pres (caches_remove f).
Proof. intros o. unfold caches_remove. vcg. Qed.
Lemma caches_insert_pres f : pres (caches_insert_tail f).
Proof. intros o. unfold caches_insert_tail. vcg. Qed.
#[local] Hint Resolve upd_buf_pres caches_remove_pres caches_insert_pres : vcg.
Lemma add_to_pool_pres p : pres (_add_file_to_cache_pool p).
Proof. intros o. unfold _add_file_to_cache_pool. vcg. Qed.
Lemma remove_from_pool_pres p : pres (_remove_file_from_cache_pool p).
Proof. intros o. unfold _remove_file_from_cache_pool. vcg. Qed.
Lemma file_free_cb_pres p : pres (_file_free p).
Proof. intros o. unfold _file_free. vcg. Qed.
Lemma file_free_pres f : triple E (I None) (file_free f) (λ _, I None).
Proof. unfold file_free. vcg. Qed.
#[local] Hint Resolve add_to_pool_pres remove_from_pool_pres file_free_cb_pres file_free_pres : vcg.
Lemma build_trace_pres f : pres (_file_build_trace_arg_name f).
Proof. intros o. unfold _file_build_trace_arg_name. vcg. Qed.
Lemma reclaim_pres f : triple E (I None) (reclaim_cache_buffers f) (λ _, I None).
Proof. unfold reclaim_cache_buffers. vcg. Qed.
Lemma need_reclaim_pres : pres blobfs_cache_pool_need_reclaim.
Proof. intros o. unfold blobfs_cache_pool_need_reclaim. vcg. Qed.
#[local] Hint Resolve build_trace_pres reclaim_pres need_reclaim_pres : vcg.
Lemma reclaim_first_pres sel l : triple E (I None) (reclaim_first sel l) (λ _, I None).
Proof. induction l as [|f l IH]; simpl; vcg. Qed.
#[local] Hint Resolve reclaim_first_pres : vcg.
Lemma poller_pres : triple E (I None) _blobfs_cache_pool_reclaim (λ _, I None).
Proof. unfold _blobfs_cache_pool_reclaim. vcg. Qed.
Lemma start_pool_pres : pres __start_cache_pool_mgmt.
Proof. intros o. unfold __start_cache_pool_mgmt. vcg. Qed.
Lemma stop_pool_pres : pres __stop_cache_pool_mgmt.
Proof. intros o. unfold __stop_cache_pool_mgmt. vcg. Qed.
Lemma init_cache_pres : pres initialize_global_cache.
Proof. intros o. unfold initialize_global_cache. vcg. Qed.
Lemma free_cache_pres : pres free_global_cache.
Proof. intros o. unfold free_global_cache. vcg. Qed.
Lemma set_cache_size_pres n : pres (spdk_fs_set_cache_size n).
Proof. intros o. unfold spdk_fs_set_cache_size. vcg. Qed.
Lemma blob_size_pres f : pres (__file_get_blob_size f).
Proof. intros o. unfold __file_get_blob_size. vcg. Qed.
Lemma set_priority_pres f p : pres (spdk_file_set_priority f p).
Proof. intros o. unfold spdk_file_set_priority. vcg. Qed.
#[local] Hint Resolve poller_pres start_pool_pres stop_pool_pres init_cache_pres free_cache_pres
  set_cache_size_pres blob_size_pres set_priority_pres : vcg.
Lemma free_io_channel_pres c : pres (spdk_fs_free_io_channel c).
Proof. intros o. unfold spdk_fs_free_io_channel. vcg. Qed.
Lemma channel_destroy_pres c : pres (fs_channel_destroy c).
Proof.
  intros o. unfold fs_channel_destroy. vcg. apply triple_modify_same. intros w Hw.
  eapply st_core; [| |by apply (st_free_chan o w c)]; [|by destruct w].
  destruct w; split; simpl; try done. apply same_reqs_deletes.
Qed.
Lemma md_channel_pres : pres fs_md_channel_create.
Proof. intros o. unfold fs_md_channel_create. vcg. Qed.
Lemma sync_channel_pres : pres fs_sync_channel_create.
Proof. intros o. unfold fs_sync_channel_create. vcg. Qed.
End ops2.

#[export] Hint Extern 2 (triple _ (_ _) (on_pool _) _) => apply on_pool_pres; eauto with vcg : vcg.
#[export] Hint Resolve sn_find sn_traverse get_buf_pres upd_buf_pres caches_remove_pres caches_insert_pres
  add_to_pool_pres remove_from_pool_pres file_free_cb_pres file_free_pres build_trace_pres reclaim_pres
  need_reclaim_pres reclaim_first_pres poller_pres start_pool_pres stop_pool_pres init_cache_pres
  free_cache_pres set_cache_size_pres blob_size_pres set_priority_pres free_io_channel_pres
  channel_destroy_pres md_channel_pres sync_channel_pres : vcg.

(** ** FsMeta *)
Section meta.
Context {E : fault → Prop} {I : option file_id → world → Prop}.
Context `{!Faults E, !Stable E I, !Queues I, !StableNames E I}.
Context `{HI : Invoke} (Hinvoke : ∀ fn arg o, triple E (I None) (invoke fn arg o) (λ _, I None)).
Abbreviation pres m := (triple E (I None) m (λ _, I None)) (only parsing).
#[local] Hint Resolve Hinvoke : vcg.
Hint Extern 2 (triple _ (I _) (spdk_fs_create_file_async _ _ _) _) => apply sn_create; assumption : vcg.
Hint Extern 2 (triple _ (I _) (spdk_fs_delete_file_async _ _ _) _) => apply sn_delete; assumption : vcg.
Hint Extern 2 (triple _ (I _) (_fs_md_rename_file _) _) => apply sn_rename; assumption : vcg.

Lemma call_fn_pres args o : pres (call_fn args o).
Proof. unfold call_fn. vcg. Qed.
Lemma send_msg_pres d fn arg : msg_typed (fn, arg) → pres (send_msg d fn arg).
Proof. intros Ht. unfold send_msg. vcg. Qed.
#[local] Hint Resolve call_fn_pres send_msg_pres : vcg.
Lemma fs_send_pres fn arg : msg_typed (fn, arg) → pres (fs_send_request fn arg).
Proof. intros Ht. unfold fs_send_request. vcg. Qed.
Lemma chan_send_pres c fn arg : msg_typed (fn, arg) → pres (chan_send_request c fn arg).
Proof. intros Ht. unfold chan_send_request. vcg. Qed.
#[local] Hint Resolve fs_send_pres chan_send_pres : vcg.

Lemma unregister_pres : pres fs_io_device_unregister.
Proof. unfold fs_io_device_unregister. vcg. Qed.
Lemma free_channels_pres : pres fs_free_io_channels.
Proof. unfold fs_free_io_channels. vcg. Qed.
Lemma common_init_pres : pres common_fs_bs_init.
Proof. unfold common_fs_bs_init. vcg. Qed.
#[local] Hint Resolve unregister_pres free_channels_pres common_init_pres : vcg.
Lemma init_cb_pres ctx rc : pres (init_cb ctx rc).
Proof. unfold init_cb. vcg. Qed.
Lemma fs_init_pres opt d fn arg :
  triple E (λ w, w_fs w = None ∧ I None w) (spdk_fs_init opt d fn arg) (λ _, I None).
Proof. unfold spdk_fs_init. vcg_step; [apply sn_alloc|]. vcg. Qed.
Lemma deleted_files_pres o : pres (deleted_files o).
Proof. unfold deleted_files. vcg. Qed.
#[local] Hint Resolve deleted_files_pres : vcg.
Lemma handle_deleted_pres r : pres (_handle_deleted_files r).
Proof. unfold _handle_deleted_files. vcg. Qed.
#[local] Hint Resolve handle_deleted_pres : vcg.
Lemma load_done_pres ctx rc : pres (fs_load_done ctx rc).
Proof. unfold fs_load_done. vcg. Qed.
#[local] Hint Resolve load_done_pres : vcg.
Lemma load_cb_pres ctx rc : pres (load_cb ctx rc).
Proof. unfold load_cb. vcg. Qed.
Lemma fs_load_pres d fn arg :
  triple E (λ w, w_fs w = None ∧ I None w) (spdk_fs_load d fn arg) (λ _, I None).
Proof. unfold spdk_fs_load. vcg_step; [apply sn_alloc|]. vcg. Qed.
Lemma free_files_pres l : pres (free_files l).
Proof. induction l as [|f l IH]; simpl; vcg. Qed.
#[local] Hint Resolve free_files_pres : vcg.
Lemma unload_cb_pres ctx rc : pres (unload_cb ctx rc).
Proof. unfold unload_cb. vcg. Qed.
Lemma unload_pres fn arg : pres (spdk_fs_unload fn arg).
Proof. unfold spdk_fs_unload. vcg. Qed.

Lemma stat_pres name fn arg : pres (spdk_fs_file_stat_async name fn arg).
Proof. unfold spdk_fs_file_stat_async. vcg. Qed.
Lemma copy_stat_pres arg s rc : pres (__copy_stat arg s rc).
Proof. unfold __copy_stat. vcg. Qed.
Lemma op_name_pres o : pres (op_name o).
Proof. unfold op_name. vcg. Qed.
#[local] Hint Resolve stat_pres op_name_pres : vcg.
Lemma file_stat_pres arg : pres (__file_stat arg).
Proof. unfold __file_stat. vcg. Qed.
Lemma wake_caller_pres arg rc : pres (__wake_caller arg rc).
Proof. unfold __wake_caller. vcg. Qed.
#[local] Hint Resolve wake_caller_pres : vcg.

Lemma create_close_pres ctx rc : pres (fs_create_blob_close_cb ctx rc).
Proof. unfold fs_create_blob_close_cb. vcg. Qed.
Lemma op_blob_pres o : pres (op_blob o).
Proof. unfold op_blob. vcg. Qed.
#[local] Hint Resolve op_blob_pres : vcg.
Lemma create_resize_pres ctx rc : pres (fs_create_blob_resize_cb ctx rc).
Proof. unfold fs_create_blob_resize_cb. vcg. Qed.
Lemma create_open_pres ctx b rc : pres (fs_create_blob_open_cb ctx b rc).
Proof. unfold fs_create_blob_open_cb. vcg. Qed.
Lemma create_create_pres ctx id rc : pres (fs_create_blob_create_cb ctx id rc).
Proof. unfold fs_create_blob_create_cb. vcg. Qed.
Lemma create_done_pres arg rc : pres (__fs_create_file_done arg rc).
Proof. unfold __fs_create_file_done. vcg. Qed.
Lemma create_fn_pres arg : pres (__fs_create_file arg).
Proof. unfold __fs_create_file. vcg. Qed.

Lemma complete_opens_pres n f rc : pres (complete_opens n f rc).
Proof. induction n as [|n IH]; simpl; vcg. Qed.
#[local] Hint Resolve complete_opens_pres : vcg.
Lemma open_done_pres ctx b rc : pres (fs_open_blob_done ctx b rc).
Proof. unfold fs_open_blob_done. vcg. Qed.
#[local] Hint Resolve open_done_pres : vcg.
Lemma open_create_pres ctx rc : pres (fs_open_blob_create_cb ctx rc).
Proof. unfold fs_open_blob_create_cb. vcg. Qed.
#[local] Hint Resolve open_create_pres : vcg.
Lemma open_async_pres name flags fn arg : pres (spdk_fs_open_file_async name flags fn arg).
Proof. unfold spdk_fs_open_file_async. vcg. Qed.
#[local] Hint Resolve open_async_pres : vcg.
Lemma open_file_done_pres arg f rc : pres (__fs_open_file_done arg f rc).
Proof. unfold __fs_open_file_done. vcg. Qed.
Lemma open_fn_pres arg : pres (__fs_open_file arg).
Proof. unfold __fs_open_file. vcg. Qed.

Lemma delete_cb_pres ctx rc : pres (blob_delete_cb ctx rc).
Proof. unfold blob_delete_cb. vcg. Qed.
Lemma delete_done_pres arg rc : pres (__fs_delete_file_done arg rc).
Proof. unfold __fs_delete_file_done. vcg. Qed.
Lemma delete_fn_pres arg : pres (__fs_delete_file arg).
Proof. unfold __fs_delete_file. vcg. Qed.

Lemma op_rename_pres o : pres (op_rename o).
Proof. unfold op_rename. vcg. Qed.
#[local] Hint Resolve op_rename_pres : vcg.
Lemma rename_close_pres ctx rc : pres (fs_rename_blob_close_cb ctx rc).
Proof. unfold fs_rename_blob_close_cb. vcg. Qed.
Lemma rename_open_pres ctx b rc : pres (fs_rename_blob_open_cb ctx b rc).
Proof. unfold fs_rename_blob_open_cb. vcg. Qed.
Lemma rename_delete_pres arg rc : pres (fs_rename_delete_done arg rc).
Proof. unfold fs_rename_delete_done. vcg. Qed.
Lemma rename_async_pres o n fn arg : pres (spdk_fs_rename_file_async o n fn arg).
Proof. unfold spdk_fs_rename_file_async. vcg. Qed.
#[local] Hint Resolve rename_async_pres : vcg.
Lemma rename_done_pres arg rc : pres (__fs_rename_file_done arg rc).
Proof. unfold __fs_rename_file_done. vcg. Qed.
Lemma rename_fn_pres arg : pres (__fs_rename_file arg).
Proof. unfold __fs_rename_file. vcg. Qed.

Lemma op_truncate_pres o : pres (op_truncate o).
Proof. unfold op_truncate. vcg. Qed.
#[local] Hint Resolve op_truncate_pres : vcg.
Lemma truncate_complete_pres ctx rc : pres (fs_truncate_complete_cb ctx rc).
Proof. unfold fs_truncate_complete_cb. vcg. Qed.
Lemma truncate_resize_pres ctx rc : pres (fs_truncate_resize_cb ctx rc).
Proof. unfold fs_truncate_resize_cb. vcg. Qed.
Lemma truncate_async_pres f n fn arg : pres (spdk_file_truncate_async f n fn arg).
Proof. unfold spdk_file_truncate_async. vcg. Qed.
#[local] Hint Resolve truncate_async_pres : vcg.
Lemma truncate_fn_pres arg : pres (__truncate arg).
Proof. unfold __truncate. vcg. Qed.
End meta.

#[export] Hint Resolve call_fn_pres send_msg_pres fs_send_pres chan_send_pres init_cb_pres load_done_pres
  load_cb_pres unload_cb_pres unload_pres stat_pres copy_stat_pres file_stat_pres wake_caller_pres
  create_close_pres create_resize_pres create_open_pres create_create_pres create_done_pres create_fn_pres
  open_done_pres open_create_pres open_async_pres open_file_done_pres open_fn_pres delete_cb_pres
  delete_done_pres delete_fn_pres rename_close_pres rename_open_pres rename_delete_pres rename_async_pres
  rename_done_pres rename_fn_pres op_truncate_pres truncate_complete_pres truncate_resize_pres
  truncate_async_pres truncate_fn_pres deleted_files_pres op_rename_pres op_name_pres : vcg.

(** ** FsData *)
Section data.
Context {E : fault → Prop} {I : option file_id → world → Prop}.
Context `{!Faults E, !Stable E I, !Queues I, !StableNames E I}.
Abbreviation pres' m := (∀ o, triple E (I o) m (λ _, I o)) (only parsing).

Lemma read_ptr_pres p : pres' (read_ptr p).
Proof. intros o. unfold read_ptr. vcg. Qed.
Lemma write_ptr_pres p n s : pres' (write_ptr p n s).
Proof. intros o. unfold write_ptr. vcg. Qed.
#[local] Hint Resolve read_ptr_pres write_ptr_pres : vcg.
Lemma memcpy_pres d s n : pres' (memcpy d s n).
Proof. intros o. unfold memcpy. vcg. Qed.
#[local] Hint Resolve memcpy_pres : vcg.
Lemma spdk_malloc_pres : pres' spdk_malloc.
Proof. intros o. unfold spdk_malloc. vcg. Qed.
Lemma spdk_free_pres p : pres' (spdk_free p).
Proof. intros o. unfold spdk_free. vcg. Qed.
Lemma iovs_to_buf_pres v : ∀ b n, pres' (_copy_iovs_to_buf b n v).
Proof. induction v as [|x v IH]; intros b n o; simpl; vcg. Qed.
Lemma buf_to_iovs_pres v : ∀ b n, pres' (_copy_buf_to_iovs v b n).
Proof. induction v as [|x v IH]; intros b n o; simpl; vcg. Qed.
Lemma page_params_pres o n : pres' (__get_page_parameters o n).
Proof. intros i. unfold __get_page_parameters. vcg. Qed.
Lemma lba_aligned_pres o n : pres' (__is_lba_aligned o n).
Proof. intros i. unfold __is_lba_aligned. vcg. Qed.
Lemma setup_iovs_pres r v : pres' (_fs_request_setup_iovs r v).
Proof. intros i. unfold _fs_request_setup_iovs. vcg. Qed.
#[local] Hint Resolve spdk_malloc_pres spdk_free_pres iovs_to_buf_pres buf_to_iovs_pres page_params_pres
  lba_aligned_pres setup_iovs_pres : vcg.

Lemma mempool_get_pres n : pres' (mempool_get n).
Proof. intros o. induction n as [|n IH]; cbn [mempool_get]; vcg. Qed.
#[local] Hint Resolve mempool_get_pres : vcg.
Lemma insert_buffer_pres f offset : pres' (cache_insert_buffer f offset).
Proof. intros o. unfold cache_insert_buffer. vcg. Qed.
#[local] Hint Resolve insert_buffer_pres : vcg.
Lemma append_buffer_pres f : pres' (cache_append_buffer f).
Proof. intros o. unfold cache_append_buffer. vcg. Qed.
Lemma op_sync_pres x : pres' (op_sync x).
Proof. intros o. unfold op_sync. vcg. Qed.
#[local] Hint Resolve append_buffer_pres op_sync_pres : vcg.
Lemma first_flushed_pres n l : pres' (first_flushed n l).
Proof. intros o. induction l as [|r l IH]; simpl; vcg. Qed.
#[local] Hint Resolve first_flushed_pres : vcg.

Context `{HI : Invoke} (Hinvoke : ∀ fn arg o, triple E (I None) (invoke fn arg o) (λ _, I None)).
Abbreviation pres m := (triple E (I None) m (λ _, I None)) (only parsing).
#[local] Hint Resolve Hinvoke : vcg.
Hint Extern 2 (triple _ (I _) (spdk_fs_delete_file_async _ _ _) _) => apply sn_delete; assumption : vcg.

Lemma rw_done_pres ctx rc : pres (__rw_done ctx rc).
Proof. unfold __rw_done. vcg. Qed.
#[local] Hint Resolve rw_done_pres : vcg.
Lemma read_done_pres ctx rc : pres (__read_done ctx rc).
Proof. unfold __read_done. vcg. Qed.
Lemma do_blob_read_pres ctx rc : pres (__do_blob_read ctx rc).
Proof. unfold __do_blob_read. vcg. Qed.
#[local] Hint Resolve read_done_pres do_blob_read_pres : vcg.
Lemma readvwritev_pres f c v off n fn arg b : pres (__readvwritev f c v off n fn arg b).
Proof. unfold __readvwritev. vcg. Qed.
#[local] Hint Resolve readvwritev_pres : vcg.
Lemma write_async_pres f c p off n fn arg : pres (spdk_file_write_async f c p off n fn arg).
Proof. unfold spdk_file_write_async, __readwrite. vcg. Qed.
Lemma read_async_pres f c p off n fn arg : pres (spdk_file_read_async f c p off n fn arg).
Proof. unfold spdk_file_read_async, __readwrite. vcg. Qed.
Lemma writev_async_pres f c v off n fn arg : pres (spdk_file_writev_async f c v off n fn arg).
Proof. unfold spdk_file_writev_async. vcg. Qed.
Lemma readv_async_pres f c v off n fn arg : pres (spdk_file_readv_async f c v off n fn arg).
Proof. unfold spdk_file_readv_async. vcg. Qed.
#[local] Hint Resolve write_async_pres read_async_pres : vcg.

Lemma io_channel_create_pres : pres fs_io_channel_create.
Proof. unfold fs_io_channel_create. vcg. Qed.
#[local] Hint Resolve io_channel_create_pres : vcg.
Lemma alloc_io_channel_pres : pres spdk_fs_alloc_io_channel.
Proof. unfold spdk_fs_alloc_io_channel. vcg. Qed.
Lemma new_chan_pres b :
  triple E (I None) (c ← fresh;
    _ ← modify (λ w, set_w_chans (<[c := mk_channel [] [] 0 None false b 0 false]> (w_chans w)) w); mret (Some c))
    (λ _, I None).
Proof.
  intros w Hw. cbn. apply (st_new_chan None w); [..|done].
  - destruct w; split; simpl; try done; [lia|apply same_reqs_refl].
  - by destruct w.
  - destruct w; simpl; lia.
Qed.
Lemma alloc_ctx_pres : pres spdk_fs_alloc_thread_ctx.
Proof.
  unfold spdk_fs_alloc_thread_ctx. do 2 (vcg_step; [vcg|do 2 vcg_step; [|vcg]]).
  vcg_step; [vcg|]. do 2 vcg_step; [vcg|apply new_chan_pres].
Qed.

Lemma check_sync_pres f : pres (__check_sync_reqs f).
Proof. unfold __check_sync_reqs. vcg. Qed.
#[local] Hint Resolve check_sync_pres : vcg.
Lemma finish_sync_pres ctx rc : pres (__file_cache_finish_sync ctx rc).
Proof. unfold __file_cache_finish_sync. vcg. Qed.
Lemma file_flush_pres ctx : pres (__file_flush ctx).
Proof. unfold __file_flush. vcg. Qed.
#[local] Hint Resolve file_flush_pres : vcg.
Lemma flush_done_pres ctx rc : pres (__file_flush_done ctx rc).
Proof. unfold __file_flush_done. vcg. Qed.
Lemma extend_done_pres arg rc : pres (__file_extend_done arg rc).
Proof. unfold __file_extend_done. vcg. Qed.
Lemma extend_resize_pres arg rc : pres (__file_extend_resize_cb arg rc).
Proof. unfold __file_extend_resize_cb. apply as_req_is. intros r ->. vcg. Qed.
Lemma extend_blob_pres arg : pres (__file_extend_blob arg).
Proof. unfold __file_extend_blob. apply as_req_is. intros r ->. vcg. Qed.
Lemma rw_from_file_done_pres ctx rc : pres (__rw_from_file_done ctx rc).
Proof. unfold __rw_from_file_done. vcg. Qed.
Lemma rw_from_file_pres ctx : pres (__rw_from_file ctx).
Proof. unfold __rw_from_file. vcg. Qed.
Lemma send_rw_pres f p off n b c cell : pres (__send_rw_from_file f p off n b c cell).
Proof. unfold __send_rw_from_file. vcg. Qed.
Lemma readahead_done_pres ctx rc : pres (__readahead_done ctx rc).
Proof. unfold __readahead_done. vcg. Qed.
Lemma readahead_pres ctx : pres' (__readahead ctx).
Proof. intros o. unfold __readahead. vcg. Qed.

(** The one request function sent while a file is locked. *)
Context (Hreadahead : ∀ o arg out, triple E (I o) (invoke Cb__readahead arg out) (λ _, I o)).
Lemma check_readahead_pres f offset c : pres' (check_readahead f offset c).
Proof.
  intros o.
  assert (Hsend : ∀ r, triple E (I o) (fs_send_request Cb__readahead (VReq r)) (λ _, I o)).
  { intros r. unfold fs_send_request, send_msg. vcg. }
  unfold check_readahead. vcg.
Qed.

#[local] Hint Resolve send_rw_pres : vcg.
Lemma file_sync_pres f c fn arg : pres (_file_sync f c fn arg).
Proof. unfold _file_sync. vcg. Qed.
#[local] Hint Resolve file_sync_pres : vcg.
Lemma sync_async_pres f c fn arg : pres (spdk_file_sync_async f c fn arg).
Proof. unfold spdk_file_sync_async. vcg. Qed.
#[local] Hint Resolve sync_async_pres : vcg.
Lemma close_done_pres ctx rc : pres (__file_close_async_done ctx rc).
Proof. unfold __file_close_async_done. vcg. Qed.
#[local] Hint Resolve close_done_pres : vcg.
Lemma file_close_pres f r : pres (__file_close_async f r).
Proof. unfold __file_close_async. vcg. Qed.
#[local] Hint Resolve file_close_pres : vcg.
Lemma close_sync_done_pres arg rc : pres (__file_close_async__sync_done arg rc).
Proof. unfold __file_close_async__sync_done. vcg. Qed.
Lemma close_async_pres f fn arg : pres (spdk_file_close_async f fn arg).
Proof. unfold spdk_file_close_async. vcg. Qed.
Lemma close_fn_pres arg : pres (__file_close arg).
Proof. unfold __file_close. vcg. Qed.

(** ** FsSync *)
Lemma stack_args_pres : pres' stack_args.
Proof. intros o. unfold stack_args. vcg. Qed.
Lemma stack_int_pres : pres' stack_int.
Proof. intros o. unfold stack_int. vcg. Qed.
Lemma load_int_pres c : pres' (load_int c).
Proof. intros o. unfold load_int. vcg. Qed.
Lemma drop_int_pres c : pres' (drop_int c).
Proof. intros o. unfold drop_int. vcg. Qed.
#[local] Hint Resolve stack_args_pres stack_int_pres load_int_pres drop_int_pres : vcg.
#[local] Hint Extern 1 (triple _ (I _) (returned _) _) => unfold returned; vcg : vcg.

Lemma fill_buffers_pres n f : ∀ last p r k, pres' (fill_buffers n f last p r k).
Proof. induction n as [|n IH]; intros last p r k o; cbn [fill_buffers]; vcg. Qed.
#[local] Hint Resolve fill_buffers_pres : vcg.
Lemma write_cached_pres f c p n : triple E (I (Some f)) (write_cached f c p n) (λ _, I None).
Proof. unfold write_cached. vcg. Qed.
(** As it is resumed after an extension of the blob, with the lock free. *)
Lemma write_cached_unlocked_pres f c p n : pres (write_cached f c p n).
Proof. unfold write_cached. vcg. Qed.
#[local] Hint Resolve write_cached_pres write_cached_unlocked_pres check_readahead_pres : vcg.
Lemma write_pres f c p off n : pres (spdk_file_write f c p off n).
Proof. unfold spdk_file_write. vcg. Qed.

Lemma read_loop_pres n f c cell : ∀ p off fin k l,
  triple E (I (Some f)) (read_loop n f c cell p off fin k l) (λ _, I (Some f)).
Proof.
  induction n as [|n IH]; intros p off fin k l; cbn [read_loop]; vcg.
Qed.
#[local] Hint Resolve read_loop_pres : vcg.
Lemma read_wait_pres c cell k l : pres (read_wait c cell k l).
Proof. unfold read_wait. vcg. Qed.
#[local] Hint Resolve read_wait_pres : vcg.
Lemma read_pres f c p off n : pres (spdk_file_read f c p off n).
Proof. unfold spdk_file_read. vcg. Qed.

Lemma sync_stat_pres c name st : pres (spdk_fs_file_stat c name st).
Proof. unfold spdk_fs_file_stat. vcg. Qed.
Lemma sync_create_pres c name : pres (spdk_fs_create_file c name).
Proof. unfold spdk_fs_create_file. vcg. Qed.
Lemma sync_open_pres c name fl : pres (spdk_fs_open_file c name fl).
Proof. unfold spdk_fs_open_file. vcg. Qed.
Lemma sync_rename_pres c o n : pres (spdk_fs_rename_file c o n).
Proof. unfold spdk_fs_rename_file. vcg. Qed.
Lemma sync_delete_pres c name : pres (spdk_fs_delete_file c name).
Proof. unfold spdk_fs_delete_file. vcg. Qed.
Lemma sync_truncate_pres f c n : pres (spdk_file_truncate f c n).
Proof. unfold spdk_file_truncate. vcg. Qed.
Lemma sync_sync_pres f c : pres (spdk_file_sync f c).
Proof. unfold spdk_file_sync. vcg. Qed.
Lemma sync_close_pres f c : pres (spdk_file_close f c).
Proof. unfold spdk_file_close. vcg. Qed.
Lemma finish_rc_pres r : pres (finish_rc r).
Proof. unfold finish_rc. vcg. Qed.
#[local] Hint Resolve finish_rc_pres : vcg.
Lemma resume_pres c b : pres (resume c b).
Proof. unfold resume. vcg. Qed.
End data.

#[export] Hint Resolve write_ptr_pres rw_done_pres read_done_pres do_blob_read_pres write_async_pres
  read_async_pres writev_async_pres readv_async_pres alloc_io_channel_pres alloc_ctx_pres finish_sync_pres
  file_flush_pres flush_done_pres extend_done_pres extend_resize_pres extend_blob_pres rw_from_file_done_pres
  rw_from_file_pres readahead_done_pres readahead_pres sync_async_pres close_done_pres close_sync_done_pres
  close_async_pres close_fn_pres write_pres read_pres sync_stat_pres sync_create_pres sync_open_pres
  sync_rename_pres sync_delete_pres sync_truncate_pres sync_sync_pres sync_close_pres resume_pres : vcg.

(** ** FsLoop *)
Section loop.
Context {E : fault → Prop} {I : option file_id → world → Prop}.
Context `{!Faults E, !Stable E I, !Queues I, !StableNames E I}.
Abbreviation pres m := (triple E (I None) m (λ _, I None)) (only parsing).

Section dispatch.
Context `{HI : Invoke} (Hinvoke : ∀ fn arg o, triple E (I None) (invoke fn arg o) (λ _, I None)).
Hint Extern 2 (triple _ (I _) (spdk_fs_create_file_async _ _ _) _) => apply sn_create; assumption : vcg.
Hint Extern 2 (triple _ (I _) (spdk_fs_delete_file_async _ _ _) _) => apply sn_delete; assumption : vcg.

Lemma dispatch_op_pres fn arg rc : pres (dispatch_op fn arg rc).
Proof. unfold dispatch_op. destruct fn; vcg. Qed.
#[local] Hint Resolve dispatch_op_pres : vcg.
Lemma dispatch_pres fn arg o : pres (dispatch fn arg o).
Proof. unfold dispatch. destruct fn, o; vcg. Qed.
End dispatch.

Lemma invoke_pres n : ∀ fn arg o, triple E (I None) (invoke_n n fn arg o) (λ _, I None).
Proof.
  induction n as [|n IH]; intros fn arg o; cbn [invoke_n]; [vcg|]. by apply dispatch_pres.
Qed.

Lemma invoke_readahead_pres n : ∀ o arg out, triple E (I o) (invoke_n n Cb__readahead arg out) (λ _, I o).
Proof.
  destruct n as [|n]; intros o arg out; cbn [invoke_n]; [vcg|].
  destruct out; cbn [dispatch dispatch_op]; vcg.
Qed.

Lemma invoke_depth_pres fn arg o : triple E (I None) (invoke fn arg o) (λ _, I None).
Proof. apply invoke_pres. Qed.
Lemma invoke_depth_readahead o arg out : triple E (I o) (invoke Cb__readahead arg out) (λ _, I o).
Proof. apply invoke_readahead_pres. Qed.
#[local] Hint Resolve invoke_depth_pres invoke_depth_readahead : vcg.

Lemma mount_pres m :
  triple E (λ w, w_fs w = None ∧ I None w) m (λ _, I None) →
  pres (o ← gets w_fs; _ ← guard_or NoEvent (bool_decide (o = None)); m : M world unit).
Proof.
  intros Hm w Hw. unfold gets, guard_or, mbind, M_bind. simpl.
  case_bool_decide as Hfs; simpl; [|by apply faults_but_deadlock]. by apply Hm.
Qed.

#[local] Hint Resolve st_free_ctx : vcg.

Hint Extern 2 (triple _ (I _) (spdk_fs_create_file_async _ _ _) _) =>
  apply sn_create; intros; apply invoke_depth_pres : vcg.
Hint Extern 2 (triple _ (I _) (spdk_fs_delete_file_async _ _ _) _) =>
  apply sn_delete; intros; apply invoke_depth_pres : vcg.
Lemma run_api_pres a : pres (run_api a).
Proof.
  unfold run_api. destruct a; cbv zeta.
  1: eapply triple_bind; [apply mount_pres, fs_init_pres; intros; apply invoke_depth_pres|vcg].
  1: eapply triple_bind; [apply mount_pres, fs_load_pres; intros; apply invoke_depth_pres|vcg].
  all: vcg.
Qed.

(** ** Events and runs *)
Lemma bs_effect_pres c id d : pres (bs_effect c id d).
Proof. unfold bs_effect. destruct c; vcg. Qed.
Lemma take_call_pres i : pres (take_call i).
Proof.
  intros w Hw. unfold take_call, gets, modify, of_option, mbind, M_bind. simpl.
  destruct (w_calls w !! i) as [p|]; cbn; [|apply (faults_but_deadlock (E := E)); discriminate].
  apply qu_calls; [|done]. intros p' Hp'. left. by eapply list_elem_of_delete_inv.
Qed.
#[local] Hint Resolve run_api_pres bs_effect_pres take_call_pres : vcg.
Lemma complete_pres i rc id d : pres (complete i rc id d).
Proof. unfold complete. vcg. Qed.
Lemma iterate_pres i b rc : pres (iterate i b rc).
Proof. unfold iterate. vcg. apply sn_iter_cb. intros. apply invoke_depth_pres. Qed.
Lemma deliver_msg_pres : pres deliver_msg.
Proof.
  intros w Hw. unfold deliver_msg, gets, modify, mbind, M_bind. simpl.
  destruct (w_msgs w) as [|[fn arg] l] eqn:Hm; [apply (faults_but_deadlock (E := E)); discriminate|]. cbn.
  apply invoke_depth_pres, qu_msgs; [|done]. intros m Hin. left. rewrite Hm. by right.
Qed.
Lemma deliver_cache_msg_pres : pres deliver_cache_msg.
Proof.
  intros w Hw. unfold deliver_cache_msg, gets, modify, mbind, M_bind. simpl.
  destruct (w_cache_msgs w) as [|[fn arg] l] eqn:Hm; [apply (faults_but_deadlock (E := E)); discriminate|]. cbn.
  apply invoke_depth_pres, qu_cache_msgs; [|done]. intros m Hin. left. rewrite Hm. by right.
Qed.
Lemma poll_pres : pres poll.
Proof. unfold poll. vcg. Qed.
#[local] Hint Resolve complete_pres iterate_pres deliver_msg_pres deliver_cache_msg_pres poll_pres : vcg.
Lemma run_event_pres wt e : pres (run_event wt e).
Proof. unfold run_event. destruct e; vcg. Qed.

(** An invariant holds in every reachable state, and no event stops with a
    fault outside [E]. *)
Hypothesis initially : ∀ bs mem next malloc junk, I None (initial_world bs mem next malloc junk).

Lemma reachable_inv s : reachable s → I None (sys_world s).
Proof.
  induction 1 as [|s e s' _ IH Hstep]; [apply initially|].
  unfold step_event in Hstep. pose proof (run_event_pres (sys_waiting s) e _ IH) as Hev.
  destruct (run_event _ _ _) as [[p w]|f]; [|done]. injection Hstep as <-.
  by destruct p as [[]|].
Qed.

Lemma reachable_faults s e f : reachable s → step_event e s = Fault f → E f.
Proof.
  intros Hs Hstep. unfold step_event in Hstep.
  pose proof (run_event_pres (sys_waiting s) e _ (reachable_inv s Hs)) as Hev.
  destruct (run_event _ _ _) as [[p w]|f']; [done|]. by injection Hstep as <-.
Qed.
End loop.
