(* ===== verification/FsLoose.v ===== *)
(** * Invariants that do not look at names

    An invariant that says nothing about the tree of files and the names is
    preserved by the operations of the interface [StableNames] as well. *)
From S2P Require Import Prelude Triple BPlusTree CacheTree Quiet FsState FsPrim FsFile FsMeta FsData FsSync FsLoop.
From S2P Require Import FsInv FsInvOps.
Local Open Scope Z_scope.

Class Loose (E : fault → Prop) (I : option file_id → world → Prop) : Prop := {
  lo_stable :: Stable E I;
  lo_queues :: Queues I;
  lo_heap o w h : I o w → I o (set_w_heap h w);
  lo_fs o w fs : I o w → I o (set_w_fs fs w);
  lo_name o w f x n : w_files w !! f = Some x → I o w → I o (set_files <[f := set_f_name n x]> w);
  lo_new_file o w f : I o w → I o (set_files <[f := zero_file]> w)
}.

Section loose.
Context {E : fault → Prop} {I : option file_id → world → Prop}.
Context `{!Faults E, !Loose E I}.
Abbreviation pres m := (∀ o, triple E (I o) m (λ _, I o)) (only parsing).

Lemma on_heap_pres {A} (m : M heap A) o : quiet m → triple E (I o) (on_heap m) (λ _, I o).
Proof.
  intros Hm w Hw. unfold on_heap. specialize (Hm (w_heap w) Logic.I).
  destruct (m (w_heap w)) as [[a h]|e]; [|by apply faults_but_deadlock]. by apply lo_heap.
Qed.
Hint Extern 2 (triple _ (I _) (on_heap _) _) => apply on_heap_pres; eauto with vcg : vcg.

Lemma any_fs_pres g : pres (upd_fs g).
Proof.
  intros o w Hw. unfold upd_fs, load_fs, gets, of_option, mbind, M_bind. simpl.
  destruct (w_fs w) as [fs|] eqn:Hfs; [|by apply faults_but_deadlock]. by apply lo_fs.
Qed.
Lemma new_fs_pres fs : pres (modify (set_w_fs fs)).
Proof. intros o. apply triple_modify_same. intros w. apply lo_fs. Qed.
Lemma set_name_pres f n : pres (upd_file f (set_f_name n)).
Proof.
  intros o w Hw. unfold upd_file, load_file, gets, of_option, mbind, M_bind. simpl.
  destruct (w_files w !! f) as [x|] eqn:Hf; [|by apply faults_but_deadlock]. by eapply lo_name.
Qed.
Lemma store_file_pres f : pres (store_file f zero_file).
Proof. intros o. apply triple_modify_same. intros w. apply lo_new_file. Qed.
#[local] Hint Resolve any_fs_pres new_fs_pres set_name_pres store_file_pres : vcg.

Lemma find_file_pres name : pres (fs_find_file name).
Proof. intros o. unfold fs_find_file. vcg. Qed.
Lemma file_alloc_pres name : pres (file_alloc name).
Proof. intros o. unfold file_alloc. vcg. Qed.
#[local] Hint Resolve find_file_pres file_alloc_pres : vcg.

Section callbacks.
Context `{HI : Invoke} (Hinvoke : ∀ fn arg o, triple E (I None) (invoke fn arg o) (λ _, I None)).
#[local] Hint Resolve Hinvoke : vcg.
Lemma iter_cb_pres ctx b rc : triple E (I None) (iter_cb ctx b rc) (λ _, I None).
Proof. unfold iter_cb. vcg. Qed.
Lemma create_async_pres name fn arg : triple E (I None) (spdk_fs_create_file_async name fn arg) (λ _, I None).
Proof. unfold spdk_fs_create_file_async. vcg. Qed.
Lemma delete_async_pres name fn arg : triple E (I None) (spdk_fs_delete_file_async name fn arg) (λ _, I None).
Proof. unfold spdk_fs_delete_file_async. vcg. Qed.
Lemma md_rename_pres r : triple E (I None) (_fs_md_rename_file r) (λ _, I None).
Proof. unfold _fs_md_rename_file. vcg. Qed.
End callbacks.

#[export] Instance loose_names : StableNames E I.
Proof.
  split.
  - intros o name. apply find_file_pres.
  - intros o root. vcg.
  - intros direct. eapply triple_pre with (P' := I None); [|naive_solver]. unfold fs_alloc. vcg.
  - intros. by apply iter_cb_pres.
  - intros. by apply create_async_pres.
  - intros. by apply delete_async_pres.
  - intros. by apply md_rename_pres.
Qed.
End loose.
