(* ===== verification/FsLocks.v ===== *)
(** * Spinlocks

    No operation takes a lock it holds, and every operation returns with all
    spinlocks of files and channels free. *)
From S2P Require Import Prelude Triple BPlusTree CacheTree Quiet FsState FsPrim FsFile FsMeta FsData FsSync FsLoop.
From S2P Require Import FsRequests FsInv FsInvOps FsLoose.
Local Open Scope Z_scope.

(** All spinlocks are free, except possibly the lock of file [o]. *)
Definition locks_free (o : option file_id) (w : world) : Prop :=
  (∀ f x, w_files w !! f = Some x → o ≠ Some f → f_lock x = false) ∧
  (∀ c x, w_chans w !! c = Some x → c_lock x = false).

Definition not_deadlock (e : fault) : Prop := e ≠ Deadlock.
#[export] Instance faults_not_deadlock : Faults not_deadlock.
Proof. by intros e He. Qed.

Lemma locks_free_file o w f x y :
  w_files w !! f = Some x → f_lock y = f_lock x → locks_free o w → locks_free o (set_files <[f := y]> w).
Proof.
  intros Hf Hy [H1 H2]. split; [|done]. intros g z Hz Ho. simpl in Hz.
  apply lookup_insert_Some in Hz as [[<- <-]|[_ Hz]]; [rewrite Hy; eauto|eauto].
Qed.

Lemma locks_free_chan o w c y :
  c_lock y = false → locks_free o w → locks_free o (set_chans <[c := y]> w).
Proof.
  intros Hy [H1 H2]. split; [done|]. intros d z Hz. simpl in Hz.
  apply lookup_insert_Some in Hz as [[<- <-]|[_ Hz]]; eauto.
Qed.

Lemma locks_free_core o w w' :
  w_files w' = w_files w → w_chans w' = w_chans w → locks_free o w → locks_free o w'.
Proof. intros Hf Hc [H1 H2]. split; rewrite ?Hf, ?Hc; eauto. Qed.

Lemma file_lock_ok f : triple not_deadlock (locks_free None) (file_lock f) (λ _, locks_free (Some f)).
Proof.
  intros w [H1 H2]. unfold file_lock, load_file, gets, of_option, mbind, M_bind. simpl.
  destruct (w_files w !! f) as [x|] eqn:Hf; simpl; [|done]. rewrite (H1 f x) by done. simpl.
  split; [|done]. intros g z Hz Hne. simpl in Hz.
  apply lookup_insert_Some in Hz as [[<- <-]|[_ Hz]]; [done|eauto].
Qed.

Lemma file_trylock_ok f :
  triple not_deadlock (locks_free None) (file_trylock f) (λ b, locks_free (if b then Some f else None)).
Proof.
  intros w [H1 H2]. unfold file_trylock, load_file, gets, of_option, mbind, M_bind. simpl.
  destruct (w_files w !! f) as [x|] eqn:Hf; simpl; [|done]. rewrite (H1 f x) by done. simpl.
  split; [|done]. intros g z Hz Hne. simpl in Hz.
  apply lookup_insert_Some in Hz as [[<- <-]|[_ Hz]]; [done|eauto].
Qed.

Lemma file_unlock_ok f o : (o = None ∨ o = Some f) →
  triple not_deadlock (locks_free o) (file_unlock f) (λ _, locks_free None).
Proof.
  intros Ho w [H1 H2]. unfold file_unlock, load_file, gets, of_option, mbind, M_bind. simpl.
  destruct (w_files w !! f) as [x|] eqn:Hf; simpl; [|done].
  destruct (f_lock x); (split; [|done]); intros g z Hz Hne; simpl in Hz;
    (apply lookup_insert_Some in Hz as [[<- <-]|[Hg Hz]]; [done|]);
    (apply (H1 g z Hz); destruct Ho as [->| ->]; congruence).
Qed.

Lemma alloc_req_locks o c n :
  triple not_deadlock (locks_free o) (alloc_fs_request_with_iov c n) (λ _, locks_free o).
Proof.
  intros w Hw. destruct (after_calloc n (w_malloc w)).1 eqn:Ha.
  2:{ rewrite alloc_no_memory by done. by apply (locks_free_core o w). }
  destruct (w_chans w !! c) as [ch|] eqn:Hc; [|by rewrite alloc_no_channel].
  assert (Hl : c_lock ch = false) by (destruct Hw; eauto).
  rewrite (alloc_spec c n w ch) by done. cbv zeta.
  destruct (c_reqs ch) as [|r rest]; [by apply (locks_free_core o w)|].
  destruct (w_reqs w !! r); [|done].
  eapply locks_free_core; [..|apply (locks_free_chan o w c (take_head rest ch))]; done.
Qed.

Lemma free_req_locks o r : triple not_deadlock (locks_free o) (free_fs_request r) (λ _, locks_free o).
Proof.
  intros w Hw. destruct (free_fs_request r w) as [[[] w']|e] eqn:E.
  2:{ eapply free_faults; [|done]. apply Hw. }
  destruct (free_inv r w w' (proj2 Hw) E) as (x & c & ch & _ & _ & Hc & ->).
  eapply locks_free_core; [..|apply (locks_free_chan o w c (put_head r ch))]; try done.
  destruct Hw. simpl. eauto.
Qed.

(** [spdk_fs_free_thread_ctx] on an unlocked channel. *)
Lemma free_ctx_spec c w ch :
  w_chans w !! c = Some ch → c_lock ch = false → c_sync ch = true →
  spdk_fs_free_thread_ctx c w =
  if decide (c_outstanding ch = 0) then (_ ← fs_channel_destroy c; mret true) w else Ok (false, w).
Proof.
  intros Hc Hl Hs. unfold spdk_fs_free_thread_ctx.
  rewrite (bind_Ok _ _ _ _ _ (load_chan_spec _ _ _ Hc)), Hs. unfold guard_or. rewrite bind_ret.
  rewrite (bind_Ok _ _ _ _ _ (chan_lock_spec _ _ _ Hc Hl)), Hs.
  rewrite (bind_Ok _ _ _ _ _ (load_chan_spec _ _ _ (put_chan_lookup _ _ _))).
  rewrite (bind_Ok _ _ _ _ _ (chan_unlock_spec _ _ _ (put_chan_lookup _ _ _))).
  assert (Hback : (if c_sync (set_c_lock true ch) then
     put_chan c (set_c_lock false (set_c_lock true ch)) (put_chan c (set_c_lock true ch) w)
     else put_chan c (set_c_lock true ch) w) = w).
  { destruct ch as [rs mem sem bsc dir sync out lk]; simpl in *; subst.
    rewrite put_chan_twice. by apply put_chan_id. }
  rewrite Hback. destruct ch as [rs mem sem bsc dir sync out lk]; simpl. by destruct (decide _).
Qed.

Lemma free_ctx_no_channel c w : w_chans w !! c = None → spdk_fs_free_thread_ctx c w = Fault UseAfterFree.
Proof.
  intros Hc. unfold spdk_fs_free_thread_ctx, load_chan, gets, of_option, mbind, M_bind. simpl. by rewrite Hc.
Qed.
Lemma free_ctx_not_sync c w ch :
  w_chans w !! c = Some ch → c_sync ch = false → spdk_fs_free_thread_ctx c w = Fault AssertFailed.
Proof.
  intros Hc Hs. unfold spdk_fs_free_thread_ctx. rewrite (bind_Ok _ _ _ _ _ (load_chan_spec _ _ _ Hc)).
  by rewrite Hs.
Qed.

Lemma destroy_spec c w ch :
  w_chans w !! c = Some ch →
  fs_channel_destroy c w =
    Ok (tt, set_w_chans (delete c (w_chans w)) (set_w_reqs (foldr delete (w_reqs w) (c_mem ch)) w)).
Proof. intros Hc. unfold fs_channel_destroy. by rewrite (bind_Ok _ _ _ _ _ (load_chan_spec _ _ _ Hc)). Qed.

Lemma free_ctx_locks c : triple not_deadlock (locks_free None) (spdk_fs_free_thread_ctx c) (λ _, locks_free None).
Proof.
  intros w Hw. destruct (w_chans w !! c) as [ch|] eqn:Hc; [|by rewrite free_ctx_no_channel].
  destruct (c_sync ch) eqn:Hs; [|by erewrite free_ctx_not_sync].
  rewrite (free_ctx_spec c w ch) by (done || destruct Hw; eauto).
  destruct (decide _); [|done]. rewrite (bind_Ok _ _ _ _ _ (destroy_spec c w ch Hc)). simpl.
  destruct Hw as [H1 H2]. split; [done|]. intros d z Hz. simpl in Hz. apply lookup_delete_Some in Hz as [_ Hz]. eauto.
Qed.

#[export] Instance locks_stable : Stable not_deadlock locks_free.
Proof.
  split.
  - intros o w w' [] _. by apply locks_free_core.
  - intros o w f x y Hf [] . by eapply locks_free_file.
  - intros o w f [H1 H2]. split; [|done]. intros g z Hz. simpl in Hz. apply lookup_delete_Some in Hz as [_ Hz]. eauto.
  - intros o w c x y Hc (_ & _ & _ & Hl) Hw. apply locks_free_chan; [|done]. rewrite Hl. destruct Hw; eauto.
  - intros o w c [H1 H2]. split; [done|]. intros d z Hz. simpl in Hz. apply lookup_delete_Some in Hz as [_ Hz]. eauto.
  - intros o w w' ids b [] _ _ Hw. apply locks_free_chan; [done|]. by eapply locks_free_core.
  - intros o w fs fs' _ _. by apply locks_free_core.
  - intros o w. by apply locks_free_core.
  - apply file_lock_ok.
  - apply file_trylock_ok.
  - intros f. apply file_unlock_ok. by right.
  - intros f. apply file_unlock_ok. by left.
  - apply alloc_req_locks.
  - apply free_req_locks.
  - apply free_ctx_locks.
Qed.

#[export] Instance locks_queues : Queues locks_free.
Proof. apply core_queues. intros o w w' []. by apply locks_free_core. Qed.

#[export] Instance locks_loose : Loose not_deadlock locks_free.
Proof.
  split; [apply _|apply _| | | |].
  - intros o w h. by apply locks_free_core.
  - intros o w fs. by apply locks_free_core.
  - intros o w f x n Hf. by eapply locks_free_file.
  - intros o w f [H1 H2]. split; [|done]. intros g z Hz Hne. simpl in Hz.
    apply lookup_insert_Some in Hz as [[<- <-]|[_ Hz]]; [done|eauto].
Qed.

(** C3. In every state the system can reach, all spinlocks of files and
    channels are free, and no event (API call, completion, message, resumed
    synchronous call, turn of the poller) ever waits for a spinlock it holds. *)
Theorem no_self_deadlock s :
  reachable s →
  (∀ f x, w_files (sys_world s) !! f = Some x → f_lock x = false) ∧
  (∀ c x, w_chans (sys_world s) !! c = Some x → c_lock x = false) ∧
  (∀ e, step_event e s ≠ Fault Deadlock).
Proof.
  intros Hs. assert (Hinit : ∀ bs mem next malloc junk,
    locks_free None (initial_world bs mem next malloc junk)) by done.
  destruct (reachable_inv Hinit s Hs) as [H1 H2]. split; [eauto|]. split; [done|].
  intros e He. by apply (reachable_faults (E := not_deadlock) Hinit s e Deadlock Hs He).
Qed.
