(* ===== verification/FsAccounting.v ===== *)
(** * Request accounting

    A channel never loses count of its requests: those on its list and those
    outstanding add up to the ones it was created with. *)
From S2P Require Import Prelude Triple BPlusTree CacheTree Quiet FsState FsPrim FsFile FsMeta FsData FsSync FsLoop.
From S2P Require Import FsRequests FsInv FsInvOps FsLoose FsLocks.
Local Open Scope Z_scope.

(** [outstanding_reqs] is a [uint32_t]. *)
Definition balanced (ch : channel) : Prop :=
  u32 (Z.of_nat (length (c_reqs ch)) + c_outstanding ch) = u32 (Z.of_nat (length (c_mem ch))) ∧
  0 <= c_outstanding ch < 2 ^ 32.
(** The requests on the list of a channel are its own; so is every request that
    names it in [r_channel].  Channels and requests never name a channel that is
    still to be created. *)
Record owned (w : world) : Prop := {
  ow_chan c ch : w_chans w !! c = Some ch → (c < w_next w)%nat;
  ow_list c ch : w_chans w !! c = Some ch → c_reqs ch ⊆ c_mem ch;
  ow_next r x c : w_reqs w !! r = Some x → r_channel x = Some c → (c < w_next w)%nat;
  ow_req r x c ch : w_reqs w !! r = Some x → r_channel x = Some c → w_chans w !! c = Some ch → r ∈ c_mem ch
}.
Definition accounted (o : option file_id) (w : world) : Prop :=
  locks_free o w ∧ owned w ∧ ∀ c ch, w_chans w !! c = Some ch → balanced ch.

Lemma u32_add_l a b : u32 (a + u32 b) = u32 (a + b).
Proof. unfold u32. by rewrite Zplus_mod_idemp_r. Qed.

Lemma balanced_take ch r rest : c_reqs ch = r :: rest → balanced ch → balanced (take_head rest ch).
Proof.
  intros Hr [H _]. split; simpl; [|unfold u32; apply Z.mod_pos_bound; lia].
  rewrite u32_add_l, <- H, Hr. f_equal. simpl. lia.
Qed.
Lemma balanced_put ch r : balanced ch → balanced (put_head r ch).
Proof.
  intros [H _]. split; simpl; [|unfold u32; apply Z.mod_pos_bound; lia].
  rewrite u32_add_l, <- H. f_equal. lia.
Qed.

(** *** What keeps the requests of a channel its own *)
Lemma owned_core w w' :
  w_chans w' = w_chans w → (w_next w <= w_next w')%nat → same_reqs (w_reqs w) (w_reqs w') → owned w → owned w'.
Proof.
  intros Hc Hn Hr [H1 H2 H3 H4].
  assert (Hb : ∀ r x c, w_reqs w' !! r = Some x → r_channel x = Some c →
            ∃ y, w_reqs w !! r = Some y ∧ r_channel y = Some c).
  { intros r x c Hx Hxc. destruct (Hr r x Hx) as [?|(y & Hy & He)]; [congruence|]. exists y. by rewrite He. }
  split; rewrite ?Hc.
  - intros c ch Hch. specialize (H1 c ch Hch). lia.
  - done.
  - intros r x c Hx Hxc. destruct (Hb r x c Hx Hxc) as (y & Hy & Hyc). specialize (H3 r y c Hy Hyc). lia.
  - intros r x c ch Hx Hxc. destruct (Hb r x c Hx Hxc) as (y & Hy & Hyc). by eapply H4.
Qed.
Lemma owned_chan w c ch y :
  w_chans w !! c = Some ch → c_mem y = c_mem ch → c_reqs y ⊆ c_mem ch → owned w → owned (set_chans <[c := y]> w).
Proof.
  intros Hc Hm Hl [H1 H2 H3 H4]. split; simpl; try done.
  - intros d z [[<- <-]|[_ Hz]]%lookup_insert_Some; eauto.
  - intros d z [[<- <-]|[_ Hz]]%lookup_insert_Some; [by rewrite Hm|eauto].
  - intros r x d z Hx Hxc [[<- <-]|[_ Hz]]%lookup_insert_Some; [rewrite Hm|]; eauto.
Qed.
Lemma owned_free_chan w c : owned w → owned (set_chans (delete c) w).
Proof.
  intros [H1 H2 H3 H4]. split; simpl; try done; [intros d z [_ Hz]%lookup_delete_Some; eauto..|].
  intros r x d z Hx Hxc [_ Hz]%lookup_delete_Some. eauto.
Qed.
Lemma owned_new_chan w w' ids b :
  same_core w w' → (w_next w < w_next w')%nat → owned w →
  owned (set_chans <[w_next w := mk_channel ids ids 0 None false b 0 false]> w').
Proof.
  intros [_ _ _ Hch _ Hreqs] Hn Hw. destruct (owned_core w w') as [H1 H2 H3 H4]; [done|lia|done|done|]. split; simpl; try done.
  - intros d z [[<- <-]|[_ Hz]]%lookup_insert_Some; eauto.
  - intros d z [[<- <-]|[_ Hz]]%lookup_insert_Some; simpl; eauto.
  - intros r x d z Hx Hxc [[<- <-]|[_ Hz]]%lookup_insert_Some; [|eauto].
    destruct (Hreqs r x Hx) as [?|(y & Hy & He)]; [congruence|]. rewrite Hxc in He.
    pose proof (ow_next w Hw r y _ Hy He). lia.
Qed.
Lemma owned_put_req w r c ch n :
  w_chans w !! c = Some ch → r ∈ c_mem ch → owned w → owned (put_req r (fresh_request c n) w).
Proof.
  intros Hc Hr [H1 H2 H3 H4]. split; simpl; try done.
  - intros d x e [[<- <-]|[_ Hx]]%lookup_insert_Some; [|eauto]. intros [= <-]. eauto.
  - intros d x e z [[<- <-]|[_ Hx]]%lookup_insert_Some; [|eauto]. intros [= <-] Hz. by simplify_eq.
Qed.

Lemma accounted_core o w w' :
  w_files w' = w_files w → w_chans w' = w_chans w → (w_next w <= w_next w')%nat →
  same_reqs (w_reqs w) (w_reqs w') → accounted o w → accounted o w'.
Proof.
  intros Hf Hc Hn Hr (Hl & Ho & Hb). split; [by eapply locks_free_core|]. split; [by eapply owned_core|].
  by rewrite Hc.
Qed.
Lemma accounted_eq o w w' :
  w_files w' = w_files w → w_chans w' = w_chans w → w_next w' = w_next w → w_reqs w' = w_reqs w →
  accounted o w → accounted o w'.
Proof. intros Hf Hc Hn Hr. apply accounted_core; [done..|by rewrite Hn|rewrite Hr; apply same_reqs_refl]. Qed.

Lemma accounted_chan o w c x y :
  w_chans w !! c = Some x → c_mem y = c_mem x → c_reqs y ⊆ c_mem x →
  c_lock y = false → balanced y → accounted o w → accounted o (set_chans <[c := y]> w).
Proof.
  intros Hc Hm Hr Hy Hb (Hl & Ho & Ha). split; [by apply locks_free_chan|]. split; [by eapply owned_chan|].
  intros d z. simpl. intros [[<- <-]|[_ Hz]]%lookup_insert_Some; eauto.
Qed.

(** Only the locks of files change. *)
Definition chan_core (w : world) := (w_chans w, w_next w, w_reqs w).
Lemma accounted_locks {A} o o' (m : M world A) (f : A → option file_id) :
  (∀ w a w', m w = Ok (a, w') → chan_core w' = chan_core w) →
  triple not_deadlock (locks_free o) m (λ a, locks_free (f a)) →
  o' = o → triple not_deadlock (accounted o') m (λ a, accounted (f a)).
Proof.
  intros Hch Hm -> w (Hl & Ho & Ha). specialize (Hm w Hl). destruct (m w) as [[a w']|e] eqn:E; [|done].
  injection (Hch w a w' E) as Hc Hn Hr. split; [done|]. split; [|by rewrite Hc].
  eapply owned_core, Ho; [done|lia|rewrite Hr; apply same_reqs_refl].
Qed.

Lemma file_lock_chans f w a w' : file_lock f w = Ok (a, w') → chan_core w' = chan_core w.
Proof.
  unfold file_lock, load_file, gets, of_option, mbind, M_bind. simpl.
  destruct (w_files w !! f) as [x|]; [|done]. simpl. destruct (f_lock x); [done|]. intros [= <- <-]. done.
Qed.
Lemma file_unlock_chans f w a w' : file_unlock f w = Ok (a, w') → chan_core w' = chan_core w.
Proof.
  unfold file_unlock, load_file, gets, of_option, mbind, M_bind. simpl.
  destruct (w_files w !! f) as [x|]; [|done]. simpl. destruct (f_lock x); intros [= <- <-]; done.
Qed.
Lemma file_trylock_chans f w a w' : file_trylock f w = Ok (a, w') → chan_core w' = chan_core w.
Proof.
  unfold file_trylock, load_file, gets, of_option, mbind, M_bind. simpl.
  destruct (w_files w !! f) as [x|]; [|done]. simpl. destruct (f_lock x); intros [= <- <-]; done.
Qed.

Lemma alloc_req_accounted o c n :
  triple not_deadlock (accounted o) (alloc_fs_request_with_iov c n) (λ _, accounted o).
Proof.
  intros w Hw. destruct (after_calloc n (w_malloc w)).1 eqn:Ha.
  2:{ rewrite alloc_no_memory by done. by apply (accounted_eq o w). }
  destruct (w_chans w !! c) as [ch|] eqn:Hc; [|by rewrite alloc_no_channel].
  assert (Hlk : c_lock ch = false) by (destruct Hw as [[] _]; eauto).
  rewrite (alloc_spec c n w ch) by done. cbv zeta.
  destruct (c_reqs ch) as [|r rest] eqn:Hr; [by apply (accounted_eq o w)|].
  destruct (w_reqs w !! r); [|done].
  pose proof Hw as (_ & Ho & Hb). pose proof (ow_list w Ho c ch Hc) as Hsub. rewrite Hr in Hsub.
  assert (Hw1 : accounted o (put_chan c (take_head rest ch) (set_w_malloc (after_calloc n (w_malloc w)).2 w))).
  { apply (accounted_eq o (set_chans <[c := take_head rest ch]> w)); [done..|].
    apply (accounted_chan o w c ch); [done|done|set_solver|done| |done]. eapply balanced_take; eauto. }
  destruct Hw1 as (Hl1 & Ho1 & Hb1). split; [by eapply locks_free_core|]. split; [|done].
  eapply owned_put_req, Ho1; [apply put_chan_lookup|set_solver].
Qed.
Lemma free_req_accounted o r : triple not_deadlock (accounted o) (free_fs_request r) (λ _, accounted o).
Proof.
  intros w Hw. pose proof Hw as (Hl & Ho & Hb). destruct (free_fs_request r w) as [[[] w']|e] eqn:E.
  2:{ eapply free_faults; [|done]. apply Hl. }
  destruct (free_inv r w w' (proj2 Hl) E) as (x & c & ch & Hx & Hxc & Hc & ->).
  apply (accounted_chan o w c ch); [done|done| |by destruct Hl; simpl; eauto|by apply balanced_put; eauto|done].
  pose proof (ow_list w Ho c ch Hc). pose proof (ow_req w Ho r x c ch Hx Hxc Hc). set_solver.
Qed.
Lemma free_ctx_accounted c :
  triple not_deadlock (accounted None) (spdk_fs_free_thread_ctx c) (λ _, accounted None).
Proof.
  intros w (Hl & Ho & Hb). pose proof (free_ctx_locks c w Hl) as Hlk.
  destruct (w_chans w !! c) as [ch|] eqn:Hc; [|by rewrite free_ctx_no_channel].
  destruct (c_sync ch) eqn:Hs; [|by erewrite free_ctx_not_sync].
  rewrite (free_ctx_spec c w ch) in * by (done || destruct Hl; eauto).
  destruct (decide _); [|done]. rewrite (bind_Ok _ _ _ _ _ (destroy_spec c w ch Hc)) in *. simpl in *.
  split; [done|]. split; [|intros d z; simpl; intros [_ Hz]%lookup_delete_Some; eauto].
  apply (owned_core (set_chans (delete c) w)); [done|done|apply same_reqs_deletes|by apply owned_free_chan].
Qed.

#[export] Instance accounted_stable : Stable not_deadlock accounted.
Proof.
  split.
  - intros o w w' [] _. by apply accounted_core.
  - intros o w f x y Hf [] [Hl Hb]. split; [by eapply locks_free_file|]. destruct Hb. split; [|done].
    by apply (owned_core w); [..|apply same_reqs_refl|].
  - intros o w f [Hl Hb]. split; [by apply st_free_file|]. destruct Hb. split; [|done].
    by apply (owned_core w); [..|apply same_reqs_refl|].
  - intros o w c x y Hc (Hr & Hm & Ho & Hk) Hw. pose proof Hw as (Hl & Hown & Hb).
    apply (accounted_chan o w c x); [done|done|rewrite Hr; by eapply ow_list| | |done].
    + rewrite Hk. destruct Hl. eauto.
    + unfold balanced. rewrite Hr, Hm, Ho. by eapply Hb.
  - intros o w c (Hl & Ho & Hb). split; [by apply st_free_chan|]. split; [by apply owned_free_chan|].
    intros d z. simpl. intros [_ Hz]%lookup_delete_Some. eauto.
  - intros o w w' ids b Hcore Hq Hn (Hl & Ho & Hb). split; [by apply st_new_chan|].
    split; [by apply owned_new_chan|]. intros d z. simpl. rewrite (sc_chans _ _ Hcore).
    intros [[<- <-]|[_ Hz]]%lookup_insert_Some; [|eauto]. split; simpl; [f_equal; lia|lia].
  - intros o w fs fs' _ _. by apply accounted_eq.
  - intros o w. by apply accounted_eq.
  - intros f. apply (accounted_locks None None _ (λ _, Some f)); [apply file_lock_chans|apply file_lock_ok|done].
  - intros f. apply (accounted_locks None None _ (λ b : bool, if b then Some f else None));
      [apply file_trylock_chans|apply file_trylock_ok|done].
  - intros f. apply (accounted_locks (Some f) (Some f) _ (λ _, None)); [apply file_unlock_chans| |done].
    apply file_unlock_ok. by right.
  - intros f. apply (accounted_locks None None _ (λ _, None)); [apply file_unlock_chans| |done].
    apply file_unlock_ok. by left.
  - apply alloc_req_accounted.
  - apply free_req_accounted.
  - apply free_ctx_accounted.
Qed.

#[export] Instance accounted_queues : Queues accounted.
Proof. apply core_queues. intros o w w' []. by apply accounted_core. Qed.

#[export] Instance accounted_loose : Loose not_deadlock accounted.
Proof.
  split; [apply _|apply _| | | |].
  - intros o w h. by apply accounted_eq.
  - intros o w fs. by apply accounted_eq.
  - intros o w f x n Hf [Hl [Ho Hb]]. split; [by eapply locks_free_file|]. split; [|done].
    by apply (owned_core w); [..|apply same_reqs_refl|].
  - intros o w f [Hl [Ho Hb]]. split; [by apply lo_new_file|]. split; [|done].
    by apply (owned_core w); [..|apply same_reqs_refl|].
Qed.

Lemma reachable_accounted s : reachable s → accounted None (sys_world s).
Proof. apply reachable_inv. by intros. Qed.

(** Distinct requests of a channel, as many as it has: all of them. *)
Lemma all_back {A} (l k : list A) : NoDup l → l ⊆ k → (length l <= length k)%nat ∧ (length l = length k → l ≡ₚ k).
Proof.
  intros Hl Hs. pose proof (NoDup_submseteq l k Hl Hs) as Hm. split; [by apply submseteq_length|].
  intros He. apply submseteq_length_Permutation; [done|lia].
Qed.

