(* ===== verification/FsNames.v ===== *)
(** * The namespace

    In every reachable state the tree of files stands for a finite map from names
    to files: each file is in it at most once, under the name it carries. *)
From S2P Require Import Prelude Triple BPlusTree BPlusTreeSpec BPlusTreeLemmas BPlusTreeFind.
From S2P Require Import BPlusTreeNode BPlusTreeWp BPlusTreeInsert BPlusTreeRemove BPlusTreeWalk BPlusTreeTotal.
From S2P Require Import CacheTree Quiet FsState FsPrim FsFile FsMeta FsData FsSync FsLoop.
From S2P Require Import FsRequests FsInv FsInvOps.
Local Open Scope Z_scope.

Definition any_fault (e : fault) : Prop := True.
#[export] Instance faults_any_fault : Faults any_fault.
Proof. by intros e He. Qed.

(** The map [m] a filesystem's tree stands for, if there is one. *)
Definition tree_is (w : world) (m : gmap string file_id) : Prop :=
  match w_fs w with
  | Some fs => tree_rep (w_heap w) (fs_files fs) m
  | None => heap_ok (w_heap w) ∧ m = ∅
  end.
Definition one_name (m : gmap string file_id) : Prop :=
  ∀ k1 k2 f, m !! k1 = Some f → m !! k2 = Some f → k1 = k2.
(** A file in the map that still exists has the name it is stored under, or
    none yet. *)
Definition name_matches (files : gmap nat file) (m : gmap string file_id) : Prop :=
  ∀ k f x, m !! k = Some f → files !! f = Some x → f_name x = None ∨ f_name x = Some k.
Definition ids_used (w : world) (m : gmap string file_id) : Prop :=
  (∀ f x, w_files w !! f = Some x → (f < w_next w)%nat) ∧ (∀ k f, m !! k = Some f → (f < w_next w)%nat).

Definition names_with (w : world) (m : gmap string file_id) : Prop :=
  tree_is w m ∧ one_name m ∧ name_matches (w_files w) m ∧ ids_used w m.

(** Names in order, and [Q] of the map. *)
Definition names_such (Q : gmap string file_id → Prop) (o : option file_id) (w : world) : Prop :=
  ∃ m, names_with w m ∧ Q m.
Definition any_map (m : gmap string file_id) : Prop := True.
Abbreviation names := (names_such any_map) (only parsing).
Definition named (f : file_id) (k : string) (m : gmap string file_id) : Prop := ∀ k', m !! k' = Some f → k' = k.

Lemma names_with_core w w' m : same_core w w' → names_with w m → names_with w' m.
Proof.
  intros [Hfs Hh Hf _ Hn _] (Ht & H1 & Hm & Hi & Hj). split.
  { unfold tree_is in *. by rewrite Hfs, Hh. }
  split; [done|]. split; [by rewrite Hf|]. split.
  - intros f x Hx. rewrite Hf in Hx. specialize (Hi f x Hx). lia.
  - intros k f Hx. specialize (Hj k f Hx). lia.
Qed.

Lemma names_with_file w m f x y :
  w_files w !! f = Some x → f_name y = f_name x → names_with w m → names_with (set_files <[f := y]> w) m.
Proof.
  intros Hf Hy (Ht & H1 & Hm & Hi & Hj). split; [done|]. split; [done|]. split.
  - intros k g z Hk Hz. simpl in Hz. apply lookup_insert_Some in Hz as [[<- <-]|[_ Hz]]; [|eauto].
    rewrite Hy. eauto.
  - split; [|done]. intros g z Hz. simpl in Hz. apply lookup_insert_Some in Hz as [[<- _]|[_ Hz]]; eauto.
Qed.

Lemma names_with_free w m f : names_with w m → names_with (set_files (delete f) w) m.
Proof.
  intros (Ht & H1 & Hm & Hi & Hj). split; [done|]. split; [done|]. split.
  - intros k g z Hk Hz. simpl in Hz. apply lookup_delete_Some in Hz as [_ Hz]. eauto.
  - split; [|done]. intros g z Hz. simpl in Hz. apply lookup_delete_Some in Hz as [_ Hz]. eauto.
Qed.

(** Only the filesystem's tree, the heap, the files and the next identifier matter. *)
Lemma names_with_eq w w' m :
  w_fs w' = w_fs w → w_heap w' = w_heap w → w_files w' = w_files w → w_next w' = w_next w →
  names_with w m → names_with w' m.
Proof. unfold names_with, tree_is, ids_used. by intros -> -> -> ->. Qed.

(** *** Operations on channels and requests leave these alone *)
Definition tree_core (w : world) := (w_fs w, w_heap w, w_files w, w_next w).
Abbreviation keeps m := (∀ v, triple any_fault (λ w, tree_core w = v) m (λ _ w, tree_core w = v)) (only parsing).
#[local] Hint Extern 1 (triple _ (λ _, tree_core _ = _) (modify _) _) => apply triple_modify_same; by intros ? : vcg.

Lemma alloc_core c n : keeps (alloc_fs_request_with_iov c n).
Proof.
  intros v. unfold alloc_fs_request_with_iov, malloc_ok, chan_lock, chan_unlock, upd_chan, load_chan, load_req, store_req.
  vcg.
Qed.
Lemma free_core r : keeps (free_fs_request r).
Proof.
  intros v. unfold free_fs_request, chan_lock, chan_unlock, upd_chan, load_chan, load_req, deref. vcg.
Qed.
Lemma free_ctx_core c : keeps (spdk_fs_free_thread_ctx c).
Proof.
  intros v. unfold spdk_fs_free_thread_ctx, fs_channel_destroy, chan_lock, chan_unlock, upd_chan, load_chan. vcg.
Qed.

Class HoldsEmpty (Q : gmap string file_id → Prop) : Prop := holds_empty : Q ∅.
#[export] Instance any_map_empty : HoldsEmpty any_map.
Proof. done. Qed.
#[export] Instance named_empty f k : HoldsEmpty (named f k).
Proof. by intros ??. Qed.

Section such.
Context (Q : gmap string file_id → Prop) `{Hempty : !HoldsEmpty Q}.

Ltac same := eexists; split; [|eassumption]; eapply names_with_eq; [..|eassumption]; reflexivity.

Lemma lock_such f b (o o' : option file_id) x w :
  w_files w !! f = Some x → names_such Q o w → names_such Q o' (set_files <[f := set_f_lock b x]> w).
Proof. intros Hf (m & Hm & Hq). exists m. split; [|done]. by eapply names_with_file. Qed.

Lemma core_such {A} o (m : M world A) :
  keeps m → triple any_fault (names_such Q o) m (λ _, names_such Q o).
Proof.
  intros Hk w (mp & Hm & Hq). specialize (Hk (tree_core w) w eq_refl).
  destruct (m w) as [[a w']|e]; [|done]. exists mp. split; [|done].
  injection Hk as Hfs Hh Hf Hn. by eapply names_with_eq.
Qed.

#[export] Instance names_stable : Stable any_fault (names_such Q).
Proof.
  split.
  - intros o w w' Hc _ (m & Hm & Hq). exists m. split; [by eapply names_with_core|done].
  - intros o w f x y Hf [_ Hn] (m & Hm & Hq). exists m. split; [by eapply names_with_file|done].
  - intros o w f (m & Hm & Hq). exists m. split; [by apply names_with_free|done].
  - intros o w c x y _ _ (m & Hm & Hq). same.
  - intros o w c (m & Hm & Hq). same.
  - intros o w w' ids b Hc _ _ (m & Hm & Hq). exists m. split; [|done].
    eapply (names_with_eq w'); [reflexivity..|]. by eapply names_with_core.
  - intros o w fs fs' Hfs Heq (m & (Ht & Hm) & Hq). exists m. split; [|done]. split; [|done].
    unfold tree_is in *. rewrite Hfs in Ht. simpl. by rewrite Heq.
  - intros o w (m & (Ht & H1 & Hm & Hi & Hj) & Hq). exists ∅. split; [|done]. split.
    { split; [|done]. unfold tree_is in Ht. simpl. destruct (w_fs w); [by eapply rep_heap_ok|by destruct Ht]. }
    split; [by intros ????|]. split; [by intros ????|]. split; [done|by intros ??].
  - intros f w Hw. unfold file_lock, load_file, gets, of_option, mbind, M_bind. simpl.
    destruct (w_files w !! f) as [x|] eqn:Hf; simpl; [|done]. destruct (f_lock x); simpl; [done|].
    by eapply lock_such.
  - intros f w Hw. unfold file_trylock, load_file, gets, of_option, mbind, M_bind. simpl.
    destruct (w_files w !! f) as [x|] eqn:Hf; simpl; [|done]. destruct (f_lock x); simpl; [done|].
    by eapply lock_such.
  - intros f w Hw. unfold file_unlock, load_file, gets, of_option, mbind, M_bind. simpl.
    destruct (w_files w !! f) as [x|] eqn:Hf; simpl; [|done].
    destruct (f_lock x); simpl; [by eapply lock_such|]. destruct Hw as (m & Hm & Hq). exists m. split; [|done].
    by apply (names_with_file (set_w_bad_unlocks (S (w_bad_unlocks w)) w) m f x).
  - intros f w Hw. unfold file_unlock, load_file, gets, of_option, mbind, M_bind. simpl.
    destruct (w_files w !! f) as [x|] eqn:Hf; simpl; [|done].
    destruct (f_lock x); simpl; [by eapply lock_such|]. destruct Hw as (m & Hm & Hq). exists m. split; [|done].
    by apply (names_with_file (set_w_bad_unlocks (S (w_bad_unlocks w)) w) m f x).
  - intros o c n. apply core_such, alloc_core.
  - intros o r. apply core_such, free_core.
  - intros c. apply core_such, free_ctx_core.
Qed.

#[export] Instance names_queues : Queues (names_such Q).
Proof.
  apply core_queues. intros o w w' Hc (m & Hm & Hq). exists m. split; [by eapply names_with_core|done].
Qed.
End such.

Lemma such_any Q o w : names_such Q o w → names o w.
Proof. intros (m & Hm & _). by exists m. Qed.

(** ** The operations on the tree *)

Lemma find_exact name w m fs :
  w_fs w = Some fs → tree_is w m → fs_find_file name w = Ok (m !! name, w).
Proof.
  intros Hfs Ht. unfold tree_is in Ht. rewrite Hfs in Ht. unfold fs_find_file, load_fs, gets, of_option.
  unfold mbind at 1, M_bind at 1. unfold mbind at 1, M_bind at 1. rewrite Hfs. cbn.
  unfold on_heap, mbind, M_bind. rewrite (find_rep _ _ _ name Ht). cbn.
  destruct (m !! name); by destruct w.
Qed.

(** What [fs_find_file] returns is the entry of the map. *)
Lemma find_names name o Q :
  triple any_fault (names_such Q o) (fs_find_file name) (λ r w, ∃ m, names_with w m ∧ Q m ∧ r = m !! name).
Proof.
  intros w (m & Hm & Hq). destruct (w_fs w) as [fs|] eqn:Hfs.
  - rewrite (find_exact name w m fs Hfs) by apply Hm. eauto.
  - unfold fs_find_file, load_fs, gets, of_option, mbind, M_bind. simpl. by rewrite Hfs.
Qed.

Lemma traverse_names root o Q :
  triple any_fault (names_such Q o) (on_heap (traverse_leaves root)) (λ _, names_such Q o).
Proof.
  intros w Hw. unfold on_heap. pose proof (traverse_leaves_readonly root (w_heap w) (w_heap w) eq_refl) as Hr.
  destruct (traverse_leaves root (w_heap w)) as [[l h]|e]; [|done]. subst h.
  replace (set_w_heap (w_heap w) w) with w by (by destruct w). done.
Qed.

(** The map after an insertion that ended. *)
Lemma inserted h c root m key f root' h' :
  tree_rep h root m → B_plus_tree_insert c root key f h = Ok (root', h') → one_name m → (∀ k, m !! k ≠ Some f) →
  ∃ m', tree_rep h' root' m' ∧ one_name m' ∧ named f key m' ∧
    ∀ k g, m' !! k = Some g → m !! k = Some g ∨ (k = key ∧ g = f).
Proof.
  intros Hrep Hrun H1 Hnew. destruct (insert_any _ _ _ _ _ _ _ _ Hrep Hrun) as [Hr|[Hk Hr]].
  { exists m. split; [done|]. split; [done|]. split; [by intros k Hk%Hnew|]. by left. }
  exists (<[key := f]> m). split; [done|].
  assert (Hin : ∀ k g, <[key := f]> m !! k = Some g → m !! k = Some g ∨ (k = key ∧ g = f)).
  { intros k g Hg. apply lookup_insert_Some in Hg as [[<- <-]|[_ Hg]]; auto. }
  split; [|split; [|done]].
  - intros k1 k2 g Hg1%Hin Hg2%Hin. destruct Hg1 as [Hg1|[-> E1]], Hg2 as [Hg2|[-> E2]]; [by eapply H1|..|done].
    + subst g. by destruct (Hnew _ Hg1).
    + subst g. by destruct (Hnew _ Hg2).
  - intros k Hg%Hin. destruct Hg as [Hg|[-> _]]; [|done]. by destruct (Hnew _ Hg).
Qed.

(** A new file is not in the map, and after [file_alloc] at most under its name. *)
Lemma file_alloc_names name :
  triple any_fault (names None) (file_alloc name)
    (λ r w, match r with Some f => names_such (named f name) None w | None => names None w end).
Proof.
  unfold file_alloc.
  do 3 (eapply triple_bind; [apply malloc_ok_pres|]; intros []; cbn [negb]; [|by apply triple_ret]).
  intros w (m & (Ht & H1 & Hnm & Hi & Hj) & _).
  unfold fresh, store_file, upd_fs, load_fs, upd_file, load_file, gets, modify, of_option, mbind, M_bind. simpl.
  unfold tree_is in Ht. destruct (w_fs w) as [fs|] eqn:Hfs; simpl; [|done]. unfold on_heap. simpl.
  destruct (B_plus_tree_insert _ _ _ _ _) as [[root h]|e] eqn:Hins; simpl; [|done].
  rewrite Hfs. simpl. rewrite lookup_insert_eq. simpl.
  assert (Hnew : ∀ k, m !! k ≠ Some (w_next w)) by (intros k Hk%Hj; lia).
  destruct (inserted _ _ _ _ _ _ _ _ Ht Hins H1 Hnew) as (m' & Ht' & H1' & Hnamed & Hsub).
  exists m'. split; [|done]. split; [done|]. split; [done|]. split.
  - intros k g x Hk Hx. simpl in Hx. rewrite insert_insert_eq in Hx.
    apply lookup_insert_Some in Hx as [[<- <-]|[Hne Hx]]; [by left|].
    destruct (Hsub k g Hk) as [Hk'|[_ ->]]; [by eapply Hnm|done].
  - split; simpl.
    + intros g x Hx. rewrite insert_insert_eq in Hx.
      apply lookup_insert_Some in Hx as [[<- _]|[_ Hx]]; [lia|]. specialize (Hi g x Hx). lia.
    + intros k g Hk. destruct (Hsub k g Hk) as [Hk'|[_ ->]]; [|lia]. specialize (Hj k g Hk'). lia.
Qed.

(** Naming a file that is stored at most under that name. *)
Lemma set_name_names f name o :
  triple any_fault (names_such (named f name) o) (upd_file f (set_f_name (Some name))) (λ _, names o).
Proof.
  intros w (m & (Ht & H1 & Hnm & Hi & Hj) & Hn). unfold upd_file, load_file, gets, of_option, mbind, M_bind. simpl.
  destruct (w_files w !! f) as [x|] eqn:Hf; simpl; [|done]. exists m. split; [|done].
  split; [done|]. split; [done|]. split; [|split; [|done]].
  - intros k g y Hk Hy. simpl in Hy. apply lookup_insert_Some in Hy as [[<- <-]|[_ Hy]]; [|eauto].
    right. simpl. by rewrite (Hn k Hk).
  - intros g y Hy. simpl in Hy. apply lookup_insert_Some in Hy as [[<- _]|[_ Hy]]; eauto.
Qed.

(** Replacing the tree by one for a part of the map. *)
Lemma names_with_part w m fs h root m' :
  w_fs w = Some fs → names_with w m → tree_rep h root m' → m' ⊆ m →
  names_with (set_w_fs (Some (set_fs_files root fs)) (set_w_heap h w)) m'.
Proof.
  intros Hfs (Ht & H1 & Hnm & Hi & Hj) Hr Hsub. split; [done|]. split.
  { intros k1 k2 f Hk1 Hk2. eapply H1; by eapply lookup_weaken. }
  split; [intros k f x Hk; eapply Hnm; by eapply lookup_weaken|]. split; [done|].
  intros k f Hk. eapply Hj. by eapply lookup_weaken.
Qed.

Lemma remove_names key (rest : M world unit) o Q :
  triple any_fault (names o) rest Q →
  triple any_fault (names o)
    (fs ← load_fs; root ← on_heap (B_plus_tree_remove (fs_files fs) key); _ ← upd_fs (set_fs_files root); rest) Q.
Proof.
  intros Hrest w (m & Hm & _). unfold load_fs, upd_fs, gets, of_option, mbind, M_bind. simpl.
  destruct (w_fs w) as [fs|] eqn:Hfs; simpl; [|done]. unfold on_heap.
  pose proof Hm as (Ht & _). unfold tree_is in Ht. rewrite Hfs in Ht.
  destruct (remove_rep (w_heap w) (fs_files fs) m key Ht) as (root & h & Hrun & Hrep). rewrite Hrun. simpl.
  unfold load_fs, gets, mbind, M_bind. simpl. rewrite Hfs. simpl. apply Hrest.
  exists (delete key m). split; [|done]. eapply names_with_part; eauto. apply delete_subseteq.
Qed.

(** Moving a file found under one name to another name. *)
Lemma rename_names f x old_name name new_name (rest : M world unit) Q :
  triple any_fault (names None) rest Q →
  triple any_fault
    (λ w, ∃ m, names_with w m ∧ m !! old_name = Some f ∧ w_files w !! f = Some x ∧ f_name x = Some name)
    (fs ← load_fs;
     root ← on_heap (B_plus_tree_remove (fs_files fs) name);
     _ ← upd_fs (set_fs_files root);
     junk ← gets w_junk;
     root ← on_heap (B_plus_tree_insert junk root new_name f);
     _ ← upd_fs (set_fs_files root);
     _ ← upd_file f (set_f_name (Some new_name)); rest) Q.
Proof.
  intros Hrest w (m & Hm & Hold & Hx & Hname). pose proof Hm as (Ht & H1 & Hnm & Hi & Hj).
  unfold load_fs, upd_fs, gets, of_option, mbind, M_bind. simpl.
  destruct (w_fs w) as [fs|] eqn:Hfs; simpl; [|done]. unfold on_heap, load_fs, gets, mbind, M_bind.
  unfold tree_is in Ht. rewrite Hfs in Ht.
  destruct (Hnm _ _ _ Hold Hx) as [Hno|Hyes]; [congruence|]. rewrite Hname in Hyes. injection Hyes as ->.
  destruct (remove_rep (w_heap w) (fs_files fs) m old_name Ht) as (root & h & Hrun & Hrep). rewrite Hrun. simpl.
  rewrite Hfs. simpl.
  destruct (B_plus_tree_insert _ _ _ _ _) as [[root' h']|e] eqn:Hins; simpl; [|done].
  assert (Hsub : delete old_name m ⊆ m) by apply delete_subseteq.
  assert (Hnew : ∀ k, delete old_name m !! k ≠ Some f).
  { intros k Hk. apply lookup_delete_Some in Hk as [Hne Hk]. apply Hne. by eapply H1. }
  destruct (inserted _ _ _ _ _ _ _ _ Hrep Hins) as (m' & Ht' & H1' & Hnamed & Hin); [|done|].
  { intros k1 k2 g Hk1 Hk2. eapply H1; by eapply lookup_weaken. }
  unfold upd_file, load_file, gets, of_option, mbind, M_bind. simpl. rewrite Hx. simpl.
  apply Hrest. exists m'. split; [|done]. split; [done|]. split; [done|]. split; [|split; simpl].
  - intros k g y Hk Hy. simpl in Hy. apply lookup_insert_Some in Hy as [[<- <-]|[Hne Hy]].
    + right. simpl. by rewrite (Hnamed k Hk).
    + destruct (Hin k g Hk) as [Hk'|[_ ->]]; [|done]. eapply Hnm; [|done]. by eapply lookup_weaken.
  - intros g y Hy. apply lookup_insert_Some in Hy as [[<- _]|[_ Hy]]; eauto.
  - intros k g Hk. destruct (Hin k g Hk) as [Hk'|[_ ->]]; [|eauto]. eapply Hj. by eapply lookup_weaken.
Qed.

(** ** The handlers that use them *)
Section handlers.
Context `{HI : Invoke} (Hinvoke : ∀ fn arg o, triple any_fault (names None) (invoke fn arg o) (λ _, names None)).
#[local] Hint Resolve file_alloc_names set_name_names Hinvoke : vcg.

Lemma weaken_names {A} Q (m : M world A) R :
  triple any_fault (names None) m R → triple any_fault (names_such Q None) m R.
Proof. intros Hm. eapply triple_pre; [exact Hm|]. intros w. apply such_any. Qed.

Lemma find_names_any name o : triple any_fault (names o) (fs_find_file name) (λ _, names o).
Proof.
  eapply triple_post; [apply find_names|]. intros r w (m & Hm & _ & _). by exists m.
Qed.
#[local] Hint Resolve find_names_any : vcg.

Lemma iter_cb_names ctx b rc : triple any_fault (names None) (iter_cb ctx b rc) (λ _, names None).
Proof. unfold iter_cb. vcg. Qed.

Lemma create_names name fn arg :
  triple any_fault (names None) (spdk_fs_create_file_async name fn arg) (λ _, names None).
Proof.
  unfold spdk_fs_create_file_async. vcg. all: apply weaken_names; vcg.
Qed.

Lemma delete_names name fn arg :
  triple any_fault (names None) (spdk_fs_delete_file_async name fn arg) (λ _, names None).
Proof.
  unfold spdk_fs_delete_file_async. repeat first [apply remove_names | vcg_step].
Qed.

Lemma md_rename_names req : triple any_fault (names None) (_fs_md_rename_file req) (λ _, names None).
Proof.
  unfold _fs_md_rename_file. do 2 (vcg_step; [vcg|]; vcg_step). vcg_step. vcg_step; [apply find_names|].
  intros [f|]; [|eapply triple_pre; [vcg|]; intros w (m & Hm & _); by exists m].
  eapply triple_bind with (R := λ x w, ∃ m, names_with w m ∧ m !! s = Some f ∧ w_files w !! f = Some x).
  { intros w (m & Hm & _ & Hold). unfold load_file, gets, of_option, mbind, M_bind. simpl.
    destruct (w_files w !! f) as [x|] eqn:Hx; [|done]. by exists m. }
  intros x. eapply triple_bind; [by apply triple_of_option|]. intros name.
  eapply triple_pre; [apply (rename_names f x s name s0)|].
  - vcg.
  - intros w (Hname & m & Hm & Hold & Hx). by exists m.
Qed.
End handlers.

(** A fresh tree for a fresh filesystem. *)
Lemma fs_alloc_names direct :
  triple any_fault (λ w, w_fs w = None ∧ names None w) (fs_alloc direct) (λ _, names None).
Proof.
  unfold fs_alloc. eapply triple_bind with (R := λ _ w, w_fs w = None ∧ names None w).
  { intros w [Hfs Hn]. pose proof (malloc_ok_pres (E := any_fault) None w Hn) as Hp.
    unfold malloc_ok, gets, modify, mbind, M_bind in *. by destruct (w_malloc w). }
  intros []; cbn [negb]; [|apply triple_ret; by intros w []].
  eapply triple_bind with (R := λ files w, ∃ m, names_with (set_w_fs None w) m ∧ tree_rep (w_heap w) (Some files) ∅).
  { intros w [Hfs (m & (Ht & Hm) & _)]. unfold tree_is in Ht. rewrite Hfs in Ht. destruct Ht as [Hok ->].
    unfold on_heap. destruct (initial_rep (w_heap w) Hok) as (r & h & Hrun & Hrep). rewrite Hrun.
    exists ∅. split; [|done]. split; [|done]. split; [by apply (rep_heap_ok h (Some r) ∅)|done]. }
  intros files. eapply triple_bind with (R := λ _, names None); [|vcg].
  intros w (m & ((_ & ->) & H1 & Hnm & Hi) & Hrep). exists ∅. by split.
Qed.

#[export] Instance names_ops : StableNames any_fault names.
Proof.
  split.
  - intros o name. apply find_names_any.
  - intros o root. apply traverse_names.
  - apply fs_alloc_names.
  - intros. by apply iter_cb_names.
  - intros. by apply create_names.
  - intros. by apply delete_names.
  - intros. by apply md_rename_names.
Qed.

Lemma names_initial bs mem next malloc junk : names None (initial_world bs mem next malloc junk).
Proof.
  exists ∅. split; [|done]. split; [split; [|done]; intros l [? Hl]; done|].
  split; [by intros ????|]. split; [by intros ????|]. split; [|by intros ??].
  intros f x Hf. simpl in Hf. by rewrite lookup_empty in Hf.
Qed.

(** C2. Whatever the clients, the blobstore and the threads do, in every reachable
    state of a mounted filesystem the tree of files stands for a finite map from
    names to files, in which every file occurs once, under the name it carries
    (unless it has none yet), and every lookup by name is answered from that
    map. *)
Theorem namespace_invariant s fs :
  reachable s → w_fs (sys_world s) = Some fs →
  ∃ m : gmap string file_id,
    tree_rep (w_heap (sys_world s)) (fs_files fs) m ∧
    (∀ k1 k2 f, m !! k1 = Some f → m !! k2 = Some f → k1 = k2) ∧
    (∀ k f x, m !! k = Some f → w_files (sys_world s) !! f = Some x → f_name x = None ∨ f_name x = Some k) ∧
    (∀ name, fs_find_file name (sys_world s) = Ok (m !! name, sys_world s)).
Proof.
  intros Hs Hfs. destruct (reachable_inv names_initial s Hs) as (m & Hm & _).
  pose proof Hm as (Ht & H1 & Hnm & _). exists m. unfold tree_is in Ht. rewrite Hfs in Ht.
  repeat split; [done|done|done|]. intros name. apply (find_exact name _ m fs Hfs).
  unfold tree_is. by rewrite Hfs.
Qed.
