(* ===== verification/FsTyped.v ===== *)
(** * Callbacks are called with what they take

    The code passes functions and [void *] arguments around; C does not check that
    the function a completion calls has the parameters it is called with.  Every
    blobstore call and every message in flight is well typed, in the sense of
    [takes] and [arg_of] of FsInv. *)
From S2P Require Import Prelude Triple BPlusTree CacheTree Quiet FsState FsPrim FsFile FsMeta FsData FsSync FsLoop.
From S2P Require Import FsInv FsInvOps FsLoose.
Local Open Scope Z_scope.

Definition typed (o : option file_id) (w : world) : Prop :=
  (∀ p, p ∈ w_calls w → call_typed p) ∧ (∀ m, m ∈ w_msgs w → msg_typed m) ∧ (∀ m, m ∈ w_cache_msgs w → msg_typed m).

(** Faults of any kind: the types are kept whatever goes wrong. *)
Definition some_fault (e : fault) : Prop := True.
#[export] Instance faults_some_fault : Faults some_fault.
Proof. by intros e He. Qed.

Lemma typed_queues o o' w w' : same_queues w w' → typed o w → typed o' w'.
Proof. intros (Hc & Hm & Hk). unfold typed. by rewrite Hc, Hm, Hk. Qed.

(** What an operation that leaves the queues alone does to the types: nothing. *)
Definition queues (w : world) := (w_calls w, w_msgs w, w_cache_msgs w).
Abbreviation keeps m := (∀ v, triple some_fault (λ w, queues w = v) m (λ _ w, queues w = v)) (only parsing).
#[local] Hint Extern 1 (triple _ (λ _, queues _ = _) (modify _) _) => apply triple_modify_same; by intros ? : vcg.

Lemma keeps_typed {A} o (m : M world A) (f : A → option file_id) :
  keeps m → triple some_fault (typed o) m (λ a, typed (f a)).
Proof.
  intros Hk w Hw. specialize (Hk (queues w) w eq_refl). destruct (m w) as [[a w']|e]; [|done].
  injection Hk as Hc Hm Hcm. eapply typed_queues, Hw. by split.
Qed.

Lemma lock_keeps f : keeps (file_lock f).
Proof. intros v. unfold file_lock, load_file, store_file. vcg. Qed.
Lemma trylock_keeps f : keeps (file_trylock f).
Proof. intros v. unfold file_trylock, load_file, store_file. vcg. Qed.
Lemma unlock_keeps f : keeps (file_unlock f).
Proof. intros v. unfold file_unlock, load_file, store_file. vcg. Qed.
Lemma alloc_keeps c n : keeps (alloc_fs_request_with_iov c n).
Proof.
  intros v. unfold alloc_fs_request_with_iov, malloc_ok, chan_lock, chan_unlock, upd_chan, load_chan, load_req, store_req. vcg.
Qed.
Lemma free_keeps r : keeps (free_fs_request r).
Proof. intros v. unfold free_fs_request, chan_lock, chan_unlock, upd_chan, load_chan, load_req, deref. vcg. Qed.
Lemma free_ctx_keeps c : keeps (spdk_fs_free_thread_ctx c).
Proof. intros v. unfold spdk_fs_free_thread_ctx, fs_channel_destroy, chan_lock, chan_unlock, upd_chan, load_chan. vcg. Qed.

#[export] Instance typed_stable : Stable some_fault typed.
Proof.
  split; intros; try (eapply typed_queues; [|eassumption]; done).
  - apply (keeps_typed None _ (λ _, Some f)), lock_keeps.
  - apply (keeps_typed None _ (λ b : bool, if b then Some f else None)), trylock_keeps.
  - apply (keeps_typed (Some f) _ (λ _, None)), unlock_keeps.
  - apply (keeps_typed None _ (λ _, None)), unlock_keeps.
  - apply (keeps_typed o _ (λ _, o)), alloc_keeps.
  - apply (keeps_typed o _ (λ _, o)), free_keeps.
  - apply (keeps_typed None _ (λ _, None)), free_ctx_keeps.
Qed.

#[export] Instance typed_in_flight : Queues typed.
Proof.
  split; intros o w l Hl (Hc & Hm & Hk); (split; [|split]); try done; simpl; intros x [Hx|Hx]%Hl; auto.
Qed.

#[export] Instance typed_loose : Loose some_fault typed.
Proof. split; [apply _|apply _|..]; intros; by eapply typed_queues; [|eassumption]. Qed.

(** [takes] is what the code's calls through function pointers ask for. *)
Lemma takes_dispatch fn o :
  takes fn o = false ↔ ∀ `{Invoke} arg w, dispatch fn arg o w = Fault TypeConfusion.
Proof.
  split; [by destruct fn, o; try discriminate|]. intros Hd. destruct (takes fn o) eqn:Ht; [|done].
  specialize (Hd invoke_depth VNull (initial_world (mk_blobstore 0 0 None ∅) ∅ 0 [] 0)).
  destruct fn, o; try discriminate Ht; discriminate Hd.
Qed.

Lemma typed_initial bs mem next malloc junk : typed None (initial_world bs mem next malloc junk).
Proof. split; [|split]; intros x Hx; by apply not_elem_of_nil in Hx. Qed.

(** C16. In every reachable state, whatever the blobstore answers to a pending call,
    the function it calls back has the parameters the answer comes with and is
    given a request; every message names a function of one pointer and carries the
    kind of object that this function casts it to; and [takes] is exact: the calls
    it rules out are those that run a function on arguments of other types. *)
Theorem callbacks_typed s :
  reachable s →
  (∀ p id rc, p ∈ w_calls (sys_world s) →
     takes (p_cb p) (bs_outcome (p_call p) id rc) = true ∧ ∃ r, p_arg p = VReq r) ∧
  (∀ fn arg, (fn, arg) ∈ w_msgs (sys_world s) ++ w_cache_msgs (sys_world s) → takes fn (Op 0) = true ∧ arg_of fn arg) ∧
  (∀ fn o, takes fn o = false ↔ ∀ `{Invoke} arg w, dispatch fn arg o w = Fault TypeConfusion).
Proof.
  intros Hs. destruct (reachable_inv typed_initial s Hs) as (Hc & Hm & Hk). split; [|split; [|exact takes_dispatch]].
  - intros p id rc Hp. destruct (Hc p Hp) as [Ht Ha]. by split.
  - intros fn arg [Hin|Hin]%elem_of_app; [exact (Hm _ Hin)|exact (Hk _ Hin)].
Qed.
