(* ===== verification/FsExec.v ===== *)
(** * Running operations symbolically

    Equations for the primitives on a world that has the objects they use, and
    the tactic [exec], which runs an operation as far as these equations go. *)
From S2P Require Import Prelude Triple BPlusTree BPlusTreeSpec BPlusTreeFind CacheTree FsState FsPrim FsRequests.
From S2P Require Import FsFile FsMeta FsData FsSync FsLoop.
Local Open Scope Z_scope.

(** A client's callback is recorded. *)
Definition note (n : nat) (o : outcome) (w : world) : world := set_w_done (w_done w ++ [(n, o)]) w.
Class Clients `{Invoke} : Prop :=
  invoke_user n arg o w : invoke (CbUser n) arg o w = Ok (tt, note n o w).
#[export] Instance clients_n n : @Clients (invoke_n (S n)).
Proof. by intros m arg o w. Qed.
#[export] Instance clients_depth : Clients.
Proof. by intros m arg o w. Qed.

Definition put_file (f : file_id) (x : file) (w : world) : world := set_w_files (<[f := x]> (w_files w)) w.
Definition put_call (c : bs_call) (cb : callback) (arg : void_ptr) (w : world) : world :=
  set_w_calls (w_calls w ++ [mk_pending c cb arg]) w.

Lemma load_fs_eq w fs : w_fs w = Some fs → load_fs w = Ok (fs, w).
Proof. intros H. unfold load_fs, gets, mbind, M_bind. by rewrite H. Qed.
Lemma load_file_eq w f x : w_files w !! f = Some x → load_file f w = Ok (x, w).
Proof. intros H. unfold load_file, gets, mbind, M_bind. by rewrite H. Qed.
Lemma load_req_eq w r x : w_reqs w !! r = Some x → load_req r w = Ok (x, w).
Proof. intros H. unfold load_req, gets, mbind, M_bind. by rewrite H. Qed.
Lemma load_blob_eq w b x : bs_blobs (w_bs w) !! b = Some x → load_blob b w = Ok (x, w).
Proof. intros H. unfold load_blob, gets, mbind, M_bind. by rewrite H. Qed.
Lemma upd_file_eq w f x g : w_files w !! f = Some x → upd_file f g w = Ok (tt, put_file f (g x) w).
Proof. intros H. unfold upd_file. by rewrite (bind_Ok _ _ _ _ _ (load_file_eq _ _ _ H)). Qed.
Lemma upd_req_eq w r x g : w_reqs w !! r = Some x → upd_req r g w = Ok (tt, put_req r (g x) w).
Proof. intros H. unfold upd_req. by rewrite (bind_Ok _ _ _ _ _ (load_req_eq _ _ _ H)). Qed.
Lemma upd_fs_eq w fs g : w_fs w = Some fs → upd_fs g w = Ok (tt, set_w_fs (Some (g fs)) w).
Proof. intros H. unfold upd_fs. by rewrite (bind_Ok _ _ _ _ _ (load_fs_eq _ _ H)). Qed.
Lemma of_option_eq {A} e (o : option A) a (w : world) : o = Some a → of_option e o w = Ok (a, w).
Proof. by intros ->. Qed.

(** What [fs_find_file] finds in a tree that stands for [m]. *)
Lemma find_file_eq w fs m name :
  w_fs w = Some fs → tree_rep (w_heap w) (fs_files fs) m → fs_find_file name w = Ok (m !! name, w).
Proof.
  intros Hfs Ht. unfold fs_find_file. rewrite (bind_Ok _ _ _ _ _ (load_fs_eq _ _ Hfs)).
  unfold on_heap, mbind, M_bind. rewrite (find_rep _ _ _ name Ht). cbn. destruct (m !! name); by destruct w.
Qed.

(** ** A metadata channel that is ready *)

(** The filesystem, its metadata channel with a free request on top. *)
Record ready (w : world) (fs : filesystem) (c : chan_id) (ch : channel) (r : req_id) (rest : list req_id) : Prop := {
  rd_fs : w_fs w = Some fs;
  rd_md : fs_md_channel fs = Some c;
  rd_chan : w_chans w !! c = Some ch;
  rd_unlocked : c_lock ch = false;
  rd_reqs : c_reqs ch = r :: rest;
  rd_live : is_Some (w_reqs w !! r)
}.
(** The world once the request is taken. *)
Definition took (c : chan_id) (ch : channel) (r : req_id) (rest : list req_id) (w : world) : world :=
  put_req r (fresh_request c 0) (put_chan c (take_head rest ch) w).

Lemma alloc_ready w fs c ch r rest :
  ready w fs c ch r rest → alloc_fs_request c w = Ok (Some r, took c ch r rest w).
Proof. intros [? ? ? ? ? [x ?]]. by eapply alloc_fs_request_spec. Qed.

Lemma put_req_twice r x y w : put_req r x (put_req r y w) = put_req r x w.
Proof. unfold put_req. simpl. by rewrite insert_insert_eq. Qed.
Lemma put_file_twice f x y w : put_file f x (put_file f y w) = put_file f x w.
Proof. unfold put_file. simpl. by rewrite insert_insert_eq. Qed.

(** Run the next primitive, given the lookups it needs. *)
Ltac lookups := simpl; rewrite ?lookup_insert_eq; eauto; congruence.
Ltac exec_step :=
  cbv beta;
  lazymatch goal with
  | |- context [(mret ?a ≫= ?f) ?w] => rewrite (bind_ret a f w)
  | |- context [(deref (Some ?a) ≫= ?f) ?w] => change ((deref (Some a) ≫= f) w) with (f a w)
  | |- context [(gets ?g ≫= ?f) ?w] => change ((gets g ≫= f) w) with (f (g w) w)
  | |- context [(modify ?g ≫= ?f) ?w] => change ((modify g ≫= f) w) with (f tt (g w))
  | |- context [(load_fs ≫= ?f) ?w] => erewrite (bind_Ok load_fs f w) by (apply load_fs_eq; lookups)
  | |- context [(load_file ?i ≫= ?f) ?w] => erewrite (bind_Ok (load_file i) f w) by (apply load_file_eq; lookups)
  | |- context [(load_req ?i ≫= ?f) ?w] => erewrite (bind_Ok (load_req i) f w) by (apply load_req_eq; lookups)
  | |- context [(upd_file ?i ?g ≫= ?f) ?w] => erewrite (bind_Ok (upd_file i g) f w) by (apply upd_file_eq; lookups)
  | |- context [(upd_req ?i ?g ≫= ?f) ?w] => erewrite (bind_Ok (upd_req i g) f w) by (apply upd_req_eq; lookups)
  | |- context [(upd_fs ?g ≫= ?f) ?w] => erewrite (bind_Ok (upd_fs g) f w) by (apply upd_fs_eq; lookups)
  | |- context [(load_chan ?i ≫= ?f) ?w] => erewrite (bind_Ok (load_chan i) f w) by (apply load_chan_spec; lookups)
  end.
Ltac exec := repeat (exec_step; cbv beta).
