(* ===== verification/FsRanges.v ===== *)
(** * Blocks, clusters and cache buffers

    The arithmetic of lib/NBFS/NBFS.c on byte ranges, within 64 bits. *)
From S2P Require Import Prelude BPlusTree CacheTree FsState FsPrim FsFile FsMeta FsData.
Local Open Scope Z_scope.

Lemma div_bounds a b : 0 < b → a / b * b <= a < (a / b + 1) * b.
Proof. intros Hb. pose proof (Z.div_mod a b ltac:(lia)). pose proof (Z.mod_pos_bound a b Hb). lia. Qed.

Lemma mul_lt_cancel a b d : 0 < d → a * d < b * d → a < b.
Proof. intros Hd H. by apply (Z.mul_lt_mono_pos_r d). Qed.

Lemma page_cover k offset length start_lba num_lba :
  let lba_size := 2 ^ k in
  0 <= k → 0 <= offset → 0 < length → offset + length < 2 ^ 64 →
  page_parameters lba_size offset length = (start_lba, num_lba) →
  start_lba * lba_size <= offset < (start_lba + 1) * lba_size ∧
  (start_lba + num_lba - 1) * lba_size < offset + length <= (start_lba + num_lba) * lba_size ∧
  offset - start_lba * lba_size = Z.land offset (lba_size - 1) ∧
  Z.land offset (lba_size - 1) + length <= num_lba * lba_size.
Proof.
  intros lba Hk Ho Hl Hsum. unfold page_parameters.
  assert (Hlba : 0 < lba) by (by apply Z.pow_pos_nonneg).
  rewrite (u64_small (offset + length - 1)) by lia.
  set (s := offset / lba). set (e := (offset + length - 1) / lba).
  pose proof (div_bounds offset lba Hlba) as Hs. pose proof (div_bounds (offset + length - 1) lba Hlba) as He.
  fold s in Hs. fold e in He.
  assert (Hse : s <= e) by (apply Z.div_le_mono; lia).
  assert (0 <= s) by (apply Z.div_pos; lia).
  assert (e <= offset + length - 1) by (apply Z.div_le_upper_bound; nia).
  rewrite (u64_small (e - s + 1)) by lia. intros [= <- <-].
  replace (s + (e - s + 1) - 1) with e by lia. replace (s + (e - s + 1)) with (e + 1) by lia.
  assert (Hand : Z.land offset (lba - 1) = offset - s * lba).
  { unfold lba. rewrite Z.sub_1_r, <- Z.ones_equiv, Z.land_ones by lia. unfold s, lba.
    rewrite Z.mod_eq by lia. lia. }
  rewrite Hand. repeat split; lia.
Qed.

(** C32. [__get_page_parameters]: the blocks [start_lba], ..., [start_lba +
    num_lba - 1] are the least range of blocks that contains the bytes, and the
    bytes fit in a buffer of [num_lba * lba_size] bytes at the offset that
    [__read_done] and [__readvwritev] compute with a mask. *)
Theorem page_parameters_cover k offset length start_lba num_lba :
  let lba_size := 2 ^ k in
  0 <= k → 0 <= offset → 0 < length → offset + length < 2 ^ 64 →
  page_parameters lba_size offset length = (start_lba, num_lba) →
  start_lba * lba_size <= offset < (start_lba + 1) * lba_size ∧
  (start_lba + num_lba - 1) * lba_size < offset + length <= (start_lba + num_lba) * lba_size ∧
  offset - start_lba * lba_size = Z.land offset (lba_size - 1) ∧
  Z.land offset (lba_size - 1) + length <= num_lba * lba_size.
Proof. apply page_cover. Qed.

Lemma page_parameters_cover_witness :
  let r := page_parameters 512 1000 2000 in
  r = (1, 5) ∧
  (1 * 512 <= 1000 < 2 * 512 ∧ (1 + 5 - 1) * 512 < 1000 + 2000 <= (1 + 5) * 512 ∧
   1000 - 1 * 512 = Z.land 1000 (512 - 1) ∧ Z.land 1000 (512 - 1) + 2000 <= 5 * 512).
Proof. split; [reflexivity|]. apply (page_parameters_cover 9 1000 2000 1 5); [lia..|reflexivity]. Defined.

(** [__bytes_to_clusters] is the least number of clusters that holds
    [length] bytes, as long as the sum does not wrap. *)
Theorem bytes_to_clusters_least length cluster_sz :
  0 < cluster_sz → 0 <= length → length + cluster_sz <= 2 ^ 64 →
  let n := __bytes_to_clusters length cluster_sz in
  0 <= n ∧ length <= n * cluster_sz ∧ ∀ m, length <= m * cluster_sz → n <= m.
Proof.
  intros Hc Hl Hs n. unfold n, __bytes_to_clusters. rewrite u64_small by lia.
  pose proof (div_bounds (length + cluster_sz - 1) cluster_sz Hc) as Hd.
  split; [apply Z.div_pos; lia|]. split; [lia|]. intros m Hm.
  apply Z.lt_succ_r. apply (mul_lt_cancel _ _ cluster_sz); lia.
Qed.

Lemma bytes_to_clusters_least_witness :
  0 <= __bytes_to_clusters 1048577 1048576 ∧
  1048577 <= __bytes_to_clusters 1048577 1048576 * 1048576 ∧
  ∀ m, 1048577 <= m * 1048576 → __bytes_to_clusters 1048577 1048576 <= m.
Proof. apply (bytes_to_clusters_least 1048577 1048576); lia. Defined.

(** C33. [__next_cache_buffer_offset] and [NEXT_CACHE_BUFFER_OFFSET] both give
    the first multiple of the cache buffer size beyond [offset]. *)
Theorem next_cache_buffer_offset_correct offset :
  0 <= offset → offset + CACHE_BUFFER_SIZE < 2 ^ 64 →
  let n := __next_cache_buffer_offset offset in
  n mod CACHE_BUFFER_SIZE = 0 ∧ offset < n <= offset + CACHE_BUFFER_SIZE ∧
  NEXT_CACHE_BUFFER_OFFSET offset = n.
Proof.
  intros Ho Hs n. change CACHE_BUFFER_SIZE with (2 ^ 18) in *.
  unfold n, __next_cache_buffer_offset, NEXT_CACHE_BUFFER_OFFSET. change CACHE_BUFFER_SIZE with (2 ^ 18).
  rewrite u64_small by lia.
  change (2 ^ 18 - 1) with (Z.ones 18). rewrite Z.ldiff_ones_r by lia.
  rewrite Z.shiftl_mul_pow2, Z.shiftr_div_pow2 by lia.
  pose proof (div_bounds (offset + 2 ^ 18) (2 ^ 18) ltac:(lia)) as Hd.
  split; [apply Z.mod_mul; lia|]. split; [lia|].
  change CACHE_BUFFER_SHIFT with 18. by rewrite Z.shiftl_mul_pow2, Z.shiftr_div_pow2 by lia.
Qed.

Lemma next_cache_buffer_offset_correct_witness :
  __next_cache_buffer_offset 300000 mod CACHE_BUFFER_SIZE = 0 ∧
  300000 < __next_cache_buffer_offset 300000 <= 300000 + CACHE_BUFFER_SIZE ∧
  NEXT_CACHE_BUFFER_OFFSET 300000 = __next_cache_buffer_offset 300000.
Proof. apply (next_cache_buffer_offset_correct 300000); vm_compute; congruence. Defined.
