(* ===== verification/FsCopy.v ===== *)
(** * Scatter and gather

    What _copy_iovs_to_buf and _copy_buf_to_iovs of lib/NBFS/NBFS.c do to memory,
    byte by byte. *)
From S2P Require Import Prelude BPlusTree CacheTree FsState FsPrim FsFile FsMeta FsData.
Local Open Scope Z_scope.

(** [n] bytes of an object from [off] on. *)
Definition bytes (d : Z → Z) (off n : Z) : list Z := (λ i, d (off + i)) <$> seqZ 0 n.

Lemma bytes_length d off n : length (bytes d off n) = Z.to_nat n.
Proof. unfold bytes. rewrite length_fmap. apply length_seqZ. Qed.

Lemma bytes_lookup d off n i : 0 <= i < n → bytes d off n !! Z.to_nat i = Some (d (off + i)).
Proof.
  intros Hi. unfold bytes. rewrite list_lookup_fmap, lookup_seqZ_lt by lia. simpl. do 2 f_equal. lia.
Qed.

Lemma bytes_ext d d' off off' n :
  (∀ i, 0 <= i < n → d (off + i) = d' (off' + i)) → bytes d off n = bytes d' off' n.
Proof.
  intros H. unfold bytes. apply list_fmap_ext. intros k i Hk.
  apply lookup_seqZ in Hk as [-> Hk]. apply H. lia.
Qed.

Lemma bytes_app d off n m : 0 <= n → 0 <= m → bytes d off (n + m) = bytes d off n ++ bytes d (off + n) m.
Proof.
  intros Hn Hm. unfold bytes. rewrite seqZ_app by done. rewrite fmap_app. f_equal.
  rewrite Z.add_0_l. rewrite <- (Z.add_0_r n) at 1. rewrite <- fmap_add_seqZ, <- list_fmap_compose.
  apply list_fmap_ext. intros k i _. simpl. f_equal. lia.
Qed.

(** The byte at an address of the clients' memory. *)
Definition byte (mem : gmap nat (Z → Z)) (o : obj_id) (j : Z) : option Z := (λ d, d j) <$> mem !! o.

(** The bytes an I/O vector describes, one after the other. *)
Definition iov_bytes (mem : gmap nat (Z → Z)) (v : iovec) : option (list Z) :=
  match iov_base v with
  | PMem o off => d ← mem !! o; Some (bytes d off (iov_len v))
  | PBuf _ _ => None
  end.
Fixpoint iovs_bytes (mem : gmap nat (Z → Z)) (iovs : list iovec) : option (list Z) :=
  match iovs with
  | [] => Some []
  | v :: iovs' => l ← iov_bytes mem v; l' ← iovs_bytes mem iovs'; Some (l ++ l')
  end.
Definition total (iovs : list iovec) : Z := foldr (λ v n, iov_len v + n) 0 iovs.
Definition covers (v : iovec) (o : obj_id) (j : Z) : Prop :=
  ∃ off, iov_base v = PMem o off ∧ off <= j < off + iov_len v.
(** Vectors of non-negative lengths that do not touch object [pin]. *)
Definition iov_ok (pin : obj_id) (v : iovec) : Prop :=
  0 <= iov_len v ∧ ∃ o off, iov_base v = PMem o off ∧ o ≠ pin.
Definition disjoint_iovs (v v' : iovec) : Prop := ∀ o j, covers v o j → covers v' o j → False.

Lemma iov_bytes_ext mem mem' v :
  (∀ o j, covers v o j → byte mem' o j = byte mem o j) →
  (∀ o off, iov_base v = PMem o off → is_Some (mem !! o) → is_Some (mem' !! o)) →
  is_Some (iov_bytes mem v) → iov_bytes mem' v = iov_bytes mem v.
Proof.
  intros Hb Hd [l Hl]. unfold iov_bytes, covers, byte in *.
  destruct (iov_base v) as [o off|]; [|done]. destruct (mem !! o) as [d|] eqn:Ho; [|done].
  destruct (Hd o off eq_refl) as [d' Ho']; [by eexists|]. rewrite Ho'. simpl. f_equal. apply bytes_ext.
  intros i Hi. assert (Hbi : byte mem' o (off + i) = byte mem o (off + i)).
  { apply Hb. exists off. split; [done|lia]. }
  unfold byte in Hbi. rewrite Ho, Ho' in Hbi. by injection Hbi.
Qed.

Lemma total_nonneg pin iovs : Forall (iov_ok pin) iovs → 0 <= total iovs.
Proof. induction 1 as [|v iovs [Hv _] _ IH]; simpl; lia. Qed.

Lemma iovs_bytes_length mem pin iovs l :
  Forall (iov_ok pin) iovs → iovs_bytes mem iovs = Some l → Z.of_nat (length l) = total iovs.
Proof.
  intros Hf. revert l. induction Hf as [|v iovs [Hv (o & off & Hb & _)] _ IH]; intros l Hl; simpl in *.
  { by injection Hl as <-. }
  unfold iov_bytes in Hl. rewrite Hb in Hl. destruct (mem !! o) as [d|]; [|done]. simpl in Hl.
  destruct (iovs_bytes mem iovs) as [l'|]; [|done]. injection Hl as <-.
  rewrite length_app, bytes_length. specialize (IH l' eq_refl). lia.
Qed.

(** ** Gathering *)
Lemma gather pin iovs : ∀ off n w data d0,
  Forall (iov_ok pin) iovs → iovs_bytes (w_mem w) iovs = Some data → w_mem w !! pin = Some d0 → total iovs <= n →
  ∃ d', _copy_iovs_to_buf (PMem pin off) n iovs w = Ok (tt, set_w_mem (<[pin := d']> (w_mem w)) w) ∧
    bytes d' off (total iovs) = data ∧
    (∀ j, ¬ (off <= j < off + total iovs) → d' j = d0 j).
Proof.
  induction iovs as [|v iovs IH]; intros off n w data d0 Hok Hdata Hpin Hn; simpl in *.
  { injection Hdata as <-. exists d0. split; [|done]. rewrite insert_id by done. by destruct w. }
  apply Forall_cons in Hok as [[Hlen (o & voff & Hbase & Hne)] Hok].
  pose proof (total_nonneg pin iovs Hok) as Htot.
  unfold iov_bytes in Hdata. rewrite Hbase in *. destruct (w_mem w !! o) as [d|] eqn:Ho; [|done]. simpl in Hdata.
  destruct (iovs_bytes (w_mem w) iovs) as [rest|] eqn:Hrest; [|done]. injection Hdata as <-.
  rewrite Z.min_l by lia.
  unfold memcpy, read_ptr, write_ptr, gets, of_option, mbind, M_bind. simpl. rewrite Ho. simpl. rewrite Hpin. simpl.
  rewrite bool_decide_eq_true_2 by lia. simpl.
  set (d1 := splice d0 off (iov_len v) (λ i, d (voff + i))).
  set (w1 := set_w_mem (<[pin:=d1]> (w_mem w)) w).
  assert (Hrest1 : iovs_bytes (w_mem w1) iovs = Some rest).
  { rewrite <- Hrest. clear -Hok Hrest. revert rest Hrest.
    induction Hok as [|u us (Hu & o' & off' & Hb & Ho') Hus IHu]; intros rest Hrest; [done|]. simpl in *.
    unfold iov_bytes in *. rewrite Hb in *. simpl. rewrite lookup_insert_ne by done.
    destruct (w_mem w !! o'); [|done]. simpl in *.
    destruct (iovs_bytes (w_mem w) us) as [l|]; [|done]. by rewrite (IHu l eq_refl). }
  destruct (IH (off + iov_len v) (n - iov_len v) w1 rest d1 Hok Hrest1) as (d' & Hrun & Hbytes & Hout);
    [apply lookup_insert_eq|lia|].
  exists d'. split.
  { rewrite Hrun. unfold w1. simpl. by rewrite insert_insert_eq. }
  split.
  - rewrite bytes_app by lia. rewrite Hbytes. f_equal. apply bytes_ext. intros i Hi.
    rewrite Hout by lia. unfold d1, splice. rewrite decide_True by lia. do 2 f_equal. lia.
  - intros j Hj. rewrite Hout by lia. unfold d1, splice. by rewrite decide_False by lia.
Qed.

(** ** Scattering *)
(** Whether the vectors can be read depends on the objects that exist only. *)
Lemma iovs_bytes_live pin iovs m1 m2 :
  Forall (iov_ok pin) iovs → (∀ o, is_Some (m2 !! o) ↔ is_Some (m1 !! o)) →
  is_Some (iovs_bytes m1 iovs) → is_Some (iovs_bytes m2 iovs).
Proof.
  intros Hok Hlive. induction Hok as [|u us (Hu & o & off & Hb & _) Hus IH]; intros Hs; [done|]. simpl in *.
  unfold iov_bytes in *. rewrite Hb in *. destruct (m1 !! o) as [x|] eqn:Ho; [|by destruct Hs].
  destruct (proj2 (Hlive o)) as [y Hy]; [rewrite Ho; by eexists|]. rewrite Hy. simpl in *.
  destruct (iovs_bytes m1 us) as [l|]; [|by destruct Hs]. destruct IH as [l' ->]; [by eexists|]. by eexists.
Qed.

Lemma scatter pin iovs : ∀ off n w d0,
  Forall (iov_ok pin) iovs → ForallOrdPairs disjoint_iovs iovs → is_Some (iovs_bytes (w_mem w) iovs) →
  w_mem w !! pin = Some d0 → total iovs <= n →
  ∃ mem', _copy_buf_to_iovs iovs (PMem pin off) n w = Ok (tt, set_w_mem mem' w) ∧
    iovs_bytes mem' iovs = Some (bytes d0 off (total iovs)) ∧
    (∀ o j, ¬ (∃ v, v ∈ iovs ∧ covers v o j) → byte mem' o j = byte (w_mem w) o j) ∧
    (∀ o, is_Some (mem' !! o) ↔ is_Some (w_mem w !! o)).
Proof.
  induction iovs as [|v iovs IH]; intros off n w d0 Hok Hdis Hsome Hpin Hn; simpl in *.
  { exists (w_mem w). split; [by destruct w|]. done. }
  apply Forall_cons in Hok as [[Hlen (o & voff & Hbase & Hne)] Hok].
  pose proof (total_nonneg pin iovs Hok) as Htot. inversion Hdis as [|? ? Hv Hdis']; subst.
  unfold iov_bytes in Hsome. rewrite Hbase in *.
  destruct (w_mem w !! o) as [d|] eqn:Ho; [|by destruct Hsome]. simpl in Hsome.
  destruct (iovs_bytes (w_mem w) iovs) as [rest|] eqn:Hrest; [|by destruct Hsome].
  rewrite Z.min_l by lia.
  unfold memcpy, read_ptr, write_ptr, gets, of_option, mbind, M_bind. simpl. rewrite Hpin. simpl. rewrite Ho. simpl.
  rewrite bool_decide_eq_true_2 by lia. simpl.
  set (d1 := splice d voff (iov_len v) (λ i, d0 (off + i))).
  set (w1 := set_w_mem (<[o:=d1]> (w_mem w)) w).
  assert (Hlive : ∀ o', is_Some (w_mem w1 !! o') ↔ is_Some (w_mem w !! o')).
  { intros o'. simpl. destruct (decide (o = o')) as [<-|Hne'].
    - rewrite lookup_insert_eq, Ho. split; by eexists.
    - by rewrite lookup_insert_ne. }
  assert (Hsome1 : is_Some (iovs_bytes (w_mem w1) iovs)) by (eapply iovs_bytes_live; [done|exact Hlive|by eexists]).
  destruct (IH (off + iov_len v) (n - iov_len v) w1 d0 Hok Hdis' Hsome1) as (mem' & Hrun & Hbytes & Hout & Hlive');
    [simpl; by rewrite lookup_insert_ne|lia|].
  exists mem'. split; [by rewrite Hrun|].
  assert (Hmem1 : ∀ o' j, ¬ covers v o' j → byte (w_mem w1) o' j = byte (w_mem w) o' j).
  { intros o' j Hc. unfold byte. simpl. destruct (decide (o = o')) as [<-|Hne'].
    - rewrite lookup_insert_eq, Ho. simpl. f_equal. unfold d1, splice. rewrite decide_False; [done|].
      intros Hj. apply Hc. by exists voff.
    - by rewrite lookup_insert_ne. }
  split; [|split].
  - rewrite Hbytes. rewrite bytes_app by lia.
    assert (iov_bytes mem' v = Some (bytes d0 off (iov_len v))) as ->; [|done].
    rewrite (iov_bytes_ext (w_mem w1) mem' v).
    + unfold iov_bytes. rewrite Hbase. simpl. rewrite lookup_insert_eq. simpl. f_equal. apply bytes_ext.
      intros i Hi. unfold d1, splice. rewrite decide_True by lia. do 2 f_equal. lia.
    + intros o' j Hc. apply Hout. intros (u & Hu & Hcu).
      rewrite Forall_forall in Hv. by apply (Hv u Hu o' j).
    + intros o' off' _. apply Hlive'.
    + unfold iov_bytes. rewrite Hbase. simpl. rewrite lookup_insert_eq. by eexists.
  - intros o' j Hn'. rewrite Hout, Hmem1; [done|..].
    + intros Hc. apply Hn'. exists v. split; [left|done].
    + intros (u & Hu & Hc). apply Hn'. exists u. split; [by right|done].
  - intros o'. rewrite Hlive'. apply Hlive.
Qed.
