(* ===== verification/FsMetaTheorems.v ===== *)
(** * Metadata operations: what they do

    The behaviour of stat, create, open, delete and rename of lib/NBFS/NBFS.c on
    each branch, from any world in which the tree of files stands for a map. *)
From S2P Require Import Prelude Triple BPlusTree BPlusTreeSpec BPlusTreeFind BPlusTreeInsert BPlusTreeRemove CacheTree.
From S2P Require Import FsState FsPrim FsRequests FsFile FsMeta FsData FsSync FsLoop FsExec.
Local Open Scope Z_scope.

(** A mounted filesystem whose tree stands for [m]. *)
Record mounted (w : world) (fs : filesystem) (m : gmap string file_id) : Prop := {
  mt_fs : w_fs w = Some fs;
  mt_tree : tree_rep (w_heap w) (fs_files fs) m
}.

Lemma find_mounted w fs m name : mounted w fs m → fs_find_file name w = Ok (m !! name, w).
Proof. intros []. by eapply find_file_eq. Qed.

Section theorems.
Context `{Clients}.

(** ** Stat *)
Definition stat_result (w : world) (m : gmap string file_id) (name : string) : outcome :=
  if name_too_long name then WithStat None (- ENAMETOOLONG) else
  match m !! name ≫= λ f, w_files w !! f with
  | None => WithStat None (- ENOENT)
  | Some x => WithStat (Some (mk_file_stat (f_blobid x) (Z.max (f_length x) (f_append_pos x)))) 0
  end.

(** [spdk_fs_file_stat_async] completes at once and changes nothing else: a
    name of more than 255 characters is [-ENAMETOOLONG], an unknown one
    [-ENOENT], and a file reports its blob and the larger of its length and its
    append position. *)
Theorem stat_correct w fs m name n arg :
  mounted w fs m → (∀ f, m !! name = Some f → is_Some (w_files w !! f)) →
  spdk_fs_file_stat_async name (CbUser n) arg w = Ok (tt, note n (stat_result w m name) w).
Proof.
  intros Hm Hlive. unfold spdk_fs_file_stat_async, stat_result.
  destruct (name_too_long name); [apply invoke_user|].
  rewrite (bind_Ok _ _ _ _ _ (find_mounted w fs m name Hm)). destruct (m !! name) as [f|] eqn:Hf.
  - destruct (Hlive f eq_refl) as [x Hx]. exec. cbn [mbind option_bind]. rewrite Hx, invoke_user.
    do 3 f_equal. destruct (decide _); rewrite ?Z.max_r, ?Z.max_l by lia; done.
  - apply invoke_user.
Qed.

(** ** Open: the requests that wait for the blob *)

(** The world after the open requests [rs] of file [f], whose clients are [ns],
    are completed with [rc] in order and returned to channel [c]. *)
Definition opened (f : file_id) (rc : Z) (ns : list nat) (c : chan_id) (ch : channel) (rs : list req_id) (w : world) : world :=
  set_w_done (w_done w ++ ((λ n, (n, WithFile (Some f) rc)) <$> ns))
    (put_chan c (foldl (λ ch r, put_head r ch) ch rs) w).

(** Request [r], of channel [c], has the callback of client [n]. *)
Definition waits (w : world) (c : chan_id) (r : req_id) (n : nat) : Prop :=
  ∃ x, w_reqs w !! r = Some x ∧ r_fn x = Some (CbUser n) ∧ r_channel x = Some c.

Lemma complete_opens_eq c f rc rs : ∀ ns fuel w x ch,
  w_files w !! f = Some x → f_open_requests x = rs → (length rs < fuel)%nat → Forall2 (waits w c) rs ns →
  w_chans w !! c = Some ch → c_lock ch = false →
  complete_opens fuel f rc w = Ok (tt, put_file f (set_f_open_requests [] x) (opened f rc ns c ch rs w)).
Proof.
  induction rs as [|r rs IH]; intros ns [|fuel] w x ch Hx Hrs Hfuel Hw Hc Hl; simpl in Hfuel; [lia| |lia|].
  - inversion Hw; subst. cbn [complete_opens]. exec. rewrite Hrs. unfold mret, M_ret. do 2 f_equal.
    assert (set_f_open_requests [] x = x) as -> by (destruct x; simpl in *; by subst).
    unfold put_file, opened, put_chan. simpl. rewrite app_nil_r, (insert_id _ _ _ Hx), (insert_id _ _ _ Hc).
    by destruct w.
  - inversion Hw as [|? n ? ns' (y & Hy & Hfn & Hch) Hw']; subst. cbn [complete_opens]. exec. rewrite Hrs. exec.
    unfold call_fn. rewrite Hfn. cbn [deref of_option].
    set (w1 := note n (WithFile (Some f) rc) (put_file f (set_f_open_requests rs x) w)).
    rewrite (bind_Ok _ _ _ tt w1) by (rewrite bind_ret; apply invoke_user).
    rewrite (bind_Ok _ _ _ _ _ (free_spec r w1 y c ch Hy Hch Hc Hl)). unfold w1.
    rewrite (IH ns' fuel _ (set_f_open_requests rs x) (put_head r ch));
      [|apply lookup_insert_eq|done|lia|done|apply put_chan_lookup|done].
    do 2 f_equal. unfold put_file, opened, put_chan, note. simpl.
    rewrite insert_insert_eq, insert_insert_eq, <- app_assoc. by destruct w.
Qed.

(** When the blob of a file is open (or its opening has failed), every
    waiting open of the file completes, in the order of the calls and all with
    the same result; each request goes back to its channel, and none waits. *)
Theorem open_completes_all w r y f x blob rc c ch ns :
  w_reqs w !! r = Some y → r_file y = Some f → w_files w !! f = Some x →
  Forall2 (waits w c) (f_open_requests x) ns → w_chans w !! c = Some ch → c_lock ch = false →
  fs_open_blob_done (VReq r) blob rc w =
    Ok (tt, put_file f (set_f_open_requests [] (set_f_blob blob x))
              (opened f rc ns c ch (f_open_requests x) w)).
Proof.
  intros Hr Hf Hx Hw Hc Hl. unfold fs_open_blob_done. cbn [as_req]. exec. rewrite Hf. exec.
  rewrite (complete_opens_eq c f rc (f_open_requests x) ns _ _ (set_f_blob blob x) ch);
    [|apply lookup_insert_eq|done|simpl; lia|done|done|done].
  do 2 f_equal. unfold put_file, opened, put_chan. simpl. by rewrite insert_insert_eq.
Qed.

(** ** Delete *)

(** A file that is closed, unlocked and has no cached data. *)
Record idle (x : file) (name : string) : Prop := {
  id_closed : f_ref_count x = 0;
  id_name : f_name x = Some name;
  id_unlocked : f_lock x = false;
  id_uncached : present_mask (f_tree x) = 0
}.

Definition with_fn (fn : callback) (arg : void_ptr) (x : request) : request := set_r_arg arg (set_r_fn (Some fn) x).

Lemma file_free_eq w f x name :
  w_files w !! f = Some x → idle x name → file_free f w = Ok (tt, set_w_files (delete f (w_files w)) w).
Proof.
  intros Hx [_ _ Hl Hp]. unfold file_free, file_lock, file_unlock, free_file.
  rewrite (bind_Ok _ _ w tt (put_file f (set_f_lock true x) w))
    by (exec; rewrite Hl; reflexivity).
  exec. replace (present_mask (f_tree (set_f_lock true x))) with (present_mask (f_tree x)) by (by destruct x).
  rewrite decide_True by done.
  rewrite (bind_Ok _ _ _ tt (put_file f (set_f_lock false (set_f_lock true x)) (put_file f (set_f_lock true x) w)))
    by (exec; destruct x; reflexivity).
  exec. unfold modify, put_file. simpl. rewrite insert_insert_eq, delete_insert_eq. by destruct w.
Qed.

(** What deleting a closed file does before the blobstore answers. *)
Lemma delete_closed_eq w fs c ch r rest m name f x fn arg :
  mounted w fs m → ready w fs c ch r rest → m !! name = Some f → w_files w !! f = Some x → idle x name →
  (String.length name < SPDK_FILE_NAME_MAX)%nat →
  ∃ root h, tree_rep h root (delete name m) ∧
    spdk_fs_delete_file_async name fn arg w =
      Ok (tt, put_call (BsDeleteBlob (f_blobid x)) Cb_blob_delete_cb (VReq r)
                (set_w_fs (Some (set_fs_files root fs)) (set_w_heap h (set_w_files (delete f (w_files w))
                  (put_req r (with_fn fn arg (fresh_request c 0)) (put_chan c (take_head rest ch) w)))))).
Proof.
  intros Hm Hr Hf Hx Hid Hlen. pose proof Hm as [Hfs Ht]. destruct (remove_rep _ _ _ name Ht) as (root & h & Hrun & Hrep).
  exists root, h. split; [done|]. unfold spdk_fs_delete_file_async, name_too_long.
  rewrite bool_decide_eq_false_2 by lia. rewrite (bind_Ok _ _ _ _ _ (find_mounted w fs m name Hm)), Hf. exec.
  rewrite (rd_md _ _ _ _ _ _ Hr). exec. rewrite (bind_Ok _ _ _ _ _ (alloc_ready _ _ _ _ _ _ Hr)). unfold took. exec.
  rewrite (id_closed _ _ Hid), decide_False by lia. rewrite (id_name _ _ Hid). exec.
  rewrite bool_decide_eq_true_2 by done. unfold guard_or. exec. rewrite put_req_twice.
  set (w1 := put_req r _ _). assert (Hx1 : w_files w1 !! f = Some x) by done.
  rewrite (bind_Ok _ _ _ _ _ (file_free_eq w1 f x name Hx1 Hid)). exec.
  rewrite (bind_Ok _ _ _ root (set_w_heap h (set_w_files (delete f (w_files w1)) w1)))
    by (unfold on_heap; simpl; by rewrite Hrun).
  exec. reflexivity.
Qed.

Lemma put_take ch r rest :
  c_reqs ch = r :: rest → 0 <= c_outstanding ch < 2 ^ 32 → put_head r (take_head rest ch) = ch.
Proof.
  intros Hr Ho. destruct ch as [rs mem sem bsc dir sync out lk]; simpl in *; subst rs.
  unfold put_head, take_head. simpl. unfold u32. rewrite Zminus_mod_idemp_l.
  replace (out + 1 - 1) with out by lia. rewrite Z.mod_small by done. reflexivity.
Qed.

Lemma delete_cb_eq w r y c ch fn rc w1 :
  w_reqs w !! r = Some y → r_fn y = Some fn → r_channel y = Some c →
  invoke fn (r_arg y) (Op rc) w = Ok (tt, w1) →
  w_reqs w1 !! r = Some y → w_chans w1 !! c = Some ch → c_lock ch = false →
  blob_delete_cb (VReq r) rc w = Ok (tt, put_chan c (put_head r ch) w1).
Proof.
  intros Hr Hfn Hc Hinv Hr1 Hch Hl. unfold blob_delete_cb. cbn [as_req]. exec. unfold call_fn. rewrite Hfn.
  rewrite (bind_Ok _ _ _ tt w1) by exact Hinv. by eapply free_spec.
Qed.

(** Deleting a file that nobody has open takes it out of the namespace at
    once and frees it; its blob is deleted by the blobstore, whose answer is
    what the client gets, and the request is back on its channel then. *)
Theorem delete_closed_file w fs c ch r rest m name f x n arg :
  mounted w fs m → ready w fs c ch r rest → m !! name = Some f → w_files w !! f = Some x → idle x name →
  (String.length name < SPDK_FILE_NAME_MAX)%nat → 0 <= c_outstanding ch < 2 ^ 32 →
  ∃ w1 fs1, spdk_fs_delete_file_async name (CbUser n) arg w = Ok (tt, w1) ∧
    mounted w1 fs1 (delete name m) ∧ w_files w1 = delete f (w_files w) ∧ w_done w1 = w_done w ∧
    w_calls w1 = w_calls w ++ [mk_pending (BsDeleteBlob (f_blobid x)) Cb_blob_delete_cb (VReq r)] ∧
    ∀ rc, ∃ w2, blob_delete_cb (VReq r) rc w1 = Ok (tt, w2) ∧
      w_done w2 = w_done w ++ [(n, Op rc)] ∧ w_chans w2 = w_chans w.
Proof.
  intros Hm Hr Hf Hx Hid Hlen Ho.
  destruct (delete_closed_eq w fs c ch r rest m name f x (CbUser n) arg Hm Hr Hf Hx Hid Hlen) as (root & h & Hrep & Hrun).
  eexists _, (set_fs_files root fs). split; [exact Hrun|]. split; [by split|]. do 3 (split; [done|]).
  intros rc. eexists. split.
  - eapply delete_cb_eq with (ch := take_head rest ch); [apply lookup_insert_eq|done|done|apply invoke_user|..].
    + apply lookup_insert_eq.
    + apply lookup_insert_eq.
    + apply (rd_unlocked _ _ _ _ _ _ Hr).
  - split; [done|]. simpl. rewrite insert_insert_eq, put_take by (done || apply Hr).
    apply insert_id, Hr.
Qed.

(** Deleting a file that is open only marks it: the file stays in the
    namespace with its blob open, the mark goes to the blob's metadata and is
    synced, and from then on opening the name, with or without the create flag,
    is [-ENOENT]. *)
Theorem delete_open_file w fs c ch r rest m name f x b bl n arg :
  mounted w fs m → ready w fs c ch r rest → m !! name = Some f → w_files w !! f = Some x →
  0 < f_ref_count x → f_blob x = Some b → bs_blobs (w_bs w) !! b = Some bl →
  (String.length name <= SPDK_FILE_NAME_MAX)%nat →
  ∃ w1, spdk_fs_delete_file_async name (CbUser n) arg w = Ok (tt, w1) ∧
    mounted w1 fs m ∧ w_files w1 !! f = Some (set_f_is_deleted true x) ∧ w_done w1 = w_done w ∧
    bs_blobs (w_bs w1) !! b = Some (set_b_xattrs (<["is_deleted" := XDeleted true]> (b_xattrs bl)) bl) ∧
    w_calls w1 = w_calls w ++ [mk_pending (BlobSyncMd b) Cb_blob_delete_cb (VReq r)] ∧
    ∀ flags n' arg', spdk_fs_open_file_async name flags (CbUser n') arg' w1 =
      Ok (tt, note n' (WithFile None (- ENOENT)) w1).
Proof.
  intros Hm Hr Hf Hx Href Hb Hbl Hlen.
  set (w1 := put_call (BlobSyncMd b) Cb_blob_delete_cb (VReq r)
    (set_w_bs (set_bs_blobs (<[b := set_b_xattrs (<["is_deleted" := XDeleted true]> (b_xattrs bl)) bl]>
                               (bs_blobs (w_bs w))) (w_bs w))
    (put_file f (set_f_is_deleted true x)
    (put_req r (with_fn (CbUser n) arg (fresh_request c 0)) (put_chan c (take_head rest ch) w))))).
  assert (Hm1 : mounted w1 fs m) by (by destruct Hm; split).
  assert (Hlong : name_too_long name = false) by (unfold name_too_long; rewrite bool_decide_eq_false_2; [done|lia]).
  exists w1. split.
  - unfold spdk_fs_delete_file_async. rewrite Hlong.
    rewrite (bind_Ok _ _ _ _ _ (find_mounted w fs m name Hm)), Hf. pose proof (mt_fs _ _ _ Hm). exec.
    rewrite (rd_md _ _ _ _ _ _ Hr). exec. rewrite (bind_Ok _ _ _ _ _ (alloc_ready _ _ _ _ _ _ Hr)). unfold took. exec.
    rewrite decide_True by done. exec. rewrite Hb. exec. rewrite put_req_twice.
    unfold spdk_blob_set_xattr. set (w2 := put_file f _ _).
    rewrite (bind_Ok _ _ w2 tt (set_w_bs (set_bs_blobs (<[b := set_b_xattrs (<["is_deleted" := XDeleted true]>
      (b_xattrs bl)) bl]> (bs_blobs (w_bs w))) (w_bs w)) w2)); [done|].
    by rewrite (bind_Ok _ _ w2 bl w2) by (apply load_blob_eq; done).
  - split; [done|]. split; [apply lookup_insert_eq|]. split; [done|]. split; [apply lookup_insert_eq|].
    split; [done|]. intros flags n' arg'. unfold spdk_fs_open_file_async. rewrite Hlong.
    rewrite (bind_Ok _ _ _ _ _ (find_mounted w1 fs m name Hm1)), Hf.
    assert (Hx1 : w_files w1 !! f = Some (set_f_is_deleted true x)) by apply lookup_insert_eq.
    rewrite (bind_Ok _ _ w1 true w1) by (by rewrite (bind_Ok _ _ _ _ _ (load_file_eq _ _ _ Hx1))).
    rewrite decide_False by naive_solver. apply invoke_user.
Qed.

(** ** Rename *)

Lemma rename_step w fs m r y old_name new_name f x fn arg c :
  mounted w fs m → m !! old_name = Some f → m !! new_name = None → w_files w !! f = Some x →
  f_name x = Some old_name → fits new_name →
  w_reqs w !! r = Some y → r_op y = OpRename old_name new_name →
  y = set_r_op (OpRename old_name new_name) (set_r_arg arg (set_r_fs true (set_r_fn (Some fn) (fresh_request c 0)))) →
  ∃ root h, tree_rep h root (<[new_name := f]> (delete old_name m)) ∧
    _fs_md_rename_file r w =
      Ok (tt, put_call (BsOpenBlob (f_blobid x)) Cb_fs_rename_blob_open_cb (VReq r)
                (put_req r (set_r_file (Some f) y)
                  (put_file f (set_f_trace_arg_name (fs_name_to_uint64 new_name) (set_f_name (Some new_name) x))
                    (set_w_fs (Some (set_fs_files root fs)) (set_w_heap h w))))).
Proof.
  intros Hm Hold Hnew Hx Hname Hfit Hr Hop Hy. pose proof Hm as [Hfs Ht].
  destruct (remove_present _ _ _ old_name f Ht Hold) as (root1 & h1 & Hrun1 & Hrep1 & Hempty).
  assert (Hnew1 : delete old_name m !! new_name = None)
    by (rewrite lookup_delete_ne; [done|]; intros ->; congruence).
  destruct (insert_rep h1 (w_junk w) root1 _ new_name f Hrep1 Hfit Hnew1) as (root & h & Hrun & Hrep).
  { intros He. left. auto. }
  exists root, h. split; [done|]. unfold _fs_md_rename_file. exec. rewrite Hop. cbn [op_rename]. exec.
  rewrite (bind_Ok _ _ _ _ _ (find_mounted w fs m old_name Hm)), Hold. exec. rewrite Hname. exec.
  rewrite (bind_Ok _ _ _ root1 (set_w_heap h1 w)) by (unfold on_heap; by rewrite Hrun1). exec.
  set (w1 := set_w_fs _ _). rewrite (bind_Ok _ _ w1 root (set_w_heap h w1)) by (unfold on_heap; simpl; by rewrite Hrun).
  unfold w1. exec. set (w2 := put_file f _ _).
  rewrite (bind_Ok _ _ w2 tt (put_file f (set_f_trace_arg_name (fs_name_to_uint64 new_name) (set_f_name (Some new_name) x)) w2)).
  2:{ unfold _file_build_trace_arg_name. rewrite (bind_Ok _ _ w2 _ _ (load_file_eq w2 f _ (lookup_insert_eq _ _ _))).
      change (f_name (set_f_name (Some new_name) x)) with (Some new_name). exec.
      erewrite upd_file_eq by apply lookup_insert_eq. done. }
  unfold w2. exec. rewrite put_file_twice. exec. reflexivity.
Qed.

(** C28. Renaming a file to an unused name moves its entry, keeps every other
    entry, and gives the file its new name; then the name is written to the
    metadata of the file's blob, and the client gets the result of closing it. *)
Theorem rename_moves w fs c ch r rest m old_name new_name f x n arg :
  mounted w fs m → ready w fs c ch r rest → m !! old_name = Some f → m !! new_name = None →
  w_files w !! f = Some x → f_name x = Some old_name → (String.length new_name <= SPDK_FILE_NAME_MAX)%nat →
  ∃ w1 fs1, spdk_fs_rename_file_async old_name new_name (CbUser n) arg w = Ok (tt, w1) ∧
    mounted w1 fs1 (<[new_name := f]> (delete old_name m)) ∧
    (∃ x1, w_files w1 = <[f := x1]> (w_files w) ∧ f_name x1 = Some new_name ∧ f_blobid x1 = f_blobid x) ∧
    w_calls w1 = w_calls w ++ [mk_pending (BsOpenBlob (f_blobid x)) Cb_fs_rename_blob_open_cb (VReq r)] ∧
    (∀ b bl, bs_blobs (w_bs w) !! b = Some bl → ∃ w2,
      fs_rename_blob_open_cb (VReq r) (Some b) 0 w1 = Ok (tt, w2) ∧
      bs_blobs (w_bs w2) !! b = Some (set_b_xattrs (<["name" := XName new_name]> (b_xattrs bl)) bl) ∧
      w_calls w2 = w_calls w1 ++ [mk_pending (BlobClose b) Cb_fs_rename_blob_close_cb (VReq r)] ∧
      ∀ rc, ∃ w3, fs_rename_blob_close_cb (VReq r) rc w2 = Ok (tt, w3) ∧ w_done w3 = w_done w ++ [(n, Op rc)]).
Proof.
  intros Hm Hr Hold Hnew Hx Hname Hlen.
  set (y := set_r_op (OpRename old_name new_name) (set_r_arg arg (set_r_fs true (set_r_fn (Some (CbUser n)) (fresh_request c 0))))).
  set (w0 := put_req r y (put_chan c (take_head rest ch) w)).
  assert (Hm0 : mounted w0 fs m) by (by destruct Hm; split).
  destruct (rename_step w0 fs m r y old_name new_name f x (CbUser n) arg c Hm0 Hold Hnew Hx Hname) as (root & h & Hrep & Hrun);
    [unfold fits, MAX_KEY_LEN, SPDK_FILE_NAME_MAX in *; lia|apply lookup_insert_eq|done|done|].
  eexists _, (set_fs_files root fs). split.
  { unfold spdk_fs_rename_file_async, name_too_long. rewrite bool_decide_eq_false_2 by lia.
    pose proof (mt_fs _ _ _ Hm). exec. rewrite (rd_md _ _ _ _ _ _ Hr). exec.
    rewrite (bind_Ok _ _ _ _ _ (alloc_ready _ _ _ _ _ _ Hr)). unfold took. exec. rewrite put_req_twice. fold y w0.
    rewrite (bind_Ok _ _ _ _ _ (find_mounted w0 fs m new_name Hm0)), Hnew. exact Hrun. }
  split; [by split|]. split; [eexists; split; [done|]; done|]. split; [done|]. intros b bl Hbl.
  set (w1 := put_call _ _ _ _). assert (Hr1 : w_reqs w1 !! r = Some (set_r_file (Some f) y)) by apply lookup_insert_eq.
  eexists. split.
  { unfold fs_rename_blob_open_cb. cbn [as_req]. exec.
    change (r_op (set_r_file (Some f) y)) with (OpRename old_name new_name). cbn [op_rename]. exec.
    unfold spdk_blob_set_xattr.
    rewrite (bind_Ok _ _ w1 tt (set_w_bs (set_bs_blobs (<[b := set_b_xattrs (<["name" := XName new_name]>
      (b_xattrs bl)) bl]> (bs_blobs (w_bs w1))) (w_bs w1)) w1)); [reflexivity|].
    by rewrite (bind_Ok _ _ w1 bl w1) by (apply load_blob_eq; done). }
  split; [simpl; apply lookup_insert_eq|]. split; [done|].
  intros rc. eexists. split.
  { unfold fs_rename_blob_close_cb. cbn [as_req].
    match goal with |- ?m ?w = _ => set (w2 := w) end.
    rewrite bind_ret, (bind_Ok _ _ w2 _ _ (load_req_eq w2 r _ Hr1)).
    unfold call_fn. rewrite (bind_Ok _ _ w2 tt (note n (Op rc) w2)) by apply invoke_user.
    eapply free_spec; [exact Hr1|done|apply lookup_insert_eq|apply (rd_unlocked _ _ _ _ _ _ Hr)]. }
  reflexivity.
Qed.
End theorems.
