(* ===== verification/FsSystemTheorems.v ===== *)
(** * Whole operations, from the call to the client's callback

    Sequences of events: the call, the completions of the blobstore, and what the
    client is told. *)
From S2P Require Import Prelude Triple BPlusTree BPlusTreeSpec BPlusTreeFind BPlusTreeInsert BPlusTreeRemove CacheTree.
From S2P Require Import FsState FsPrim FsRequests FsFile FsMeta FsData FsSync FsLoop FsExec FsMetaTheorems.
Local Open Scope Z_scope.

(** The only pending call succeeds. *)
Lemma complete_one w call cb arg rc id d :
  w_calls w = [mk_pending call cb arg] →
  complete 0 rc id d w =
    (_ ← (if decide (rc = 0) then bs_effect call id d else mret tt);
     invoke cb arg (bs_outcome call id rc)) (set_w_calls [] w).
Proof. intros Hc. unfold complete, take_call, gets, modify, mbind, M_bind. simpl. by rewrite Hc. Qed.

(** ** Rename *)
Lemma rename_done_eq r rc : invoke Cb_fs_rename_delete_done (VReq r) (Op rc) = _fs_md_rename_file (H := invoke_n 15) r.
Proof. reflexivity. Qed.

(** C29. Renaming a closed file to the name it already has deletes it: the target
    is deleted first, whatever the blobstore answers, then the source is not
    found, and the client gets [-ENOENT]. *)
Theorem rename_onto_itself_deletes w fs c ch r1 r2 rest m name f x n arg rc :
  mounted w fs m → ready w fs c ch r1 (r2 :: rest) → is_Some (w_reqs w !! r2) → r1 ≠ r2 →
  m !! name = Some f → w_files w !! f = Some x → idle x name → (String.length name < SPDK_FILE_NAME_MAX)%nat →
  ∃ w1 w2 fs2,
    spdk_fs_rename_file_async name name (CbUser n) arg w = Ok (tt, w1) ∧
    w_calls w1 = w_calls w ++ [mk_pending (BsDeleteBlob (f_blobid x)) Cb_blob_delete_cb (VReq r2)] ∧
    blob_delete_cb (VReq r2) rc w1 = Ok (tt, w2) ∧
    mounted w2 fs2 (delete name m) ∧ w_files w2 = delete f (w_files w) ∧
    w_done w2 = w_done w ++ [(n, Op (- ENOENT))].
Proof.
  intros Hm Hr [y2 Hr2] Hne Hf Hx Hid Hlen.
  set (y := set_r_op (OpRename name name) (set_r_arg arg (set_r_fs true (set_r_fn (Some (CbUser n)) (fresh_request c 0))))).
  set (w0 := put_req r1 y (put_chan c (take_head (r2 :: rest) ch) w)).
  assert (Hm0 : mounted w0 fs m) by (by destruct Hm; split).
  assert (Hr0 : ready w0 fs c (take_head (r2 :: rest) ch) r2 rest).
  { destruct Hr. split; [done|done|apply lookup_insert_eq|done|done|].
    simpl. rewrite lookup_insert_ne by done. by eexists. }
  destruct (delete_closed_eq w0 fs c _ r2 rest m name f x Cb_fs_rename_delete_done (VReq r1) Hm0 Hr0 Hf Hx Hid Hlen)
    as (root & h & Hrep & Hrun).
  match type of Hrun with _ = Ok (tt, ?v) => set (w1 := v) in Hrun end.
  assert (Hm1 : mounted w1 (set_fs_files root fs) (delete name m)) by by split.
  assert (Hy1 : w_reqs w1 !! r1 = Some y) by (simpl; rewrite lookup_insert_ne by done; apply lookup_insert_eq).
  assert (Hc1 : w_chans w1 !! c = Some (take_head rest (take_head (r2 :: rest) ch))) by apply lookup_insert_eq.
  set (ch1 := take_head rest (take_head (r2 :: rest) ch)) in Hc1.
  assert (Hl1 : c_lock ch1 = false) by apply (rd_unlocked _ _ _ _ _ _ Hr).
  set (w2 := put_chan c (put_head r1 ch1) (note n (Op (- ENOENT)) w1)).
  assert (Hmove : _fs_md_rename_file (H := invoke_n 15) r1 w1 = Ok (tt, w2)).
  { unfold _fs_md_rename_file. exec. change (r_op y) with (OpRename name name). cbn [op_rename]. exec.
    rewrite (bind_Ok _ _ _ _ _ (find_mounted w1 _ _ name Hm1)), lookup_delete_eq.
    unfold call_fn. rewrite (bind_Ok _ _ w1 tt (note n (Op (- ENOENT)) w1)) by done.
    by eapply free_spec. }
  exists w1, (put_chan c (put_head r2 (put_head r1 ch1)) w2), (set_fs_files root fs). split; [|split; [done|split]].
  { unfold spdk_fs_rename_file_async, name_too_long. rewrite bool_decide_eq_false_2 by lia.
    pose proof (mt_fs _ _ _ Hm). exec. rewrite (rd_md _ _ _ _ _ _ Hr). exec.
    rewrite (bind_Ok _ _ _ _ _ (alloc_ready _ _ _ _ _ _ Hr)). unfold took. exec. rewrite put_req_twice. fold y w0.
    rewrite (bind_Ok _ _ _ _ _ (find_mounted w0 fs m name Hm0)), Hf. exact Hrun. }
  { eapply delete_cb_eq; [apply lookup_insert_eq|done|done| |apply lookup_insert_eq|apply lookup_insert_eq|done].
    exact Hmove. }
  split; [by split|]. by split.
Qed.

(** An event that completes the only pending call. *)
Lemma step_complete w0 call cb arg rc id d w' wt rt :
  w_calls w0 = [] →
  (_ ← (if decide (rc = 0) then bs_effect call id d else mret tt);
   invoke cb arg (bs_outcome call id rc)) w0 = Ok (tt, w') →
  step_event (E_complete 0 rc id d) (mk_system (put_call call cb arg w0) wt rt) = Ok (mk_system w' wt rt).
Proof.
  intros Hc Hrun. unfold step_event, run_event. cbn [sys_world].
  erewrite bind_Ok; [done|]. rewrite (complete_one _ call cb arg) by (simpl; by rewrite Hc).
  assert (set_w_calls [] (put_call call cb arg w0) = w0) as ->; [|exact Hrun].
  unfold put_call. destruct w0; simpl in *. by subst.
Qed.

(** ** Create *)
Lemma file_alloc_eq w fs m name :
  mounted w fs m → m !! name = None → fits name → w_malloc w = [] →
  (m = ∅ → fs_files fs = None ∨ w_junk w ≠ 0) →
  ∃ root h, tree_rep h root (<[name := w_next w]> m) ∧
    file_alloc name w = Ok (Some (w_next w),
      put_file (w_next w) zero_file (set_w_fs (Some (set_fs_files root fs)) (set_w_heap h
        (set_w_next (S (w_next w)) w)))).
Proof.
  intros [Hfs Ht] Hnew Hfit Hmal Hcond.
  destruct (insert_rep _ (w_junk w) _ _ name (w_next w) Ht Hfit Hnew Hcond) as (root & h & Hrun & Hrep).
  exists root, h. split; [done|]. unfold file_alloc.
  assert (Hok : malloc_ok w = Ok (true, w)) by (unfold malloc_ok, gets, mbind, M_bind; by rewrite Hmal).
  do 3 (rewrite (bind_Ok _ _ _ _ _ Hok); cbn [negb]).
  rewrite (bind_Ok fresh _ w (w_next w) (set_w_next (S (w_next w)) w)) by done.
  unfold store_file. exec. set (w1 := set_w_files _ _).
  rewrite (bind_Ok _ _ w1 root (set_w_heap h w1)) by (unfold on_heap; simpl; by rewrite Hrun).
  unfold w1. exec. unfold mret, M_ret. do 2 f_equal. unfold put_file. simpl. by rewrite insert_insert_eq.
Qed.

Lemma create_cb_eq r id rc :
  invoke Cb_fs_create_blob_create_cb (VReq r) (WithId id rc) = fs_create_blob_create_cb (H := invoke_n 15) (VReq r) id rc.
Proof. reflexivity. Qed.
Lemma create_open_eq r b rc :
  invoke Cb_fs_create_blob_open_cb (VReq r) (WithBlob b rc) = fs_create_blob_open_cb (H := invoke_n 15) (VReq r) b rc.
Proof. reflexivity. Qed.
Lemma create_resize_eq r rc :
  invoke Cb_fs_create_blob_resize_cb (VReq r) (Op rc) = fs_create_blob_resize_cb (VReq r) rc.
Proof. reflexivity. Qed.
Lemma create_close_eq r rc :
  invoke Cb_fs_create_blob_close_cb (VReq r) (Op rc) = fs_create_blob_close_cb (H := invoke_n 15) (VReq r) rc.
Proof. reflexivity. Qed.

(** The file and the blob that a creation ends with. *)
Definition created_file (name : string) (id : blob_id) : file :=
  set_f_blobid id (set_f_trace_arg_name (fs_name_to_uint64 name) (set_f_name (Some name) zero_file)).
Definition created_blob (name : string) : blob :=
  mk_blob 1 (<["length" := XLength 0]> (<["name" := XName name]> ∅)).

(** The worlds a creation goes through differ in the file's record, in its request
    and in the blobs: [base x q b] is the world with those three, and the fields
    say how the primitives move between such worlds. *)
Record creation (base : file → request → gmap blob_id blob → world) (r f c : nat) (ch : channel) : Prop := {
  cr_calls x q b : w_calls (base x q b) = [];
  cr_set_blobs x q b b' : set_w_bs (set_bs_blobs b' (w_bs (base x q b))) (base x q b) = base x q b';
  cr_put_req x q b q' : put_req r q' (base x q b) = base x q' b;
  cr_put_file x q b x' : put_file f x' (base x q b) = base x' q b;
  cr_req x q b : w_reqs (base x q b) !! r = Some q;
  cr_file x q b : w_files (base x q b) !! f = Some x;
  cr_blobs x q b : bs_blobs (w_bs (base x q b)) = b;
  cr_chan x q b : w_chans (base x q b) !! c = Some ch
}.

(** A creation's request, and its file before the blob's id is known. *)
Definition create_request (c f n : nat) : request :=
  set_r_arg VNull (set_r_fn (Some (CbUser n)) (set_r_file (Some f) (fresh_request c 0))).
Definition unborn_file (name : string) : file :=
  set_f_trace_arg_name (fs_name_to_uint64 name) (set_f_name (Some name) zero_file).

Definition opened_request (c f n : nat) (id : blob_id) : request :=
  set_r_op (OpCreateBlob (Some id)) (create_request c f n).

Section Creating.
Context (base : file → request → gmap blob_id blob → world) (r f c : nat) (ch : channel).
Hypothesis Hbase : creation base r f c ch.
Context (name : string) (n : nat) (id : blob_id) (d : Z → Z) (wt : list (chan_id * blocked)) (rt : list (Z * option file_id)).

Lemma blob_upd_eq (g : blob → blob) x q b bl :
  b !! id = Some bl →
  (o ← load_blob id; modify (λ w', set_w_bs (set_bs_blobs (<[id := g o]> (bs_blobs (w_bs w'))) (w_bs w')) w'))
    (base x q b) = Ok (tt, base x q (<[id := g bl]> b)).
Proof.
  destruct Hbase as [Hcalls Hset Hq Hf Hlr Hlf Hblobs Hch].
  intros Hb. erewrite (bind_Ok (load_blob id)) by (apply load_blob_eq; by rewrite Hblobs).
  unfold modify. by rewrite Hblobs, Hset.
Qed.

Lemma create_step b :
  step_event (E_complete 0 0 id d) (mk_system
    (put_call BsCreateBlob Cb_fs_create_blob_create_cb (VReq r) (base (unborn_file name) (create_request c f n) b)) wt rt)
  = Ok (mk_system (put_call (BsOpenBlob id) Cb_fs_create_blob_open_cb (VReq r)
      (base (created_file name id) (create_request c f n) (<[id := mk_blob 0 ∅]> b))) wt rt).
Proof.
  destruct Hbase as [Hcalls Hset Hq Hf Hlr Hlf Hblobs Hch].
  apply step_complete; [apply Hcalls|]. rewrite decide_True by done. unfold bs_effect. exec. cbn [bs_outcome].
  rewrite create_cb_eq, Hblobs, Hset. unfold fs_create_blob_create_cb. cbn [as_req]. exec.
  rewrite decide_False by naive_solver. change (r_file (create_request c f n)) with (Some f). exec. by rewrite Hf.
Qed.

Lemma create_open_step b :
  step_event (E_complete 0 0 id d) (mk_system
    (put_call (BsOpenBlob id) Cb_fs_create_blob_open_cb (VReq r) (base (created_file name id) (create_request c f n) b)) wt rt)
  = Ok (mk_system (put_call (BlobResize id 1) Cb_fs_create_blob_resize_cb (VReq r)
      (base (created_file name id) (opened_request c f n id) b)) wt rt).
Proof.
  destruct Hbase as [Hcalls Hset Hq Hf Hlr Hlf Hblobs Hch].
  apply step_complete; [apply Hcalls|]. rewrite decide_True by done. unfold bs_effect. exec. cbn [bs_outcome].
  rewrite decide_True by done. rewrite create_open_eq. unfold fs_create_blob_open_cb. cbn [as_req]. exec.
  rewrite decide_False by naive_solver. exec. by rewrite Hq.
Qed.

Lemma create_resize_step b :
  step_event (E_complete 0 0 id d) (mk_system
    (put_call (BlobResize id 1) Cb_fs_create_blob_resize_cb (VReq r)
      (base (created_file name id) (opened_request c f n id) (<[id := mk_blob 0 ∅]> b))) wt rt)
  = Ok (mk_system (put_call (BlobClose id) Cb_fs_create_blob_close_cb (VReq r)
      (base (created_file name id) (set_r_rc 0 (opened_request c f n id)) (<[id := created_blob name]> b))) wt rt).
Proof.
  pose proof blob_upd_eq as Hupd. destruct Hbase as [Hcalls Hset Hq Hf Hlr Hlf Hblobs Hch].
  apply step_complete; [apply Hcalls|]. rewrite decide_True by done. unfold bs_effect. cbn [bs_outcome].
  erewrite (bind_Ok (load_blob id ≫= _)) by (apply (Hupd (set_b_clusters 1)), lookup_insert_eq).
  rewrite insert_insert_eq, create_resize_eq. unfold fs_create_blob_resize_cb. cbn [as_req]. exec.
  change (r_file (opened_request c f n id)) with (Some f). change (r_op (opened_request c f n id)) with (OpCreateBlob (Some id)).
  cbn [op_blob]. exec. rewrite decide_False by naive_solver. rewrite Hq. exec.
  change (f_name (created_file name id)) with (Some name). exec. unfold spdk_blob_set_xattr.
  do 2 (erewrite (bind_Ok (load_blob id ≫= _))
    by (apply (Hupd (λ o, set_b_xattrs (<[_ := _]> (b_xattrs o)) o)), lookup_insert_eq); rewrite insert_insert_eq).
  done.
Qed.

Lemma create_close_step b :
  c_lock ch = false →
  step_event (E_complete 0 0 id d) (mk_system
    (put_call (BlobClose id) Cb_fs_create_blob_close_cb (VReq r)
      (base (created_file name id) (set_r_rc 0 (opened_request c f n id)) b)) wt rt)
  = Ok (mk_system (put_chan c (put_head r ch)
      (note n (Op 0) (base (created_file name id) (set_r_rc 0 (opened_request c f n id)) b))) wt rt).
Proof.
  destruct Hbase as [Hcalls Hset Hq Hf Hlr Hlf Hblobs Hch].
  intros Hlock. set (y := set_r_rc 0 (opened_request c f n id)).
  apply step_complete; [apply Hcalls|]. rewrite decide_True by done. unfold bs_effect. exec. cbn [bs_outcome].
  rewrite create_close_eq. unfold fs_create_blob_close_cb. cbn [as_req]. exec.
  change (r_rc y) with 0. rewrite decide_False by naive_solver. unfold call_fn. change (r_fn y) with (Some (CbUser n)).
  rewrite (bind_Ok _ _ _ tt (note n (Op 0) (base (created_file name id) y b))) by (exec; apply (clients_n 14)).
  exact (free_spec r (note n (Op 0) (base (created_file name id) y b)) y c ch (Hlr _ _ _) eq_refl (Hch _ _ _) Hlock).
Qed.

End Creating.

(** The worlds of a creation that starts in [w]. *)
Definition creating (w : world) (fs : filesystem) (h : heap) (c : nat) (ch : channel) (r : nat)
    (x : file) (q : request) (b : gmap blob_id blob) : world :=
  put_req r q (put_chan c ch (put_file (w_next w) x
    (set_w_bs (set_bs_blobs b (w_bs w)) (set_w_fs (Some fs) (set_w_heap h (set_w_next (S (w_next w)) w)))))).

Lemma creating_moves w fs h c ch r : w_calls w = [] → creation (creating w fs h c ch r) r (w_next w) c ch.
Proof.
  intros Hc. split; intros; try done; try apply lookup_insert_eq.
  - apply put_req_twice.
  - unfold creating, put_file, put_req. simpl. by rewrite insert_insert_eq.
Qed.

(** The call itself: the namespace gets the name and the blob is asked for. *)
Lemma create_submits w fs c ch r rest m name n :
  mounted w fs m → ready w fs c ch r rest → m !! name = None → (String.length name <= SPDK_FILE_NAME_MAX)%nat →
  w_malloc w = [] → (m = ∅ → fs_files fs = None ∨ w_junk w ≠ 0) → w_calls w = [] →
  ∃ root h, tree_rep h root (<[name := w_next w]> m) ∧
    spdk_fs_create_file_async (H := invoke_depth) name (CbUser n) VNull w =
    Ok (tt, put_call BsCreateBlob Cb_fs_create_blob_create_cb (VReq r)
      (creating w (set_fs_files root fs) h c (take_head rest ch) r (unborn_file name)
         (create_request c (w_next w) n) (bs_blobs (w_bs w)))).
Proof.
  intros Hm Hr Hnew Hlen Hmal Hcond Hcalls.
  destruct (file_alloc_eq w fs m name Hm Hnew) as (root & h & Hrep & Halloc);
    [unfold fits, MAX_KEY_LEN, SPDK_FILE_NAME_MAX in *; lia|done|done|].
  exists root, h. split; [done|]. set (f := w_next w) in *. set (fs1 := set_fs_files root fs) in *.
  unfold spdk_fs_create_file_async, name_too_long. rewrite bool_decide_eq_false_2 by lia.
  rewrite (bind_Ok _ _ _ _ _ (find_mounted w fs m name Hm)), Hnew.
  rewrite (bind_Ok _ _ _ _ _ Halloc). set (w0 := put_file _ _ _).
  assert (Hr0 : ready w0 fs1 c ch r rest) by (by destruct Hr; split).
  exec. rewrite (rd_md _ _ _ _ _ _ Hr0). exec. rewrite (bind_Ok _ _ _ _ _ (alloc_ready _ _ _ _ _ _ Hr0)).
  unfold took. exec. rewrite put_req_twice. set (w0' := put_file f _ _).
  rewrite (bind_Ok _ _ w0' tt (put_file f (unborn_file name) w0')).
  2:{ unfold _file_build_trace_arg_name. rewrite (bind_Ok _ _ w0' _ _ (load_file_eq w0' f _ (lookup_insert_eq _ _ _))).
      change (f_name (set_f_name (Some name) zero_file)) with (Some name). exec.
      erewrite upd_file_eq by apply lookup_insert_eq. done. }
  unfold bs_async, modify, creating, w0', put_file, put_call. simpl. rewrite !insert_insert_eq.
  do 3 f_equal. by destruct w as [? ? ? ? ? ? ? [] ? ? ? ? ? ? ? ? ? ? ?].
Qed.

