(* ===== verification/FsCached.v ===== *)
(** * The write cache

    The loop of spdk_file_write that copies into cache buffers (lib/NBFS/NBFS.c):
    what a file's cache contains after it. *)
From S2P Require Import Prelude Triple BPlusTree CacheTree CacheTreeProofs FsState FsPrim FsRequests FsFile FsMeta.
From S2P Require Import FsData FsSync FsLoop FsExec FsRanges.
Local Open Scope Z_scope.

Abbreviation CBS := CACHE_BUFFER_SIZE (only parsing).

(** ** The pool's operations *)
Definition put_buf (b : buf_id) (c : cache_buffer) (p : pool) : pool := set_bufs (<[b := c]> (bufs p)) p.
Definition in_pool (p : pool) (w : world) : world := set_w_pool p w.

Lemma get_buf_eq w b c : bufs (w_pool w) !! b = Some c → get_buf b w = Ok (c, w).
Proof.
  intros H. unfold get_buf, on_pool. rewrite (load_buf_ok b c _ H). by destruct w.
Qed.
Lemma upd_buf_eq w b c g :
  bufs (w_pool w) !! b = Some c → upd_buf b g w = Ok (tt, in_pool (put_buf b (g c) (w_pool w)) w).
Proof. intros H. unfold upd_buf. by rewrite (bind_Ok _ _ _ _ _ (get_buf_eq w b c H)). Qed.

Lemma fill_memcpy w b c off o d po n :
  w_mem w !! o = Some d → bufs (w_pool w) !! b = Some c →
  memcpy (PBuf b off) (PMem o po) n w =
    Ok (tt, in_pool (put_buf b (set_buf_data (splice (buf_data c) off n (λ i, d (po + i))) c) (w_pool w)) w).
Proof.
  intros Hd Hc. unfold memcpy, read_ptr.
  rewrite (bind_Ok _ _ w (λ i, d (po + i)) w) by (exec; by rewrite Hd). cbn [write_ptr].
  by erewrite upd_buf_eq.
Qed.

Lemma put_buf_twice b c c' p : put_buf b c (put_buf b c' p) = put_buf b c p.
Proof. unfold put_buf, set_bufs. simpl. by rewrite insert_insert_eq. Qed.

(** ** A file whose last buffer [b] is being filled *)
Record cached (p : pool) (x : file) (m : gmap Z buf_id) (b : buf_id) (c : cache_buffer) : Prop := {
  ca_rep : cache_rep p (f_tree x) m;
  ca_aligned : ∀ k b c, m !! k = Some b → bufs p !! b = Some c → buf_offset c = k * CBS;
  ca_fresh : ∀ b, is_Some (bufs p !! b) → (b < next_buf p)%nat;
  ca_last : f_last x = Some b;
  ca_buf : bufs p !! b = Some c;
  ca_in : m !! block (buf_offset c) = Some b;
  ca_beyond : ∀ k, block (buf_offset c) < k → m !! k = None;
  ca_size : buf_size c = CBS;
  ca_filled : 0 <= bytes_filled c <= CBS;
  ca_pos : f_append_pos x = buf_offset c + bytes_filled c
}.

(** The byte at offset [j] of a file, as far as its cache holds it. *)
Definition cbyte (p : pool) (m : gmap Z buf_id) (j : Z) : option Z :=
  b ← m !! block j; c ← bufs p !! b;
  if decide (j < buf_offset c + bytes_filled c) then Some (buf_data c (j - buf_offset c)) else None.

Lemma block_bounds j : block j * CBS <= j < (block j + 1) * CBS.
Proof. unfold block. change CBS with (2 ^ 18). apply div_bounds. lia. Qed.

Lemma block_in k j : k * CBS <= j < (k + 1) * CBS → block j = k.
Proof. pose proof (block_bounds j). change CBS with 262144 in *. lia. Qed.

Lemma find_buffer_eq w x m j :
  cache_rep (w_pool w) (f_tree x) m → 0 <= j → on_pool (tree_find_buffer (f_tree x) j) w = Ok (m !! block j, w).
Proof. intros Hrep Hj. unfold on_pool. rewrite (cache_find_rep _ _ _ _ Hrep Hj). by destruct w. Qed.

Lemma cached_inj p x m b c k1 k2 b' :
  cached p x m b c → m !! k1 = Some b' → m !! k2 = Some b' → k1 = k2.
Proof.
  intros Hc H1 H2. destruct (cr_bufs _ _ _ (ca_rep _ _ _ _ _ Hc) _ _ H1) as (c' & Hb & _).
  pose proof (ca_aligned _ _ _ _ _ Hc _ _ _ H1 Hb). pose proof (ca_aligned _ _ _ _ _ Hc _ _ _ H2 Hb).
  change CBS with 262144 in *. lia.
Qed.

(** Filling [n] more bytes of the last buffer. *)
Definition filled (c : cache_buffer) (n : Z) (src : Z → Z) : cache_buffer :=
  set_bytes_filled (bytes_filled c + n) (set_buf_data (splice (buf_data c) (bytes_filled c) n src) c).
Definition grown (n : Z) (x : file) : file :=
  set_f_length (Z.max (f_length x) (f_append_pos x + n)) (set_f_append_pos (f_append_pos x + n) x).

Lemma cached_fill p x m b c n src :
  cached p x m b c → 0 <= n → bytes_filled c + n <= CBS →
  let p' := put_buf b (filled c n src) p in
  cached p' (grown n x) m b (filled c n src) ∧
  (∀ j, j < f_append_pos x → cbyte p' m j = cbyte p m j) ∧
  (∀ i, 0 <= i < n → cbyte p' m (f_append_pos x + i) = Some (src i)).
Proof.
  intros Hc Hn Hsum p'. pose proof Hc as [[Ht Hb] Hal Hfr Hla Hbuf Hin Hbe Hsz Hfi Hpos].
  assert (Hoff : buf_offset c = block (buf_offset c) * CBS) by (by eapply Hal).
  assert (Hlook : ∀ b', bufs p' !! b' = if decide (b' = b) then Some (filled c n src) else bufs p !! b').
  { intros b'. unfold p', put_buf. simpl. destruct (decide (b' = b)) as [->|]; [by rewrite lookup_insert_eq|].
    by rewrite lookup_insert_ne. }
  split; [|split].
  - split; try done.
    + split; [exact Ht|]. intros k b' Hk. rewrite Hlook. destruct (Hb k b' Hk) as (c' & Hc' & Ho & Hbl).
      destruct (decide (b' = b)) as [->|]; [|eauto]. rewrite Hbuf in Hc'. injection Hc' as <-. eauto.
    + intros k b' c' Hk. rewrite Hlook. destruct (decide (b' = b)) as [->|]; [|intros Hb'; exact (Hal _ _ _ Hk Hb')].
      intros [= <-]. exact (Hal _ _ _ Hk Hbuf).
    + intros b'. rewrite Hlook. destruct (decide (b' = b)) as [->|]; [|apply Hfr]. intros _. apply Hfr. by eexists.
    + rewrite Hlook. by rewrite decide_True.
    + simpl. lia.
    + unfold grown. destruct x. simpl in *. lia.
  - intros j Hj. unfold cbyte. destruct (m !! block j) as [b'|] eqn:Hk; simpl; [|done].
    rewrite Hlook. destruct (decide (b' = b)) as [->|]; [|done]. rewrite Hbuf. simpl.
    rewrite !decide_True by lia. f_equal. unfold splice. rewrite decide_False by lia. done.
  - intros i Hi. unfold cbyte. rewrite (block_in (block (buf_offset c))) by lia. rewrite Hin. simpl.
    rewrite Hlook, decide_True by done. simpl. rewrite decide_True by lia. f_equal. unfold splice.
    rewrite decide_True by lia. f_equal. lia.
Qed.

Lemma mempool_get_eq n w :
  0 < pool_count (w_pool w) →
  mempool_get (S n) w = Ok (true, in_pool (set_pool_count (pool_count (w_pool w) - 1) (w_pool w)) w).
Proof. intros H. cbn [mempool_get]. exec. by rewrite decide_True. Qed.

(** The next buffer, when the last one is full. *)
Definition next_buffer (pos : Z) : cache_buffer := mk_cache_buffer (λ _, 0) pos CBS 0 0 false.
Definition pool_after (pos : Z) (p : pool) : pool :=
  mk_pool (<[next_buf p := next_buffer pos]> (bufs p)) (pool_count p - 1) (S (next_buf p)).

Lemma append_tree p x m b c :
  cached p x m b c → bytes_filled c = CBS → f_append_pos x < MAX_OFFSET →
  ∃ t', tree_insert_buffer (f_tree x) (next_buf p) (pool_after (f_append_pos x) p) = Ok (t', pool_after (f_append_pos x) p) ∧
    present_mask (f_tree x) ≠ 0 ∧
    cached (pool_after (f_append_pos x) p) (set_f_last (Some (next_buf p)) (set_f_tree t' x))
      (<[block (f_append_pos x) := next_buf p]> m) (next_buf p) (next_buffer (f_append_pos x)) ∧
    (∀ j, j < f_append_pos x →
      cbyte (pool_after (f_append_pos x) p) (<[block (f_append_pos x) := next_buf p]> m) j = cbyte p m j).
Proof.
  intros Hc Hfull Hmax. pose proof Hc as [Hrep Hal Hfr Hla Hbuf Hin Hbe Hsz Hfi Hpos].
  assert (Hoff : buf_offset c = block (buf_offset c) * CBS) by (exact (Hal _ _ _ Hin Hbuf)).
  set (k := block (buf_offset c)) in *. set (pos := f_append_pos x) in *. set (p' := pool_after pos p).
  assert (Hk : 0 <= k).
  { destruct (cr_bufs _ _ _ Hrep _ _ Hin) as (c0 & Hc0 & [Ho _] & _). rewrite Hbuf in Hc0. injection Hc0 as <-.
    change CBS with 262144 in *. lia. }
  assert (Hposk : pos = (k + 1) * CBS) by lia.
  assert (Hbl : block pos = k + 1) by (apply block_in; change CBS with 262144 in *; lia).
  assert (Hfresh : ∀ b', is_Some (bufs p !! b') → bufs p' !! b' = bufs p !! b').
  { intros b' Hb'. unfold p', pool_after. simpl. rewrite lookup_insert_ne; [done|]. specialize (Hfr b' Hb'). lia. }
  assert (Hrep' : cache_rep p' (f_tree x) m).
  { destruct Hrep as [Ht Hb]. split; [done|]. intros k' b' Hb'. destruct (Hb k' b' Hb') as (c' & Hc' & H).
    exists c'. split; [|done]. rewrite Hfresh; [done|by eexists]. }
  assert (Hnew : bufs p' !! next_buf p = Some (next_buffer pos)) by apply lookup_insert_eq.
  assert (Hnone : m !! block pos = None) by (apply Hbe; lia).
  destruct (cache_insert_rep p' (f_tree x) m (next_buf p) (next_buffer pos) Hrep' Hnew) as (t' & Hrun & Hrep'' & _);
    [simpl; change CBS with 262144 in *; lia|done|].
  exists t'. split; [done|]. split.
  { rewrite (rep_present _ _ _ Hrep). intros ->. by rewrite lookup_empty in Hin. }
  split.
  - split; try done; simpl.
    + intros k' b' c' Hk' Hb'. apply lookup_insert_Some in Hk' as [[<- <-]|[Hne Hk']].
      * rewrite lookup_insert_eq in Hb'. injection Hb' as <-. simpl. lia.
      * destruct (cr_bufs _ _ _ Hrep _ _ Hk') as (c0 & Hc0 & _).
        rewrite lookup_insert_ne in Hb' by (intros <-; specialize (Hfr _ (mk_is_Some _ _ Hc0)); lia).
        exact (Hal _ _ _ Hk' Hb').
    + intros b' Hb'. destruct (decide (b' = next_buf p)) as [->|Hne]; [lia|].
      rewrite lookup_insert_ne in Hb' by done. specialize (Hfr b' Hb'). lia.
    + apply lookup_insert_eq.
    + intros k' Hk'. rewrite lookup_insert_ne by lia. apply Hbe. lia.
    + change CBS with 262144. lia.
  - intros j Hj. unfold cbyte. rewrite lookup_insert_ne.
    + destruct (m !! block j) as [b'|] eqn:Hb'; simpl; [|done].
      destruct (cr_bufs _ _ _ Hrep _ _ Hb') as (c0 & Hc0 & _). 
      rewrite lookup_insert_ne; [done|]. intros <-. specialize (Hfr _ (mk_is_Some _ _ Hc0)). lia.
    + intros He. pose proof (block_bounds j). rewrite <- He, Hbl in H. lia.
Qed.

Lemma cache_append_eq w f x m b c :
  w_malloc w = [] → w_files w !! f = Some x → cached (w_pool w) x m b c → bytes_filled c = CBS →
  0 < pool_count (w_pool w) → f_append_pos x < MAX_OFFSET →
  ∃ x' m' c', let b' := next_buf (w_pool w) in let p' := pool_after (f_append_pos x) (w_pool w) in
    cache_append_buffer f w = Ok (Some b', in_pool p' (put_file f x' w)) ∧
    cached p' x' m' b' c' ∧ bytes_filled c' = 0 ∧
    x' = set_f_last (f_last x') (set_f_tree (f_tree x') x) ∧
    (∀ j, j < f_append_pos x → cbyte p' m' j = cbyte (w_pool w) m j).
Proof.
  intros Hmal Hx Hc Hfull Hcount Hmax. destruct (append_tree _ _ _ _ _ Hc Hfull Hmax) as (t' & Hrun & Hmask & Hc' & Hb').
  set (p := w_pool w) in *. set (x' := set_f_last (Some (next_buf p)) (set_f_tree t' x)) in *.
  exists x', (<[block (f_append_pos x) := next_buf p]> m), (next_buffer (f_append_pos x)). split; [|split; [exact Hc'|split; [done|split; [by destruct x|exact Hb']]]].
  unfold cache_append_buffer. exec. rewrite (ca_last _ _ _ _ _ Hc).
  rewrite (bind_Ok _ _ w tt w).
  2:{ rewrite (bind_Ok _ _ _ _ _ (get_buf_eq w b c (ca_buf _ _ _ _ _ Hc))). rewrite bool_decide_eq_true_2; [done|].
      rewrite Hfull. symmetry. apply (ca_size _ _ _ _ _ Hc). }
  assert (Hmod : f_append_pos x mod CBS = 0).
  { rewrite (ca_pos _ _ _ _ _ Hc), Hfull.
    rewrite (ca_aligned _ _ _ _ _ Hc _ _ _ (ca_in _ _ _ _ _ Hc) (ca_buf _ _ _ _ _ Hc)).
    rewrite <- Z.mul_succ_l. apply Z.mod_mul. change CBS with 262144. lia. }
  rewrite bool_decide_eq_true_2 by done. unfold guard_or. exec.
  erewrite (bind_Ok (cache_insert_buffer f (f_append_pos x)) _ w (Some (next_buf p))
    (in_pool (pool_after (f_append_pos x) p) (put_file f (set_f_tree t' x) w))).
  { exec. unfold x', in_pool, put_file, mret, M_ret. simpl. by rewrite insert_insert_eq. }
  unfold cache_insert_buffer.
  rewrite (bind_Ok malloc_ok _ w true w) by (unfold malloc_ok; exec; by rewrite Hmal). cbn [negb].
  rewrite (bind_Ok _ _ _ _ _ (mempool_get_eq 100 w Hcount)). cbn [negb]. exec.
  rewrite bool_decide_eq_false_2 by done.
  set (w1 := set_w_pool _ _).
  assert (Hw1 : w1 = in_pool (pool_after (f_append_pos x) p) w) by done. clearbody w1. subst w1.
  rewrite (bind_Ok (on_pool _) _ _ t' (in_pool (pool_after (f_append_pos x) p) w)).
  2:{ unfold on_pool, in_pool. simpl. fold p. by rewrite Hrun. }
  exec. done.
Qed.

(** ** The copying loop *)
Definition cache_fields_only (x x' : file) : Prop :=
  x' = set_f_length (f_length x') (set_f_append_pos (f_append_pos x') (set_f_last (f_last x') (set_f_tree (f_tree x') x))).
Lemma cache_fields_trans x y z : cache_fields_only x y → cache_fields_only y z → cache_fields_only x z.
Proof. unfold cache_fields_only. destruct x, y, z. simpl. intros [=] [=]. by subst. Qed.

(** The copy of one turn of the loop. *)
Lemma fill_copy w f x m b c o d po n (rest : cache_buffer → M world (option Z)) :
  w_mem w !! o = Some d → w_files w !! f = Some x → cached (w_pool w) x m b c →
  0 <= n → bytes_filled c + n <= CBS → 0 <= f_append_pos x → f_append_pos x + n < MAX_OFFSET →
  let c1 := filled c n (λ i, d (po + i)) in
  (_ ← memcpy (PBuf b (bytes_filled c)) (PMem o po) n;
   _ ← upd_file f (λ x, set_f_append_pos (u64 (f_append_pos x + n)) x);
   _ ← upd_file f (λ x, set_f_length (Z.max (f_length x) (f_append_pos x)) x);
   _ ← upd_buf b (λ c, set_bytes_filled (u32 (bytes_filled c + n)) c);
   c' ← get_buf b; rest c') w =
  rest c1 (in_pool (put_buf b c1 (w_pool w)) (put_file f (grown n x) w)).
Proof.
  intros Hd Hx Hc Hn Hsum Hp0 Hmax c1. pose proof (ca_buf _ _ _ _ _ Hc) as Hbuf.
  pose proof (ca_filled _ _ _ _ _ Hc) as Hfi. change CBS with 262144 in *.
  change MAX_OFFSET with 1152921504606846976 in *.
  rewrite (bind_Ok _ _ _ _ _ (fill_memcpy w b c _ o d po n Hd Hbuf)). exec.
  set (c0 := set_buf_data _ c). set (w1 := put_file f _ _).
  assert (Hb1 : bufs (w_pool w1) !! b = Some c0) by apply lookup_insert_eq.
  assert (Hc1 : set_bytes_filled (u32 (bytes_filled c0 + n)) c0 = c1).
  { unfold c1, filled, c0. simpl. by rewrite u32_small by lia. }
  rewrite (bind_Ok (upd_buf b _) _ w1 tt (in_pool (put_buf b c1 (w_pool w1)) w1))
    by (erewrite upd_buf_eq by exact Hb1; cbv beta; by rewrite Hc1).
  set (w2 := in_pool _ _).
  assert (Hb2 : bufs (w_pool w2) !! b = Some c1) by apply lookup_insert_eq.
  rewrite (bind_Ok _ _ _ _ _ (get_buf_eq w2 b c1 Hb2)). f_equal.
  unfold w2, w1, in_pool, put_file, put_buf, set_bufs, grown. simpl. rewrite !insert_insert_eq.
  rewrite u64_small by lia. done.
Qed.

Lemma fill_done fuel f b p rem k w : rem <= 0 → fill_buffers fuel f b p rem k w = Ok (Some k, w).
Proof. intros H. destruct fuel; cbn [fill_buffers]; by rewrite decide_True by lia. Qed.

(** [n] bytes [g] were appended to the cached file [x]. *)
Record appended (p : pool) (x : file) (m : gmap Z buf_id) (g : Z → Z) (n : Z)
    (p' : pool) (x' : file) (m' : gmap Z buf_id) : Prop := {
  ap_fields : cache_fields_only x x';
  ap_pos : f_append_pos x' = f_append_pos x + n;
  ap_grows : f_length x <= f_length x' <= Z.max (f_length x) (f_append_pos x + n);
  ap_length : 0 < n → f_length x' = Z.max (f_length x) (f_append_pos x + n);
  ap_old j : j < f_append_pos x → cbyte p' m' j = cbyte p m j;
  ap_new i : 0 <= i < n → cbyte p' m' (f_append_pos x + i) = Some (g i)
}.

Lemma appended_nothing p x m g : appended p x m g 0 p x m.
Proof. split; [by destruct x|lia|lia|lia|done|lia]. Qed.

Lemma appended_trans p0 x0 m0 g n p1 x1 m1 g' n' p2 x2 m2 :
  0 <= n → 0 <= n' → appended p0 x0 m0 g n p1 x1 m1 → appended p1 x1 m1 g' n' p2 x2 m2 →
  (∀ i, 0 <= i < n' → g' i = g (n + i)) → appended p0 x0 m0 g (n + n') p2 x2 m2.
Proof.
  intros Hn Hn' [Hf1 Hp1 Hg1 Hl1 Ho1 Hw1] [Hf2 Hp2 Hg2 Hl2 Ho2 Hw2] Hg.
  split; [by eapply cache_fields_trans|lia|lia|lia| |].
  - intros j Hj. rewrite Ho2 by lia. by apply Ho1.
  - intros i Hi. destruct (decide (i < n)).
    + rewrite Ho2 by lia. apply Hw1. lia.
    + replace (f_append_pos x0 + i) with (f_append_pos x1 + (i - n)) by lia. rewrite Hw2, Hg by lia. do 2 f_equal. lia.
Qed.

(** One copy into the last buffer. *)
Lemma appended_grown x m b c p n g :
  cached p x m b c → 0 <= n → bytes_filled c + n <= CBS →
  let c1 := filled c n g in
  cached (put_buf b c1 p) (grown n x) m b c1 ∧ appended p x m g n (put_buf b c1 p) (grown n x) m.
Proof.
  intros Hc Hn Hsum c1. destruct (cached_fill _ _ _ _ _ n g Hc ltac:(lia) Hsum) as (Hc1 & Hold & Hnew).
  split; [exact Hc1|]. split; [by destruct x|by destruct x|destruct x; simpl; lia|by destruct x|exact Hold|exact Hnew].
Qed.

Lemma fill_buffers_ok f o d fuel : ∀ w x m b c po rem k,
  w_malloc w = [] → w_mem w !! o = Some d → w_files w !! f = Some x → cached (w_pool w) x m b c →
  0 <= rem → bytes_filled c + rem < Z.of_nat fuel * CBS →
  bytes_filled c + rem < (pool_count (w_pool w) + 1) * CBS → 0 <= f_append_pos x → f_append_pos x + rem < MAX_OFFSET →
  ∃ n p' x' m' b' c',
    fill_buffers fuel f b (PMem o po) rem k w = Ok (Some n, in_pool p' (put_file f x' w)) ∧
    cached p' x' m' b' c' ∧ k <= n ∧ appended (w_pool w) x m (λ i, d (po + i)) rem p' x' m'.
Proof.
  induction fuel as [|fuel IH]; intros w x m b c po rem k Hmal Hd Hx Hc Hrem Hfuel Hcount Hp0 Hmax;
    pose proof (ca_filled _ _ _ _ _ Hc) as Hfi; [change CBS with 262144 in *; lia|].
  cbn [fill_buffers]. destruct (decide (rem <= 0)) as [Hz|Hpos].
  { assert (rem = 0) as -> by lia. exists k, (w_pool w), x, m, b, c.
    split; [|split; [done|split; [lia|apply appended_nothing]]].
    unfold mret, M_ret, in_pool, put_file. do 2 f_equal. rewrite insert_id by done. by destruct w. }
  pose proof (ca_buf _ _ _ _ _ Hc) as Hbuf. rewrite (bind_Ok _ _ _ _ _ (get_buf_eq w b c Hbuf)).
  rewrite (ca_size _ _ _ _ _ Hc), u32_small by (change CBS with 262144 in *; lia). cbv zeta.
  set (n := Z.min (CBS - bytes_filled c) rem).
  assert (Hn : 0 <= n <= rem) by lia. assert (Hsum : bytes_filled c + n <= CBS) by lia.
  rewrite (fill_copy w f x m b c o d po n _ Hd Hx Hc) by lia. set (g := λ i, d (po + i)).
  destruct (appended_grown x m b c (w_pool w) n g Hc ltac:(lia) Hsum) as [Hc1 Hap1]. set (c1 := filled c n g) in *.
  set (w1 := in_pool (put_buf b c1 (w_pool w)) (put_file f (grown n x) w)).
  assert (Hx1 : w_files w1 !! f = Some (grown n x)) by apply lookup_insert_eq.
  rewrite (ca_size _ _ _ _ _ Hc1 : buf_size c1 = CBS). change (bytes_filled c1) with (bytes_filled c + n).
  pose proof (ap_pos _ _ _ _ _ _ _ _ Hap1) as Hpos1.
  destruct (decide (bytes_filled c + n = CBS)) as [Hfull|Hpart].
  - (* the buffer is full: take the next one *)
    assert (Hpc : 0 < pool_count (w_pool w)) by (change CBS with 262144 in *; lia).
    destruct (cache_append_eq w1 f (grown n x) m b c1) as (x2 & m2 & c2 & Hrun & Hc2 & Hf2 & Hxx & Hold2);
      [done|done|done|exact Hfull|done|lia|].
    rewrite (bind_Ok _ _ _ _ _ Hrun). set (p2 := pool_after (f_append_pos (grown n x)) (w_pool w1)) in *.
    assert (Hap2 : appended (w_pool w1) (grown n x) m (λ i, g (n + i)) 0 p2 x2 m2).
    { split; [unfold cache_fields_only; rewrite Hxx; by destruct x, x2|rewrite Hxx; destruct x; simpl; lia|rewrite Hxx; destruct x; simpl; lia|lia|done|lia]. }
    pose proof (ap_pos _ _ _ _ _ _ _ _ Hap2) as Hpos2.
    destruct (IH (in_pool p2 (put_file f x2 w1)) x2 m2 (next_buf (w_pool w1)) c2 (po + n) (rem - n) (k + 1))
      as (n' & p' & x' & m' & b' & c' & Hrun' & Hc' & Hk' & Hap');
      [done|done|apply lookup_insert_eq|exact Hc2|lia|rewrite Hf2; lia| |lia|lia|].
    { rewrite Hf2. unfold p2, in_pool, pool_after. simpl. change CBS with 262144 in *. lia. }
    exists n', p', x', m', b', c'. split.
    { change (ptr_add (PMem o po) n) with (PMem o (po + n)). rewrite Hrun'. do 2 f_equal.
      unfold w1, in_pool, put_file. simpl. by rewrite !insert_insert_eq. }
    split; [exact Hc'|]. split; [lia|]. replace rem with (n + (0 + (rem - n))) by lia.
    eapply appended_trans; [lia|lia|exact Hap1| |done].
    eapply appended_trans; [lia|lia|exact Hap2|exact Hap'|]. intros i Hi. unfold g. f_equal. lia.
  - (* the buffer has room left: all is copied *)
    assert (n = rem) as -> by lia. rewrite Z.sub_diag, fill_done by lia.
    exists k, (put_buf b c1 (w_pool w)), (grown rem x), m, b, c1. split; [done|]. split; [exact Hc1|]. split; [lia|exact Hap1].
Qed.

(** ** spdk_file_write on a file with a cache *)
Lemma cached_same p x y m b c :
  f_tree y = f_tree x → f_last y = f_last x → f_append_pos y = f_append_pos x → cached p x m b c → cached p y m b c.
Proof. intros Ht Hl Ha []. split; rewrite ?Ht, ?Hl, ?Ha; done. Qed.

Lemma cached_pos p x m b c : cached p x m b c → 0 <= f_append_pos x.
Proof.
  intros Hc. pose proof (ca_filled _ _ _ _ _ Hc). rewrite (ca_pos _ _ _ _ _ Hc).
  destruct (cr_bufs _ _ _ (ca_rep _ _ _ _ _ Hc) _ _ (ca_in _ _ _ _ _ Hc)) as (c' & Hc' & [Ho _] & _).
  rewrite (ca_buf _ _ _ _ _ Hc) in Hc'. injection Hc' as <-. lia.
Qed.

Lemma file_lock_eq w f x : w_files w !! f = Some x → f_lock x = false →
  file_lock f w = Ok (tt, put_file f (set_f_lock true x) w).
Proof. intros Hx Hl. unfold file_lock. exec. by rewrite Hl. Qed.
Lemma file_unlock_eq w f x : w_files w !! f = Some x → f_lock x = true →
  file_unlock f w = Ok (tt, put_file f (set_f_lock false x) w).
Proof. intros Hx Hl. unfold file_unlock. exec. by rewrite Hl. Qed.
(** Releasing a lock that is not held is counted. *)
Definition release (x : file) (w : world) : world :=
  set_w_bad_unlocks (if f_lock x then w_bad_unlocks w else S (w_bad_unlocks w)) w.
Lemma file_unlock_any w f x : w_files w !! f = Some x →
  file_unlock f w = Ok (tt, put_file f (set_f_lock false x) (release x w)).
Proof. intros Hx. unfold file_unlock, release. exec. destruct (f_lock x); [by destruct w|done]. Qed.
Lemma file_blob_size_eq w fs f x bl B :
  w_fs w = Some fs → w_files w !! f = Some x → f_blob x = Some bl → bs_blobs (w_bs w) !! bl = Some B →
  __file_get_blob_size f w = Ok (u64 (fs_cluster_sz fs * b_clusters B), w).
Proof.
  intros Hfs Hx Hb HB. unfold __file_get_blob_size. exec. rewrite Hb. exec.
  by erewrite (bind_Ok (spdk_blob_get_num_clusters bl)) by (unfold spdk_blob_get_num_clusters;
    by rewrite (bind_Ok _ _ _ _ _ (load_blob_eq _ _ _ HB))).
Qed.

(** A client's channel with a free request. *)
Record has_request (w : world) (ch : chan_id) (cc : channel) (r : req_id) (rest : list req_id) : Prop := {
  hr_chan : w_chans w !! ch = Some cc;
  hr_unlocked : c_lock cc = false;
  hr_reqs : c_reqs cc = r :: rest;
  hr_live : is_Some (w_reqs w !! r)
}.
Lemma has_request_alloc w ch cc r rest :
  has_request w ch cc r rest → alloc_fs_request ch w = Ok (Some r, took ch cc r rest w).
Proof. intros [? ? ? [x ?]]. by eapply alloc_fs_request_spec. Qed.

(** What the file [f] holds in [w'] when it is [x], with the buffers of [m], plus
    the [len] bytes [content]. *)
Definition extended (f : file_id) (p : pool) (x : file) (m : gmap Z buf_id) (content : Z → Z) (len : Z) (w' : world) : Prop :=
  ∃ x' m' b' c',
    w_files w' !! f = Some x' ∧ f_lock x' = false ∧ cached (w_pool w') x' m' b' c' ∧
    f_append_pos x' = f_append_pos x + len ∧ f_length x' = Z.max (f_length x) (f_append_pos x + len) ∧
    (∀ j, j < f_append_pos x → cbyte (w_pool w') m' j = cbyte p m j) ∧
    (∀ i, 0 <= i < len → cbyte (w_pool w') m' (f_append_pos x + i) = Some (content i)).

(** The request taken for a flush is sent when a buffer was filled, given back otherwise. *)
Definition flush_sent (f : file_id) (r : req_id) (w w' : world) : Prop :=
  w_msgs w' = w_msgs w ++ [(Cb__file_flush, VReq r)] ∧
  ∃ q, w_reqs w' !! r = Some q ∧ r_file q = Some f.
Definition request_back (ch : chan_id) (r : req_id) (rest : list req_id) (w w' : world) : Prop :=
  w_msgs w' = w_msgs w ∧ ∃ cc', w_chans w' !! ch = Some cc' ∧ c_reqs cc' = r :: rest.

Lemma write_cached_ok `{Invoke} w fs f x m b c ch cc r rest o d po len :
  w_fs w = Some fs → fs_direct fs = false → w_malloc w = [] →
  w_files w !! f = Some x → has_request w ch cc r rest → w_mem w !! o = Some d →
  cached (w_pool w) x m b c → 0 < len → f_append_pos x + len < MAX_OFFSET →
  bytes_filled c + len < (pool_count (w_pool w) + 1) * CBS →
  ∃ w', write_cached f ch (PMem o po) len w = Ok (Returned 0 None, w') ∧
    extended f (w_pool w) x m (λ i, d (po + i)) len w' ∧ w_mem w' = w_mem w ∧
    w_bad_unlocks w' = w_bad_unlocks (release x w) ∧ w_bs w' = w_bs w ∧
    (flush_sent f r w w' ∨ request_back ch r rest w w').
Proof.
  intros Hfs Hdir Hmal Hx Hr Hd Hc Hlen Hmax Hcount. unfold write_cached.
  rewrite (bind_Ok _ _ _ _ _ (has_request_alloc _ _ _ _ _ Hr)). cbn beta iota.
  set (w1 := took ch cc r rest w). assert (Hx1 : w_files w1 !! f = Some x) by done.
  rewrite (bind_Ok _ _ _ _ _ (load_file_eq _ _ _ Hx1)). rewrite (ca_last _ _ _ _ _ Hc).
  change ((deref (Some b) ≫= ?g) w1) with (g b w1). cbv beta.
  pose proof (ca_filled _ _ _ _ _ Hc) as Hfi. pose proof (cached_pos _ _ _ _ _ Hc) as Hp0.
  destruct (fill_buffers_ok f o d (fill_fuel len) w1 x m b c po len 0)
    as (n & p' & x' & m' & b' & c' & Hrun & Hc' & Hn & [Hco Ha _ Hl Hold Hnew]); try done; try lia.
  { pose proof (div_bounds len CBS ltac:(by vm_compute)). unfold fill_fuel. rewrite !Nat2Z.inj_succ.
    rewrite Z2Nat.id by (apply Z.div_pos; [lia|by vm_compute]). change CBS with 262144 in *. lia. }
  rewrite (bind_Ok _ _ _ _ _ Hrun). cbn beta iota. specialize (Hl Hlen).
  set (w2 := in_pool p' (put_file f x' w1)).
  assert (Hx2 : w_files w2 !! f = Some x') by apply lookup_insert_eq.
  assert (Hlk2 : f_lock x' = f_lock x) by (unfold cache_fields_only in Hco; rewrite Hco; by destruct x).
  rewrite (bind_Ok _ _ _ _ _ (file_unlock_any _ _ _ Hx2)).
  set (y := set_f_lock false x'). set (w3 := put_file f y (release x' w2)).
  assert (Hbad : w_bad_unlocks w3 = w_bad_unlocks (release x w)) by (simpl; by rewrite Hlk2).
  assert (Hex : ∀ w4, w_files w4 = w_files w3 → w_pool w4 = p' →
            extended f (w_pool w) x m (λ i, d (po + i)) len w4).
  { intros w4 Hf4 Hp4. exists y, m', b', c'. rewrite Hf4, Hp4. split; [apply lookup_insert_eq|].
    split; [by destruct x'|]. split; [eapply cached_same, Hc'; by destruct x'|]. split; [by destruct x'|].
    split; [by destruct x'|]. done. }
  destruct (decide (n = 0)) as [->|Hnz].
  - erewrite (bind_Ok _ _ _ _ _ (free_spec r w3 (fresh_request ch 0) ch (take_head rest cc) _ _ _ _)).
    eexists. split; [done|]. split; [by apply Hex|]. split; [done|]. split; [exact Hbad|]. split; [done|]. right. split; [done|].
    eexists. split; [apply lookup_insert_eq|]. by destruct cc.
  - erewrite (bind_Ok _ _ _ _ _ (upd_req_eq w3 r (fresh_request ch 0) _ _)).
    set (w4 := put_req r _ w3).
    rewrite (bind_Ok (fs_send_request _ _) _ w4 tt (set_w_msgs (w_msgs w4 ++ [(Cb__file_flush, VReq r)]) w4)).
    2:{ unfold fs_send_request. erewrite (bind_Ok _ _ _ _ _ (load_fs_eq w4 fs _)). unfold send_msg. by rewrite Hdir. }
    eexists. split; [done|]. split; [by apply Hex|]. split; [done|]. split; [exact Hbad|]. split; [done|]. left. split; [done|].
    eexists. split; [apply lookup_insert_eq|done].
  Unshelve. all: simpl; try apply lookup_insert_eq; try done. all: by destruct Hr, cc.
Qed.

(** A client's thread about to append [len] bytes to a file whose cache is in use:
    the blob is large enough, the pool has the buffers, the channel a request. *)
Record appendable (w : world) (f : file_id) (x : file) (m : gmap Z buf_id) (ch : chan_id) (r : req_id) (len : Z) : Prop := {
  ap_fs : ∃ fs bl B, w_fs w = Some fs ∧ fs_direct fs = false ∧ f_blob x = Some bl ∧
            bs_blobs (w_bs w) !! bl = Some B ∧ f_append_pos x + len <= u64 (fs_cluster_sz fs * b_clusters B);
  ap_memory : w_malloc w = [];
  ap_file : w_files w !! f = Some x;
  ap_unlocked : f_lock x = false;
  ap_request : ∃ cc rest, has_request w ch cc r rest;
  ap_cached : ∃ b c, cached (w_pool w) x m b c ∧ bytes_filled c + len < (pool_count (w_pool w) + 1) * CBS;
  ap_end : f_append_pos x + len < MAX_OFFSET
}.

(** C4. Appending to a file whose cache is in use: spdk_file_write returns 0 at once,
    with the file's lock free (and released once only) and the client's memory as it was; the cache then holds
    the old bytes and the new ones after them, across as many buffers as that takes,
    and the append position and the length have moved by the length written.  The
    request taken for the flush was either sent to the metadata thread or given back. *)
Theorem cached_write_correct w f x m ch r o po d len :
  appendable w f x m ch r len → w_mem w !! o = Some d → 0 < len →
  ∃ w', spdk_file_write f ch (PMem o po) (f_append_pos x) len w = Ok (Returned 0 None, w') ∧
    extended f (w_pool w) x m (λ i, d (po + i)) len w' ∧ w_mem w' = w_mem w ∧ w_bad_unlocks w' = w_bad_unlocks w ∧
    (flush_sent f r w w' ∨ w_msgs w' = w_msgs w ∧ ∃ cc' rest, w_chans w' !! ch = Some cc' ∧ c_reqs cc' = r :: rest).
Proof.
  intros [(fs & bl & B & Hfs & Hdir & Hbl & HB & Hsize) Hmal Hx Hlk (cc & rest & Hr) (b & c & Hc & Hcount) Hmax] Hd Hlen.
  unfold spdk_file_write. rewrite decide_False by lia. exec. rewrite decide_False by (intros Hne; by apply Hne).
  rewrite (bind_Ok _ _ _ _ _ (file_lock_eq _ _ _ Hx Hlk)). exec. rewrite put_file_twice.
  set (y := set_f_open_for_writing true (set_f_lock true x)). set (w1 := put_file f y w).
  assert (Hx1 : w_files w1 !! f = Some y) by apply lookup_insert_eq.
  assert (Hlast : f_last y = Some b) by (destruct x; exact (ca_last _ _ _ _ _ Hc)).
  rewrite (ca_last _ _ _ _ _ Hc), decide_False by (by intros []). exec. rewrite Hlast.
  rewrite (bind_Ok _ _ _ _ _ (file_blob_size_eq w1 fs f y bl B Hfs Hx1 ltac:(by destruct x) HB)).
  pose proof (cached_pos _ _ _ _ _ Hc). change MAX_OFFSET with 1152921504606846976 in *.
  rewrite decide_False by (rewrite (u64_small (_ + len)) by lia; lia).
  assert (Hc1 : cached (w_pool w1) y m b c) by (eapply cached_same, Hc; by destruct x).
  assert (Hpos : f_append_pos y = f_append_pos x) by (by destruct x).
  destruct (write_cached_ok w1 fs f y m b c ch cc r rest o d po len Hfs Hdir Hmal Hx1) as (w' & Hrun & Hex & Hmem & Hbad & _ & Hfl);
    try done; try (by destruct Hr); try (by rewrite Hpos).
  exists w'. split; [exact Hrun|]. split; [|split; [done|split; [rewrite Hbad; by destruct x|]]].
  - destruct Hex as (x' & m' & b' & c' & Hex). exists x', m', b', c'. rewrite Hpos in Hex.
    replace (f_length y) with (f_length x) in Hex by (by destruct x). exact Hex.
  - destruct Hfl as [Hfl|[Hms (cc' & Hcc & Hre)]]; [by left|right; eauto].
Qed.
