(* ===== verification/FsExtend.v ===== *)
(** * Cached writes past the end of the blob

    When the blob is too small for a cached write, spdk_file_write lets the metadata
    thread grow it: it releases the file's lock, sends a message and waits; the
    message resizes the blob and stores its metadata; then the write goes on.  This
    file follows the five events of such a write. *)
From S2P Require Import Prelude Triple BPlusTree CacheTree CacheTreeProofs FsState FsPrim FsRequests FsFile FsMeta FsData FsSync.
From S2P Require Import FsLoop FsExec FsRanges FsMetaTheorems FsSystemTheorems FsCached.
Local Open Scope Z_scope.

(** A client's thread about to append [len] bytes to a file whose cache is in use and
    whose blob [bl] is too small; no call and no message is pending. *)
Record extendable (w : world) (fs : filesystem) (f : file_id) (x : file) (m : gmap Z buf_id) (bl : blob_id) (B : blob)
    (ch : chan_id) (cc : channel) (r : req_id) (rest : list req_id) (len : Z) : Prop := {
  ex_fs : w_fs w = Some fs;
  ex_queue : fs_direct fs = false;
  ex_cluster : 0 < fs_cluster_sz fs < 2 ^ 32;
  ex_memory : w_malloc w = [];
  ex_file : w_files w !! f = Some x;
  ex_unlocked : f_lock x = false;
  ex_blob : f_blob x = Some bl;
  ex_live : bs_blobs (w_bs w) !! bl = Some B;
  ex_small : u64 (fs_cluster_sz fs * b_clusters B) < f_append_pos x + len;
  ex_clusters : __bytes_to_clusters (f_append_pos x + len) (fs_cluster_sz fs) < 2 ^ 32;
  ex_request : has_request w ch cc r rest;
  ex_sem : 0 <= c_sem cc;
  ex_fresh : w_reqs w !! w_next w = None;
  ex_cached : ∃ b c, cached (w_pool w) x m b c ∧ bytes_filled c + len < (pool_count (w_pool w) + 1) * CBS;
  ex_end : f_append_pos x + len < MAX_OFFSET;
  ex_calls : w_calls w = [];
  ex_msgs : w_msgs w = []
}.

(** The worlds of such a write differ in the arguments on the stack, the blobs and
    the channel's semaphore. *)
Definition growing (w : world) (f : file_id) (x : file) (q : request) (b : gmap blob_id blob) (ch : chan_id) (cc : channel) : world :=
  put_chan ch cc (put_req (w_next w) q (put_file f (set_f_open_for_writing true x)
    (set_w_bs (set_bs_blobs b (w_bs w)) (set_w_next (S (w_next w)) w)))).

(** The size asked for, and the arguments on the stack. *)
Definition new_clusters (fs : filesystem) (x : file) (len : Z) : Z :=
  __bytes_to_clusters (f_append_pos x + len) (fs_cluster_sz fs).
Definition extend_args (fs : filesystem) (f : file_id) (x : file) (len : Z) (ch : chan_id) : request :=
  set_r_file (Some f) (set_r_op (OpResize (new_clusters fs x len)) (set_r_sem (Some ch) zero_request)).

Lemma set_blobs_id w : set_w_bs (set_bs_blobs (bs_blobs (w_bs w)) (w_bs w)) w = w.
Proof. destruct w as [? ? ? ? ? ? ? [] ? ? ? ? ? ? ? ? ? ? ?]. done. Qed.
Lemma growing_blobs w f x q b ch cc b' :
  set_w_bs (set_bs_blobs b' (w_bs (growing w f x q b ch cc))) (growing w f x q b ch cc) = growing w f x q b' ch cc.
Proof. unfold growing. simpl. by destruct (w_bs w). Qed.
Lemma growing_req w f x q b ch cc q' : put_req (w_next w) q' (growing w f x q b ch cc) = growing w f x q' b ch cc.
Proof. unfold growing, put_req, put_chan. simpl. by rewrite insert_insert_eq. Qed.
Lemma growing_chan w f x q b ch cc cc' : put_chan ch cc' (growing w f x q b ch cc) = growing w f x q b ch cc'.
Proof. unfold growing, put_chan. simpl. by rewrite insert_insert_eq. Qed.


(** The delivery of the only message. *)
Lemma step_msg w fn arg w' wt rt :
  w_msgs w = [] → invoke fn arg (Op 0) w = Ok (tt, w') →
  step_event E_msg (mk_system (set_w_msgs [(fn, arg)] w) wt rt) = Ok (mk_system w' wt rt).
Proof.
  intros Hm Hrun. unfold step_event, run_event, deliver_msg. cbn [sys_world]. rewrite !bind_assoc. exec.
  cbn [w_msgs set_w_msgs]. rewrite !bind_assoc. exec.
  assert (set_w_msgs [] (set_w_msgs [(fn, arg)] w) = w) as -> by (destruct w; simpl in *; by subst).
  by rewrite (bind_Ok _ _ _ _ _ Hrun).
Qed.

Section Extending.
Context (w : world) (fs : filesystem) (f : file_id) (x : file) (m : gmap Z buf_id) (bl : blob_id) (B : blob).
Context (ch : chan_id) (cc : channel) (r : req_id) (rest : list req_id) (len : Z).
Hypothesis Hex : extendable w fs f x m bl B ch cc r rest len.

Lemma extend_starts p :
  0 < len →
  spdk_file_write f ch p (f_append_pos x) len w =
  Ok (Blocked ch (W_extend f p (f_append_pos x) len (w_next w)),
      set_w_msgs [(Cb__file_extend_blob, VReq (w_next w))] (growing w f x (extend_args fs f x len ch) (bs_blobs (w_bs w)) ch cc)).
Proof.
  intros Hlen. destruct Hex as [Hfs Hdir Hcl Hmal Hx Hlk Hbl HB Hsmall Hn [Hch Hul Hrs Hlive] Hsem Hfr (b & c & Hc & _) Hend Hcalls Hmsgs].
  pose proof (cached_pos _ _ _ _ _ Hc) as Hp0. change MAX_OFFSET with 1152921504606846976 in *.
  unfold spdk_file_write. rewrite decide_False by lia. exec. rewrite decide_False by (intros Hne; by apply Hne).
  rewrite (bind_Ok _ _ _ _ _ (file_lock_eq _ _ _ Hx Hlk)). exec. rewrite put_file_twice.
  set (y := set_f_open_for_writing true (set_f_lock true x)). set (w1 := put_file f y w).
  assert (Hx1 : w_files w1 !! f = Some y) by apply lookup_insert_eq.
  assert (Hlast : f_last y = Some b) by (destruct x; exact (ca_last _ _ _ _ _ Hc)).
  rewrite (ca_last _ _ _ _ _ Hc), decide_False by (by intros []). exec. rewrite Hlast.
  rewrite (bind_Ok _ _ _ _ _ (file_blob_size_eq w1 fs f y bl B Hfs Hx1 ltac:(by destruct x) HB)).
  rewrite (u64_small (_ + len)) by lia. rewrite decide_True by done. exec.
  pose proof (bytes_to_clusters_least (f_append_pos x + len) (fs_cluster_sz fs) ltac:(lia) ltac:(lia) ltac:(lia)) as (Hn0 & _ & _).
  unfold new_clusters in *. rewrite u32_small by lia.
  rewrite (bind_Ok stack_args _ w1 (w_next w) (put_req (w_next w) zero_request (set_w_next (S (w_next w)) w1))) by done.
  exec. rewrite put_req_twice. set (w2 := put_req _ _ _).
  assert (Hx2 : w_files w2 !! f = Some y) by apply lookup_insert_eq.
  rewrite (bind_Ok _ _ _ _ _ (file_unlock_eq _ _ _ Hx2 ltac:(by destruct x))).
  unfold fs_send_request, send_msg. rewrite bind_assoc. exec. rewrite Hdir. exec.
  unfold mret, M_ret. do 3 f_equal.
  - simpl. by rewrite Hmsgs.
  - unfold growing. rewrite put_chan_id by exact Hch. unfold w2, w1, put_file, put_req. simpl. rewrite !insert_insert_eq.
    replace (set_f_lock false y) with (set_f_open_for_writing true x) by (unfold y; destruct x; simpl in *; by subst).
    by destruct w as [? ? ? ? ? ? ? [] ? ? ? ? ? ? ? ? ? ? ?].
Qed.

Lemma extend_asks b wt rt :
  step_event E_msg (mk_system (set_w_msgs [(Cb__file_extend_blob, VReq (w_next w))]
    (growing w f x (extend_args fs f x len ch) b ch cc)) wt rt) =
  Ok (mk_system (put_call (BlobResize bl (new_clusters fs x len)) Cb__file_extend_resize_cb (VReq (w_next w))
    (growing w f x (extend_args fs f x len ch) b ch cc)) wt rt).
Proof.
  destruct Hex. apply step_msg; [done|]. change (invoke Cb__file_extend_blob (VReq (w_next w)) (Op 0)) with (__file_extend_blob (VReq (w_next w))).
  unfold __file_extend_blob. cbn [as_req]. exec. change (r_file (extend_args fs f x len ch)) with (Some f).
  change (r_op (extend_args fs f x len ch)) with (OpResize (new_clusters fs x len)). cbv iota. exec.
  replace (f_blob (set_f_open_for_writing true x)) with (Some bl) by (by destruct x). cbv iota. exec. done.
Qed.

Lemma extend_resizes d b wt rt :
  b !! bl = Some B →
  step_event (E_complete 0 0 0 d) (mk_system (put_call (BlobResize bl (new_clusters fs x len)) Cb__file_extend_resize_cb
    (VReq (w_next w)) (growing w f x (extend_args fs f x len ch) b ch cc)) wt rt) =
  Ok (mk_system (put_call (BlobSyncMd bl) Cb__file_extend_done (VReq (w_next w))
    (growing w f x (extend_args fs f x len ch) (<[bl := set_b_clusters (new_clusters fs x len) B]> b) ch cc)) wt rt).
Proof.
  intros Hb. destruct Hex. apply step_complete; [done|]. rewrite decide_True by done. unfold bs_effect. rewrite bind_assoc.
  rewrite (bind_Ok _ _ _ _ _ (load_blob_eq (growing w f x (extend_args fs f x len ch) b ch cc) bl B Hb)). exec.
  rewrite growing_blobs. cbn [bs_outcome].
  change (invoke Cb__file_extend_resize_cb (VReq (w_next w)) (Op 0)) with (__file_extend_resize_cb (VReq (w_next w)) 0).
  unfold __file_extend_resize_cb. cbn [as_req]. exec. change (r_file (extend_args fs f x len ch)) with (Some f). exec. rewrite decide_False by naive_solver. exec.
  replace (f_blob (set_f_open_for_writing true x)) with (Some bl) by (by destruct x). exec. done.
Qed.

Lemma extend_wakes d b wt rt :
  step_event (E_complete 0 0 0 d) (mk_system (put_call (BlobSyncMd bl) Cb__file_extend_done (VReq (w_next w))
    (growing w f x (extend_args fs f x len ch) b ch cc)) wt rt) =
  Ok (mk_system (growing w f x (set_r_rc 0 (extend_args fs f x len ch)) b ch (set_c_sem (c_sem cc + 1) cc)) wt rt).
Proof.
  destruct Hex. apply step_complete; [done|]. rewrite decide_True by done. unfold bs_effect. exec. cbn [bs_outcome].
  change (invoke Cb__file_extend_done (VReq (w_next w)) (Op 0)) with (__wake_caller (VReq (w_next w)) 0).
  unfold __wake_caller. cbn [as_req]. exec. change (r_rwerrno (extend_args fs f x len ch)) with (@None nat). cbv iota. exec.
  rewrite growing_req. change (r_sem (extend_args fs f x len ch)) with (Some ch). exec. unfold sem_post, upd_chan. exec.
  exact (f_equal (λ v, Ok (tt, v)) (growing_chan w f x _ b ch cc _)).
Qed.

Lemma extend_finishes o po d b wt rt :
  w_mem w !! o = Some d → 0 < len →
  let v := growing w f x (set_r_rc 0 (extend_args fs f x len ch)) b ch (set_c_sem (c_sem cc + 1) cc) in
  ∃ w', step_event (E_resume (length wt))
          (mk_system v (wt ++ [(ch, W_extend f (PMem o po) (f_append_pos x) len (w_next w))]) rt) =
        Ok (mk_system w' wt (rt ++ [(0, None)])) ∧
    extended f (w_pool w) x m (λ i, d (po + i)) len w' ∧ w_mem w' = w_mem w ∧
    bs_blobs (w_bs w') = b ∧ w_bad_unlocks w' = S (w_bad_unlocks w).
Proof.
  intros Hd Hlen v. destruct Hex as [Hfs Hdir _ Hmal Hx Hlk _ _ _ _ Hr Hsem Hfr (bf & c & Hc & Hcount) Hend _ _].
  set (y := set_f_open_for_writing true x).
  set (v1 := put_chan ch cc (put_file f y (set_w_bs (set_bs_blobs b (w_bs w)) (set_w_next (S (w_next w)) w)))).
  assert (Hc1 : cached (w_pool v1) y m bf c) by (eapply cached_same, Hc; by destruct x).
  assert (Hy : w_files v1 !! f = Some y) by apply lookup_insert_eq.
  assert (Hpos : f_append_pos y = f_append_pos x) by (by destruct x).
  assert (Hr1 : has_request v1 ch cc r rest) by (destruct Hr; split; [apply lookup_insert_eq|done..]).
  destruct (write_cached_ok v1 fs f y m bf c ch cc r rest o d po len Hfs Hdir Hmal Hy Hr1 Hd Hc1 Hlen)
    as (w' & Hrun & Hext & Hmem & Hbad & Hbs & _); [by rewrite Hpos|done|].
  exists w'. split; [|split; [|split; [exact Hmem|split; [by rewrite Hbs|]]]].
  - assert (Hres : resume ch (W_extend f (PMem o po) (f_append_pos x) len (w_next w)) v = Ok (Returned 0 None, w')).
    { unfold resume, sem_wait. rewrite bind_assoc. exec. rewrite bool_decide_eq_true_2 by (destruct cc; simpl in *; lia).
      unfold guard_or. exec.
      rewrite (bind_Ok _ _ v tt (growing w f x (set_r_rc 0 (extend_args fs f x len ch)) b ch cc)).
      2:{ unfold upd_chan. exec. rewrite <- (growing_chan w f x _ b ch (set_c_sem (c_sem cc + 1) cc) cc).
          unfold modify, put_chan. do 2 f_equal. fold v. do 2 f_equal.
          destruct cc; unfold set_c_sem; cbn. do 2 f_equal. lia. }
      exec. change (r_rc (set_r_rc 0 _)) with 0. rewrite decide_False by naive_solver.
      assert (Hfree : free_req (w_next w) (growing w f x (set_r_rc 0 (extend_args fs f x len ch)) b ch cc) = Ok (tt, v1)).
      { unfold free_req. exec. unfold modify, v1, growing, put_req, put_chan, put_file. simpl. rewrite delete_insert_id by done.
        by destruct w. }
      by rewrite (bind_Ok _ _ _ _ _ Hfree). }
    unfold step_event, run_event. cbn [sys_waiting sys_world]. rewrite list_lookup_middle by done. unfold of_option.
    rewrite bind_ret. rewrite (bind_Ok _ _ _ _ _ Hres). unfold mret, M_ret. cbn [note_progress].
    cbn [still_waiting sys_world sys_waiting sys_returned]. by rewrite delete_middle, app_nil_r.
  - destruct Hext as (x' & m' & b' & c' & Hext). exists x', m', b', c'. rewrite Hpos in Hext.
    replace (f_length y) with (f_length x) in Hext by (by destruct x). exact Hext.
  - rewrite Hbad. unfold release. replace (f_lock y) with false by (by destruct x). done.
Qed.
End Extending.

(** C15. A cached write that the blob is too small for: the call waits and takes
    nothing but the lock, which it gives back; the metadata thread gives the blob the
    least number [n] of clusters that hold the file with the new bytes, and stores its
    metadata; then the call returns 0, with the client's bytes in the cache after the
    old ones.  But the second part of the call
    runs without the file's lock, and releases it all the same. *)
Theorem extending_write s fs f x m bl B ch cc r rest len o po d d1 d2 :
  let w := sys_world s in
  extendable w fs f x m bl B ch cc r rest len → w_mem w !! o = Some d → 0 < len →
  ∃ s' n, run_events [E_call (S_write f ch (PMem o po) (f_append_pos x) len); E_msg; E_complete 0 0 0 d1;
                    E_complete 0 0 0 d2; E_resume (length (sys_waiting s))] s = Ok s' ∧
    let w' := sys_world s' in
    sys_returned s' = sys_returned s ++ [(0, None)] ∧ sys_waiting s' = sys_waiting s ∧
    extended f (w_pool w) x m (λ i, d (po + i)) len w' ∧ w_mem w' = w_mem w ∧
    bs_blobs (w_bs w') = <[bl := set_b_clusters n B]> (bs_blobs (w_bs w)) ∧
    f_append_pos x + len <= n * fs_cluster_sz fs ∧ (∀ m, f_append_pos x + len <= m * fs_cluster_sz fs → n <= m) ∧
    w_bad_unlocks w' = S (w_bad_unlocks w).
Proof.
  intros w Hex Hd Hlen. set (b := <[bl := set_b_clusters (new_clusters fs x len) B]> (bs_blobs (w_bs w))).
  destruct (extend_finishes w fs f x m bl B ch cc r rest len Hex o po d b (sys_waiting s) (sys_returned s) Hd Hlen)
    as (w' & Hfin & Hext & Hmem & Hbl & Hbad).
  exists (mk_system w' (sys_waiting s) (sys_returned s ++ [(0, None)])), (new_clusters fs x len). split.
  - assert (Hcall : step_event (E_call (S_write f ch (PMem o po) (f_append_pos x) len)) s = Ok (mk_system
      (set_w_msgs [(Cb__file_extend_blob, VReq (w_next w))] (growing w f x (extend_args fs f x len ch) (bs_blobs (w_bs w)) ch cc))
      (sys_waiting s ++ [(ch, W_extend f (PMem o po) (f_append_pos x) len (w_next w))]) (sys_returned s))).
    { unfold step_event, run_event, run_api. cbv zeta. fold w.
      by rewrite (bind_Ok _ _ _ _ _ (extend_starts w fs f x m bl B ch cc r rest len Hex (PMem o po) Hlen)). }
    cbn [run_events]. rewrite Hcall. cbn [run_events]. rewrite (extend_asks _ _ _ _ _ _ _ _ _ _ _ _ Hex).
    cbn [run_events]. rewrite (extend_resizes _ _ _ _ _ _ _ _ _ _ _ _ Hex) by apply (ex_live _ _ _ _ _ _ _ _ _ _ _ _ Hex).
    cbn [run_events]. rewrite (extend_wakes _ _ _ _ _ _ _ _ _ _ _ _ Hex). cbn [run_events]. fold b. by rewrite Hfin.
  - cbn [sys_world sys_waiting sys_returned]. do 5 (split; [done|]).
    destruct Hex as [? ? Hcl _ _ _ _ _ _ _ _ _ _ (? & ? & Hc & _) Hend _ _].
    pose proof (cached_pos _ _ _ _ _ Hc). change MAX_OFFSET with 1152921504606846976 in *.
    pose proof (bytes_to_clusters_least (f_append_pos x + len) (fs_cluster_sz fs) ltac:(lia) ltac:(lia) ltac:(lia)) as (_ & Hn1 & Hn2).
    split; [exact Hn1|]. split; [exact Hn2|exact Hbad].
Qed.
