(* ===== verification/FsCachedRead.v ===== *)
(** * Reading from the cache

    The loop of spdk_file_read over buffers that hold the data (lib/NBFS/NBFS.c): it
    returns what the file's cache contains, and evicts the buffers it has used up. *)
From S2P Require Import Prelude Triple BPlusTree CacheTree CacheTreeProofs FsState FsPrim FsRequests FsFile FsMeta.
From S2P Require Import FsData FsSync FsLoop FsExec FsRanges FsCopy FsCached.
Local Open Scope Z_scope.

Record readable (p : pool) (x : file) (m : gmap Z buf_id) : Prop := {
  ra_rep : cache_rep p (f_tree x) m;
  ra_aligned : ∀ k b c, m !! k = Some b → bufs p !! b = Some c → buf_offset c = k * CBS
}.
Lemma cached_readable p x m b c : cached p x m b c → readable p x m.
Proof. intros []. by split. Qed.

Lemma cbyte_Some p m j v :
  cbyte p m j = Some v → ∃ b c, m !! block j = Some b ∧ bufs p !! b = Some c ∧
    j < buf_offset c + bytes_filled c ∧ v = buf_data c (j - buf_offset c).
Proof.
  unfold cbyte. destruct (m !! block j) as [b|]; [|done]. simpl. destruct (bufs p !! b) as [c|] eqn:Hb; [|done]. simpl.
  destruct (decide _) as [H|]; [|done]. intros [= <-]. eauto 6.
Qed.

Lemma read_memcpy w o d po b c off n :
  w_mem w !! o = Some d → bufs (w_pool w) !! b = Some c →
  memcpy (PMem o po) (PBuf b off) n w =
    Ok (tt, set_w_mem (<[o := splice d po n (λ i, buf_data c (off + i))]> (w_mem w)) w).
Proof.
  intros Hd Hc. unfold memcpy, read_ptr.
  rewrite (bind_Ok _ _ w (λ i, buf_data c (off + i)) w) by (by rewrite (bind_Ok _ _ _ _ _ (get_buf_eq w b c Hc))).
  cbn [write_ptr]. exec. by rewrite Hd.
Qed.

Lemma evict p x m b c :
  readable p x m → m !! block (buf_offset c) = Some b → bufs p !! b = Some c → 0 <= buf_offset c →
  ∃ t', tree_remove_buffer (f_tree x) b p = Ok (t', freed b p) ∧
    readable (freed b p) (set_f_tree t' x) (delete (block (buf_offset c)) m) ∧
    ∀ j, block j ≠ block (buf_offset c) → cbyte (freed b p) (delete (block (buf_offset c)) m) j = cbyte p m j.
Proof.
  intros [Hrep Hal] Hm Hb H0. destruct (cache_remove_rep _ _ _ _ _ Hrep Hb H0 Hm) as (t' & Hrun & Hrep').
  exists t'. split; [done|]. split.
  - split; [destruct x; exact Hrep'|]. intros k b' c' Hk Hc'. apply lookup_delete_Some in Hk as [_ Hk].
    simpl in Hc'. apply lookup_delete_Some in Hc' as [_ Hc']. by eapply Hal.
  - intros j Hj. unfold cbyte. rewrite lookup_delete_ne by done.
    destruct (m !! block j) as [b'|] eqn:Hk; [|done]. simpl. rewrite lookup_delete_ne; [done|]. intros <-.
    apply Hj. pose proof (Hal _ _ _ Hk Hb). pose proof (Hal _ _ _ Hm Hb). change CBS with 262144 in *. lia.
Qed.

(** What a turn of the loop, or several, may change besides the client's memory. *)
Definition read_frame (f : file_id) (x : file) (w w' : world) : Prop :=
  ∃ p t ms, w' = set_w_cache_msgs ms (in_pool p (put_file f (set_f_tree t x) w)).

Definition copied (d : Z → Z) (po n : Z) (content : Z → Z) (d' : Z → Z) : Prop :=
  ∀ j, d' j = if decide (po <= j < po + n) then content (j - po) else d j.

(** One turn of the loop, for bytes that are in the buffer [b]. *)
Lemma read_turn w f x m b c o d po offset len :
  w_mem w !! o = Some d → w_files w !! f = Some x → readable (w_pool w) x m →
  m !! block offset = Some b → bufs (w_pool w) !! b = Some c →
  0 <= offset → 0 < len → offset + len <= buf_offset c + bytes_filled c → offset + len <= (block offset + 1) * CBS →
  ∃ p t ms m' d',
    (c ← get_buf b;
     let read_len := if decide (buf_offset c + bytes_filled c < offset + len)
                     then u64 (buf_offset c + bytes_filled c - offset) else len in
     _ ← memcpy (PMem o po) (PBuf b (offset - buf_offset c)) read_len;
     _ ← (if decide ((offset + read_len) mod CACHE_BUFFER_SIZE = 0) then
            x ← load_file f;
            t ← on_pool (tree_remove_buffer (f_tree x) b);
            _ ← upd_file f (set_f_tree t);
            if decide (present_mask t = 0)
            then send_cache_msg Cb_remove_file_from_cache_pool (VFile f) else mret tt
          else mret tt);
     mret 0) w =
    Ok (0, set_w_mem (<[o := d']> (w_mem w)) (set_w_cache_msgs ms (in_pool p (put_file f (set_f_tree t x) w)))) ∧
    copied d po len (λ i, buf_data c (offset - buf_offset c + i)) d' ∧
    readable p (set_f_tree t x) m' ∧
    ∀ j, offset + len <= j → cbyte p m' j = cbyte (w_pool w) m j.
Proof.
  intros Hd Hx Hra Hm Hb H0 Hlen Hin Hblk.
  pose proof (ra_aligned _ _ _ Hra _ _ _ Hm Hb) as Hal.
  assert (Hbo : block (buf_offset c) = block offset) by (apply block_in; change CBS with 262144 in *; lia).
  rewrite (bind_Ok _ _ _ _ _ (get_buf_eq w b c Hb)). cbv zeta. rewrite (decide_False (P := _ + _ < _)) by lia.
  rewrite (bind_Ok _ _ _ _ _ (read_memcpy w o d po b c _ len Hd Hb)).
  set (d' := splice d po len _). set (w1 := set_w_mem (<[o := d']> (w_mem w)) w).
  assert (Hx1 : w_files w1 !! f = Some x) by done.
  assert (Hcop : copied d po len (λ i, buf_data c (offset - buf_offset c + i)) d') by done.
  destruct (decide ((offset + len) mod CBS = 0)) as [Hend|Hgo].
  - assert (Hfin : offset + len = (block offset + 1) * CBS).
    { pose proof (block_bounds offset). change CBS with 262144 in *. pose proof (Z.div_mod (offset + len) 262144 ltac:(done)); lia. }
    assert (Hbp : 0 <= buf_offset c).
    { rewrite Hal. unfold block. apply Z.mul_nonneg_nonneg; [by apply Z.div_pos|by vm_compute]. }
    destruct (evict (w_pool w) x m b c Hra) as (t & Hrun & Hra' & Hold); [by rewrite Hbo|done..|].
    set (w2 := in_pool (freed b (w_pool w)) w1).
    exists (freed b (w_pool w)), t.
    assert (Hrest : ∃ ms, ((_ ← (x ← load_file f; t ← on_pool (tree_remove_buffer (f_tree x) b);
        _ ← upd_file f (set_f_tree t);
        if decide (present_mask t = 0) then send_cache_msg Cb_remove_file_from_cache_pool (VFile f) else mret tt); mret 0) w1)
        = Ok (0, set_w_cache_msgs ms (put_file f (set_f_tree t x) w2))).
    { rewrite (bind_Ok (load_file f ≫= _) _ w1 tt
        (if decide (present_mask t = 0)
         then set_w_cache_msgs (w_cache_msgs w ++ [(Cb_remove_file_from_cache_pool, VFile f)]) (put_file f (set_f_tree t x) w2)
         else put_file f (set_f_tree t x) w2)).
      - destruct (decide _); eexists; [done|].
        instantiate (1 := w_cache_msgs w). by destruct w.
      - exec. rewrite (bind_Ok (on_pool _) _ w1 t w2) by (unfold on_pool; simpl; by rewrite Hrun). exec.
        by destruct (decide _). }
    destruct Hrest as [ms Hms]. exists ms, (delete (block (buf_offset c)) m), d'.
    split; [rewrite Hms; unfold w2, w1, in_pool, put_file; done|]. split; [done|]. split; [done|].
    intros j Hj. apply Hold. rewrite Hbo. pose proof (block_bounds j). change CBS with 262144 in *. lia.
  - exists (w_pool w), (f_tree x), (w_cache_msgs w), m, d'. exec. split.
    { unfold mret, M_ret. do 2 f_equal. unfold w1, in_pool, put_file. simpl.
      rewrite (insert_id (w_files w)) by (rewrite Hx; by destruct x). by destruct w. }
    split; [done|]. split; [|done]. destruct Hra as [? ?]. by split; destruct x.
Qed.

(** ** The loop *)
Lemma next_buffer_offset offset : 0 <= offset < MAX_OFFSET → NEXT_CACHE_BUFFER_OFFSET offset = (block offset + 1) * CBS.
Proof.
  intros H. change MAX_OFFSET with 1152921504606846976 in H. unfold NEXT_CACHE_BUFFER_OFFSET, block.
  change CBS with (2 ^ 18) in *. rewrite u64_small by lia. change CACHE_BUFFER_SHIFT with 18.
  rewrite Z.shiftl_mul_pow2, Z.shiftr_div_pow2 by lia.
  replace (offset + 2 ^ 18) with (offset + 1 * 2 ^ 18) by lia. by rewrite Z.div_add by lia.
Qed.

(** The client's memory and the file's cache are all that the loop changes. *)
Definition after_read (o : obj_id) (f : file_id) (x : file) (d' : Z → Z) (p : pool) (t : cache_tree)
    (ms : list (callback * void_ptr)) (w : world) : world :=
  set_w_mem (<[o := d']> (w_mem w)) (set_w_cache_msgs ms (in_pool p (put_file f (set_f_tree t x) w))).

Lemma copied_trans d d1 d2 po n1 n2 g :
  0 <= n1 → 0 <= n2 → copied d po n1 g d1 → copied d1 (po + n1) n2 (λ i, g (n1 + i)) d2 → copied d po (n1 + n2) g d2.
Proof.
  intros H1 H2 Hd1 Hd2 j. rewrite Hd2. destruct (decide (po + n1 <= j < po + n1 + n2)).
  - rewrite decide_True by lia. f_equal. lia.
  - rewrite Hd1. destruct (decide (po <= j < po + n1)).
    + by rewrite decide_True by lia.
    + by rewrite decide_False by lia.
Qed.

Lemma copied_ext d d' po n g g' : (∀ i, 0 <= i < n → g i = g' i) → copied d po n g d' → copied d po n g' d'.
Proof. intros H Hc j. rewrite Hc. destruct (decide _); [apply H; lia|done]. Qed.

Lemma after_read_refl o f x d w :
  w_mem w !! o = Some d → w_files w !! f = Some x → after_read o f x d (w_pool w) (f_tree x) (w_cache_msgs w) w = w.
Proof.
  intros Hd Hx. unfold after_read, in_pool, put_file.
  rewrite (insert_id (w_mem w)) by done. rewrite (insert_id (w_files w)) by (rewrite Hx; by destruct x). by destruct w.
Qed.

Lemma after_read_twice o f x d1 p1 t1 ms1 d2 p2 t2 ms2 w :
  after_read o f (set_f_tree t1 x) d2 p2 t2 ms2 (after_read o f x d1 p1 t1 ms1 w) = after_read o f x d2 p2 t2 ms2 w.
Proof. unfold after_read, in_pool, put_file. simpl. by rewrite !insert_insert_eq. Qed.

Lemma find_filled p x m j v :
  readable p x m → 0 <= j → cbyte p m j = Some v →
  ∃ b c, tree_find_filled_buffer (f_tree x) j p = Ok (Some b, p) ∧ m !! block j = Some b ∧ bufs p !! b = Some c ∧
    buf_offset c = block j * CBS.
Proof.
  intros Hra Hj Hv. destruct (cbyte_Some _ _ _ _ Hv) as (b & c & Hm & Hb & Hlt & _). exists b, c.
  pose proof (ra_aligned _ _ _ Hra _ _ _ Hm Hb). split; [|done].
  unfold tree_find_filled_buffer. rewrite (bind_Ok _ _ _ _ _ (cache_find_rep _ _ _ _ (ra_rep _ _ _ Hra) Hj)), Hm.
  rewrite (bind_Ok _ _ _ _ _ (load_buf_ok b c p Hb)). rewrite decide_True; [done|].
  pose proof (block_bounds j). lia.
Qed.

Lemma read_loop_cached `{Invoke} f ch cell o fin g fuel : ∀ w x m d po offset sub fl,
  w_mem w !! o = Some d → w_files w !! f = Some x → readable (w_pool w) x m →
  0 <= offset → offset <= fin → fin < MAX_OFFSET →
  (offset < fin → fin - block offset * CBS <= Z.of_nat fuel * CBS) →
  (∀ j, offset <= j < fin → cbyte (w_pool w) m j = Some (g j)) →
  ∃ d' p t ms,
    read_loop fuel f ch cell (PMem o po) offset fin sub fl w =
      Ok ((sub, fl + (fin - offset), 0), after_read o f x d' p t ms w) ∧
    copied d po (fin - offset) (λ i, g (offset + i)) d'.
Proof.
  induction fuel as [|fuel IH]; intros w x m d po offset sub fl Hd Hx Hra H0 Hle Hmax Hfuel Hbytes;
    pose proof (block_bounds offset) as Hbk; cbn [read_loop]; destruct (decide (fin <= offset)) as [Hdone|Hmore].
  1,3: assert (fin = offset) as -> by lia; exists d, (w_pool w), (f_tree x), (w_cache_msgs w);
    rewrite Z.sub_diag, Z.add_0_r, after_read_refl by done; split; [done|]; intros j; by rewrite decide_False by lia.
  { change CBS with 262144 in *. lia. }
  rewrite next_buffer_offset by lia. cbv zeta.
  set (len := Z.min ((block offset + 1) * CBS - offset) (fin - offset)).
  assert (Hlen : 0 < len ∧ offset + len <= fin ∧ offset + len <= (block offset + 1) * CBS) by lia.
  destruct (find_filled (w_pool w) x m offset (g offset) Hra H0) as (b & c & Hfind & Hm & Hb & Hal); [apply Hbytes; lia|].
  assert (Hin : ∀ i, 0 <= i < len → offset + i < buf_offset c + bytes_filled c ∧
                    g (offset + i) = buf_data c (offset - buf_offset c + i)).
  { intros i Hi. destruct (cbyte_Some _ _ _ _ (Hbytes (offset + i) ltac:(lia))) as (b' & c' & Hm' & Hb' & Hlt & Hv).
    rewrite (block_in (block offset)) in Hm' by lia. rewrite Hm in Hm'. injection Hm' as <-.
    rewrite Hb in Hb'. injection Hb' as <-. split; [done|]. rewrite Hv. f_equal. lia. }
  rewrite (bind_Ok _ _ _ _ _ (load_file_eq _ _ _ Hx)).
  rewrite (bind_Ok (on_pool _) _ w (Some b) w) by (unfold on_pool; rewrite Hfind; by destruct w).
  destruct (read_turn w f x m b c o d po offset len) as (p & t & ms & m' & d1 & Hrun & Hcop & Hra' & Hkeep); try done;
    try lia; [pose proof (Hin (len - 1)); lia|].
  cbv zeta in Hrun. rewrite (bind_Ok _ _ _ _ _ Hrun). rewrite decide_True by done.
  fold (after_read o f x d1 p t ms w).
  destruct (IH (after_read o f x d1 p t ms w) (set_f_tree t x) m' d1 (po + len) (offset + len) sub (fl + len))
    as (d2 & p2 & t2 & ms2 & Hrun2 & Hcop2); try done; try lia; try (apply lookup_insert_eq).
  - intros Hlt. assert (offset + len = (block offset + 1) * CBS) as Hend by lia.
    rewrite Hend, (block_in (block offset + 1)) by (change CBS with 262144 in *; lia).
    change CBS with 262144 in *. lia.
  - intros j Hj. cbn. rewrite Hkeep by lia. apply Hbytes. lia.
  - exists d2, p2, t2, ms2. change (ptr_add (PMem o po) len) with (PMem o (po + len)). rewrite Hrun2.
    rewrite after_read_twice. replace (fl + len + (fin - (offset + len))) with (fl + (fin - offset)) by lia. split; [done|].
    replace (fin - offset) with (len + (fin - (offset + len))) by lia.
    apply (copied_trans _ d1); [lia..| |].
    + eapply copied_ext; [|exact Hcop]. intros i Hi. symmetry. apply Hin. lia.
    + eapply copied_ext; [|exact Hcop2]. intros i Hi. cbv beta. f_equal. lia.
Qed.

(** ** spdk_file_read of cached bytes *)

(** The fields that the head of spdk_file_read writes: a read that continues the
    previous one adds to [seq_byte_count], another one starts it again. *)
Definition seq_count (x : file) (offset n : Z) : Z :=
  u64 ((if decide (offset ≠ f_next_seq_offset x) then 0 else f_seq_byte_count x) + n).
Definition reading (offset n : Z) (x : file) : file :=
  set_f_next_seq_offset (u64 (offset + n)) (set_f_seq_byte_count (seq_count x offset n)
    (set_f_open_for_writing false (set_f_lock true x))).

Definition with_int (w : world) : world :=
  set_w_cells (<[w_next w := 0]> (w_cells w)) (set_w_next (S (w_next w)) w).
Lemma stack_int_eq w : stack_int w = Ok (w_next w, with_int w).
Proof. done. Qed.

Lemma note_sequence_eq w f x offset n :
  let y := set_f_open_for_writing false (set_f_lock true x) in
  (_ ← (if decide (offset ≠ f_next_seq_offset y) then upd_file f (set_f_seq_byte_count 0) else mret tt);
   upd_file f (λ x, set_f_next_seq_offset (u64 (offset + n))
                      (set_f_seq_byte_count (u64 (f_seq_byte_count x + n)) x))) (put_file f y w) =
  Ok (tt, put_file f (reading offset n x) w).
Proof.
  intros y. set (z := if decide (offset ≠ f_next_seq_offset x) then set_f_seq_byte_count 0 y else y).
  rewrite (bind_Ok _ _ _ tt (put_file f z w)).
  2:{ unfold z. replace (f_next_seq_offset y) with (f_next_seq_offset x) by (by destruct x). destruct (decide _); [|done].
      erewrite upd_file_eq by (apply lookup_insert_eq). by rewrite put_file_twice. }
  erewrite upd_file_eq by (apply lookup_insert_eq). rewrite put_file_twice. unfold reading. do 4 f_equal.
  unfold z, y, seq_count. destruct x; simpl. by destruct (decide _).
Qed.

(** ** Reading ahead *)

(** Nothing to do for the buffer after the one of [e]: it is cached, or past the file. *)
Definition ahead (x : file) (m : gmap Z buf_id) (e : Z) : Prop :=
  m !! (block e + 1) ≠ None ∨ f_length x <= (block e + 1) * CBS.

Lemma next_cache_offset e : 0 <= e → e + CBS < 2 ^ 64 → __next_cache_buffer_offset e = (block e + 1) * CBS.
Proof.
  intros He Hs. unfold __next_cache_buffer_offset. change CBS with (2 ^ 18) in *.
  rewrite u64_small by lia. change (2 ^ 18 - 1) with (Z.ones 18). rewrite Z.ldiff_ones_r by lia.
  rewrite Z.shiftl_mul_pow2, Z.shiftr_div_pow2 by lia. f_equal. unfold block.
  replace (e + 2 ^ 18) with (e + 1 * 2 ^ 18) by lia. by rewrite Z.div_add.
Qed.

Lemma no_readahead f x m ch e w :
  w_files w !! f = Some x → cache_rep (w_pool w) (f_tree x) m → 0 <= e → e + CBS < 2 ^ 64 → ahead x m e →
  check_readahead f e ch w = Ok (tt, w).
Proof.
  intros Hx Hrep He Hs Ha. unfold check_readahead. rewrite next_cache_offset by done. pose proof (block_bounds e).
  rewrite (bind_Ok _ _ _ _ _ (load_file_eq _ _ _ Hx)).
  assert (Hn : 0 <= (block e + 1) * CBS) by (change CBS with 262144 in *; lia).
  rewrite (bind_Ok _ _ _ _ _ (find_buffer_eq w x m _ Hrep Hn)).
  rewrite (block_in (block e + 1)) by (change CBS with 262144; lia). by rewrite decide_True.
Qed.

(** C5. Reading bytes that the cache holds: spdk_file_read returns at once, without
    any I/O, the number of bytes between [offset] and the end of the file or of the
    request, the client's buffer holds exactly these bytes and is unchanged around
    them, and the file's lock is free again.  Nothing is to be read ahead: fewer bytes
    than the threshold were read in sequence, or the next two buffers are cached or
    past the end of the file.  (The documentation of blobfs.h says that the end
    position is returned.) *)
Theorem cached_read_correct w f x m ch o po d offset len g :
  w_mem w !! o = Some d → w_files w !! f = Some x → f_lock x = false → readable (w_pool w) x m →
  0 <= offset < f_append_pos x → f_append_pos x < MAX_OFFSET → 0 < len → offset + len < 2 ^ 64 →
  let n := Z.min len (f_append_pos x - offset) in
  (∀ j, offset <= j < offset + n → cbyte (w_pool w) m j = Some (g j)) →
  seq_count x offset n < CACHE_READAHEAD_THRESHOLD ∨ (ahead x m offset ∧ ahead x m (offset + CBS)) →
  ∃ w' d' x', spdk_file_read f ch (PMem o po) offset len w = Ok (Returned n None, w') ∧
    w_mem w' = <[o := d']> (w_mem w) ∧ bytes d' po n = bytes g offset n ∧
    (∀ j, ¬ (po <= j < po + n) → d' j = d j) ∧
    w_files w' !! f = Some x' ∧ f_lock x' = false ∧ f_length x' = f_length x ∧ f_append_pos x' = f_append_pos x ∧
    w_calls w' = w_calls w ∧ w_msgs w' = w_msgs w.
Proof.
  intros Hd Hx Hlk Hra Ho Hmax Hlen Hsum n Hbytes Hseq. unfold spdk_file_read.
  change MAX_OFFSET with 1152921504606846976 in Hmax.
  rewrite (bind_Ok _ _ _ _ _ (file_lock_eq _ _ _ Hx Hlk)). exec. rewrite put_file_twice.
  rewrite decide_False by (destruct x; simpl in *; lia).
  replace (if decide (f_append_pos _ < u64 (offset + len)) then _ else len) with n.
  2:{ rewrite (u64_small (offset + len)) by lia. unfold n. destruct x; simpl in *. case_decide; lia. }
  set (y := set_f_open_for_writing false (set_f_lock true x)). set (w1 := put_file f y w).
  assert (Hx1 : w_files w1 !! f = Some y) by apply lookup_insert_eq.
  set (w2 := put_file f (reading offset n x) w).
  assert (Hx2 : w_files w2 !! f = Some (reading offset n x)) by apply lookup_insert_eq.
  rewrite <- bind_assoc, (bind_Ok _ _ _ _ _ (note_sequence_eq w f x offset n)). fold w2.
  exec. erewrite (bind_Ok (if decide (CACHE_READAHEAD_THRESHOLD <= _) then _ else _) _ w2 tt w2).
  2:{ destruct (decide _) as [Hread|]; [|done]. destruct Hseq as [Hseq|[Ha1 Ha2]]; [destruct x; simpl in *; lia|].
      change CBS with 262144 in *. destruct Hra as [Hrep _].
      assert (Hrep2 : cache_rep (w_pool w2) (f_tree (reading offset n x)) m) by (by destruct x).
      rewrite u64_small by (change CACHE_BUFFER_SIZE with 262144; lia).
      assert (Hah : ∀ e, ahead x m e → ahead (reading offset n x) m e) by (intros e; by destruct x).
      rewrite (bind_Ok _ _ _ _ _ (no_readahead f _ m ch offset w2 Hx2 Hrep2 ltac:(lia) ltac:(change CBS with 262144; lia) (Hah _ Ha1))).
      apply (no_readahead f _ m ch _ w2 Hx2 Hrep2); [lia|change CBS with 262144; change CACHE_BUFFER_SIZE with 262144; lia|by apply Hah]. }
  exec.
  rewrite (bind_Ok _ _ _ _ _ (stack_int_eq w2)). set (cell := w_next w2). set (w3 := with_int w2).
  assert (Hx3 : w_files w3 !! f = Some (reading offset n x)) by exact Hx2.
  rewrite (u64_small (offset + n)) by lia.
  destruct (read_loop_cached f ch cell o (offset + n) g (read_fuel n) w3 (reading offset n x) m d po offset 0%nat 0)
    as (d' & p & t & ms & Hrun & Hcop); try done; try lia.
  { destruct Hra as [? ?]. by split; destruct x. }
  { change MAX_OFFSET with 1152921504606846976. lia. }
  { intros _. pose proof (block_bounds offset). pose proof (div_bounds n CBS ltac:(by vm_compute)). unfold read_fuel.
    rewrite !Nat2Z.inj_succ, Z2Nat.id by (apply Z.div_pos; [lia|by vm_compute]). change CBS with 262144 in *. lia. }
  rewrite (bind_Ok _ _ _ _ _ Hrun). rewrite decide_True by done. exec.
  set (w4 := after_read _ _ _ _ _ _ _ _).
  assert (Hx4 : w_files w4 !! f = Some (set_f_tree t (reading offset n x))) by apply lookup_insert_eq.
  rewrite (bind_Ok _ _ _ _ _ (file_unlock_eq _ _ _ Hx4 ltac:(by destruct x))).
  unfold read_wait.
  rewrite (bind_Ok (load_int cell) _ _ 0 (put_file f (set_f_lock false (set_f_tree t (reading offset n x))) w4))
    by (unfold load_int; exec; simpl; by rewrite lookup_insert_eq).
  unfold drop_int, returned. exec. rewrite decide_True by done.
  eexists _, d', _. split; [unfold mret, M_ret; repeat f_equal; lia|].
  replace (offset + n - offset) with n in Hcop by lia.
  split; [done|]. split.
  { apply bytes_ext. intros i Hi. rewrite Hcop, decide_True by lia. f_equal. lia. }
  split; [intros j Hj; by rewrite Hcop, decide_False by lia|].
  split; [apply lookup_insert_eq|]. by destruct x.
Qed.
