(* ===== verification/FsDataTheorems.v ===== *)
(** * Reads and writes without the cache, opening and closing

    The unbuffered I/O path of lib/NBFS/NBFS.c through a pinned buffer, the
    counting of references to a file, and the choice of the length to record. *)
From S2P Require Import Prelude Triple BPlusTree BPlusTreeSpec BPlusTreeFind CacheTree FsState FsPrim FsRequests FsFile FsMeta.
From S2P Require Import FsData FsSync FsLoop FsExec FsRanges FsCopy FsMetaTheorems FsCached.
Local Open Scope Z_scope.

(** ** The start of an I/O *)

(** A file whose blob is open, and an I/O channel with a free request. *)
Record io_ready (w : world) (f : file_id) (x : file) (b : blob_id) (c : chan_id) (ch : channel) (r : req_id)
    (rest : list req_id) : Prop := {
  io_file : w_files w !! f = Some x;
  io_blob : f_blob x = Some b;
  io_chan : w_chans w !! c = Some ch;
  io_unlocked : c_lock ch = false;
  io_reqs : c_reqs ch = r :: rest;
  io_live : is_Some (w_reqs w !! r);
  io_memory : w_malloc w = [];
  io_fresh : w_mem w !! w_next w = None
}.

(** The I/O vectors describe live memory; [content] is what it holds. *)
Definition vectors (w : world) (iovs : list iovec) (content : list Z) : Prop :=
  iovs ≠ [] ∧ Forall (λ v, 0 <= iov_len v) iovs ∧ iovs_bytes (w_mem w) iovs = Some content.

Lemma vectors_ok w iovs content pin : vectors w iovs content → w_mem w !! pin = None → Forall (iov_ok pin) iovs.
Proof.
  intros (_ & Hlen & Hb) Hpin. revert content Hb. induction Hlen as [|v iovs Hv Hlen IH]; intros content Hb; [done|].
  simpl in Hb. unfold iov_bytes in Hb. destruct (iov_base v) as [o off|] eqn:Hbase; [|done].
  destruct (w_mem w !! o) as [d|] eqn:Ho; [|done]. simpl in Hb.
  destruct (iovs_bytes (w_mem w) iovs) as [l|]; [|done].
  constructor; [|by eapply IH]. split; [done|]. exists o, off. split; [done|]. congruence.
Qed.

Definition rw_request (c : chan_id) (ch : channel) (n : nat) (arg : void_ptr) (f : file_id) (iovs : list iovec)
    (pin : obj_id) (is_read : bool) (offset : Z) (s m lba : Z) : request :=
  set_r_op (OpRw (c_bs_channel ch) (Some pin) is_read offset (u64 (m * lba)) s m lba)
    (set_r_iovs iovs (set_r_file (Some f) (set_r_arg arg (set_r_fn (Some (CbUser n)) (fresh_request c (Z.of_nat (length iovs))))))).

(** The pinned buffer is there, the request is taken, the blobstore reads the blocks. *)
Definition reading_blocks (b : blob_id) (pin : obj_id) (r : req_id) (c : chan_id) (ch : channel) (rest : list req_id)
    (q : request) (s m : Z) (w : world) : world :=
  put_call (BlobIoRead b (c_bs_channel ch) (PMem pin 0) s m) Cb__read_done (VReq r)
    (put_req r q (set_w_mem (<[pin := λ _, 0]> (w_mem w)) (set_w_next (S pin) (put_chan c (take_head rest ch) w)))).

Lemma setup_iovs_eq w r x iovs :
  w_reqs w !! r = Some x → iovs ≠ [] → length (r_iovs x) = length iovs →
  _fs_request_setup_iovs r iovs w = Ok (tt, put_req r (set_r_iovs iovs x) w).
Proof.
  intros Hr Hne Hlen. unfold _fs_request_setup_iovs. rewrite (upd_req_eq _ _ _ _ Hr).
  by rewrite drop_ge, app_nil_r by lia.
Qed.

Lemma alloc_iov_eq w f x b c ch r rest n :
  io_ready w f x b c ch r rest →
  alloc_fs_request_with_iov c n w = Ok (Some r, put_req r (fresh_request c n) (put_chan c (take_head rest ch) w)).
Proof.
  intros [Hf Hb Hc Hl Hr [y Hy] Hm Hn]. rewrite (alloc_spec c n w ch); [|unfold after_calloc; rewrite Hm; by case_decide|done..].
  cbv zeta. rewrite Hr, Hy.
  assert ((after_calloc n (w_malloc w)).2 = w_malloc w) as -> by (unfold after_calloc; rewrite Hm; by case_decide).
  by rewrite set_malloc_id.
Qed.

Lemma fresh_iovs c (iovs : list iovec) : iovs ≠ [] → length (r_iovs (fresh_request c (Z.of_nat (length iovs)))) = length iovs.
Proof.
  intros Hne. unfold fresh_request. simpl. case_decide as Hd.
  - by rewrite length_replicate, Nat2Z.id.
  - simpl. destruct iovs as [|v [|v' iovs]]; simpl in *; [done|done|lia].
Qed.

Lemma spdk_malloc_eq w :
  w_malloc w = [] →
  spdk_malloc w = Ok (Some (w_next w), set_w_mem (<[w_next w := λ _, 0]> (w_mem w)) (set_w_next (S (w_next w)) w)).
Proof. intros H. unfold spdk_malloc, malloc_ok, gets, mbind, M_bind. rewrite H. done. Qed.

Lemma readvwritev_start `{Invoke} w f x b c ch r rest iovs content offset len n arg (is_read : bool) lba s m :
  io_ready w f x b c ch r rest → vectors w iovs content → bs_io_unit_size (w_bs w) = lba →
  0 <= offset → 0 < len → offset + len <= f_length x → offset + len < 2 ^ 64 →
  (is_read = false → ¬ (offset mod lba = 0 ∧ len mod lba = 0)) →
  page_parameters lba offset len = (s, m) →
  __readvwritev f c iovs offset len (CbUser n) arg is_read w =
    Ok (tt, reading_blocks b (w_next w) r c ch rest (rw_request c ch n arg f iovs (w_next w) is_read offset s m lba) s m w).
Proof.
  intros Hio (Hne & Hlen & Hb) Hunit Ho Hl Hin Hsum Halign Hpage. unfold __readvwritev.
  pose proof Hio as [Hx Hbl Hc Hul Hr [y Hy] Hmal Hnext].
  rewrite (bind_Ok _ _ _ _ _ (load_file_eq _ _ _ Hx)). rewrite (u64_small (offset + len)) by lia.
  rewrite (bool_decide_eq_false_2 (f_length x < _)) by lia. rewrite andb_false_r.
  rewrite (bind_Ok _ _ _ _ _ (alloc_iov_eq _ _ _ _ _ _ _ _ _ Hio)). cbn beta iota.
  set (q0 := fresh_request c _). set (w1 := put_req r q0 (put_chan c (take_head rest ch) w)).
  rewrite (bind_Ok (__get_page_parameters offset len) _ w1 (s, lba, m) w1).
  2:{ unfold __get_page_parameters, spdk_bs_get_io_unit_size. exec.
      change (bs_io_unit_size _) with (bs_io_unit_size (w_bs w)). by rewrite Hunit, Hpage. }
  cbn beta iota. assert (Hc1 : w_chans w1 !! c = Some (take_head rest ch)) by apply lookup_insert_eq.
  rewrite (bind_Ok _ _ _ _ _ (load_chan_spec _ _ _ Hc1)). exec.
  set (q1 := set_r_file _ _). set (w2 := put_req r q1 _).
  assert (Hq1 : w_reqs w2 !! r = Some q1) by apply lookup_insert_eq.
  rewrite (bind_Ok _ _ _ _ _ (setup_iovs_eq w2 r q1 iovs Hq1 Hne (fresh_iovs c iovs Hne))).
  rewrite (bind_Ok _ _ _ _ _ (spdk_malloc_eq (put_req r (set_r_iovs iovs q1) w2) Hmal)).
  exec. rewrite (bind_Ok (__is_lba_aligned offset len) _ _ (bool_decide (offset mod lba = 0 ∧ len mod lba = 0)) _)
    by (unfold __is_lba_aligned, spdk_bs_get_io_unit_size; exec;
        change (bs_io_unit_size _) with (bs_io_unit_size (w_bs w)); by rewrite Hunit).
  rewrite andb_false_r. 
  replace (negb is_read && _) with false.
  2:{ destruct is_read; [done|]. symmetry. apply bool_decide_eq_false_2. by apply Halign. }
  unfold __do_blob_read. cbn [as_req]. exec.
  rewrite (decide_False (P := 0 ≠ 0)) by (intros E; by apply E). cbn [r_op set_r_op].
  erewrite (bind_Ok (deref _)) by reflexivity. erewrite (bind_Ok (load_file f)) by (apply load_file_eq; exact Hx).
  rewrite Hbl. exec. unfold bs_async, modify, reading_blocks, put_call. do 2 f_equal.
  unfold w2, w1, put_req. simpl. rewrite !insert_insert_eq. destruct ch. reflexivity.
Qed.

(** ** The end of an I/O *)

(** Blocks cover the range: its bytes start at [offset - s * lba] in the buffer. *)
Lemma page_bounds k offset len s m :
  let lba := 2 ^ k in
  0 <= k → 0 <= offset → 0 < len → offset + len < 2 ^ 64 → page_parameters lba offset len = (s, m) →
  Z.land offset (lba - 1) = offset - s * lba ∧ offset - s * lba + len <= m * lba ∧ 0 <= offset - s * lba.
Proof.
  intros lba Hk Ho Hl Hs Hp. destruct (page_cover k offset len s m Hk Ho Hl Hs Hp) as (? & ? & He & ?).
  fold lba in H, H0, He, H1. lia.
Qed.

Lemma iovs_bytes_insert mem pin d iovs : Forall (iov_ok pin) iovs → iovs_bytes (<[pin := d]> mem) iovs = iovs_bytes mem iovs.
Proof.
  induction 1 as [|v iovs (Hv & o & off & Hb & Ho) _ IH]; [done|]. simpl. rewrite IH. unfold iov_bytes.
  rewrite Hb. by rewrite lookup_insert_ne.
Qed.

(** The buffer is freed, the client told, the request back. *)
Definition io_ended (pin : obj_id) (n : nat) (rc : Z) (r : req_id) (c : chan_id) (ch : channel) (w : world) : world :=
  put_chan c (put_head r ch) (note n (Op rc) (set_w_mem (delete pin (w_mem w)) w)).

Lemma iovs_bytes_delete mem pin iovs : Forall (iov_ok pin) iovs → iovs_bytes (delete pin mem) iovs = iovs_bytes mem iovs.
Proof.
  induction 1 as [|v iovs (Hv & o & off & Hb & Ho) _ IH]; [done|]. simpl. rewrite IH. unfold iov_bytes.
  rewrite Hb. by rewrite lookup_delete_ne.
Qed.

Lemma rw_done_eq `{Clients} w r q c ch bc pin is_read o l s m lba n rc :
  w_reqs w !! r = Some q → r_op q = OpRw bc (Some pin) is_read o l s m lba → r_fn q = Some (CbUser n) →
  r_channel q = Some c → w_chans w !! c = Some ch → c_lock ch = false →
  __rw_done (VReq r) rc w = Ok (tt, io_ended pin n rc r c ch w).
Proof.
  intros Hq Hop Hfn Hch Hc Hl. unfold __rw_done. cbn [as_req]. exec. rewrite Hop. unfold spdk_free. exec.
  unfold call_fn. rewrite Hfn.
  erewrite (bind_Ok (deref _ ≫= _)) by (cbn [deref of_option]; rewrite bind_ret; apply invoke_user).
  by erewrite free_spec by eauto.
Qed.

(** What the blobstore may do to memory while it reads into [pin]. *)
Definition with_blocks (pin : obj_id) (disk : Z → Z) (w : world) : world :=
  set_w_mem (<[pin := disk]> (w_mem w)) w.

(** C7. A write that is not aligned to blocks, inside the file, reads the blocks it
    touches, whatever that read's result is, puts the client's bytes in their place,
    and writes the same blocks back: every byte around the client's range is the one
    read.  The client gets the result of the second I/O, the buffer is freed and the
    request is back on its channel. *)
Theorem unaligned_write_correct `{Clients} w f x b c ch r rest iovs content offset n arg k s m :
  let lba := 2 ^ k in let len := total iovs in
  0 <= k → io_ready w f x b c ch r rest → vectors w iovs content → bs_io_unit_size (w_bs w) = lba →
  0 <= offset → 0 < len → offset + len <= f_length x → offset + len < 2 ^ 64 → m * lba < 2 ^ 64 →
  ¬ (offset mod lba = 0 ∧ len mod lba = 0) → page_parameters lba offset len = (s, m) →
  ∃ w1, spdk_file_writev_async f c iovs offset len (CbUser n) arg w = Ok (tt, w1) ∧
    w_calls w1 = w_calls w ++ [mk_pending (BlobIoRead b (c_bs_channel ch) (PMem (w_next w) 0) s m) Cb__read_done (VReq r)] ∧
    ∀ disk rc, ∃ w2 d2, __read_done (VReq r) rc (with_blocks (w_next w) disk w1) = Ok (tt, w2) ∧
      w_calls w2 = w_calls w1 ++ [mk_pending (BlobIoWrite b (c_bs_channel ch) (PMem (w_next w) 0) s m) Cb__rw_done (VReq r)] ∧
      w_mem w2 !! w_next w = Some d2 ∧
      bytes d2 (offset - s * lba) len = content ∧
      (∀ j, ¬ (offset - s * lba <= j < offset - s * lba + len) → d2 j = disk j) ∧
      ∀ rc', __rw_done (VReq r) rc' w2 = Ok (tt, io_ended (w_next w) n rc' r c (take_head rest ch) w2).
Proof.
  intros lba len Hk Hio Hv Hunit Ho Hl Hin Hsum Hm Halign Hpage. unfold spdk_file_writev_async.
  rewrite (readvwritev_start w f x b c ch r rest iovs content offset len n arg false lba s m) by done.
  set (q := rw_request _ _ _ _ _ _ _ _ _ _ _ _). eexists. split; [done|]. split; [done|]. intros disk rc.
  set (w1 := reading_blocks _ _ _ _ _ _ _ _ _ _).
  assert (Hq : w_reqs w1 !! r = Some q) by apply lookup_insert_eq.
  assert (Hop : r_op q = OpRw (c_bs_channel ch) (Some (w_next w)) false offset (u64 (m * lba)) s m lba) by done.
  destruct (page_bounds k offset len s m Hk Ho Hl Hsum Hpage) as (Hmask & Hfit & Hpos). fold lba in Hmask, Hfit, Hpos.
  pose proof (io_fresh _ _ _ _ _ _ _ _ Hio) as Hfresh. pose proof (vectors_ok _ _ _ _ Hv Hfresh) as Hok.
  set (wd := with_blocks (w_next w) disk w1).
  assert (Hpin : w_mem wd !! w_next w = Some disk) by apply lookup_insert_eq.
  assert (Hcont : iovs_bytes (w_mem wd) iovs = Some content).
  { destruct Hv as (_ & _ & Hb). rewrite <- Hb. unfold wd, with_blocks, w1, reading_blocks. simpl.
    rewrite !insert_insert_eq. by apply iovs_bytes_insert. }
  destruct (gather (w_next w) iovs (offset - s * lba) (u64 (m * lba)) wd content disk Hok Hcont Hpin) as (d2 & Hrun & Hnew & Hold);
    [rewrite (u64_small (m * lba)) by lia; fold len; lia|].
  eexists _, d2. split.
  { unfold __read_done. cbn [as_req]. rewrite bind_ret, (bind_Ok (load_req r) _ wd q wd) by (by apply load_req_eq).
    rewrite Hop, Hmask. cbn [deref of_option]. rewrite bind_ret. change (r_iovs q) with iovs.
    rewrite (bind_Ok _ _ _ _ _ Hrun). change (r_file q) with (Some f).
    erewrite (bind_Ok (deref _)) by reflexivity.
    erewrite (bind_Ok (load_file f)) by (apply load_file_eq; exact (io_file _ _ _ _ _ _ _ _ Hio)).
    rewrite (io_blob _ _ _ _ _ _ _ _ Hio). erewrite (bind_Ok (deref _)) by reflexivity. reflexivity. }
  split; [done|]. split; [apply lookup_insert_eq|]. split; [done|]. split; [done|]. intros rc'.
  by eapply rw_done_eq; [exact Hq|exact Hop|..|apply lookup_insert_eq|exact (io_unlocked _ _ _ _ _ _ _ _ Hio)].
Qed.

(** C21. A read inside the file reads the blocks that cover the range and scatters
    exactly the bytes of the range over the client's vectors; nothing else in memory
    changes, the buffer is freed and the request is back.  The client is told 0
    whatever [rc] the blobstore's read ended with. *)
Theorem unbuffered_read_correct `{Clients} w f x b c ch r rest iovs content offset n arg k s m :
  let lba := 2 ^ k in let len := total iovs in let pin := w_next w in
  0 <= k → io_ready w f x b c ch r rest → vectors w iovs content → ForallOrdPairs disjoint_iovs iovs →
  bs_io_unit_size (w_bs w) = lba →
  0 <= offset → 0 < len → offset + len <= f_length x → offset + len < 2 ^ 64 → m * lba < 2 ^ 64 →
  page_parameters lba offset len = (s, m) →
  ∃ w1, spdk_file_readv_async f c iovs offset len (CbUser n) arg w = Ok (tt, w1) ∧
    w_calls w1 = w_calls w ++ [mk_pending (BlobIoRead b (c_bs_channel ch) (PMem pin 0) s m) Cb__read_done (VReq r)] ∧
    ∀ disk rc, ∃ w2, __read_done (VReq r) rc (with_blocks pin disk w1) = Ok (tt, w2) ∧
      iovs_bytes (w_mem w2) iovs = Some (bytes disk (offset - s * lba) len) ∧
      (∀ o j, ¬ (∃ v, v ∈ iovs ∧ covers v o j) → byte (w_mem w2) o j = byte (w_mem w) o j) ∧
      w_done w2 = w_done w ++ [(n, Op 0)] ∧
      w_chans w2 !! c = Some (put_head r (take_head rest ch)).
Proof.
  intros lba len pin Hk Hio Hv Hdis Hunit Ho Hl Hin Hsum Hm Hpage. unfold spdk_file_readv_async.
  rewrite (readvwritev_start w f x b c ch r rest iovs content offset len n arg true lba s m) by done.
  fold pin. set (q := rw_request _ _ _ _ _ _ _ _ _ _ _ _). eexists. split; [done|]. split; [done|]. intros disk rc.
  set (w1 := reading_blocks _ _ _ _ _ _ _ _ _ _).
  assert (Hq : w_reqs w1 !! r = Some q) by apply lookup_insert_eq.
  assert (Hop : r_op q = OpRw (c_bs_channel ch) (Some pin) true offset (u64 (m * lba)) s m lba) by done.
  destruct (page_bounds k offset len s m Hk Ho Hl Hsum Hpage) as (Hmask & Hfit & Hpos). fold lba in Hmask, Hfit, Hpos.
  pose proof (io_fresh _ _ _ _ _ _ _ _ Hio) as Hfresh. pose proof (vectors_ok _ _ _ _ Hv Hfresh) as Hok. fold pin in Hfresh, Hok.
  set (wd := with_blocks pin disk w1).
  assert (Hpin : w_mem wd !! pin = Some disk) by apply lookup_insert_eq.
  assert (Hmemd : w_mem wd = <[pin := disk]> (w_mem w)).
  { unfold wd, with_blocks, w1, reading_blocks. simpl. by rewrite insert_insert_eq. }
  destruct (scatter pin iovs (offset - s * lba) (u64 (m * lba)) wd disk Hok Hdis) as (mem' & Hrun & Hnew & Hold & _); [|done| |].
  { rewrite Hmemd, iovs_bytes_insert by done. destruct Hv as (_ & _ & ->). by eexists. }
  { rewrite (u64_small (m * lba)) by lia. fold len. lia. }
  eexists. split.
  { unfold __read_done. cbn [as_req]. rewrite bind_ret, (bind_Ok (load_req r) _ wd q wd) by (by apply load_req_eq).
    rewrite Hop, Hmask. cbn [deref of_option]. rewrite bind_ret. change (r_iovs q) with iovs.
    rewrite (bind_Ok _ _ _ _ _ Hrun).
    by eapply rw_done_eq; [exact Hq|exact Hop|..|apply lookup_insert_eq|exact (io_unlocked _ _ _ _ _ _ _ _ Hio)]. }
  split; [|split; [|split; [done|apply lookup_insert_eq]]].
  - simpl. by rewrite iovs_bytes_delete.
  - intros o j Hj. simpl. destruct (decide (o = pin)) as [->|Hne].
    + unfold byte. by rewrite lookup_delete_eq, Hfresh.
    + transitivity (byte mem' o j); [unfold byte; by rewrite lookup_delete_ne|]. rewrite Hold by done.
      rewrite Hmemd. unfold byte. by rewrite lookup_insert_ne.
Qed.
