(* ===== verification/FsOpenClose.v ===== *)
(** * Opening and closing files, recording their length

    The counting of references to a file of lib/NBFS/NBFS.c, the opens that wait for
    the blob, the deletion put off until the last close, and the length that a sync
    records. *)
From S2P Require Import Prelude Triple BPlusTree BPlusTreeSpec BPlusTreeFind CacheTree FsState FsPrim FsRequests FsFile FsMeta.
From S2P Require Import FsData FsSync FsLoop FsExec FsRanges FsMetaTheorems FsCached.
Local Open Scope Z_scope.

Section theorems.
Context `{Clients}.

(** ** Open *)
Definition one_more (r : req_id) (x : file) : file :=
  set_f_open_requests (f_open_requests x ++ [r]) (set_f_ref_count (f_ref_count x + 1) x).
Definition open_args (c : chan_id) (name : string) (f : file_id) (n : nat) (arg : void_ptr) : request :=
  set_r_op (OpOpen name 0) (set_r_fs true (set_r_file (Some f) (with_fn (CbUser n) arg (fresh_request c 0)))).
(** The world once the open is queued. *)
Definition queued (c : chan_id) (ch : channel) (r : req_id) (rest : list req_id) (name : string) (f : file_id) (x : file)
    (n : nat) (arg : void_ptr) (w : world) : world :=
  put_file f (one_more r x) (put_req r (open_args c name f n arg) (put_chan c (take_head rest ch) w)).

Lemma create_cb_queues w c ch r rest name f x n arg :
  w_files w !! f = Some x → 0 <= f_ref_count x < 2 ^ 32 - 1 → (f_ref_count x = 0 → f_blob x = None) →
  let w1 := put_req r (open_args c name f n arg) (put_chan c (take_head rest ch) w) in
  let w2 := queued c ch r rest name f x n arg w in
  fs_open_blob_create_cb (VReq r) 0 w1 =
    if decide (f_ref_count x = 0) then Ok (tt, put_call (BsOpenBlob (f_blobid x)) Cb_fs_open_blob_done (VReq r) w2)
    else match f_blob x with Some b => fs_open_blob_done (VReq r) (Some b) 0 w2 | None => Ok (tt, w2) end.
Proof.
  intros Hx Href Hb w1 w2. unfold fs_open_blob_create_cb. cbn [as_req]. exec.
  change (r_file (open_args c name f n arg)) with (Some f). cbv iota. exec. rewrite !put_file_twice.
  assert (Hu : u32 (f_ref_count x + 1) = f_ref_count x + 1) by (by rewrite u32_small by lia).
  set (w3 := put_file f _ w1). assert (w3 = w2) as ->.
  { unfold w3, w2, queued, w1. f_equal. unfold one_more. rewrite Hu. by destruct x. }
  cbn [f_ref_count f_blob f_blobid set_f_open_requests set_f_ref_count]. rewrite Hu.
  destruct (decide (f_ref_count x = 0)) as [Hz|Hnz].
  - rewrite decide_True by lia. rewrite (Hb Hz), bool_decide_eq_true_2 by done. exec. done.
  - rewrite decide_False by lia. by destruct (f_blob x).
Qed.

(** C24. Opening a file takes a reference and queues the request.  The first open has
    the blobstore open the blob; an open while the blob is being opened waits, with
    no call of its own; once the blob is open, an open completes at once with the
    file.  (A failed opening leaves the reference count as it is and no blob: the
    next open is then of the second kind and waits for nothing.) *)
Theorem open_correct w fs c ch r rest m name flags f x n arg :
  mounted w fs m → ready w fs c ch r rest → m !! name = Some f → w_files w !! f = Some x → f_is_deleted x = false →
  (String.length name <= SPDK_FILE_NAME_MAX)%nat → 0 <= f_ref_count x < 2 ^ 32 - 1 →
  (f_ref_count x = 0 → f_blob x = None) → (is_Some (f_blob x) → f_open_requests x = []) →
  ∃ w1, spdk_fs_open_file_async name flags (CbUser n) arg w = Ok (tt, w1) ∧
    match f_blob x with
    | Some b =>
        w_files w1 = <[f := set_f_ref_count (f_ref_count x + 1) x]> (w_files w) ∧ w_calls w1 = w_calls w ∧
        w_done w1 = w_done w ++ [(n, WithFile (Some f) 0)] ∧
        w_chans w1 = <[c := put_head r (take_head rest ch)]> (w_chans w)
    | None =>
        w_files w1 = <[f := one_more r x]> (w_files w) ∧ waits w1 c r n ∧ w_done w1 = w_done w ∧
        w_calls w1 = w_calls w ++ (if decide (f_ref_count x = 0)
                                   then [mk_pending (BsOpenBlob (f_blobid x)) Cb_fs_open_blob_done (VReq r)] else [])
    end.
Proof.
  intros Hm Hr Hf Hx Hdel Hlen Href Hb0 Hopen. unfold spdk_fs_open_file_async.
  assert (Hlong : name_too_long name = false) by (unfold name_too_long; rewrite bool_decide_eq_false_2; [done|lia]).
  rewrite Hlong, (bind_Ok _ _ _ _ _ (find_mounted w fs m name Hm)), Hf.
  rewrite (bind_Ok _ _ w false w) by (rewrite (bind_Ok _ _ _ _ _ (load_file_eq _ _ _ Hx)), Hdel; done).
  rewrite decide_False by naive_solver. pose proof (mt_fs _ _ _ Hm). exec.
  rewrite (rd_md _ _ _ _ _ _ Hr). exec. rewrite (bind_Ok _ _ _ _ _ (alloc_ready _ _ _ _ _ _ Hr)). unfold took. exec.
  rewrite put_req_twice. change (set_r_op _ _) with (open_args c name f n arg).
  rewrite (create_cb_queues w c ch r rest name f x n arg Hx Href Hb0).
  assert (Hw : waits (queued c ch r rest name f x n arg w) c r n).
  { exists (open_args c name f n arg). split; [apply lookup_insert_eq|]. split; done. }
  destruct (decide (f_ref_count x = 0)) as [Hz|Hnz].
  - rewrite (Hb0 Hz). eexists. split; [done|]. done.
  - destruct (f_blob x) as [b|] eqn:Hb.
    + eexists. split.
      * unfold fs_open_blob_done. cbn [as_req]. exec. change (r_file (open_args c name f n arg)) with (Some f). exec.
        rewrite (complete_opens_eq c f 0 [r] [n] _ _ (set_f_blob (Some b) (one_more r x)) (take_head rest ch));
          [reflexivity|apply lookup_insert_eq| |simpl; rewrite length_app; simpl; lia|by constructor|apply put_chan_lookup|].
        -- simpl. by rewrite (Hopen (mk_is_Some _ _ eq_refl)).
        -- exact (rd_unlocked _ _ _ _ _ _ Hr).
      * unfold put_file, opened, queued, put_chan. simpl. rewrite !insert_insert_eq.
        split; [|done]. f_equal. unfold one_more. specialize (Hopen (mk_is_Some _ _ eq_refl)).
        destruct x; simpl in *. by subst.
    + eexists. split; [done|]. rewrite app_nil_r. done.
Qed.
End theorems.

(** ** Close *)

(** A close request of client [n] for the file [f]. *)
Record closing (w : world) (r : req_id) (q : request) (c : chan_id) (f : file_id) (n : nat) : Prop := {
  cl_req : w_reqs w !! r = Some q;
  cl_fn : r_fn q = Some (CbUser n);
  cl_chan : r_channel q = Some c;
  cl_file : r_file q = Some f
}.

Lemma call_user_eq `{Clients} q n o w : r_fn q = Some (CbUser n) → call_fn q o w = Ok (tt, note n o w).
Proof. intros Hq. unfold call_fn. rewrite Hq. cbn [deref of_option]. rewrite bind_ret. apply invoke_user. Qed.

Lemma unlock_locked f x y w :
  f_lock y = true → f_lock x = false → set_f_lock false y = x → file_unlock f (put_file f y w) = Ok (tt, put_file f x w).
Proof.
  intros Hy Hx Hxy. rewrite (file_unlock_eq _ f y); [by rewrite put_file_twice, Hxy|apply lookup_insert_eq|done].
Qed.

(** The last reference goes: the blob is closed. *)
Definition blob_closing (f : file_id) (x : file) (b : blob_id) (r : req_id) (w : world) : world :=
  put_call (BlobClose b) Cb__file_close_async_done (VReq r)
    (put_file f (set_f_blob None (set_f_ref_count 0 x)) w).

Lemma close_last_eq `{Invoke} w f x b r :
  w_files w !! f = Some x → f_lock x = false → f_ref_count x = 1 → f_blob x = Some b →
  __file_close_async f r w = Ok (tt, blob_closing f x b r w).
Proof.
  intros Hx Hl Href Hb. unfold __file_close_async. rewrite (bind_Ok _ _ _ _ _ (file_lock_eq _ _ _ Hx Hl)). exec.
  replace (f_ref_count (set_f_lock true x)) with 1 by (by destruct x). rewrite decide_False by lia. exec.
  rewrite decide_False by lia. rewrite put_file_twice.
  rewrite (bind_Ok (file_unlock f) _ _ tt (put_file f (set_f_ref_count 0 x) w)) by (apply unlock_locked; destruct x; simpl in *; by subst).
  replace (f_blob (set_f_lock true x)) with (Some b) by (by destruct x). exec. by rewrite put_file_twice.
Qed.

(** C25. Closing drops one reference.  While other references remain the client is
    told 0 at once and nothing else happens; the last one has the blobstore close the
    blob, and the client gets its result then.  Closing a file that is not open is
    [-EBADF].  In each case the request is back on its channel when the client knows. *)
Theorem close_correct `{Clients} w f x r q c ch n :
  closing w r q c f n → w_files w !! f = Some x → f_lock x = false → f_is_deleted x = false →
  0 <= f_ref_count x → (f_ref_count x = 1 → is_Some (f_blob x)) → w_chans w !! c = Some ch → c_lock ch = false →
  let finished rc w := put_chan c (put_head r ch) (note n (Op rc) w) in
  (f_ref_count x = 0 → __file_close_async f r w = Ok (tt, finished (- EBADF) w)) ∧
  (1 < f_ref_count x →
     __file_close_async f r w = Ok (tt, finished 0 (put_file f (set_f_ref_count (f_ref_count x - 1) x) w))) ∧
  (∀ b, f_ref_count x = 1 → f_blob x = Some b →
     __file_close_async f r w = Ok (tt, blob_closing f x b r w) ∧
     ∀ rc, __file_close_async_done (VReq r) rc (blob_closing f x b r w) = Ok (tt, finished rc (blob_closing f x b r w))).
Proof.
  intros [Hq Hfn Hch Hqf] Hx Hl Hdel Href Hblob Hc Hul finished.
  assert (Hdone : ∀ rc w' y, w_reqs w' = w_reqs w → w_chans w' = w_chans w → w_files w' !! f = Some y →
    f_is_deleted y = false → __file_close_async_done (VReq r) rc w' = Ok (tt, finished rc w')).
  { intros rc w' y Hr' Hc' Hy Hd. unfold __file_close_async_done. cbn [as_req]. rewrite bind_ret.
    rewrite (bind_Ok (load_req r) _ _ q w') by (apply load_req_eq; by rewrite Hr'). rewrite Hqf.
    change ((deref (Some f) ≫= ?g) w') with (g f w'). cbv beta. rewrite (bind_Ok _ _ _ _ _ (load_file_eq _ _ _ Hy)), Hd.
    rewrite (bind_Ok _ _ _ _ _ (call_user_eq q n _ w' Hfn)).
    eapply free_spec; [simpl; by rewrite Hr'|done|simpl; by rewrite Hc'|done]. }
  split; [|split].
  - intros Hz. unfold __file_close_async. rewrite (bind_Ok _ _ _ _ _ (file_lock_eq _ _ _ Hx Hl)). exec.
    replace (f_ref_count (set_f_lock true x)) with 0 by (by destruct x). rewrite decide_True by lia.
    rewrite (bind_Ok (file_unlock f) _ _ tt (put_file f x w)) by (apply unlock_locked; destruct x; simpl in *; by subst).
    assert (put_file f x w = w) as -> by (unfold put_file; rewrite insert_id by done; by destruct w).
    by apply (Hdone _ _ x).
  - intros Hgt. unfold __file_close_async. rewrite (bind_Ok _ _ _ _ _ (file_lock_eq _ _ _ Hx Hl)). exec.
    replace (f_ref_count (set_f_lock true x)) with (f_ref_count x) by (by destruct x). rewrite decide_False by lia. exec.
    rewrite decide_True by lia. rewrite put_file_twice.
    rewrite (bind_Ok (file_unlock f) _ _ tt (put_file f (set_f_ref_count (f_ref_count x - 1) x) w))
      by (apply unlock_locked; destruct x; simpl in *; by subst). exec.
    rewrite (bind_Ok _ _ _ _ _ (call_user_eq q n _ _ Hfn)). by eapply free_spec.
  - intros b Hone Hb. split; [by apply close_last_eq|]. intros rc.
    eapply Hdone; [done|done|apply lookup_insert_eq|by destruct x].
Qed.

(** A file marked deleted, with one reference left. *)
Record doomed (x : file) (name : string) (b : blob_id) : Prop := {
  do_name : f_name x = Some name;
  do_deleted : f_is_deleted x = true;
  do_ref : f_ref_count x = 1;
  do_blob : f_blob x = Some b;
  do_unlocked : f_lock x = false;
  do_uncached : present_mask (f_tree x) = 0
}.

Lemma delete_cb_invoke r rc : invoke Cb_blob_delete_cb (VReq r) (Op rc) = blob_delete_cb (H := invoke_n 15) (VReq r) rc.
Proof. reflexivity. Qed.


(** ** Recording the length *)

(** A sync request that waits for [o] bytes to be flushed. *)
Definition syncing (w : world) (r : req_id) (o : Z) (p : bool) : Prop :=
  ∃ q l, w_reqs w !! r = Some q ∧ r_op q = OpSync o p l.
Definition ahead (w : world) (flushed : Z) (r : req_id) : Prop := ∃ o p, syncing w r o p ∧ flushed < o.

Lemma first_flushed_none w flushed rs :
  Forall (ahead w flushed) rs → first_flushed flushed rs w = Ok (None, w).
Proof.
  induction 1 as [|r rs (o & p & (q & l & Hq & Hop) & Hlt) _ IH]; [done|]. cbn [first_flushed].
  rewrite (bind_Ok _ _ _ _ _ (load_req_eq _ _ _ Hq)). unfold op_sync. rewrite Hop, bind_ret.
  by rewrite decide_False by lia.
Qed.

Lemma first_flushed_some w flushed pre r post o p :
  Forall (ahead w flushed) pre → syncing w r o p → o <= flushed →
  first_flushed flushed (pre ++ r :: post) w = Ok (Some r, w).
Proof.
  intros Hpre (q & l & Hq & Hop) Hle.
  induction Hpre as [|r' pre (o' & p' & (q' & l' & Hq' & Hop') & Hlt) _ IH]; simpl app; cbn [first_flushed].
  - rewrite (bind_Ok _ _ _ _ _ (load_req_eq _ _ _ Hq)). unfold op_sync. rewrite Hop, bind_ret. by rewrite decide_True by lia.
  - rewrite (bind_Ok _ _ _ _ _ (load_req_eq _ _ _ Hq')). unfold op_sync. rewrite Hop', bind_ret. by rewrite decide_False by lia.
Qed.

Lemma relock w f x : w_files w !! f = Some x → f_lock x = false →
  file_unlock f (put_file f (set_f_lock true x) w) = Ok (tt, w).
Proof.
  intros Hx Hl. rewrite (unlock_locked f x) by (destruct x; simpl in *; by subst).
  unfold put_file. rewrite insert_id by done. by destruct w.
Qed.

Lemma filter_others (r : req_id) pre post :
  r ∉ pre ++ post → filter (λ r', r' ≠ r) (pre ++ r :: post) = pre ++ post.
Proof.
  intros Hn. rewrite filter_app, filter_cons_False by (intros E; by apply E). rewrite <- filter_app.
  induction (pre ++ post) as [|r' l IH]; [done|]. apply not_elem_of_cons in Hn as [Hne Hn].
  rewrite filter_cons_True by done. f_equal. by apply IH.
Qed.

(** The length [len] is on its way to the metadata of the blob. *)
Definition recording (b : blob_id) (bl : blob) (r : req_id) (q : request) (o len : Z) (w : world) : world :=
  put_call (BlobSyncMd b) Cb__file_cache_finish_sync (VReq r)
    (set_w_bs (set_bs_blobs (<[b := set_b_xattrs (<["length" := XLength len]> (b_xattrs bl)) bl]> (bs_blobs (w_bs w))) (w_bs w))
      (put_req r (set_r_op (OpSync o true len) q) w)).

Lemma set_xattr_eq w b bl name v :
  bs_blobs (w_bs w) !! b = Some bl → spdk_blob_set_xattr b name v w =
  Ok (tt, set_w_bs (set_bs_blobs (<[b := set_b_xattrs (<[name := v]> (b_xattrs bl)) bl]> (bs_blobs (w_bs w))) (w_bs w)) w).
Proof. intros Hb. unfold spdk_blob_set_xattr. by rewrite (bind_Ok _ _ _ _ _ (load_blob_eq _ _ _ Hb)). Qed.

(** [__check_sync_reqs] up to the first sync whose bytes are all flushed. *)
Lemma check_first_eq w f x pre r post o p b l q :
  w_files w !! f = Some x → f_lock x = false → f_sync_requests x = pre ++ r :: post →
  Forall (ahead w (f_length_flushed x)) pre → w_reqs w !! r = Some q → o <= f_length_flushed x →
  f_blob x = Some b → r_op q = OpSync o p l →
  __check_sync_reqs f w =
    (if p then file_unlock f else
     _ ← upd_req r (set_r_op (OpSync o true (f_length_flushed x)));
     _ ← spdk_blob_set_xattr b "length" (XLength (f_length_flushed x));
     _ ← file_unlock f; bs_async (BlobSyncMd b) Cb__file_cache_finish_sync (VReq r)) (put_file f (set_f_lock true x) w).
Proof.
  intros Hx Hl Hrs Hpre Hq Hle Hb Hop. set (w0 := put_file _ _ _).
  unfold __check_sync_reqs. rewrite (bind_Ok _ _ _ _ _ (file_lock_eq _ _ _ Hx Hl)). exec. fold w0.
  replace (f_sync_requests (set_f_lock true x)) with (pre ++ r :: post) by (by destruct x).
  replace (f_length_flushed (set_f_lock true x)) with (f_length_flushed x) by (by destruct x).
  rewrite (bind_Ok (first_flushed _ _) _ w0 (Some r) w0); [|eapply first_flushed_some; [exact Hpre| |exact Hle]; by exists q, l].
  rewrite (bind_Ok (load_req r) _ w0 q w0) by (by apply load_req_eq). unfold op_sync. rewrite Hop, bind_ret.
  replace (f_blob (set_f_lock true x)) with (Some b) by (by destruct x). by destruct p.
Qed.

(** [__check_sync_reqs] looks for the first sync of the file whose bytes are all
    flushed.  When there is none, or its length is already being recorded, nothing
    changes; otherwise the flushed length, which is at least what that sync waits
    for, goes to the metadata of the blob, and when the metadata is stored the sync
    leaves the queue, its client is told, the request is back, and the queue is looked
    at again. *)
Theorem sync_records_length `{Clients} w f x pre r post o b bl c ch n q l :
  w_files w !! f = Some x → f_lock x = false → f_sync_requests x = pre ++ r :: post →
  Forall (ahead w (f_length_flushed x)) pre → w_reqs w !! r = Some q → r ∉ pre ++ post → o <= f_length_flushed x →
  closing w r q c f n → w_chans w !! c = Some ch → c_lock ch = false →
  f_blob x = Some b → bs_blobs (w_bs w) !! b = Some bl →
  (r_op q = OpSync o true l → __check_sync_reqs f w = Ok (tt, w)) ∧
  (r_op q = OpSync o false l →
     let w1 := recording b bl r q o (f_length_flushed x) w in
     __check_sync_reqs f w = Ok (tt, w1) ∧
     ∀ rc, __file_cache_finish_sync (VReq r) rc w1 =
       __check_sync_reqs f (put_chan c (put_head r ch) (note n (Op rc)
         (put_file f (set_f_sync_requests (pre ++ post) (set_f_length_xattr (f_length_flushed x) x)) w1)))).
Proof.
  intros Hx Hl Hrs Hpre Hq Hnin Hle [_ Hfn Hch Hqf] Hc Hul Hb Hbl.
  set (w0 := put_file f (set_f_lock true x) w).
  assert (Hcheck : ∀ p, r_op q = OpSync o p l → _) by (intros p Hop; eapply check_first_eq; done || by split). fold w0 in Hcheck.
  split; intros Hop; [rewrite (Hcheck _ Hop); by apply relock|]. intros w1. split.
  - rewrite (Hcheck _ Hop). rewrite (bind_Ok _ _ _ _ _ (upd_req_eq w0 r q _ Hq)).
    rewrite (bind_Ok _ _ _ _ _ (set_xattr_eq (put_req r _ w0) b bl _ _ Hbl)).
    match goal with |- (file_unlock f ≫= _) ?v = _ => set (w2 := v) end.
    assert (Hx2 : w_files w2 !! f = Some (set_f_lock true x)) by apply lookup_insert_eq.
    rewrite (bind_Ok _ _ _ _ _ (file_unlock_eq _ _ _ Hx2 ltac:(by destruct x))).
    unfold bs_async, modify. do 2 f_equal. unfold w1, recording, w2, w0, put_file. simpl.
    rewrite insert_insert_eq. replace (set_f_lock false (set_f_lock true x)) with x by (destruct x; simpl in *; by subst).
    by rewrite insert_id.
  - intros rc. unfold __file_cache_finish_sync. cbn [as_req]. rewrite bind_ret.
    set (q1 := set_r_op (OpSync o true (f_length_flushed x)) q).
    assert (Hq1 : w_reqs w1 !! r = Some q1) by apply lookup_insert_eq.
    rewrite (bind_Ok _ _ _ _ _ (load_req_eq _ _ _ Hq1)). change (r_file q1) with (r_file q). rewrite Hqf.
    change ((deref (Some f) ≫= ?g) w1) with (g f w1). cbv beta.
    rewrite (bind_Ok (file_lock f) _ _ _ _ (file_lock_eq w1 f x Hx Hl)).
    change (r_op q1) with (OpSync o true (f_length_flushed x)). cbn [op_sync]. exec.
    rewrite (bool_decide_eq_true_2 (o <= _)) by (by destruct x). unfold guard_or. exec.
    rewrite (bool_decide_eq_true_2 (r ∈ _))
      by (destruct x; simpl in *; subst; apply elem_of_app; right; left). exec. rewrite !put_file_twice.
    set (z := set_f_sync_requests (pre ++ post) (set_f_length_xattr (f_length_flushed x) x)).
    rewrite (bind_Ok (file_unlock f) _ _ tt (put_file f z w1)).
    2:{ apply unlock_locked; unfold z; destruct x; simpl in *; try done. subst. by rewrite filter_others. }
    assert (Hfn1 : r_fn q1 = Some (CbUser n)) by done.
    rewrite (bind_Ok _ _ _ _ _ (call_user_eq q1 n (Op rc) _ Hfn1)).
    by erewrite (bind_Ok (free_fs_request r)) by (eapply free_spec; [exact Hq1|exact Hch|exact Hc|exact Hul]).
Qed.
