(* ===== verification/FsFlush.v ===== *)
(** * Writing the cache back

    __file_flush and __file_flush_done: the unflushed bytes of the buffer at
    [length_flushed] go to the blob, then [length_flushed] moves past them. *)
From S2P Require Import Prelude Triple BPlusTree CacheTree CacheTreeProofs FsState FsPrim FsRequests FsFile FsMeta FsData FsSync.
From S2P Require Import FsLoop FsExec FsRanges FsMetaTheorems FsSystemTheorems FsCached FsOpenClose.
Local Open Scope Z_scope.

(** A file whose buffer [n] at [length_flushed] has bytes to write: it is full, or a
    sync waits. The I/O unit is [2 ^ k] bytes. *)
Record flushable (w : world) (fs : filesystem) (f : file_id) (x : file) (m : gmap Z buf_id) (n : buf_id) (c : cache_buffer)
    (bl : blob_id) (sch : channel) (k : Z) : Prop := {
  fl_file : w_files w !! f = Some x;
  fl_unlocked : f_lock x = false;
  fl_blob : f_blob x = Some bl;
  fl_fs : w_fs w = Some fs;
  fl_channel : ∃ sc, fs_sync_channel fs = Some sc ∧ w_chans w !! sc = Some sch;
  fl_rep : cache_rep (w_pool w) (f_tree x) m;
  fl_in : m !! block (f_length_flushed x) = Some n;
  fl_buf : bufs (w_pool w) !! n = Some c;
  fl_size : buf_size c = CBS;
  fl_aligned : buf_offset c mod CBS = 0;
  fl_idle : in_progress c = false;
  fl_pos : f_length_flushed x = buf_offset c + bytes_flushed c;
  fl_dirty : 0 <= bytes_flushed c < bytes_filled c;
  fl_filled : bytes_filled c <= CBS;
  fl_due : bytes_filled c = CBS ∨ f_sync_requests x ≠ [];
  fl_unit : bs_io_unit_size (w_bs w) = 2 ^ k;
  fl_small_unit : 0 <= k <= 18
}.

(** The world once the write of [num] blocks from block [start] is under way. *)
Definition flushing (bl : blob_id) (sch : channel) (n : buf_id) (c : cache_buffer) (r : req_id) (q : request)
    (lba_size start num : Z) (w : world) : world :=
  put_call (BlobIoWrite bl (c_bs_channel sch) (PBuf n (start * lba_size - buf_offset c)) start num) Cb__file_flush_done (VReq r)
    (in_pool (put_buf n (set_in_progress true c) (w_pool w))
      (put_req r (set_r_op (OpFlush n (bytes_filled c - bytes_flushed c)) q) w)).

Lemma flush_starts w fs f x m n c bl sch k r q :
  flushable w fs f x m n c bl sch k → w_reqs w !! r = Some q → r_file q = Some f →
  ∃ start num, page_parameters (2 ^ k) (buf_offset c + bytes_flushed c) (bytes_filled c - bytes_flushed c) = (start, num) ∧
    __file_flush (VReq r) w = Ok (tt, flushing bl sch n c r q (2 ^ k) start num w).
Proof.
  intros [Hx Hlk Hbl Hfs (sc & Hsc & Hsch) Hrep Hin Hc Hsz Hal Hid Hpos Hdirty Hfil Hdue Hun Hk] Hq Hqf.
  destruct (page_parameters _ _ _) as [start num] eqn:Hpp. exists start, num. split; [done|].
  unfold __file_flush. cbn [as_req]. exec. rewrite Hqf. exec.
  rewrite (bind_Ok _ _ _ _ _ (file_lock_eq _ _ _ Hx Hlk)). exec.
  set (w1 := put_file f (set_f_lock true x) w).
  assert (Hoff : 0 <= buf_offset c).
  { destruct (cr_bufs _ _ _ Hrep _ _ Hin) as (c' & Hc' & [? _] & _). congruence. }
  replace (f_tree (set_f_lock true x)) with (f_tree x) by (by destruct x).
  replace (f_length_flushed (set_f_lock true x)) with (f_length_flushed x) by (by destruct x).
  rewrite (bind_Ok _ _ _ _ _ (find_buffer_eq w1 x m (f_length_flushed x) Hrep ltac:(lia))), Hin.
  rewrite (bind_Ok _ _ _ _ _ (get_buf_eq w1 n c Hc)).
  replace (in_progress c || _) with false.
  2:{ rewrite Hid. simpl. symmetry. apply andb_false_iff. replace (f_sync_requests (set_f_lock true x)) with (f_sync_requests x) by (by destruct x).
      destruct Hdue as [Hfull|Hsync]; [left|right]; apply bool_decide_eq_false_2; [|done]. rewrite Hsz, Hfull. lia. }
  assert (Hmax : buf_offset c <= MAX_OFFSET).
  { destruct (cr_bufs _ _ _ Hrep _ _ Hin) as (c' & Hc' & [_ Hm] & _). rewrite Hc in Hc'. injection Hc' as <-. lia. }
  change MAX_OFFSET with 1152921504606846976 in Hmax. change CBS with 262144 in Hfil.
  rewrite (u64_small (buf_offset c + bytes_flushed c)), (u32_small (bytes_filled c - bytes_flushed c)) by lia.
  rewrite decide_False by lia. exec. unfold __get_page_parameters. rewrite bind_assoc. exec.
  unfold spdk_bs_get_io_unit_size. exec. change (w_bs (put_req _ _ w1)) with (w_bs w). rewrite Hun, Hpp. exec.
  rewrite (bind_Ok _ _ _ _ _ (upd_buf_eq (put_req _ _ w1) n c _ Hc)).
  match goal with |- (file_unlock f ≫= _) ?v = _ => set (w2 := v) end.
  assert (Hx2 : w_files w2 !! f = Some (set_f_lock true x)) by apply lookup_insert_eq.
  rewrite (bind_Ok _ _ _ _ _ (file_unlock_eq _ _ _ Hx2 ltac:(by destruct x))).
  replace (f_blob (set_f_lock true x)) with (Some bl) by (by destruct x). exec. rewrite Hsc. exec.
  unfold bs_async, modify, flushing. do 2 f_equal.
  replace (set_f_lock false (set_f_lock true x)) with x by (destruct x; simpl in *; by subst).
  unfold w2, w1, put_call, put_file, put_req, in_pool. simpl. rewrite insert_insert_eq, insert_id by done. by destruct w.
Qed.

(** The blocks written are those of the unflushed bytes, they lie within the buffer,
    and the pointer passed is where the buffer holds the first of them. *)
Lemma flush_range w fs f x m n c bl sch k start num :
  flushable w fs f x m n c bl sch k →
  page_parameters (2 ^ k) (buf_offset c + bytes_flushed c) (bytes_filled c - bytes_flushed c) = (start, num) →
  buf_offset c <= start * 2 ^ k <= f_length_flushed x ∧ f_length_flushed x < (start + 1) * 2 ^ k ∧
  (start + num - 1) * 2 ^ k < buf_offset c + bytes_filled c <= (start + num) * 2 ^ k ∧
  (start + num) * 2 ^ k <= buf_offset c + CBS ∧
  ∀ j, start * 2 ^ k <= j < buf_offset c + bytes_filled c →
    cbyte (w_pool w) m j = Some (buf_data c (start * 2 ^ k - buf_offset c + (j - start * 2 ^ k))).
Proof.
  intros [Hx Hlk Hbl Hfs Hch Hrep Hin Hc Hsz Hal Hid Hpos Hdirty Hfil Hdue Hun Hk] Hpp.
  destruct (cr_bufs _ _ _ Hrep _ _ Hin) as (c' & Hc' & [Hoff Hmax] & Hblk).
  rewrite Hc in Hc'. injection Hc' as <-. change MAX_OFFSET with 1152921504606846976 in Hmax.
  assert (Hcbs : CBS = 2 ^ (18 - k) * 2 ^ k) by (change CBS with (2 ^ 18); rewrite <- Z.pow_add_r by lia; f_equal; lia).
  assert (Hu : 0 < 2 ^ k) by (apply Z.pow_pos_nonneg; lia).
  assert (Hmul : buf_offset c = buf_offset c / CBS * 2 ^ (18 - k) * 2 ^ k).
  { rewrite <- Z.mul_assoc, <- Hcbs. pose proof (Z.div_mod (buf_offset c) CBS ltac:(by vm_compute)). lia. }
  set (d := buf_offset c / CBS * 2 ^ (18 - k)) in *. set (e := 2 ^ (18 - k)) in *.
  destruct (page_cover k (buf_offset c + bytes_flushed c) (bytes_filled c - bytes_flushed c) start num) as (H1 & H2 & _ & _);
    [lia|lia|lia|change CBS with 262144 in *; lia|exact Hpp|].
  replace (buf_offset c + bytes_flushed c + (bytes_filled c - bytes_flushed c)) with (buf_offset c + bytes_filled c) in H2 by lia.
  assert (Hd : d <= start) by (apply Z.lt_succ_r, (mul_lt_cancel _ _ (2 ^ k)); lia).
  assert (He : start + num <= d + e) by (apply Z.lt_succ_r, (mul_lt_cancel _ _ (2 ^ k)); nia).
  assert (Hlo : buf_offset c <= start * 2 ^ k) by (rewrite Hmul; by apply Z.mul_le_mono_nonneg_r; lia).
  split; [lia|]. split; [lia|]. split; [lia|]. split; [rewrite Hmul, Hcbs; nia|].
  intros j Hj. unfold cbyte. replace (block j) with (block (buf_offset c)).
  2:{ symmetry. apply block_in. pose proof (Z.div_mod (buf_offset c) CBS ltac:(by vm_compute)) as Hdm.
      unfold block. change (2 ^ 18) with CBS. lia. }
  rewrite Hblk, Hin. cbn. rewrite Hc. cbn. rewrite decide_True by lia. do 2 f_equal. lia.
Qed.

(** ** The completion of the write *)
Lemma rep_put_buf p t m n c c' :
  cache_rep p t m → bufs p !! n = Some c → buf_offset c' = buf_offset c → cache_rep (put_buf n c' p) t m.
Proof.
  intros [Ht Hb] Hc Ho. split; [done|]. intros k b Hk. destruct (Hb k b Hk) as (d & Hd & Hr & Hblk). simpl.
  destruct (decide (b = n)) as [->|Hne].
  - exists c'. rewrite lookup_insert_eq. rewrite Hc in Hd. injection Hd as <-. by rewrite Ho.
  - exists d. by rewrite lookup_insert_ne.
Qed.

(** What the completion records: [len] more bytes of the buffer and of the file are
    written back. *)
Definition wrote (len : Z) (c : cache_buffer) : cache_buffer :=
  set_bytes_flushed (u32 (bytes_flushed c + len)) (set_in_progress false c).
Definition advanced (len : Z) (x : file) : file :=
  set_f_length (Z.max (f_length x) (u64 (f_length_flushed x + len))) (set_f_length_flushed (u64 (f_length_flushed x + len)) x).

(** The blob reaches into buffer [d]. *)
Definition within (fs : filesystem) (B : blob) (d : cache_buffer) : Prop :=
  buf_offset d < u64 (fs_cluster_sz fs * b_clusters B) ∨ bytes_filled d = 0.

Lemma flush_ends w fs f x m n c bl B r q len rc :
  w_files w !! f = Some x → f_lock x = false → f_blob x = Some bl → w_fs w = Some fs → bs_blobs (w_bs w) !! bl = Some B →
  cache_rep (w_pool w) (f_tree x) m → bufs (w_pool w) !! n = Some c →
  w_reqs w !! r = Some q → r_file q = Some f → r_op q = OpFlush n len → within fs B c →
  (∀ j d, m !! block (u64 (f_length_flushed x + len)) = Some j → j ≠ n → bufs (w_pool w) !! j = Some d → within fs B d) →
  __file_flush_done (VReq r) rc w =
    (_ ← __check_sync_reqs f; __file_flush (VReq r)) (in_pool (put_buf n (wrote len c) (w_pool w)) (put_file f (advanced len x) w)).
Proof.
  intros Hx Hlk Hbl Hfs HB Hrep Hc Hq Hqf Hop Hwc Hwo. unfold __file_flush_done. cbn [as_req]. exec. rewrite Hqf. exec. rewrite Hop. cbv iota.
  rewrite (bind_Ok _ _ _ _ _ (file_lock_eq _ _ _ Hx Hlk)).
  rewrite (bind_Ok _ _ _ _ _ (upd_buf_eq (put_file f (set_f_lock true x) w) n c _ Hc)). exec. rewrite !put_file_twice.
  set (v := u64 (f_length_flushed x + len)).
  set (y := set_f_length (Z.max _ _) _). set (p1 := put_buf n (wrote len c) (w_pool w)).
  match goal with |- (get_buf n ≫= _) ?u = _ => replace u with (in_pool p1 (put_file f y w)) end.
  2:{ unfold in_pool, put_file. simpl. by rewrite insert_insert_eq. }
  set (w1 := in_pool p1 (put_file f y w)).
  assert (Hy : w_files w1 !! f = Some y) by apply lookup_insert_eq.
  assert (Hc1 : bufs (w_pool w1) !! n = Some (wrote len c)) by apply lookup_insert_eq.
  assert (Hnext : ∃ o, (if decide (bytes_flushed (wrote len c) = buf_size (wrote len c))
      then on_pool (tree_find_buffer (f_tree y) (f_length_flushed y)) else mret (Some n)) w1 = Ok (o, w1) ∧
    ∀ j, o = Some j → ∃ d, bufs p1 !! j = Some d ∧ within fs B d).
  { assert (Hv : 0 <= v) by (apply Z.mod_pos_bound; lia).
    destruct (decide _); [|exists (Some n); split; [done|intros j [= <-]; by exists (wrote len c)]].
    replace (f_length_flushed y) with v by (by destruct x).
    rewrite (find_buffer_eq w1 y m v) by (done || (eapply rep_put_buf; [|exact Hc|done]; by destruct x)).
    exists (m !! block v). split; [done|]. intros j Hj. destruct (decide (j = n)) as [->|Hne]; [by exists (wrote len c)|].
    destruct (cr_bufs _ _ _ Hrep _ _ Hj) as (d & Hd & _). exists d. split; [by apply lookup_insert_Some; right|by eapply Hwo]. }
  destruct Hnext as (o & Hrun & Ho).
  rewrite (bind_Ok _ _ _ _ _ (get_buf_eq w1 n _ Hc1)), (bind_Ok _ _ _ _ _ Hrun).
  rewrite (bind_Ok _ _ w1 tt w1).
  2:{ destruct o as [j|]; [|done]. destruct (Ho j eq_refl) as (d & Hd & Hwd).
      rewrite (bind_Ok _ _ _ _ _ (get_buf_eq w1 j d Hd)).
      rewrite (bind_Ok _ _ _ _ _ (file_blob_size_eq w1 fs f y bl B Hfs Hy ltac:(by destruct x) HB)).
      unfold guard_or. by rewrite bool_decide_eq_true_2. }
  rewrite (bind_Ok _ _ _ _ _ (file_unlock_eq _ _ _ Hy ltac:(by destruct x))). f_equal.
  unfold w1, in_pool, put_file. simpl. rewrite insert_insert_eq. do 4 f_equal. unfold y, advanced. destruct x; simpl in *; by subst.
Qed.

Lemma wrote_all c : in_progress c = false → 0 <= bytes_filled c <= CBS →
  wrote (bytes_filled c - bytes_flushed c) (set_in_progress true c) = set_bytes_flushed (bytes_filled c) c.
Proof.
  intros Hid Hf. unfold wrote. change (bytes_flushed (set_in_progress true c)) with (bytes_flushed c).
  replace (bytes_flushed c + (bytes_filled c - bytes_flushed c)) with (bytes_filled c) by lia.
  rewrite u32_small by (change CBS with 262144 in *; lia). destruct c; simpl in *. by subst.
Qed.

(** C10. __file_flush on a file whose buffer at [length_flushed] is full, or waited for
    by a sync: it starts one write, of the least range of blocks that has the
    buffer's unflushed bytes, from the place in the buffer where the file's bytes of
    these blocks are; the blocks do not leave the buffer, which is marked busy, and
    the file's lock is free.  The completion of the write, whatever its result (an
    error is not looked at), marks the buffer clean, moves [length_flushed] to the
    end of its bytes, and goes on with the syncs that wait and the next buffer. *)
Theorem flush_writes_back w fs f x m n c bl B sch k r q :
  flushable w fs f x m n c bl sch k → w_reqs w !! r = Some q → r_file q = Some f → bs_blobs (w_bs w) !! bl = Some B →
  let e := buf_offset c + bytes_filled c in
  within fs B c → (∀ j d, m !! block e = Some j → j ≠ n → bufs (w_pool w) !! j = Some d → within fs B d) →
  ∃ start num, let w1 := flushing bl sch n c r q (2 ^ k) start num w in
    __file_flush (VReq r) w = Ok (tt, w1) ∧
    buf_offset c <= start * 2 ^ k <= f_length_flushed x ∧ f_length_flushed x < (start + 1) * 2 ^ k ∧
    (start + num - 1) * 2 ^ k < e <= (start + num) * 2 ^ k ∧ (start + num) * 2 ^ k <= buf_offset c + CBS ∧
    (∀ j, start * 2 ^ k <= j < e → cbyte (w_pool w) m j = Some (buf_data c (start * 2 ^ k - buf_offset c + (j - start * 2 ^ k)))) ∧
    ∀ rc, __file_flush_done (VReq r) rc w1 = (_ ← __check_sync_reqs f; __file_flush (VReq r))
      (in_pool (put_buf n (set_bytes_flushed (bytes_filled c) c) (w_pool w))
        (put_file f (set_f_length (Z.max (f_length x) e) (set_f_length_flushed e x)) w1)).
Proof.
  intros Hfl Hq Hqf HB e Hwc Hwo. destruct (flush_starts _ _ _ _ _ _ _ _ _ _ _ _ Hfl Hq Hqf) as (start & num & Hpp & Hrun).
  destruct (flush_range _ _ _ _ _ _ _ _ _ _ _ _ Hfl Hpp) as (R1 & R2 & R3 & R4 & R5).
  exists start, num. intros w1. do 6 (split; [done|]). intros rc. destruct Hfl.
  destruct (cr_bufs _ _ _ fl_rep0 _ _ fl_in0) as (c' & Hc' & [Hoff Hmax] & _). rewrite fl_buf0 in Hc'. injection Hc' as <-.
  change MAX_OFFSET with 1152921504606846976 in Hmax.
  assert (He : u64 (f_length_flushed x + (bytes_filled c - bytes_flushed c)) = e).
  { rewrite u64_small; [unfold e; lia|]. change CBS with 262144 in *. lia. }
  rewrite (flush_ends w1 fs f x m n (set_in_progress true c) bl B r
    (set_r_op (OpFlush n (bytes_filled c - bytes_flushed c)) q) (bytes_filled c - bytes_flushed c) rc); try done.
  - f_equal. rewrite wrote_all by (done || lia). unfold advanced. rewrite He. unfold in_pool. f_equal.
    change (w_pool w1) with (put_buf n (set_in_progress true c) (w_pool w)). by rewrite put_buf_twice.
  - by eapply rep_put_buf.
  - apply lookup_insert_eq.
  - apply lookup_insert_eq.
  - rewrite He. intros j d Hj Hne Hd. apply (Hwo j d Hj Hne). unfold w1 in Hd. simpl in Hd. by rewrite lookup_insert_ne in Hd.
Qed.
