(* ===== verification/FsSyncRun.v ===== *)
(** * A sync, from the call to the client's callback

    spdk_file_sync_async on a file whose last buffer has bytes that were not written
    back: the call, the completion of the write and the completion of the metadata. *)
From S2P Require Import Prelude Triple BPlusTree CacheTree CacheTreeProofs FsState FsPrim FsRequests FsFile FsMeta FsData FsSync.
From S2P Require Import FsLoop FsExec FsRanges FsMetaTheorems FsSystemTheorems FsCached FsOpenClose FsFlush.
Local Open Scope Z_scope.

(** The last buffer [nb] of [f] is partly filled and partly written back, everything
    before it is written back, no sync is under way, and the client's channel [ch]
    has two requests and calls its request functions at once. *)
Record unsynced (w : world) (fs : filesystem) (f : file_id) (x : file) (m : gmap Z buf_id) (nb : buf_id) (c : cache_buffer)
    (bl : blob_id) (B : blob) (sc : chan_id) (sch : channel) (k : Z) (ch : chan_id) (cc : channel) (r1 r2 : req_id) (rest : list req_id) : Prop := {
  us_fs : w_fs w = Some fs;
  us_memory : w_malloc w = [];
  us_file : w_files w !! f = Some x;
  us_unlocked : f_lock x = false;
  us_blob : f_blob x = Some bl;
  us_live : bs_blobs (w_bs w) !! bl = Some B;
  us_within : buf_offset c + bytes_filled c <= u64 (fs_cluster_sz fs * b_clusters B);
  us_cached : cached (w_pool w) x m nb c;
  us_idle : in_progress c = false;
  us_part : 0 <= bytes_flushed c < bytes_filled c ∧ bytes_filled c < CBS;
  us_pos : f_length_flushed x = buf_offset c + bytes_flushed c;
  us_new : f_length_xattr x < f_append_pos x;
  us_syncs : f_sync_requests x = [];
  us_unit : bs_io_unit_size (w_bs w) = 2 ^ k ∧ 0 <= k <= 18;
  us_sync_channel : fs_sync_channel fs = Some sc ∧ w_chans w !! sc = Some sch ∧ sc ≠ ch;
  us_channel : w_chans w !! ch = Some cc ∧ c_lock cc = false ∧ c_direct cc = true ∧ c_reqs cc = r1 :: r2 :: rest ∧
    0 <= c_outstanding cc ∧ c_outstanding cc + 2 < 2 ^ 32;
  us_requests : is_Some (w_reqs w !! r1) ∧ is_Some (w_reqs w !! r2) ∧ r1 ≠ r2;
  us_calls : w_calls w = []
}.

Arguments us_cached {_ _ _ _ _ _ _ _ _ _ _ _ _ _ _ _ _} _.
Arguments us_unlocked {_ _ _ _ _ _ _ _ _ _ _ _ _ _ _ _ _} _.
Arguments us_idle {_ _ _ _ _ _ _ _ _ _ _ _ _ _ _ _ _} _.
Arguments us_part {_ _ _ _ _ _ _ _ _ _ _ _ _ _ _ _ _} _.

(** The worlds of a sync: calls pending, callbacks done, the file, its two requests,
    the pool, the blobs and the channel. *)
Definition in_sync (w : world) (f : file_id) (r1 r2 : req_id) (ch : chan_id) (l : list pending) (dn : list (nat * outcome))
    (x : file) (q1 q2 : request) (p : pool) (b : gmap blob_id blob) (cc : channel) : world :=
  set_w_calls l (set_w_done dn (put_chan ch cc (put_req r2 q2 (put_req r1 q1 (put_file f x
    (set_w_pool p (set_w_bs (set_bs_blobs b (w_bs w)) w))))))).

(** How the primitives move between them. *)
Record moves (base : list pending → list (nat * outcome) → file → request → request → pool → gmap blob_id blob → channel → world)
    (w : world) (f : file_id) (r1 r2 : req_id) (ch : chan_id) : Prop := {
  mv_calls l dn x q1 q2 p b cc : w_calls (base l dn x q1 q2 p b cc) = l;
  mv_call l dn x q1 q2 p b cc c cb a : put_call c cb a (base l dn x q1 q2 p b cc) = base (l ++ [mk_pending c cb a]) dn x q1 q2 p b cc;
  mv_note l dn x q1 q2 p b cc n o : note n o (base l dn x q1 q2 p b cc) = base l (dn ++ [(n, o)]) x q1 q2 p b cc;
  mv_file l dn x q1 q2 p b cc : w_files (base l dn x q1 q2 p b cc) !! f = Some x;
  mv_put_file l dn x q1 q2 p b cc x' : put_file f x' (base l dn x q1 q2 p b cc) = base l dn x' q1 q2 p b cc;
  mv_req1 l dn x q1 q2 p b cc : w_reqs (base l dn x q1 q2 p b cc) !! r1 = Some q1;
  mv_put_req1 l dn x q1 q2 p b cc q : put_req r1 q (base l dn x q1 q2 p b cc) = base l dn x q q2 p b cc;
  mv_req2 l dn x q1 q2 p b cc : w_reqs (base l dn x q1 q2 p b cc) !! r2 = Some q2;
  mv_put_req2 l dn x q1 q2 p b cc q : put_req r2 q (base l dn x q1 q2 p b cc) = base l dn x q1 q p b cc;
  mv_pool l dn x q1 q2 p b cc : w_pool (base l dn x q1 q2 p b cc) = p;
  mv_in_pool l dn x q1 q2 p b cc p' : in_pool p' (base l dn x q1 q2 p b cc) = base l dn x q1 q2 p' b cc;
  mv_blobs l dn x q1 q2 p b cc : bs_blobs (w_bs (base l dn x q1 q2 p b cc)) = b;
  mv_set_blobs l dn x q1 q2 p b cc b' : set_w_bs (set_bs_blobs b' (w_bs (base l dn x q1 q2 p b cc))) (base l dn x q1 q2 p b cc) =
    base l dn x q1 q2 p b' cc;
  mv_unit l dn x q1 q2 p b cc : bs_io_unit_size (w_bs (base l dn x q1 q2 p b cc)) = bs_io_unit_size (w_bs w);
  mv_chan l dn x q1 q2 p b cc : w_chans (base l dn x q1 q2 p b cc) !! ch = Some cc;
  mv_put_chan l dn x q1 q2 p b cc cc' : put_chan ch cc' (base l dn x q1 q2 p b cc) = base l dn x q1 q2 p b cc';
  mv_other l dn x q1 q2 p b cc sc : sc ≠ ch → w_chans (base l dn x q1 q2 p b cc) !! sc = w_chans w !! sc;
  mv_fs l dn x q1 q2 p b cc : w_fs (base l dn x q1 q2 p b cc) = w_fs w
}.

Arguments mv_calls {_ _ _ _ _ _} _.
Arguments mv_call {_ _ _ _ _ _} _.
Arguments mv_note {_ _ _ _ _ _} _.
Arguments mv_file {_ _ _ _ _ _} _.
Arguments mv_put_file {_ _ _ _ _ _} _.
Arguments mv_req1 {_ _ _ _ _ _} _.
Arguments mv_put_req1 {_ _ _ _ _ _} _.
Arguments mv_req2 {_ _ _ _ _ _} _.
Arguments mv_put_req2 {_ _ _ _ _ _} _.
Arguments mv_pool {_ _ _ _ _ _} _.
Arguments mv_in_pool {_ _ _ _ _ _} _.
Arguments mv_blobs {_ _ _ _ _ _} _.
Arguments mv_set_blobs {_ _ _ _ _ _} _.
Arguments mv_unit {_ _ _ _ _ _} _.
Arguments mv_chan {_ _ _ _ _ _} _.
Arguments mv_put_chan {_ _ _ _ _ _} _.
Arguments mv_other {_ _ _ _ _ _} _.
Arguments mv_fs {_ _ _ _ _ _} _.

Lemma in_sync_moves w f r1 r2 ch : r1 ≠ r2 → moves (in_sync w f r1 r2 ch) w f r1 r2 ch.
Proof.
  intros Hne. unfold in_sync. split; intros; try done; simpl; try apply lookup_insert_eq.
  all: try (rewrite lookup_insert_ne by done; try apply lookup_insert_eq; done).
  all: try by rewrite insert_insert_eq.
  all: unfold put_call, note, put_file, put_req, put_chan, in_pool; simpl; rewrite ?insert_insert_eq; try done.
  all: try by destruct (w_bs w).
  by rewrite (insert_insert_ne _ r1 r2), insert_insert_eq by done.
Qed.

Section Syncing.
Context (w : world) (fs : filesystem) (f : file_id) (x : file) (m : gmap Z buf_id) (nb : buf_id) (c : cache_buffer).
Context (bl : blob_id) (B : blob) (sc : chan_id) (sch : channel) (k : Z) (ch : chan_id) (cc : channel) (r1 r2 : req_id) (rest : list req_id).
Context (n : nat).
Hypothesis Hu : unsynced w fs f x m nb c bl B sc sch k ch cc r1 r2 rest.

Let base := in_sync w f r1 r2 ch.
Let Hmv : moves base w f r1 r2 ch.
Proof. destruct Hu. apply in_sync_moves. naive_solver. Qed.

Lemma locks l dn y q1 q2 p b d : f_lock y = false → file_lock f (base l dn y q1 q2 p b d) = Ok (tt, base l dn (set_f_lock true y) q1 q2 p b d).
Proof. intros Hl. rewrite (file_lock_eq _ _ y) by (done || apply (mv_file Hmv)). by rewrite (mv_put_file Hmv). Qed.
Lemma unlocks l dn y q1 q2 p b d : f_lock y = false → file_unlock f (base l dn (set_f_lock true y) q1 q2 p b d) = Ok (tt, base l dn y q1 q2 p b d).
Proof.
  intros Hl. rewrite (file_unlock_eq _ _ (set_f_lock true y)) by (done || apply (mv_file Hmv)). rewrite (mv_put_file Hmv).
  do 3 f_equal. destruct y; simpl in *. by subst.
Qed.

(** The request of the sync, that of the flush, and the file that waits. *)
Let waits p l : request := set_r_op (OpSync (f_append_pos x) p l) (set_r_arg VNull (set_r_fn (Some (CbUser n)) (set_r_file (Some f) (fresh_request ch 0)))).
Let flushes : request := set_r_file (Some f) (fresh_request ch 0).
Let waiting : file := set_f_sync_requests [r1] x.
Let taken : channel := take_head rest (take_head (r2 :: rest) cc).

Lemma sync_asks :
  spdk_file_sync_async f ch (CbUser n) VNull w =
  __file_flush (VReq r2)
    (base [] (w_done w) waiting (waits false 0) flushes (w_pool w) (bs_blobs (w_bs w)) taken).
Proof.
  destruct Hu as [Hfs Hmal Hx Hlk Hbl HB Hin Hc Hid Hpart Hpos Hnew Hsyn Hun (Hsc & Hsch & Hne) (Hch & Hcl & Hdir & Hrs & Ho) ([q1 Hq1] & [q2 Hq2] & Hne12) Hcalls].
  unfold spdk_file_sync_async, _file_sync. rewrite (bind_Ok _ _ _ _ _ (file_lock_eq _ _ _ Hx Hlk)). exec.
  rewrite decide_False by (destruct x; simpl in *; lia).
  erewrite (bind_Ok (alloc_fs_request ch)) by (eapply (alloc_fs_request_spec ch (put_file f (set_f_lock true x) w)); done).
  cbv beta iota. set (w1 := put_req r1 _ _).
  erewrite (bind_Ok (alloc_fs_request ch) _ w1).
  2:{ eapply (alloc_fs_request_spec ch w1 (take_head (r2 :: rest) cc)); [apply lookup_insert_eq|done|done|].
      simpl. rewrite lookup_insert_ne by done. exact Hq2. }
  cbv beta iota. exec.
  rewrite (bind_Ok _ _ _ _ _ (upd_req_eq (put_req r2 _ (put_chan ch _ w1)) r1 (fresh_request ch 0) _
    ltac:(simpl; rewrite lookup_insert_ne by done; apply lookup_insert_eq))). exec.
  match goal with |- (file_unlock f ≫= _) ?v = _ => set (w2 := v) end.
  assert (Hy : w_files w2 !! f = Some (set_f_sync_requests [r1] (set_f_lock true x)))
    by (simpl; rewrite lookup_insert_eq; destruct x; simpl in *; by subst).
  rewrite (bind_Ok _ _ _ _ _ (file_unlock_eq _ _ _ Hy ltac:(by destruct x))).
  rewrite (bind_Ok _ _ _ _ _ (upd_req_eq (put_file f _ w2) r2 (fresh_request ch 0) _
    ltac:(simpl; rewrite lookup_insert_ne by done; apply lookup_insert_eq))).
  unfold chan_send_request. exec.
  unfold send_msg. change (c_direct (take_head rest _)) with (c_direct cc). rewrite Hdir.
  change (invoke Cb__file_flush (VReq r2) (Op 0)) with (__file_flush (VReq r2)). f_equal.
  unfold base, in_sync, w2, w1, put_req, put_chan, put_file. simpl.
  rewrite !(insert_insert_ne _ r1 r2) by done. rewrite !insert_insert_eq.
  replace (set_f_lock false _) with waiting by (unfold waiting; destruct x; simpl in *; by subst).
  destruct w as [? ? ? ? ? ? ? [] ? ? ? ? ? ? ? ? ? ? ?]; simpl in *. by subst.
Qed.

(** The write that the sync starts. *)
Let len : Z := bytes_filled c - bytes_flushed c.
Let busy : pool := put_buf nb (set_in_progress true c) (w_pool w).
Let clean : pool := put_buf nb (set_bytes_flushed (bytes_filled c) c) (w_pool w).
Let flushed : file := set_f_length (Z.max (f_length x) (f_append_pos x)) (set_f_length_flushed (f_append_pos x) waiting).
Let recorded : blob := set_b_xattrs (<["length" := XLength (f_append_pos x)]> (b_xattrs B)) B.
Let synced : file := set_f_sync_requests [] (set_f_length_xattr (f_append_pos x) flushed).

Let base0 (l : list pending) (q2 : request) (p : pool) : world :=
  base l (w_done w) waiting (waits false 0) q2 p (bs_blobs (w_bs w)) taken.

Lemma waiting_flushable : flushable (base0 [] flushes (w_pool w)) fs f waiting m nb c bl sch k.
Proof.
  destruct Hu as [Hfs Hmal Hx Hlk Hbl HB Hin Hc Hid Hpart Hpos Hnew Hsyn [Hun Hk] (Hsc & Hsch & Hne) Hch Hreq Hcalls].
  assert (Hblk : ∀ j, buf_offset c <= j < buf_offset c + bytes_filled c → block j = block (buf_offset c)).
  { intros j Hj. pose proof (ca_aligned _ _ _ _ _ Hc _ _ _ (ca_in _ _ _ _ _ Hc) (ca_buf _ _ _ _ _ Hc)) as Ha.
    apply block_in. lia. }
  pose proof (ca_aligned _ _ _ _ _ Hc _ _ _ (ca_in _ _ _ _ _ Hc) (ca_buf _ _ _ _ _ Hc)) as Ha.
  destruct Hc. split; try done; unfold waiting; try (by destruct x); try lia.
  - exact (mv_file Hmv _ _ _ _ _ _ _ _).
  - exists sc. split; [done|]. unfold base0. by rewrite (mv_other Hmv).
  - replace (f_length_flushed _) with (f_length_flushed x) by (by destruct x). by rewrite Hpos, Hblk by lia.
  - by rewrite Ha, Z_mod_mult.
  - right. by destruct x.
Qed.

(** The call leaves one request to the blobstore: the write. *)
Definition writing (start num : Z) : pending :=
  mk_pending (BlobIoWrite bl (c_bs_channel sch) (PBuf nb (start * 2 ^ k - buf_offset c)) start num) Cb__file_flush_done (VReq r2).
Let flushing2 : request := set_r_op (OpFlush nb len) flushes.

Lemma sync_writes : ∃ start num,
  page_parameters (2 ^ k) (buf_offset c + bytes_flushed c) len = (start, num) ∧
  spdk_file_sync_async f ch (CbUser n) VNull w = Ok (tt, base0 [writing start num] flushing2 busy).
Proof.
  destruct (flush_starts _ _ _ _ _ _ _ _ _ _ r2 flushes waiting_flushable (mv_req2 Hmv _ _ _ _ _ _ _ _) eq_refl)
    as (start & num & Hpp & Hrun).
  exists start, num. split; [exact Hpp|]. rewrite sync_asks. refine (eq_trans Hrun _). do 2 f_equal. unfold flushing, base0.
  by rewrite (mv_pool Hmv), (mv_put_req2 Hmv), (mv_in_pool Hmv), (mv_call Hmv).
Qed.

Let storing : pending := mk_pending (BlobSyncMd bl) Cb__file_cache_finish_sync (VReq r1).
Let blobs' : gmap blob_id blob := <[bl := recorded]> (bs_blobs (w_bs w)).

Lemma sync_checks :
  __check_sync_reqs f (base [] (w_done w) flushed (waits false 0) flushing2 clean (bs_blobs (w_bs w)) taken) =
  Ok (tt, base [storing] (w_done w) flushed (waits true (f_append_pos x)) flushing2 clean blobs' taken).
Proof.
  match goal with |- _ ?u = _ => set (v := u) end.
  assert (Hv : w_files v !! f = Some flushed) by exact (mv_file Hmv _ _ _ _ _ _ _ _).
  assert (Hl : f_lock flushed = false) by (destruct Hu, x; by simpl in *).
  assert (Hb : f_blob flushed = Some bl) by (destruct Hu, x; by simpl in *).
  rewrite (check_first_eq v f flushed [] r1 [] (f_append_pos x) false bl 0 (waits false 0));
    [|exact Hv|exact Hl|done|constructor|exact (mv_req1 Hmv _ _ _ _ _ _ _ _)|done|exact Hb|done].
  unfold v. rewrite (mv_put_file Hmv).
  rewrite (bind_Ok _ _ _ _ _ (upd_req_eq _ _ _ _ (mv_req1 Hmv _ _ _ _ _ _ _ _))), (mv_put_req1 Hmv).
  rewrite (bind_Ok _ _ _ _ _ (set_xattr_eq _ bl B _ _
    ltac:(rewrite (mv_blobs Hmv); by destruct Hu))).
  rewrite (mv_blobs Hmv), (mv_set_blobs Hmv).
  rewrite (bind_Ok _ _ _ _ _ (unlocks _ _ flushed _ _ _ _ _ Hl)).
  unfold bs_async, modify. by do 2 f_equal.
Qed.

Lemma append_block : m !! block (f_append_pos x) = Some nb.
Proof.
  pose proof (us_cached Hu) as Hc. pose proof (us_part Hu) as [? ?].
  pose proof (ca_aligned _ _ _ _ _ Hc _ _ _ (ca_in _ _ _ _ _ Hc) (ca_buf _ _ _ _ _ Hc)) as Ha.
  rewrite (ca_pos _ _ _ _ _ Hc), (block_in (block (buf_offset c))) by lia. apply (ca_in _ _ _ _ _ Hc).
Qed.

Lemma sync_reflush :
  __file_flush (VReq r2) (base [storing] (w_done w) flushed (waits true (f_append_pos x)) flushing2 clean blobs' taken) =
  Ok (tt, base [storing] (w_done w) flushed (waits true (f_append_pos x)) flushing2 clean blobs' (put_head r2 taken)).
Proof.
  match goal with |- _ ?u = _ => set (v := u) end.
  assert (Hv : w_files v !! f = Some flushed) by exact (mv_file Hmv _ _ _ _ _ _ _ _).
  assert (Hl : f_lock flushed = false) by (destruct Hu, x; by simpl in *).
  assert (Hcl : c_lock taken = false) by (by destruct Hu as [? ? ? ? ? ? ? ? ? ? ? ? ? ? ? (? & ? & ?) ? ?]).
  assert (Hq2 : w_reqs v !! r2 = Some flushing2) by apply (mv_req2 Hmv).
  assert (Hrep : cache_rep clean (f_tree x) m).
  { eapply rep_put_buf; [apply (ca_rep _ _ _ _ _ (us_cached Hu))|apply (ca_buf _ _ _ _ _ (us_cached Hu))|done]. }
  unfold __file_flush. cbn [as_req]. exec.
  change (r_file flushing2) with (Some f). exec.
  unfold v. rewrite (bind_Ok _ _ _ _ _ (locks _ _ flushed _ _ _ _ _ Hl)).
  rewrite (bind_Ok _ _ _ _ _ (load_file_eq _ _ _ (mv_file Hmv _ _ _ _ _ _ _ _))).
  change (f_tree (set_f_lock true flushed)) with (f_tree x). change (f_length_flushed (set_f_lock true flushed)) with (f_append_pos x).
  change (f_sync_requests (set_f_lock true flushed)) with [r1].
  set (u := base _ _ (set_f_lock true flushed) _ _ _ _ _).
  assert (Hfind : on_pool (tree_find_buffer (f_tree x) (f_append_pos x)) u = Ok (Some nb, u)).
  { rewrite (find_buffer_eq u x m (f_append_pos x)); [by rewrite append_block| |by eapply cached_pos, (us_cached Hu)].
    unfold u. by rewrite (mv_pool Hmv). }
  rewrite (bind_Ok _ _ _ _ _ Hfind). cbv iota.
  rewrite (bind_Ok _ _ _ _ _ (get_buf_eq u nb (set_bytes_flushed (bytes_filled c) c) ltac:(unfold u; rewrite (mv_pool Hmv); apply lookup_insert_eq))).
  change (in_progress (set_bytes_flushed _ c)) with (in_progress c). rewrite (us_idle Hu), (bool_decide_eq_false_2 ([r1] = [])) by done.
  rewrite andb_false_r. change (false || false) with false. cbv iota.
  change (bytes_filled (set_bytes_flushed _ c)) with (bytes_filled c). change (bytes_flushed (set_bytes_flushed (bytes_filled c) c)) with (bytes_filled c).
  rewrite Z.sub_diag, (decide_True (P := u32 0 = 0)) by done. unfold u.
  rewrite (bind_Ok _ _ _ _ _ (free_spec r2 _ flushing2 ch taken (mv_req2 Hmv _ _ _ _ _ _ _ _) eq_refl (mv_chan Hmv _ _ _ _ _ _ _ _) (Hcl))).
  rewrite (mv_put_chan Hmv), (bind_Ok _ _ _ _ _ (unlocks _ _ flushed _ _ _ _ _ Hl)).
  match goal with |- _ ?u = _ => set (v2 := u) end.
  assert (Hv2 : w_files v2 !! f = Some flushed) by exact (mv_file Hmv _ _ _ _ _ _ _ _).
  rewrite (check_first_eq v2 f flushed [] r1 [] (f_append_pos x) true bl (f_append_pos x) (waits true (f_append_pos x)));
    [apply relock; [exact Hv2|exact Hl]|exact Hv2|exact Hl|done|constructor|exact (mv_req1 Hmv _ _ _ _ _ _ _ _)|done| |done].
  by destruct Hu, x; simpl in *.
Qed.

(** The completion of the write, whatever its result, records the length and gives
    the request of the flush back. *)
Lemma sync_flushed rc :
  __file_flush_done (VReq r2) rc (base0 [] flushing2 busy) =
  Ok (tt, base [storing] (w_done w) flushed (waits true (f_append_pos x)) flushing2 clean blobs' (put_head r2 taken)).
Proof.
  pose proof (us_cached Hu) as Hc. pose proof (cached_pos _ _ _ _ _ Hc) as Hpos0. pose proof (ca_filled _ _ _ _ _ Hc) as Hfil.
  pose proof (ca_pos _ _ _ _ _ Hc) as Happ. pose proof append_block as Hblk.
  destruct (cr_bufs _ _ _ (ca_rep _ _ _ _ _ Hc) _ _ (ca_in _ _ _ _ _ Hc)) as (c' & Hc' & [Hoff Hmax] & _).
  rewrite (ca_buf _ _ _ _ _ Hc) in Hc'. injection Hc' as <-. change MAX_OFFSET with 1152921504606846976 in Hmax. change CBS with 262144 in *.
  assert (Hend : u64 (f_length_flushed x + len) = f_append_pos x).
  { destruct Hu. unfold len. rewrite u64_small; lia. }
  unfold base0. rewrite (flush_ends _ fs f waiting m nb (set_in_progress true c) bl B r2 flushing2 len rc); try done.
  - rewrite (mv_pool Hmv), (mv_put_file Hmv), (mv_in_pool Hmv). unfold busy. rewrite put_buf_twice.
    unfold len. rewrite wrote_all by (done || apply (us_idle Hu)). fold len clean.
    replace (advanced len waiting) with flushed by (by unfold advanced, flushed, waiting, set_f_length; simpl; rewrite Hend).
    by rewrite (bind_Ok _ _ _ _ _ sync_checks), sync_reflush.
  - apply (mv_file Hmv).
  - by destruct Hu, x; simpl in *.
  - by destruct Hu, x; simpl in *.
  - rewrite (mv_fs Hmv). by destruct Hu.
  - rewrite (mv_blobs Hmv). by destruct Hu.
  - rewrite (mv_pool Hmv). eapply rep_put_buf; [exact (ca_rep _ _ _ _ _ Hc)|exact (ca_buf _ _ _ _ _ Hc)|done].
  - rewrite (mv_pool Hmv). apply lookup_insert_eq.
  - apply (mv_req2 Hmv).
  - left. destruct Hu. simpl. lia.
  - change (f_length_flushed waiting) with (f_length_flushed x). rewrite Hend, Hblk. intros j d [= <-]. done.
Qed.

(** The completion of the metadata ends the sync. *)
Lemma sync_ends `{Clients} rc :
  __file_cache_finish_sync (VReq r1) rc
    (base [] (w_done w) flushed (waits true (f_append_pos x)) flushing2 clean blobs' (put_head r2 taken)) =
  Ok (tt, base [] (w_done w ++ [(n, Op rc)]) synced (waits true (f_append_pos x)) flushing2 clean blobs' cc).
Proof.
  assert (Hl : f_lock flushed = false) by (destruct Hu, x; by simpl in *).
  destruct Hu as [? ? ? ? ? ? ? ? ? ? ? ? ? ? ? (? & Hcl & ? & Hrs & Ho) ? ?].
  unfold __file_cache_finish_sync. cbn [as_req]. exec.
  rewrite (bind_Ok _ _ _ _ _ (load_req_eq _ _ _ (mv_req1 Hmv _ _ _ _ _ _ _ _))). change (r_file (waits _ _)) with (Some f). exec.
  rewrite (bind_Ok _ _ _ _ _ (locks _ _ flushed _ _ _ _ _ Hl)).
  change (op_sync (r_op (waits true (f_append_pos x)))) with (mret (M := M world) (f_append_pos x, true, f_append_pos x)). exec. cbv iota.
  rewrite (bool_decide_eq_true_2 (f_append_pos x <= _)) by (simpl; lia). unfold guard_or at 1. exec.
  rewrite (bool_decide_eq_true_2 (r1 ∈ _)) by (simpl; left). unfold guard_or. exec. rewrite !(mv_put_file Hmv).
  match goal with |- (file_unlock f ≫= _) (base _ _ ?y _ _ _ _ _) = _ => replace y with (set_f_lock true synced) end.
  2:{ change (f_sync_requests (set_f_length_xattr _ _)) with ([] ++ r1 :: []). rewrite filter_others by apply not_elem_of_nil. done. }
  rewrite (bind_Ok _ _ _ _ _ (unlocks _ _ synced _ _ _ _ _ Hl)).
  rewrite (bind_Ok _ _ _ _ _ (call_user_eq (waits true (f_append_pos x)) n _ _ eq_refl)), (mv_note Hmv).
  rewrite (bind_Ok _ _ _ _ _ (free_spec r1 _ (waits true (f_append_pos x)) ch (put_head r2 taken) (mv_req1 Hmv _ _ _ _ _ _ _ _) eq_refl
    (mv_chan Hmv _ _ _ _ _ _ _ _) Hcl)), (mv_put_chan Hmv).
  replace (put_head r1 (put_head r2 taken)) with cc.
  2:{ unfold taken. rewrite (put_take (take_head (r2 :: rest) cc) r2 rest), put_take; [done|done|lia|done|by apply Z.mod_pos_bound]. }
  unfold __check_sync_reqs. rewrite (bind_Ok _ _ _ _ _ (locks _ _ synced _ _ _ _ _ Hl)).
  rewrite (bind_Ok _ _ _ _ _ (load_file_eq _ _ _ (mv_file Hmv _ _ _ _ _ _ _ _))).
  change (f_sync_requests (set_f_lock true synced)) with (@nil req_id). exec. exact (unlocks _ _ synced _ _ _ _ _ Hl).
Qed.

Lemma sync_write_done start num rc d wt rt :
  step_event (E_complete 0 rc 0 d) (mk_system (base0 [writing start num] flushing2 busy) wt rt) =
  Ok (mk_system (base [storing] (w_done w) flushed (waits true (f_append_pos x)) flushing2 clean blobs' (put_head r2 taken)) wt rt).
Proof.
  refine (step_complete (base0 [] flushing2 busy) (p_call (writing start num)) Cb__file_flush_done (VReq r2) rc 0 d _ wt rt
    (mv_calls Hmv _ _ _ _ _ _ _ _) _).
  rewrite (bind_Ok _ _ _ tt (base0 [] flushing2 busy)) by (by destruct (decide _)).
  exact (sync_flushed rc).
Qed.

Lemma sync_done rc d wt rt :
  step_event (E_complete 0 rc 0 d) (mk_system (base [storing] (w_done w) flushed (waits true (f_append_pos x)) flushing2 clean blobs'
    (put_head r2 taken)) wt rt) =
  Ok (mk_system (base [] (w_done w ++ [(n, Op rc)]) synced (waits true (f_append_pos x)) flushing2 clean blobs' cc) wt rt).
Proof.
  refine (step_complete (base [] _ _ _ _ _ _ _) (BlobSyncMd bl) Cb__file_cache_finish_sync (VReq r1) rc 0 d _ wt rt
    (mv_calls Hmv _ _ _ _ _ _ _ _) _).
  rewrite (bind_Ok _ _ _ tt _) by (by destruct (decide _)).
  exact (@sync_ends (invoke_n 15) (clients_n 14) rc).
Qed.
End Syncing.


