(* ===== verification/FsDemo.v ===== *)
(** * The theorems on concrete worlds

    A run of the whole system from an empty device, a small filesystem given
    directly, and a file with cached data; the theorems of the other files are
    instantiated on them. *)
From S2P Require Import Prelude Triple BPlusTree BPlusTreeSpec BPlusTreeTheorems CacheTree CacheTreeProofs FsState FsPrim.
From S2P Require Import FsRequests FsFile FsMeta FsData FsSync FsLoop FsInv FsInvOps FsLocks FsAccounting FsNames FsTyped.
From S2P Require Import FsExec FsRanges FsCopy FsMetaTheorems FsSystemTheorems FsCached FsExtend FsCachedRead FsOpenClose FsFlush FsSyncRun.
Local Open Scope Z_scope.

(** ** A run: format, mount, create, open, write, sync, read *)
Definition device : blobstore := mk_blobstore 512 1048576 None ∅.
Definition client_memory : gmap nat (Z → Z) := {[1%nat := λ i, i mod 256; 2%nat := λ _, 0]}.
Definition booted : system := mk_system (initial_world device client_memory 10 [] 1) [] [].
Definition no_data : Z → Z := λ _, 0.

Definition session : list event :=
  [E_call (A_init None true 1); E_complete 0 0 7 no_data; E_cache_msg; E_call A_alloc_thread_ctx;
   E_call (S_create 1038%nat "hello");
   E_complete 0 0 3 no_data; E_complete 0 0 3 no_data; E_complete 0 0 3 no_data; E_complete 0 0 3 no_data; E_resume 0;
   E_call (S_open 1038%nat "hello" 0); E_complete 0 0 3 no_data; E_resume 0;
   E_call (S_write 1551%nat 1038%nat (PMem 1 0) 0 1000);
   E_call (S_sync 1551%nat 1038%nat); E_complete 0 0 3 no_data; E_complete 0 0 3 no_data; E_resume 0;
   E_call (S_read 1551%nat 1038%nat (PMem 2 0) 0 1000)].

Definition after_run (es : list event) (s : system) : system :=
  match run_events es s with Ok s' => s' | Fault _ => s end.
Definition demo_system : system := after_run session booted.

Lemma run_reachable es : ∀ s s', reachable s → run_events es s = Ok s' → reachable s'.
Proof.
  induction es as [|e es IH]; intros s s' Hs; simpl; [by intros [= <-]|].
  destruct (step_event e s) as [s1|] eqn:He; [|done]. apply IH. by eapply reachable_step.
Qed.
Lemma after_run_reachable es s : reachable s → reachable (after_run es s).
Proof. intros Hs. unfold after_run. destruct (run_events es s) eqn:He; [by eapply run_reachable|done]. Qed.
Lemma demo_reachable : reachable demo_system.
Proof. apply after_run_reachable. constructor. Qed.

(** The run ends with the 1000 bytes read back. *)
Example session_returns : sys_returned demo_system = [(0, None); (0, Some 1551%nat); (0, None); (0, None); (1000, None)].
Proof. vm_compute. reflexivity. Qed.
Example session_reads : (λ d, d 258) <$> w_mem (sys_world demo_system) !! 2%nat = Some 2.
Proof. vm_compute. reflexivity. Qed.

Lemma no_self_deadlock_witness :
  (∀ f x, w_files (sys_world demo_system) !! f = Some x → f_lock x = false) ∧
  (∀ c x, w_chans (sys_world demo_system) !! c = Some x → c_lock x = false) ∧
  (∀ e, step_event e demo_system ≠ Fault Deadlock).
Proof. apply (no_self_deadlock demo_system). exact demo_reachable. Defined.

(** The same system with a file being created. *)
Definition creating_system : system := after_run [E_call (A_create "other" 7)] demo_system.
Example creation_in_flight : p_cb <$> w_calls (sys_world creating_system) = [Cb_fs_create_blob_create_cb].
Proof. vm_compute. reflexivity. Qed.

Lemma callbacks_typed_witness :
  (∀ p id rc, p ∈ w_calls (sys_world creating_system) →
     takes (p_cb p) (bs_outcome (p_call p) id rc) = true ∧ ∃ r, p_arg p = VReq r) ∧
  (∀ fn arg, (fn, arg) ∈ w_msgs (sys_world creating_system) ++ w_cache_msgs (sys_world creating_system) →
     takes fn (Op 0) = true ∧ arg_of fn arg) ∧
  (∀ fn o, takes fn o = false ↔ ∀ `{Invoke} arg w, dispatch fn arg o w = Fault TypeConfusion).
Proof. apply (callbacks_typed creating_system). apply after_run_reachable. exact demo_reachable. Defined.

Definition demo_channel : channel :=
  match w_chans (sys_world demo_system) !! 1038%nat with Some ch => ch | None => mk_channel [] [] 0 None false false 0 false end.


(** A load that meets a blob without a name and then succeeds: iter_cb and the end
    of the load both call the client and free the request.  It is twice on the list of
    the channel, which has 513 free requests of 512 and [outstanding_reqs] = 2^32 - 1. *)
Definition foreign_blob : system :=
  mk_system (initial_world (mk_blobstore 512 1048576 None {[5 := mk_blob 1 ∅]}) client_memory 10 [] 1) [] [].
Definition after_load : system :=
  after_run [E_call (A_load true 1); E_iterate 0 (Some 5) 0; E_complete 0 0 0 no_data] foreign_blob.
Lemma load_frees_twice :
  (λ ch, (take 2 (c_reqs ch), length (c_reqs ch), length (c_mem ch), c_outstanding ch))
    <$> w_chans (sys_world after_load) !! 10%nat = Some ([11%nat; 11%nat], 513%nat, 512%nat, 2 ^ 32 - 1) ∧
  w_done (sys_world after_load) = [(1%nat, WithFs true (- ENOENT)); (1%nat, WithFs true 0)].
Proof. by split; vm_compute. Qed.

Definition demo_fs : filesystem :=
  match w_fs (sys_world demo_system) with Some fs => fs | None => mk_filesystem false None 0 false None None 0 0 0 end.

Lemma namespace_invariant_witness :
  w_fs (sys_world demo_system) = Some demo_fs ∧
  ∃ m : gmap string file_id,
    tree_rep (w_heap (sys_world demo_system)) (fs_files demo_fs) m ∧
    (∀ k1 k2 f, m !! k1 = Some f → m !! k2 = Some f → k1 = k2) ∧
    (∀ k f x, m !! k = Some f → w_files (sys_world demo_system) !! f = Some x → f_name x = None ∨ f_name x = Some k) ∧
    (∀ name, fs_find_file name (sys_world demo_system) = Ok (m !! name, sys_world demo_system)).
Proof.
  assert (H : w_fs (sys_world demo_system) = Some demo_fs) by (vm_compute; reflexivity). split; [exact H|].
  apply (namespace_invariant demo_system demo_fs); [exact demo_reachable|exact H].
Defined.

(** ** A small filesystem: five files of which "data" is open *)
Definition named (name : string) (id : blob_id) : file := set_f_name (Some name) (set_f_blobid id zero_file).
Definition closed_a : file := named "a" 104.
Definition open_data : file := set_f_ref_count 1 (set_f_blob (Some 102) (named "data" 102)).
Definition opening_log : file := set_f_open_requests [23%nat; 24%nat] (set_f_ref_count 2 (named "log" 101)).
Definition small_fs : filesystem := mk_filesystem true demo_root 1048576 true (Some 10%nat) (Some 11%nat) 2 2 2.
Definition md_channel : channel := mk_channel [20%nat; 21%nat] [20%nat; 21%nat; 23%nat; 24%nat] 0 None true false 2 false.
Definition open_request (n : nat) : request := set_r_fn (Some (CbUser n)) (set_r_file (Some 1%nat) (fresh_request 10%nat 0)).
Definition data_blob : blob := mk_blob 1 {["name" := XName "data"]}.
Definition small_blobs : gmap Z blob :=
  {[101 := mk_blob 1 {["name" := XName "log"]}; 102 := data_blob; 104 := mk_blob 1 ∅]}.
Definition small_world : world :=
  mk_world (Some small_fs) demo_heap
    {[1%nat := opening_log; 2%nat := open_data; 3%nat := named "index" 103; 4%nat := closed_a; 5%nat := named "tmp" 105]}
    {[20%nat := zero_request; 21%nat := zero_request; 23%nat := open_request 7; 24%nat := open_request 8]}
    {[10%nat := md_channel]} (mk_pool ∅ 0 0) (mk_globals 0 false false false 0 [])
    (mk_blobstore 512 1048576 None small_blobs) ∅ ∅ ∅ [] [] [] [] 100 [] 1 0.

Lemma small_mounted : mounted small_world small_fs demo_map.
Proof. split; [reflexivity|exact demo_rep]. Qed.
Lemma small_ready : ready small_world small_fs 10%nat md_channel 20%nat [21%nat].
Proof. split; try reflexivity. by eexists. Qed.

Lemma stat_correct_witness :
  spdk_fs_file_stat_async "data" (CbUser 9) VNull small_world =
    Ok (tt, note 9 (WithStat (Some (mk_file_stat 102 0)) 0) small_world).
Proof.
  apply (stat_correct small_world small_fs demo_map "data" 9 VNull); [exact small_mounted|].
  intros f Hf. vm_compute in Hf. injection Hf as <-. by eexists.
Defined.

Lemma open_completes_all_witness :
  fs_open_blob_done (VReq 23) (Some 101) 0 small_world =
    Ok (tt, put_file 1 (set_f_open_requests [] (set_f_blob (Some 101) opening_log))
              (opened 1 0 [7; 8]%nat 10 md_channel [23; 24]%nat small_world)).
Proof.
  apply (open_completes_all small_world 23 (open_request 7) 1 opening_log (Some 101) 0 10 md_channel [7; 8]%nat);
    try reflexivity.
  repeat constructor; eexists; split; try reflexivity; split; reflexivity.
Defined.

Lemma delete_closed_file_witness :
  ∃ w1 fs1, spdk_fs_delete_file_async "a" (CbUser 9) VNull small_world = Ok (tt, w1) ∧
    mounted w1 fs1 (delete "a" demo_map) ∧ w_files w1 = delete 4%nat (w_files small_world) ∧ w_done w1 = [] ∧
    w_calls w1 = [mk_pending (BsDeleteBlob 104) Cb_blob_delete_cb (VReq 20)] ∧
    ∀ rc, ∃ w2, blob_delete_cb (VReq 20) rc w1 = Ok (tt, w2) ∧
      w_done w2 = [(9%nat, Op rc)] ∧ w_chans w2 = w_chans small_world.
Proof.
  apply (delete_closed_file small_world small_fs 10 md_channel 20 [21%nat] demo_map "a" 4 closed_a 9 VNull);
    [exact small_mounted|exact small_ready|reflexivity|reflexivity|split; reflexivity|vm_compute; lia|vm_compute; split; congruence].
Defined.

Lemma delete_open_file_witness :
  ∃ w1, spdk_fs_delete_file_async "data" (CbUser 9) VNull small_world = Ok (tt, w1) ∧
    mounted w1 small_fs demo_map ∧ w_files w1 !! 2%nat = Some (set_f_is_deleted true open_data) ∧ w_done w1 = [] ∧
    bs_blobs (w_bs w1) !! 102 =
      Some (set_b_xattrs (<["is_deleted" := XDeleted true]> (b_xattrs data_blob)) data_blob) ∧
    w_calls w1 = [mk_pending (BlobSyncMd 102) Cb_blob_delete_cb (VReq 20)] ∧
    ∀ flags n' arg', spdk_fs_open_file_async "data" flags (CbUser n') arg' w1 =
      Ok (tt, note n' (WithFile None (- ENOENT)) w1).
Proof.
  apply (delete_open_file small_world small_fs 10 md_channel 20 [21%nat] demo_map "data" 2 open_data 102
           data_blob 9 VNull);
    [exact small_mounted|exact small_ready|reflexivity|reflexivity|reflexivity|reflexivity|reflexivity|vm_compute; lia].
Defined.

Lemma rename_moves_witness :
  ∃ w1 fs1, spdk_fs_rename_file_async "a" "z" (CbUser 9) VNull small_world = Ok (tt, w1) ∧
    mounted w1 fs1 (<["z" := 4%nat]> (delete "a" demo_map)) ∧
    (∃ x1, w_files w1 = <[4%nat := x1]> (w_files small_world) ∧ f_name x1 = Some "z" ∧ f_blobid x1 = 104) ∧
    w_calls w1 = [mk_pending (BsOpenBlob 104) Cb_fs_rename_blob_open_cb (VReq 20)] ∧
    (∀ b bl, bs_blobs (w_bs small_world) !! b = Some bl → ∃ w2,
      fs_rename_blob_open_cb (VReq 20) (Some b) 0 w1 = Ok (tt, w2) ∧
      bs_blobs (w_bs w2) !! b = Some (set_b_xattrs (<["name" := XName "z"]> (b_xattrs bl)) bl) ∧
      w_calls w2 = w_calls w1 ++ [mk_pending (BlobClose b) Cb_fs_rename_blob_close_cb (VReq 20)] ∧
      ∀ rc, ∃ w3, fs_rename_blob_close_cb (VReq 20) rc w2 = Ok (tt, w3) ∧ w_done w3 = [(9%nat, Op rc)]).
Proof.
  apply (rename_moves small_world small_fs 10 md_channel 20 [21%nat] demo_map "a" "z" 4 closed_a 9 VNull);
    [exact small_mounted|exact small_ready|reflexivity|vm_compute; reflexivity|reflexivity|reflexivity|vm_compute; lia].
Defined.

Lemma rename_onto_itself_deletes_witness :
  ∃ w1 w2 fs2,
    spdk_fs_rename_file_async "a" "a" (CbUser 9) VNull small_world = Ok (tt, w1) ∧
    w_calls w1 = [mk_pending (BsDeleteBlob 104) Cb_blob_delete_cb (VReq 21)] ∧
    blob_delete_cb (VReq 21) 0 w1 = Ok (tt, w2) ∧
    mounted w2 fs2 (delete "a" demo_map) ∧ w_files w2 = delete 4%nat (w_files small_world) ∧
    w_done w2 = [(9%nat, Op (- ENOENT))].
Proof.
  apply (rename_onto_itself_deletes small_world small_fs 10 md_channel 20 21 [] demo_map "a" 4 closed_a 9 VNull 0);
    [exact small_mounted|exact small_ready|by eexists|done|reflexivity|reflexivity|split; reflexivity|vm_compute; lia].
Defined.

Definition small_system : system := mk_system small_world [] [].

(** ** A file with 1000 bytes in its cache, of a filesystem whose callers wait *)
Definition first_buffer : cache_buffer := mk_cache_buffer (λ i, i mod 256) 0 CACHE_BUFFER_SIZE 1000 0 false.
Definition small_pool : pool := mk_pool {[0%nat := first_buffer]} 8 1.
Definition one_buffer : cache_tree :=
  match tree_insert_buffer (empty_tree 0) 0%nat small_pool with Ok (t, _) => t | Fault _ => empty_tree 0 end.
Definition written_file : file :=
  set_f_last (Some 0%nat) (set_f_tree one_buffer (set_f_append_pos 1000 (set_f_length 1000 open_data))).
Definition ctx_channel : channel := mk_channel [22%nat] [22%nat] 0 None false true 0 false.
Definition cache_world : world :=
  set_w_fs (Some (set_fs_direct false small_fs))
    (set_w_mem client_memory (in_pool small_pool (put_file 2 written_file
      (put_chan 12 ctx_channel (put_req 22 zero_request small_world))))).

Lemma written_cached : cached small_pool written_file {[0 := 0%nat]} 0%nat first_buffer.
Proof.
  destruct (cache_insert_rep small_pool (empty_tree 0) ∅ 0%nat first_buffer) as (t & Hrun & Hrep & _);
    [apply rep_empty|reflexivity|vm_compute; split; congruence|reflexivity|].
  assert (one_buffer = t) as Ht by (unfold one_buffer; by rewrite Hrun).
  split; try reflexivity.
  - change (f_tree written_file) with one_buffer. rewrite Ht. exact Hrep.
  - intros k b c [<- <-]%lookup_singleton_Some [= <-]. reflexivity.
  - intros b [c Hb]. simpl in *. apply lookup_singleton_Some in Hb as [<- _]. lia.
  - intros k Hk. change (block (buf_offset first_buffer)) with 0 in Hk. rewrite lookup_singleton_ne by lia. done.
  - vm_compute. split; congruence.
Qed.

Lemma cached_write_correct_witness :
  ∃ w', spdk_file_write 2 12 (PMem 1 0) 1000 600000 cache_world = Ok (Returned 0 None, w') ∧
    extended 2 small_pool written_file {[0 := 0%nat]} (λ i, (0 + i) mod 256) 600000 w' ∧ w_mem w' = client_memory ∧ w_bad_unlocks w' = 0%nat ∧
    (flush_sent 2 22 cache_world w' ∨
     w_msgs w' = [] ∧ ∃ cc' rest, w_chans w' !! 12%nat = Some cc' ∧ c_reqs cc' = 22%nat :: rest).
Proof.
  apply (cached_write_correct cache_world 2 written_file {[0 := 0%nat]} 12 22 1 0 (λ i, i mod 256) 600000);
    [|reflexivity|lia].
  split; try reflexivity.
  - exists (set_fs_direct false small_fs), 102, data_blob. repeat split; try reflexivity. vm_compute. congruence.
  - exists ctx_channel, []. split; try reflexivity. by eexists.
  - exists 0%nat, first_buffer. split; [exact written_cached|vm_compute; reflexivity].
Defined.

Definition cache_system : system := mk_system cache_world [] [].
Lemma extending_write_witness :
  ∃ s' n, run_events [E_call (S_write 2 12 (PMem 1 0) 1000 1100000); E_msg; E_complete 0 0 0 no_data;
                    E_complete 0 0 0 no_data; E_resume 0] cache_system = Ok s' ∧
    let w' := sys_world s' in
    sys_returned s' = [(0, None)] ∧ sys_waiting s' = [] ∧
    extended 2 small_pool written_file {[0 := 0%nat]} (λ i, (0 + i) mod 256) 1100000 w' ∧ w_mem w' = client_memory ∧
    bs_blobs (w_bs w') = <[102 := set_b_clusters n data_blob]> (bs_blobs (w_bs cache_world)) ∧
    1000 + 1100000 <= n * 1048576 ∧ (∀ m, 1000 + 1100000 <= m * 1048576 → n <= m) ∧ w_bad_unlocks w' = 1%nat.
Proof.
  apply (extending_write cache_system (set_fs_direct false small_fs) 2 written_file {[0 := 0%nat]} 102 data_blob
    12 ctx_channel 22 [] 1100000 1 0 (λ i, i mod 256)); [|reflexivity|lia].
  split; try reflexivity; [vm_compute; done|vm_compute; done|].
  exists 0%nat, first_buffer. split; [exact written_cached|vm_compute; reflexivity].
Defined.

Lemma cached_read_correct_witness :
  ∃ w' d' x', spdk_file_read 2 12 (PMem 2 5) 100 5000 cache_world = Ok (Returned 900 None, w') ∧
    w_mem w' = <[2%nat := d']> client_memory ∧ bytes d' 5 900 = bytes (λ j, j mod 256) 100 900 ∧
    (∀ j, ¬ (5 <= j < 5 + 900) → d' j = 0) ∧
    w_files w' !! 2%nat = Some x' ∧ f_lock x' = false ∧ f_length x' = 1000 ∧ f_append_pos x' = 1000 ∧
    w_calls w' = [] ∧ w_msgs w' = [].
Proof.
  apply (cached_read_correct cache_world 2 written_file {[0 := 0%nat]} 12 2 5 (λ _, 0) 100 5000 (λ j, j mod 256));
    try reflexivity; try lia.
  - eapply cached_readable. exact written_cached.
  - simpl. lia.
  - intros j Hj. change (Z.min 5000 (f_append_pos written_file - 100)) with 900 in Hj. unfold cbyte.
    rewrite (block_in 0) by (change CACHE_BUFFER_SIZE with 262144; lia).
    change ((if decide (j < 0 + 1000) then Some ((j - 0) mod 256) else None) = Some (j mod 256)).
    rewrite decide_True by lia. by rewrite Z.sub_0_r.
  - left. reflexivity.
Defined.

(** ** Its bytes written back: by a sync that waits, and by a whole sync *)
Definition sync_channel : channel := mk_channel [] [] 0 (Some 5%nat) true false 0 false.
Definition sync_world : world := put_chan 11 sync_channel cache_world.
Definition flush_request : request := set_r_file (Some 2%nat) (fresh_request 10 0).
Definition waiting_file : file := set_f_sync_requests [21%nat] written_file.
Definition flush_world : world := put_file 2 waiting_file (put_req 20 flush_request sync_world).

Lemma flush_writes_back_witness :
  ∃ start num, let w1 := flushing 102 sync_channel 0 first_buffer 20 flush_request 512 start num flush_world in
    __file_flush (VReq 20) flush_world = Ok (tt, w1) ∧
    0 <= start * 512 <= 0 ∧ 0 < (start + 1) * 512 ∧
    (start + num - 1) * 512 < 1000 <= (start + num) * 512 ∧ (start + num) * 512 <= CACHE_BUFFER_SIZE ∧
    (∀ j, start * 512 <= j < 1000 → cbyte small_pool {[0 := 0%nat]} j = Some ((start * 512 - 0 + (j - start * 512)) mod 256)) ∧
    ∀ rc, __file_flush_done (VReq 20) rc w1 = (_ ← __check_sync_reqs 2; __file_flush (VReq 20))
      (in_pool (put_buf 0 (set_bytes_flushed 1000 first_buffer) small_pool)
        (put_file 2 (set_f_length 1000 (set_f_length_flushed 1000 waiting_file)) w1)).
Proof.
  apply (flush_writes_back flush_world (set_fs_direct false small_fs) 2 waiting_file {[0 := 0%nat]} 0 first_buffer 102 data_blob
    sync_channel 9 20 flush_request); try reflexivity.
  - split; try reflexivity; try (vm_compute; split; congruence).
    + by exists 11%nat.
    + exact (ca_rep _ _ _ _ _ written_cached).
    + vm_compute. congruence.
    + by right.
  - left. reflexivity.
  - intros j d Hj Hne. exfalso. vm_compute in Hj. by injection Hj as <-.
Defined.

