(* ===== verification/FsDataDemo.v ===== *)
(** * I/O, references and syncs on concrete worlds

    The theorems of FsDataTheorems and FsOpenClose instantiated on the small
    filesystem of FsDemo. *)
From S2P Require Import Prelude Triple BPlusTree BPlusTreeSpec BPlusTreeTheorems CacheTree CacheTreeProofs FsState FsPrim.
From S2P Require Import FsRequests FsFile FsMeta FsData FsSync FsLoop FsExec FsRanges FsCopy FsMetaTheorems FsCached.
From S2P Require Import FsDataTheorems FsOpenClose FsDemo.
Local Open Scope Z_scope.

(** ** 1000 bytes at offset 1000, in two pieces, with blocks of 512 bytes *)
Definition long_file : file := set_f_length 10000 open_data.
Definition io_channel : channel := mk_channel [25%nat] [25%nat] 0 (Some 3%nat) true false 0 false.
Definition io_world : world :=
  set_w_mem client_memory (put_file 2 long_file (put_chan 13 io_channel (put_req 25 zero_request small_world))).
Definition pieces (o : obj_id) : list iovec := [mk_iovec (PMem o 0) 700; mk_iovec (PMem o 5000) 300].
Definition written : list Z := bytes (λ i, i mod 256) 0 700 ++ bytes (λ i, i mod 256) 5000 300 ++ [].

Lemma io_world_ready : io_ready io_world 2 long_file 102 13 io_channel 25 [].
Proof. split; try reflexivity. by eexists. Qed.

Lemma unaligned_write_correct_witness :
  ∃ w1, spdk_file_writev_async 2 13 (pieces 1) 1000 1000 (CbUser 9) VNull io_world = Ok (tt, w1) ∧
    w_calls w1 = [mk_pending (BlobIoRead 102 (Some 3%nat) (PMem 100 0) 1 3) Cb__read_done (VReq 25)] ∧
    ∀ disk rc, ∃ w2 d2, __read_done (VReq 25) rc (with_blocks 100 disk w1) = Ok (tt, w2) ∧
      w_calls w2 = w_calls w1 ++ [mk_pending (BlobIoWrite 102 (Some 3%nat) (PMem 100 0) 1 3) Cb__rw_done (VReq 25)] ∧
      w_mem w2 !! 100%nat = Some d2 ∧
      bytes d2 (1000 - 1 * 512) 1000 = written ∧
      (∀ j, ¬ (1000 - 1 * 512 <= j < 1000 - 1 * 512 + 1000) → d2 j = disk j) ∧
      ∀ rc', __rw_done (VReq 25) rc' w2 = Ok (tt, io_ended 100 9 rc' 25 13 (take_head [] io_channel) w2).
Proof.
  apply (unaligned_write_correct io_world 2 long_file 102 13 io_channel 25 [] (pieces 1) written 1000 9 VNull 9 1 3);
    [lia|exact io_world_ready| |reflexivity|lia|by vm_compute|by vm_compute|by vm_compute|lia| |by vm_compute].
  - split; [done|]. split; [repeat constructor; simpl; lia|]. reflexivity.
  - vm_compute. by intros [].
Defined.

Lemma unbuffered_read_correct_witness :
  ∃ w1, spdk_file_readv_async 2 13 (pieces 2) 1000 1000 (CbUser 9) VNull io_world = Ok (tt, w1) ∧
    w_calls w1 = [mk_pending (BlobIoRead 102 (Some 3%nat) (PMem 100 0) 1 3) Cb__read_done (VReq 25)] ∧
    ∀ disk rc, ∃ w2, __read_done (VReq 25) rc (with_blocks 100 disk w1) = Ok (tt, w2) ∧
      iovs_bytes (w_mem w2) (pieces 2) = Some (bytes disk (1000 - 1 * 512) 1000) ∧
      (∀ o j, ¬ (∃ v, v ∈ pieces 2 ∧ covers v o j) → byte (w_mem w2) o j = byte client_memory o j) ∧
      w_done w2 = [(9%nat, Op 0)] ∧ w_chans w2 !! 13%nat = Some (put_head 25 (take_head [] io_channel)).
Proof.
  apply (unbuffered_read_correct io_world 2 long_file 102 13 io_channel 25 [] (pieces 2)
           (bytes (λ _, 0) 0 700 ++ bytes (λ _, 0) 5000 300 ++ []) 1000 9 VNull 9 1 3);
    [lia|exact io_world_ready| | |reflexivity|lia|by vm_compute|by vm_compute|by vm_compute|lia|by vm_compute].
  - split; [done|]. split; [repeat constructor; simpl; lia|]. reflexivity.
  - repeat constructor. intros o j (off & [= -> <-] & Hj) (off' & [= <-] & Hj'). simpl in *. lia.
Defined.

(** ** References *)
Lemma open_correct_witness :
  ∃ w1, spdk_fs_open_file_async "a" 0 (CbUser 9) VNull small_world = Ok (tt, w1) ∧
    w_files w1 = <[4%nat := one_more 20 closed_a]> (w_files small_world) ∧ waits w1 10 20 9 ∧ w_done w1 = [] ∧
    w_calls w1 = [mk_pending (BsOpenBlob 104) Cb_fs_open_blob_done (VReq 20)].
Proof.
  apply (open_correct small_world small_fs 10 md_channel 20 [21%nat] demo_map "a" 0 4 closed_a 9 VNull);
    [exact small_mounted|exact small_ready|reflexivity|reflexivity|reflexivity|vm_compute; lia|simpl; lia|reflexivity|].
  by intros [].
Defined.

Definition close_request : request := set_r_fn (Some (CbUser 9)) (set_r_file (Some 2%nat) (fresh_request 10%nat 0)).
Definition close_world : world := put_req 26 close_request small_world.

Lemma close_correct_witness :
  let finished rc w := put_chan 10 (put_head 26 md_channel) (note 9 (Op rc) w) in
  (1 = 0 → __file_close_async 2 26 close_world = Ok (tt, finished (- EBADF) close_world)) ∧
  (1 < 1 → __file_close_async 2 26 close_world = Ok (tt, finished 0 (put_file 2 (set_f_ref_count 0 open_data) close_world))) ∧
  (∀ b, 1 = 1 → Some 102 = Some b →
     __file_close_async 2 26 close_world = Ok (tt, blob_closing 2 open_data b 26 close_world) ∧
     ∀ rc, __file_close_async_done (VReq 26) rc (blob_closing 2 open_data b 26 close_world) =
             Ok (tt, finished rc (blob_closing 2 open_data b 26 close_world))).
Proof.
  apply (close_correct close_world 2 open_data 26 close_request 10 md_channel 9); try reflexivity; [|simpl; lia|by eexists].
  by split.
Defined.

Definition doomed_data : file := set_f_is_deleted true open_data.
Definition doomed_world : world := put_file 2 doomed_data close_world.


(** ** A sync that waits for 4096 flushed bytes *)
Definition sync_request : request :=
  set_r_op (OpSync 4096 false 0) (set_r_fn (Some (CbUser 9)) (set_r_file (Some 2%nat) (fresh_request 10%nat 0))).
Definition later_request : request :=
  set_r_op (OpSync 9000 false 0) (set_r_fn (Some (CbUser 8)) (set_r_file (Some 2%nat) (fresh_request 10%nat 0))).
Definition flushed_file : file := set_f_sync_requests [28%nat; 27%nat] (set_f_length_flushed 5000 long_file).
Definition sync_world : world :=
  put_file 2 flushed_file (put_req 27 sync_request (put_req 28 later_request small_world)).

Lemma sync_records_length_witness :
  (OpSync 4096 false 0 = OpSync 4096 true 0 → __check_sync_reqs 2 sync_world = Ok (tt, sync_world)) ∧
  (OpSync 4096 false 0 = OpSync 4096 false 0 →
     let w1 := recording 102 data_blob 27 sync_request 4096 5000 sync_world in
     __check_sync_reqs 2 sync_world = Ok (tt, w1) ∧
     ∀ rc, __file_cache_finish_sync (VReq 27) rc w1 =
       __check_sync_reqs 2 (put_chan 10 (put_head 27 md_channel) (note 9 (Op rc)
         (put_file 2 (set_f_sync_requests [28%nat] (set_f_length_xattr 5000 flushed_file)) w1)))).
Proof.
  apply (sync_records_length sync_world 2 flushed_file [28%nat] 27 [] 4096 102 data_blob 10 md_channel 9 sync_request 0);
    try reflexivity; [| | |by split].
  - constructor; [|constructor]. exists 9000, false. split; [by exists later_request, 0|simpl; lia].
  - simpl. rewrite list_elem_of_singleton. lia.
  - simpl. lia.
Defined.
