(* ===== verification/HashTable.v ===== *)
(** * The hash table of NBFS2 (NBFS2/hash_table.h)

    Items, list nodes and the table live in a store; an array of pointers is a map
    from indices to pointers, absent when NULL.  A new list node is not initialised:
    its [next] is whatever memory held, [st_junk].  The code does not test malloc,
    and neither does the model. *)
From S2P Require Import Prelude.
Local Open Scope Z_scope.

Definition CAPACITY : Z := 65536.

(** [value_size] is the size of the allocation that [value] points to. *)
Record Ht_item : Type := mk_item { key : string; value : string; value_size : nat }.
Record LinkedList : Type := mk_node { item : option nat; next : option nat }.
Record HashTable : Type := mk_table { items : gmap Z nat; overflow_buckets : gmap Z nat; size : Z; count : Z }.
Record store : Type := mk_store {
  st_items : gmap nat Ht_item;
  st_nodes : gmap nat LinkedList;
  st_table : HashTable;
  st_next : nat;
  st_junk : option nat
}.
Definition set_st_items (x : gmap nat Ht_item) (s : store) : store :=
  mk_store x (st_nodes s) (st_table s) (st_next s) (st_junk s).
Definition set_st_nodes (x : gmap nat LinkedList) (s : store) : store :=
  mk_store (st_items s) x (st_table s) (st_next s) (st_junk s).
Definition set_st_table (x : HashTable) (s : store) : store :=
  mk_store (st_items s) (st_nodes s) x (st_next s) (st_junk s).
Definition set_st_next (x : nat) (s : store) : store :=
  mk_store (st_items s) (st_nodes s) (st_table s) x (st_junk s).

(** ** Memory *)
Definition load_item (i : nat) : M store Ht_item := m ← gets st_items; of_option UseAfterFree (m !! i).
Definition load_node (n : nat) : M store LinkedList := m ← gets st_nodes; of_option UseAfterFree (m !! n).
Definition store_item (i : nat) (x : Ht_item) : M store unit := modify (λ s, set_st_items (<[i := x]> (st_items s)) s).
Definition store_node (n : nat) (x : LinkedList) : M store unit := modify (λ s, set_st_nodes (<[n := x]> (st_nodes s)) s).
Definition alloc : M store nat := n ← gets st_next; _ ← modify (set_st_next (S n)); mret n.
Definition deref {A} (o : option A) : M store A := of_option NullDeref o.

(** Reading and writing a slot of one of the arrays. *)
Definition in_table (index : Z) : M store unit :=
  s ← get; guard_or OutOfBounds (bool_decide (0 <= index < size (st_table s))).
Definition item_at (index : Z) : M store (option nat) :=
  _ ← in_table index; t ← gets st_table; mret (items t !! index).
Definition bucket_at (index : Z) : M store (option nat) :=
  _ ← in_table index; t ← gets st_table; mret (overflow_buckets t !! index).
Definition set_slot (index : Z) (p : option nat) (m : gmap Z nat) : gmap Z nat := partial_alter (λ _, p) index m.
Definition set_item_at (index : Z) (p : option nat) : M store unit :=
  _ ← in_table index;
  modify (λ s, set_st_table (let t := st_table s in
    mk_table (set_slot index p (items t)) (overflow_buckets t) (size t) (count t)) s).
Definition set_bucket_at (index : Z) (p : option nat) : M store unit :=
  _ ← in_table index;
  modify (λ s, set_st_table (let t := st_table s in
    mk_table (items t) (set_slot index p (overflow_buckets t)) (size t) (count t)) s).
Definition add_count (d : Z) : M store unit :=
  modify (λ s, set_st_table (let t := st_table s in
    mk_table (items t) (overflow_buckets t) (size t) (count t + d)) s).

(** ** hash_function: [char] is signed, [unsigned long] has 64 bits *)
Definition schar (c : Ascii.ascii) : Z :=
  let n := Z.of_nat (Ascii.nat_of_ascii c) in if decide (n < 128) then n else n - 256.
Fixpoint hash_loop (i : Z) (str : string) : Z :=
  match str with
  | EmptyString => i
  | String c str' => hash_loop (u64 (i + schar c)) str'
  end.
Definition hash_function (str : string) : Z := hash_loop 0 str mod CAPACITY.

(** ** Lists *)
Definition allocate_list : M store nat :=
  n ← alloc; junk ← gets st_junk; _ ← store_node n (mk_node None junk); mret n.

(** The loop [while (temp->next->next) temp = temp->next]. *)
Fixpoint before_last (fuel : nat) (temp : nat) : M store nat :=
  match fuel with
  | O => fail OutOfFuel
  | S fuel' =>
      t ← load_node temp;
      n ← deref (next t);
      x ← load_node n;
      match next x with None => mret temp | Some _ => before_last fuel' n end
  end.

(** A new last node. *)
Definition new_node (it : nat) : M store nat :=
  n ← allocate_list; _ ← store_node n (mk_node (Some it) None); mret n.

Definition linkedlist_insert (list : option nat) (it : nat) : M store (option nat) :=
  match list with
  | None => head ← new_node it; mret (Some head)
  | Some l =>
      x ← load_node l;
      match next x with
      | None =>
          n ← new_node it;
          _ ← store_node l (mk_node (item x) (Some n));
          mret list
      | Some _ =>
          m ← gets st_nodes;
          temp ← before_last (S (base.size m)) l;
          n ← new_node it;
          t ← load_node temp;
          _ ← store_node temp (mk_node (item t) (Some n));
          mret list
      end
  end.

(** It copies from NULL: no list of two nodes survives it. *)
Definition linkedlist_remove (list : option nat) : M store (option nat) :=
  match list with
  | None => mret None
  | Some l =>
      x ← load_node l;
      match next x with
      | None => mret None
      | Some node => _ ← store_node l (mk_node (item x) None); fail NullDeref
      end
  end.

Definition free_item (i : nat) : M store unit :=
  _ ← load_item i; modify (λ s, set_st_items (delete i (st_items s)) s).

Fixpoint free_list (fuel : nat) (list : option nat) : M store unit :=
  match list with
  | None => mret tt
  | Some temp =>
      match fuel with
      | O => fail OutOfFuel
      | S fuel' =>
          x ← load_node temp;
          i ← deref (item x);
          _ ← free_item i;
          _ ← modify (λ s, set_st_nodes (delete temp (st_nodes s)) s);
          free_list fuel' (next x)
      end
  end.
Definition free_linkedlist (list : option nat) : M store unit :=
  m ← gets st_nodes; free_list (S (base.size m)) list.

(** ** The table *)
Definition create_item (k v : string) : M store nat :=
  i ← alloc; _ ← store_item i (mk_item k v (S (String.length v))); mret i.

Definition create_table (sz : Z) : M store unit := modify (set_st_table (mk_table ∅ ∅ sz 0)).

Definition handle_collision (index : Z) (it : nat) : M store unit :=
  head ← bucket_at index;
  match head with
  | None =>
      head ← allocate_list;
      x ← load_node head;
      _ ← store_node head (mk_node (Some it) (next x));
      set_bucket_at index (Some head)
  | Some _ => l ← linkedlist_insert head it; set_bucket_at index l
  end.

(** [strcpy] into the value of an item. *)
Definition copy_value (i : nat) (v : string) : M store unit :=
  x ← load_item i;
  _ ← guard_or StringOverflow (bool_decide (String.length v < value_size x)%nat);
  store_item i (mk_item (key x) v (value_size x)).

Definition ht_insert (k v : string) : M store unit :=
  it ← create_item k v;
  let index := hash_function k in
  current_item ← item_at index;
  match current_item with
  | None =>
      t ← gets st_table;
      if decide (count t = size t) then free_item it else
      _ ← set_item_at index (Some it);
      add_count 1
  | Some c =>
      x ← load_item c;
      if decide (strcmp (key x) k = 0) then copy_value c v else handle_collision index it
  end.

Fixpoint search_loop (fuel : nat) (it head : option nat) (k : string) : M store (option string) :=
  match it with
  | None => mret None
  | Some i =>
      x ← load_item i;
      if decide (strcmp (key x) k = 0) then mret (Some (value x)) else
      match head with
      | None => mret None
      | Some h =>
          match fuel with
          | O => fail OutOfFuel
          | S fuel' => n ← load_node h; search_loop fuel' (item n) (next n) k
          end
      end
  end.
Definition ht_search (k : string) : M store (option string) :=
  let index := hash_function k in
  it ← item_at index;
  head ← bucket_at index;
  m ← gets st_nodes;
  search_loop (S (base.size m)) it head k.

(** The loop of [ht_delete] over the overflow list; [prev] follows [curr] after
    it has moved. *)
Fixpoint ht_delete_loop (fuel : nat) (index : Z) (head curr prev : option nat) (k : string) : M store unit :=
  match curr with
  | None => mret tt
  | Some c =>
      match fuel with
      | O => fail OutOfFuel
      | S fuel' =>
          n ← load_node c;
          i ← deref (item n);
          x ← load_item i;
          if decide (strcmp (key x) k = 0) then
            match prev with
            | None => _ ← free_linkedlist head; set_bucket_at index None
            | Some p =>
                pn ← load_node p;
                _ ← store_node p (mk_node (item pn) (next n));
                n ← load_node c;
                _ ← store_node c (mk_node (item n) None);
                _ ← free_linkedlist curr;
                set_bucket_at index head
            end
          else ht_delete_loop fuel' index head (next n) (next n) k
      end
  end.

Definition ht_delete (k : string) : M store unit :=
  let index := hash_function k in
  it ← item_at index;
  head ← bucket_at index;
  match it with
  | None => mret tt
  | Some i =>
      x ← load_item i;
      match head with
      | None =>
          if decide (strcmp (key x) k = 0) then
            _ ← set_item_at index None;
            _ ← free_item i;
            add_count (-1)
          else mret tt
      | Some h =>
          if decide (strcmp (key x) k = 0) then
            _ ← free_item i;
            n ← load_node h;
            _ ← store_node h (mk_node (item n) None);
            ni ← deref (item n);
            y ← load_item ni;
            it' ← create_item (key y) (value y);
            _ ← set_item_at index (Some it');
            _ ← free_linkedlist (Some h);
            set_bucket_at index (next n)
          else
            m ← gets st_nodes;
            ht_delete_loop (S (base.size m)) index head head None k
      end
  end.

(** All the items, then all the lists. *)
Fixpoint free_items (l : list nat) : M store unit :=
  match l with [] => mret tt | i :: l' => _ ← free_item i; free_items l' end.
Fixpoint free_lists (l : list nat) : M store unit :=
  match l with [] => mret tt | h :: l' => _ ← free_linkedlist (Some h); free_lists l' end.
Definition free_table : M store unit :=
  t ← gets st_table;
  _ ← free_items ((map_to_list (items t)).*2);
  free_lists ((map_to_list (overflow_buckets t)).*2).

(** ** Small runs *)
Definition empty_store (junk : option nat) : store := mk_store ∅ ∅ (mk_table ∅ ∅ CAPACITY 0) 0 junk.
Fixpoint insert_list (l : list (string * string)) : M store unit :=
  match l with [] => mret tt | (k, v) :: l' => _ ← ht_insert k v; insert_list l' end.


Definition result {A} (r : res (A * store)) : option A := match r with Ok (a, _) => Some a | Fault _ => None end.
Example search_collision :
  result ((_ ← insert_list [("ab", "1"); ("ba", "2"); ("c", "3")]; ht_search "ba") (empty_store None)) = Some (Some "2").
Proof. vm_compute. reflexivity. Qed.
(** The fourth name of a bucket takes the place of the third. *)
Example third_lost :
  result ((_ ← insert_list [("abc", "1"); ("acb", "2"); ("bac", "3"); ("cab", "4")]; ht_search "bac") (empty_store None)) = Some None.
Proof. vm_compute. reflexivity. Qed.
