(* ===== verification/HashTableProofs.v ===== *)
(** * What the hash table holds, bucket by bucket

    A table stands for a list of bindings per bucket, the item of the bucket first
    and its overflow list after it.  Every operation works on one bucket. *)
From stdpp Require Import gmap.
From S2P Require Import Prelude HashTable.
Local Open Scope Z_scope.

(** ** Buckets as lists *)
Abbreviation binding := (string * string)%type (only parsing).
Fixpoint assoc (l : list (string * string)) (k : string) : option string :=
  match l with
  | [] => None
  | (k', v) :: l' => if decide (k' = k) then Some v else assoc l' k
  end.

(** [linkedlist_insert] appends to a list of one, and takes the place of the last
    node of a longer one. *)
Definition chain_insert (l : list (string * string)) (kv : string * string) : list (string * string) :=
  match l with
  | _ :: _ :: _ => removelast l ++ [kv]
  | _ => l ++ [kv]
  end.
Definition bucket_insert (l : list (string * string)) (k v : string) : list (string * string) :=
  match l with
  | [] => [(k, v)]
  | (k0, v0) :: rest => if decide (k0 = k) then (k0, v) :: rest else (k0, v0) :: chain_insert rest (k, v)
  end.

(** ** Buckets in memory *)
Record cell : Type := mk_cell { c_node : nat; c_item : nat; c_key : string; c_val : string }.
(** The item of a bucket, with its binding, and the cells of its overflow list. *)
Record bucket : Type := mk_bucket { b_head : option (nat * (string * string)); b_rest : list cell }.
Definition empty_bucket : bucket := mk_bucket None [].
Definition cell_kv (c : cell) : string * string := (c_key c, c_val c).
Definition kvs (b : bucket) : list (string * string) :=
  match b_head b with None => [] | Some (_, kv) => kv :: (cell_kv <$> b_rest b) end.
Definition item_ids (b : bucket) : list nat :=
  match b_head b with None => [] | Some (i, _) => i :: (c_item <$> b_rest b) end.
Definition node_ids (b : bucket) : list nat := c_node <$> b_rest b.

Section rep.
(** All values have [W] characters. *)
Context (W : nat).

Definition item_ok (s : store) (i : nat) (kv : string * string) : Prop :=
  st_items s !! i = Some (mk_item kv.1 kv.2 (S W)) ∧ String.length kv.2 = W.
Fixpoint chain (s : store) (p : option nat) (l : list cell) : Prop :=
  match l with
  | [] => p = None
  | c :: l' => p = Some (c_node c) ∧ item_ok s (c_item c) (cell_kv c) ∧
      ∃ nx, st_nodes s !! c_node c = Some (mk_node (Some (c_item c)) nx) ∧ chain s nx l'
  end.
Record bucket_ok (s : store) (index : Z) (b : bucket) : Prop := {
  bk_item : items (st_table s) !! index = fst <$> b_head b;
  bk_head : ∀ i kv, b_head b = Some (i, kv) → item_ok s i kv;
  bk_chain : chain s (overflow_buckets (st_table s) !! index) (b_rest b);
  bk_empty : b_head b = None → b_rest b = [];
  bk_keys : ∀ k, k ∈ (kvs b).*1 → hash_function k = index;
  bk_items : NoDup (item_ids b);
  bk_nodes : NoDup (node_ids b);
  bk_fresh : ∀ i, i ∈ item_ids b ∨ i ∈ node_ids b → (i < st_next s)%nat
}.

(** The table stands for the buckets [B]. *)
Record rep (s : store) (B : Z → bucket) : Prop := {
  rp_size : size (st_table s) = CAPACITY;
  rp_out : ∀ index, ¬ (0 <= index < CAPACITY) → B index = empty_bucket;
  rp_bucket : ∀ index, bucket_ok s index (B index);
  rp_items : ∀ i1 i2 x, x ∈ item_ids (B i1) → x ∈ item_ids (B i2) → i1 = i2;
  rp_nodes : ∀ i1 i2 x, x ∈ node_ids (B i1) → x ∈ node_ids (B i2) → i1 = i2;
  rp_count : count (st_table s) = Z.of_nat (base.size (items (st_table s)))
}.

(** ** Frames *)
Lemma item_ok_frame s s' i kv : st_items s' !! i = st_items s !! i → item_ok s i kv → item_ok s' i kv.
Proof. unfold item_ok. by intros ->. Qed.

Lemma chain_frame s s' l : ∀ p,
  (∀ c, c ∈ l → st_items s' !! c_item c = st_items s !! c_item c ∧ st_nodes s' !! c_node c = st_nodes s !! c_node c) →
  chain s p l → chain s' p l.
Proof.
  induction l as [|c l IH]; intros p Hsame; [done|]. intros (-> & Hi & nx & Hn & Hc).
  destruct (Hsame c) as [H1 H2]; [left|]. split; [done|]. split; [by eapply item_ok_frame|].
  exists nx. split; [congruence|]. apply IH; [|done]. intros c' Hc'. apply Hsame. by right.
Qed.

Lemma bucket_frame s s' index b :
  items (st_table s') !! index = items (st_table s) !! index →
  overflow_buckets (st_table s') !! index = overflow_buckets (st_table s) !! index →
  (∀ i, i ∈ item_ids b → st_items s' !! i = st_items s !! i) →
  (∀ n, n ∈ node_ids b → st_nodes s' !! n = st_nodes s !! n) → (st_next s <= st_next s')%nat →
  bucket_ok s index b → bucket_ok s' index b.
Proof.
  intros Ht Ho Hi Hn Hle [H1 H2 H3 H4 H5 H6 H7 H8]. split; try done.
  - congruence.
  - intros i kv Hb. eapply item_ok_frame, H2; [|exact Hb]. apply Hi. unfold item_ids. rewrite Hb. by left.
  - rewrite Ho. eapply chain_frame, H3. intros c Hc. split.
    + apply Hi. unfold item_ids. destruct (b_head b) as [[i kv]|] eqn:Hb.
      * right. apply list_elem_of_fmap. by exists c.
      * rewrite (H4 eq_refl) in Hc. by apply not_elem_of_nil in Hc.
    + apply Hn. apply list_elem_of_fmap. by exists c.
  - intros i Hin. specialize (H8 i Hin). lia.
Qed.

(** An operation on one bucket. *)
Definition upd (B : Z → bucket) (index : Z) (b : bucket) : Z → bucket := λ j, if decide (j = index) then b else B j.

Lemma rep_update s s' B index b :
  rep s B → 0 <= index < CAPACITY → bucket_ok s' index b →
  (∀ j, j ≠ index → items (st_table s') !! j = items (st_table s) !! j ∧
                    overflow_buckets (st_table s') !! j = overflow_buckets (st_table s) !! j) →
  (∀ i, (i < st_next s)%nat → i ∉ item_ids (B index) → st_items s' !! i = st_items s !! i) →
  (∀ n, (n < st_next s)%nat → n ∉ node_ids (B index) → st_nodes s' !! n = st_nodes s !! n) →
  (∀ i, i ∈ item_ids b → i ∈ item_ids (B index) ∨ (st_next s <= i)%nat) →
  (∀ n, n ∈ node_ids b → n ∈ node_ids (B index) ∨ (st_next s <= n)%nat) →
  (st_next s <= st_next s')%nat → size (st_table s') = size (st_table s) →
  count (st_table s') = Z.of_nat (base.size (items (st_table s'))) →
  rep s' (upd B index b).
Proof.
  intros [Hsz Hout Hbk Hit Hno Hco] Hidx Hb Htab Hsi Hsn Hii Hnn Hle Hsize Hcount.
  assert (Hother : ∀ j, j ≠ index → bucket_ok s' j (B j)).
  { intros j Hj. destruct (Htab j Hj). eapply bucket_frame; [done..| | |done|apply Hbk].
    - intros i Hi. apply Hsi; [eapply bk_fresh; [apply Hbk|by left]|]. intros Hi'. apply Hj. by eapply Hit.
    - intros n Hn. apply Hsn; [eapply bk_fresh; [apply Hbk|by right]|]. intros Hn'. apply Hj. by eapply Hno. }
  assert (Hdis : ∀ (ids : bucket → list nat),
    (∀ j x, x ∈ ids (B j) → (x < st_next s)%nat) → (∀ x, x ∈ ids b → x ∈ ids (B index) ∨ (st_next s <= x)%nat) →
    (∀ i1 i2 x, x ∈ ids (B i1) → x ∈ ids (B i2) → i1 = i2) →
    ∀ i1 i2 x, x ∈ ids (upd B index b i1) → x ∈ ids (upd B index b i2) → i1 = i2).
  { intros ids Hlt Hin Hd i1 i2 x. unfold upd. destruct (decide (i1 = index)) as [->|H1], (decide (i2 = index)) as [->|H2]; try done.
    - intros Hx Hy. destruct (Hin x Hx) as [Hx'|Hge]; [by eapply Hd|]. specialize (Hlt _ _ Hy). lia.
    - intros Hx Hy. destruct (Hin x Hy) as [Hx'|Hge]; [by eapply Hd|]. specialize (Hlt _ _ Hx). lia.
    - apply Hd. }
  split; try done.
  - congruence.
  - intros j Hj. unfold upd. rewrite decide_False by (intros ->; done). by apply Hout.
  - intros j. unfold upd. destruct (decide (j = index)) as [->|Hj]; [done|by apply Hother].
  - apply (Hdis item_ids); [|done|done]. intros j x Hx. eapply bk_fresh; [apply Hbk|by left].
  - apply (Hdis node_ids); [|done|done]. intros j x Hx. eapply bk_fresh; [apply Hbk|by right].
Qed.

(** ** Lookup *)
Lemma hash_range k : 0 <= hash_function k < CAPACITY.
Proof. apply Z.mod_pos_bound. by vm_compute. Qed.

Lemma slot_eq s B index : rep s B → 0 <= index < CAPACITY → in_table index s = Ok (tt, s).
Proof. intros Hr Hi. unfold in_table, get, mbind, M_bind. rewrite (rp_size _ _ Hr). by rewrite bool_decide_eq_true_2. Qed.
Lemma item_at_eq s B index : rep s B → 0 <= index < CAPACITY → item_at index s = Ok (fst <$> b_head (B index), s).
Proof.
  intros Hr Hi. unfold item_at. rewrite (bind_Ok _ _ _ _ _ (slot_eq _ _ _ Hr Hi)).
  change ((gets st_table ≫= ?g) s) with (g (st_table s) s). cbv beta.
  by rewrite (bk_item _ _ _ (rp_bucket _ _ Hr index)).
Qed.
Lemma bucket_at_eq s B index : rep s B → 0 <= index < CAPACITY →
  bucket_at index s = Ok (overflow_buckets (st_table s) !! index, s).
Proof. intros Hr Hi. unfold bucket_at. by rewrite (bind_Ok _ _ _ _ _ (slot_eq _ _ _ Hr Hi)). Qed.

Lemma load_item_eq s i x : st_items s !! i = Some x → load_item i s = Ok (x, s).
Proof. intros H. unfold load_item, gets, mbind, M_bind. by rewrite H. Qed.
Lemma load_node_eq s n x : st_nodes s !! n = Some x → load_node n s = Ok (x, s).
Proof. intros H. unfold load_node, gets, mbind, M_bind. by rewrite H. Qed.

Lemma chain_live s l : ∀ p, chain s p l → Forall (λ c, is_Some (st_nodes s !! c_node c)) l.
Proof.
  induction l as [|c l IH]; intros p; [constructor|]. intros (_ & _ & nx & Hn & Hc). constructor; [by eexists|by eapply IH].
Qed.
Lemma chain_size s p l : chain s p l → NoDup (c_node <$> l) → (length l <= base.size (st_nodes s))%nat.
Proof.
  intros Hc Hnd. rewrite <- (length_fmap c_node l), <- size_dom, <- (size_list_to_set (C := gset nat)) by done.
  apply subseteq_size. intros n Hn%elem_of_list_to_set. apply list_elem_of_fmap in Hn as (c & -> & Hin).
  apply elem_of_dom. by eapply Forall_forall in Hin; [|by eapply chain_live].
Qed.

Lemma search_loop_eq s k l : ∀ fuel p i kv,
  item_ok s i kv → chain s p l → (length l < fuel)%nat →
  search_loop fuel (Some i) p k s = Ok (assoc (kv :: (cell_kv <$> l)) k, s).
Proof.
  induction l as [|c l IH]; intros fuel p i [k0 v0] [Hi Hv] Hc Hf; (destruct fuel as [|fuel]; [simpl in Hf; lia|]);
    cbn [search_loop]; rewrite (bind_Ok _ _ _ _ _ (load_item_eq _ _ _ Hi)); cbn [key value fst snd assoc].
  - simpl in Hc. subst p. rewrite (decide_ext _ (k0 = k)) by apply strcmp_eq. by destruct (decide (k0 = k)).
  - destruct Hc as (-> & Hic & nx & Hn & Hc). rewrite (decide_ext _ (k0 = k)) by apply strcmp_eq.
    destruct (decide (k0 = k)); [done|]. rewrite (bind_Ok _ _ _ _ _ (load_node_eq _ _ _ Hn)). cbn [item next].
    rewrite (IH fuel nx (c_item c) (cell_kv c)); [done|done|done|simpl in Hf; lia].
Qed.

Definition found (B : Z → bucket) (k : string) : option string := assoc (kvs (B (hash_function k))) k.

Lemma search_eq s B k : rep s B → ht_search k s = Ok (found B k, s).
Proof.
  intros Hr. pose proof (hash_range k) as Hh. pose proof (rp_bucket _ _ Hr (hash_function k)) as Hb. unfold ht_search.
  rewrite (bind_Ok _ _ _ _ _ (item_at_eq _ _ _ Hr Hh)), (bind_Ok _ _ _ _ _ (bucket_at_eq _ _ _ Hr Hh)).
  change ((gets st_nodes ≫= ?g) s) with (g (st_nodes s) s). cbv beta. unfold found, kvs.
  destruct (b_head (B (hash_function k))) as [[i kv]|] eqn:Hhd; cbn [fmap option_fmap option_map fst]; [|done].
  apply search_loop_eq; [by eapply bk_head|apply Hb|].
  pose proof (chain_size _ _ _ (bk_chain _ _ _ Hb) (bk_nodes _ _ _ Hb)). lia.
Qed.

(** ** Insertion at the end of a list *)
Lemma chain_splice s s' a tl tl' nx' l0 : ∀ p,
  chain s p (l0 ++ a :: tl) →
  (∀ c, c ∈ l0 → st_items s' !! c_item c = st_items s !! c_item c ∧ st_nodes s' !! c_node c = st_nodes s !! c_node c) →
  st_items s' !! c_item a = st_items s !! c_item a →
  st_nodes s' !! c_node a = Some (mk_node (Some (c_item a)) nx') → chain s' nx' tl' →
  chain s' p (l0 ++ a :: tl').
Proof.
  induction l0 as [|c l0 IH]; intros p Hc Hl0 Hia Hna Htl; simpl in *.
  - destruct Hc as (-> & Hi & _). split; [done|]. split; [by eapply item_ok_frame|]. by exists nx'.
  - destruct Hc as (-> & Hi & nx & Hn & Hc). destruct (Hl0 c) as [H1 H2]; [left|].
    split; [done|]. split; [by eapply item_ok_frame|]. exists nx. split; [congruence|].
    apply IH; try done. intros c' Hc'. apply Hl0. by right.
Qed.

Lemma before_last_eq s a z l0 : ∀ fuel n,
  chain s (Some n) (l0 ++ [a; z]) → (length l0 < fuel)%nat → before_last fuel n s = Ok (c_node a, s).
Proof.
  induction l0 as [|c l0 IH]; intros [|fuel] n Hc Hf; simpl in Hf; try lia; cbn [before_last].
  - destruct Hc as ([= ->] & _ & nx & Hn & -> & _ & nx' & Hz & ->).
    rewrite (bind_Ok _ _ _ _ _ (load_node_eq _ _ _ Hn)). cbn [next deref of_option]. rewrite bind_ret.
    by rewrite (bind_Ok _ _ _ _ _ (load_node_eq _ _ _ Hz)).
  - destruct Hc as ([= ->] & _ & nx & Hn & Hc). rewrite (bind_Ok _ _ _ _ _ (load_node_eq _ _ _ Hn)).
    assert (∃ m y, nx = Some m ∧ st_nodes s !! m = Some y ∧ is_Some (next y)) as (m & y & -> & Hy & [z' Hz']).
    { destruct l0 as [|c' [|c'' l0]]; simpl in Hc; destruct Hc as (-> & _ & nx' & Hn' & Hc'); eexists _, _;
        (split; [done|]); (split; [exact Hn'|]); destruct Hc' as (-> & _); by eexists. }
    cbn [next deref of_option]. rewrite bind_ret. rewrite (bind_Ok _ _ _ _ _ (load_node_eq _ _ _ Hy)), Hz'.
    apply IH; [done|lia].
Qed.

(** The cells that stay when one is appended. *)
Definition kept (l : list cell) : list cell := match l with _ :: _ :: _ => removelast l | _ => l end.
Definition with_node (n : nat) (x : LinkedList) (s : store) : store := set_st_nodes (<[n := x]> (st_nodes s)) s.
Definition with_new_node (it : nat) (s : store) : store :=
  set_st_next (S (st_next s)) (with_node (st_next s) (mk_node (Some it) None) s).

Lemma new_node_eq it s : new_node it s = Ok (st_next s, with_new_node it s).
Proof.
  unfold new_node, allocate_list, alloc, gets, modify, store_node, with_new_node, with_node, mbind, M_bind. simpl.
  unfold set_st_nodes, set_st_next. simpl. by rewrite insert_insert_eq.
Qed.

Lemma fresh_cell s (l : list cell) x :
  (∀ n, n ∈ c_node <$> l → (n < st_next s)%nat) → x ∈ l → c_node x ≠ st_next s.
Proof. intros H Hx He. specialize (H (c_node x)). rewrite He in H. apply (Nat.lt_irrefl (st_next s)), H.
  rewrite <- He. apply list_elem_of_fmap. by exists x. Qed.

Lemma linkedlist_insert_eq s h l it kv :
  chain s (Some h) l → NoDup (c_node <$> l) → (∀ n, n ∈ c_node <$> l → (n < st_next s)%nat) → item_ok s it kv →
  ∃ s' x, linkedlist_insert (Some h) it s = Ok (Some h, s') ∧
    chain s' (Some h) (kept l ++ [mk_cell (st_next s) it kv.1 kv.2]) ∧
    x ∈ c_node <$> l ∧ (∃ y, s' = with_node x y (with_new_node it s)).
Proof.
  intros Hc Hnd Hlt Hit.
  assert (Hnew : ∀ x y, x ≠ st_next s → let s' := with_node x y (with_new_node it s) in
    chain s' (Some (st_next s)) [mk_cell (st_next s) it kv.1 kv.2]).
  { intros x y Hx s'. split; [done|]. split; [destruct kv; exact Hit|]. exists None. split; [|done].
    unfold s', with_node, with_new_node. simpl. rewrite lookup_insert_ne by done. apply lookup_insert_eq. }
  assert (Hgo : ∀ l0 a tl n, l = l0 ++ a :: tl → st_nodes s !! c_node a = Some (mk_node (Some (c_item a)) n) →
    let s' := with_node (c_node a) (mk_node (Some (c_item a)) (Some (st_next s))) (with_new_node it s) in
    chain s' (Some h) (l0 ++ [a; mk_cell (st_next s) it kv.1 kv.2])).
  { intros l0 a tl n -> Hn s'. assert (Ha : c_node a ≠ st_next s) by (eapply fresh_cell; [exact Hlt|set_solver]).
    eapply chain_splice; [exact Hc| |done|apply lookup_insert_eq|by apply Hnew].
    intros c Hcin. split; [done|]. unfold s', with_node, with_new_node. simpl.
    rewrite !lookup_insert_ne; [done| |].
    - intros He. symmetry in He. revert He. eapply fresh_cell; [exact Hlt|]. set_solver.
    - intros He. rewrite fmap_app in Hnd. apply NoDup_app in Hnd as (_ & Hd & _).
      apply (Hd (c_node c)); [apply list_elem_of_fmap; by exists c|]. rewrite <- He. simpl. left. }
  destruct l as [|c [|c2 l']].
  - done.
  - destruct Hc as ([= ->] & Hi & nx & Hn & Hc). simpl in Hc. subst nx.
    eexists _, (c_node c). split; [|split; [exact (Hgo [] c [] None eq_refl Hn)|split; [left|by eexists]]].
    unfold linkedlist_insert. rewrite (bind_Ok _ _ _ _ _ (load_node_eq _ _ _ Hn)). cbn [next].
    by rewrite (bind_Ok _ _ _ _ _ (new_node_eq it s)).
  - assert (∃ l0 a z, c :: c2 :: l' = l0 ++ [a; z]) as (l0 & a & z & Hsplit).
    { destruct (exists_last (l := c :: c2 :: l')) as (l1 & z & He); [done|]. 
      destruct (exists_last (l := l1)) as (l0 & a & ->); [by intros ->|]. exists l0, a, z. by rewrite He, <- app_assoc. }
    assert (Hcs : chain s (Some h) (l0 ++ [a; z])) by (by rewrite <- Hsplit).
    assert (Hha : ∃ n, st_nodes s !! c_node a = Some (mk_node (Some (c_item a)) n)).
    { pose proof Hcs as Hcs'. clear -Hcs'. revert Hcs'. generalize (Some h).
      induction l0 as [|c0 l0 IH]; intros p (_ & _ & nx & Hn & Hc'); [by exists nx|by eapply IH]. }
    destruct Hha as [na Hna].
    assert (Hkept : kept (c :: c2 :: l') = l0 ++ [a]).
    { unfold kept. rewrite Hsplit. change [a; z] with ([a] ++ [z]). rewrite app_assoc. apply removelast_last. }
    eexists _, (c_node a). split; [|split; [|split; [|by eexists]]].
    2:{ rewrite Hkept, <- app_assoc. exact (Hgo l0 a [z] na Hsplit Hna). }
    2:{ rewrite Hsplit. set_solver. }
    destruct Hc as ([= ->] & Hi & nx & Hn & -> & _). unfold linkedlist_insert.
    rewrite (bind_Ok _ _ _ _ _ (load_node_eq _ _ _ Hn)). cbn [next].
    change ((gets st_nodes ≫= ?g) s) with (g (st_nodes s) s). cbv beta.
    rewrite (bind_Ok _ _ _ _ _ (before_last_eq s a z l0 (S (base.size (st_nodes s))) _ Hcs ltac:(
      pose proof (chain_size s _ _ Hcs ltac:(by rewrite <- Hsplit)) as Hs; rewrite length_app in Hs; simpl in Hs; lia))).
    rewrite (bind_Ok _ _ _ _ _ (new_node_eq it s)).
    assert (Hna' : st_nodes (with_new_node it s) !! c_node a = Some (mk_node (Some (c_item a)) na)).
    { unfold with_new_node, with_node. simpl. rewrite lookup_insert_ne; [exact Hna|].
      intros He. symmetry in He. revert He. eapply fresh_cell; [exact Hlt|rewrite Hsplit; set_solver]. }
    by rewrite (bind_Ok _ _ _ _ _ (load_node_eq _ _ _ Hna')).
Qed.

(** ** ht_insert *)
Lemma slots_bound N (m : gmap Z nat) i :
  (∀ j, is_Some (m !! j) → 0 <= j < N) → m !! i = None → 0 <= i < N → Z.of_nat (base.size m) < N.
Proof.
  intros Hm Hi HN. assert (base.size (dom m ∪ {[i]}) <= Z.to_nat N)%nat as Hle.
  { transitivity (length (seqZ 0 N)); [|by rewrite length_seqZ].
    rewrite <- (size_list_to_set (C := gset Z)) by apply NoDup_seqZ. apply subseteq_size. intros j Hj.
    apply elem_of_list_to_set, elem_of_seqZ. apply elem_of_union in Hj as [Hj|Hj%elem_of_singleton]; [|lia].
    apply elem_of_dom in Hj. apply Hm in Hj. lia. }
  rewrite size_union in Hle by (apply disjoint_singleton_r, not_elem_of_dom; done).
  rewrite size_singleton, size_dom in Hle. lia.
Qed.

Lemma slots_in_range s B j : rep s B → is_Some (items (st_table s) !! j) → 0 <= j < CAPACITY.
Proof.
  intros Hr Hj. destruct (decide (0 <= j < CAPACITY)) as [|Hn]; [done|]. exfalso.
  rewrite (bk_item _ _ _ (rp_bucket _ _ Hr j)), (rp_out _ _ Hr j Hn) in Hj. by destruct Hj.
Qed.

Lemma not_full s B index : rep s B → 0 <= index < CAPACITY → b_head (B index) = None → count (st_table s) ≠ size (st_table s).
Proof.
  intros Hr Hi Hb. rewrite (rp_count _ _ Hr), (rp_size _ _ Hr).
  assert (Z.of_nat (base.size (items (st_table s))) < CAPACITY); [|lia].
  apply (slots_bound _ _ index); [intros j; by eapply slots_in_range| |done].
  by rewrite (bk_item _ _ _ (rp_bucket _ _ Hr index)), Hb.
Qed.

Definition with_item (k v : string) (s : store) : store :=
  set_st_items (<[st_next s := mk_item k v (S (String.length v))]> (st_items s)) (set_st_next (S (st_next s)) s).
Lemma create_item_eq k v s : create_item k v s = Ok (st_next s, with_item k v s).
Proof. done. Qed.

Lemma rep_with_item s B k v : rep s B → rep (with_item k v s) B.
Proof.
  intros [Hsz Hout Hbk Hit Hno Hco]. split; try done. intros index. specialize (Hbk index).
  eapply bucket_frame, Hbk; [done|done| |done|simpl; lia]. intros i Hi. simpl.
  pose proof (bk_fresh _ _ _ Hbk i (or_introl Hi)). rewrite lookup_insert_ne by lia. done.
Qed.

Lemma set_slot_eq index p m : set_slot index p m !! index = p.
Proof. unfold set_slot. by rewrite lookup_partial_alter_eq. Qed.
Lemma set_slot_ne index j p m : j ≠ index → set_slot index p m !! j = m !! j.
Proof. intros H. unfold set_slot. by rewrite lookup_partial_alter_ne. Qed.

Lemma kept_sub l : kept l `prefix_of` l.
Proof.
  destruct l as [|c [|c2 l]]; [done|done|]. unfold kept. exists [List.last (c :: c2 :: l) c]. by apply app_removelast_last.
Qed.
Lemma kept_kvs l (c : cell) : cell_kv <$> (kept l ++ [c]) = chain_insert (cell_kv <$> l) (cell_kv c).
Proof.
  rewrite fmap_app. destruct l as [|c1 [|c2 l]]; [done|done|]. unfold kept, chain_insert. simpl fmap at 2 3. f_equal.
  change (cell_kv c1 :: cell_kv c2 :: (cell_kv <$> l)) with (cell_kv <$> c1 :: c2 :: l). generalize (c1 :: c2 :: l).
  clear. intros l. induction l as [|c l IH]; [done|]. destruct l; [done|]. 
  change (removelast (c :: c0 :: l)) with (c :: removelast (c0 :: l)). rewrite !fmap_cons, IH. done.
Qed.

Definition with_table (t : HashTable) (s : store) : store := set_st_table t s.
Definition item_slot (index : Z) (p : option nat) (t : HashTable) : HashTable :=
  mk_table (set_slot index p (items t)) (overflow_buckets t) (size t) (count t).
Definition bucket_slot (index : Z) (p : option nat) (t : HashTable) : HashTable :=
  mk_table (items t) (set_slot index p (overflow_buckets t)) (size t) (count t).
Lemma set_item_at_eq s index p : size (st_table s) = CAPACITY → 0 <= index < CAPACITY →
  set_item_at index p s = Ok (tt, with_table (item_slot index p (st_table s)) s).
Proof.
  intros Hs Hi. unfold set_item_at, in_table, get, mbind, M_bind. rewrite Hs. by rewrite bool_decide_eq_true_2.
Qed.
Lemma set_bucket_at_eq s index p : size (st_table s) = CAPACITY → 0 <= index < CAPACITY →
  set_bucket_at index p s = Ok (tt, with_table (bucket_slot index p (st_table s)) s).
Proof.
  intros Hs Hi. unfold set_bucket_at, in_table, get, mbind, M_bind. rewrite Hs. by rewrite bool_decide_eq_true_2.
Qed.

(** The first name of a bucket. *)
Lemma insert_first s B k v :
  rep s B → String.length v = W → b_head (B (hash_function k)) = None →
  ∃ s', ht_insert k v s = Ok (tt, s') ∧ st_junk s' = st_junk s ∧
    rep s' (upd B (hash_function k) (mk_bucket (Some (st_next s, (k, v))) [])).
Proof.
  intros Hr Hv Hb. set (index := hash_function k). pose proof (hash_range k) as Hidx. fold index in Hidx, Hb.
  set (s1 := with_item k v s). assert (Hr1 : rep s1 B) by by apply rep_with_item.
  pose proof (rp_bucket _ _ Hr index) as Hbk. assert (Hempty : b_rest (B index) = []) by (by apply Hbk).
  set (t2 := item_slot index (Some (st_next s)) (st_table s)).
  set (s2 := with_table (mk_table (items t2) (overflow_buckets t2) (size t2) (count t2 + 1)) s1).
  exists s2. split; [|split; [done|]].
  - unfold ht_insert. rewrite (bind_Ok _ _ _ _ _ (create_item_eq k v s)). fold s1 index.
    rewrite (bind_Ok _ _ _ _ _ (item_at_eq s1 B index Hr1 Hidx)), Hb. cbn [fmap option_fmap option_map].
    change ((gets st_table ≫= ?g) s1) with (g (st_table s1) s1). cbv beta.
    rewrite decide_False by (by eapply not_full). rewrite (bind_Ok _ _ _ _ _ (set_item_at_eq s1 index _ (rp_size _ _ Hr1) Hidx)).
    done.
  - apply (rep_update s s2 B index); [done|done| |..].
    + split; simpl; try done.
      * by rewrite set_slot_eq.
      * intros i kv [= <- <-]. split; [|done]. cbn. rewrite lookup_insert_eq. by rewrite Hv.
      * pose proof (bk_chain _ _ _ Hbk) as Hc. rewrite Hempty in Hc. exact Hc.
      * intros k' Hk'%list_elem_of_singleton. by subst.
      * apply NoDup_singleton.
      * constructor.
      * intros i [Hi|Hi]; [apply list_elem_of_singleton in Hi as ->; lia|by apply not_elem_of_nil in Hi].
    + intros j Hj. split; [|done]. simpl. by rewrite set_slot_ne.
    + intros i Hi _. simpl. rewrite lookup_insert_ne by lia. done.
    + done.
    + intros i Hi. right. unfold item_ids in Hi. simpl in Hi. apply list_elem_of_singleton in Hi. lia.
    + intros n Hn. by apply not_elem_of_nil in Hn.
    + simpl. lia.
    + done.
    + simpl. unfold set_slot. rewrite (rp_count _ _ Hr).
      change (partial_alter (λ _, Some (st_next s)) index (items (st_table s))) with (<[index := st_next s]> (items (st_table s))).
      rewrite map_size_insert_None; [lia|]. by rewrite (bk_item _ _ _ Hbk), Hb.
Qed.

(** The name the bucket starts with: only the value changes. *)
Lemma insert_update s B k v i v0 :
  rep s B → String.length v = W → b_head (B (hash_function k)) = Some (i, (k, v0)) →
  ∃ s', ht_insert k v s = Ok (tt, s') ∧ st_junk s' = st_junk s ∧
    rep s' (upd B (hash_function k) (mk_bucket (Some (i, (k, v))) (b_rest (B (hash_function k))))).
Proof.
  intros Hr Hv Hb. set (index := hash_function k). pose proof (hash_range k) as Hidx. fold index in Hidx, Hb.
  set (s1 := with_item k v s). assert (Hr1 : rep s1 B) by by apply rep_with_item.
  pose proof (rp_bucket _ _ Hr1 index) as Hbk. destruct (bk_head _ _ _ Hbk _ _ Hb) as [Hi Hl0]. cbn [fst snd] in Hi, Hl0.
  assert (Hlt : (i < st_next s)%nat).
  { eapply (bk_fresh _ _ _ (rp_bucket _ _ Hr index)). left. unfold item_ids. rewrite Hb. left. }
  set (s2 := set_st_items (<[i := mk_item k v (S W)]> (st_items s1)) s1).
  exists s2. split; [|split; [done|]].
  - unfold ht_insert. rewrite (bind_Ok _ _ _ _ _ (create_item_eq k v s)). fold s1 index.
    rewrite (bind_Ok _ _ _ _ _ (item_at_eq s1 B index Hr1 Hidx)), Hb. cbn [fmap option_fmap option_map fst].
    rewrite (bind_Ok _ _ _ _ _ (load_item_eq _ _ _ Hi)). cbn [key].
    rewrite decide_True by (by apply strcmp_eq). unfold copy_value.
    rewrite (bind_Ok _ _ _ _ _ (load_item_eq _ _ _ Hi)). cbn [value_size]. rewrite bool_decide_eq_true_2 by lia. done.
  - apply (rep_update s s2 B index); [done|done| |..].
    + destruct Hbk as [H1 H2 H3 H4 H5 H6 H7 H8]. unfold kvs, item_ids, node_ids in *. rewrite Hb in *.
      split; unfold kvs, item_ids, node_ids; simpl; try done.
      * intros i' kv [= <- <-]. split; [|done]. cbn. by rewrite lookup_insert_eq.
      * eapply chain_frame, H3. intros c Hc. split; [|done]. simpl. rewrite lookup_insert_ne; [done|].
        intros ->. apply NoDup_cons in H6 as [Hn _]. apply Hn. apply list_elem_of_fmap. by exists c.
    + intros j Hj. done.
    + intros j Hj Hn. simpl. rewrite lookup_insert_ne; [rewrite lookup_insert_ne by lia; done|].
      intros ->. apply Hn. unfold item_ids. rewrite Hb. left.
    + done.
    + intros j Hj. left. unfold item_ids in *. rewrite Hb. exact Hj.
    + intros n Hn. left. exact Hn.
    + simpl. lia.
    + done.
    + apply (rp_count _ _ Hr).
Qed.

(** Another name of the bucket: the overflow list. *)
Definition overflowed (s : store) (b : bucket) (k v : string) : bucket :=
  mk_bucket (b_head b) (kept (b_rest b) ++ [mk_cell (S (st_next s)) (st_next s) k v]).

Lemma overflowed_ok s s' index b k v p0 :
  bucket_ok s index b → String.length v = W → hash_function k = index → b_head b = Some p0 →
  items (st_table s') !! index = items (st_table s) !! index →
  st_items s' = st_items (with_item k v s) → st_next s' = S (S (st_next s)) →
  chain s' (overflow_buckets (st_table s') !! index) (b_rest (overflowed s b k v)) →
  bucket_ok s' index (overflowed s b k v).
Proof.
  intros [H1 H2 H3 H4 H5 H6 H7 H8] Hv Hk Hb Ht Hi Hn Hc. destruct p0 as [i0 kv0].
  destruct (kept_sub (b_rest b)) as [tl Htl].
  assert (Hitems : item_ids b = i0 :: (c_item <$> kept (b_rest b)) ++ (c_item <$> tl)).
  { unfold item_ids. by rewrite Hb, <- fmap_app, <- Htl. }
  assert (Hnodes : node_ids b = (c_node <$> kept (b_rest b)) ++ (c_node <$> tl)).
  { unfold node_ids. by rewrite <- fmap_app, <- Htl. }
  assert (Hitems' : item_ids (overflowed s b k v) = (i0 :: (c_item <$> kept (b_rest b))) ++ [st_next s]).
  { unfold item_ids, overflowed. simpl. by rewrite Hb, fmap_app. }
  assert (Hnodes' : node_ids (overflowed s b k v) = (c_node <$> kept (b_rest b)) ++ [S (st_next s)]).
  { unfold node_ids, overflowed. simpl. by rewrite fmap_app. }
  assert (Hlti : ∀ i, i ∈ i0 :: (c_item <$> kept (b_rest b)) → (i < st_next s)%nat).
  { intros i Hin. apply H8. left. rewrite Hitems. change (i ∈ (i0 :: (c_item <$> kept (b_rest b))) ++ (c_item <$> tl)).
    apply elem_of_app. by left. }
  assert (Hltn : ∀ n, n ∈ c_node <$> kept (b_rest b) → (n < st_next s)%nat).
  { intros n Hin. apply H8. right. rewrite Hnodes. apply elem_of_app. by left. }
  split.
  - rewrite Ht, H1. done.
  - intros i kv Hkv. destruct (H2 i kv Hkv) as [Hit Hlen]. split; [|done]. rewrite Hi. simpl.
    rewrite lookup_insert_ne; [done|]. simpl in Hkv. rewrite Hb in Hkv. injection Hkv as -> ->.
    specialize (Hlti i). assert (i < st_next s)%nat by (apply Hlti; left). lia.
  - exact Hc.
  - simpl. by rewrite Hb.
  - intros k' Hk'. unfold kvs, overflowed in Hk'. simpl in Hk'. rewrite Hb, fmap_cons, fmap_app, fmap_app in Hk'.
    apply elem_of_cons in Hk' as [Hk'|Hk'].
    + apply H5. unfold kvs. rewrite Hb, fmap_cons. rewrite Hk'. left.
    + apply elem_of_app in Hk' as [Hk'|Hk'%list_elem_of_singleton]; [|by subst].
      apply H5. unfold kvs. rewrite Hb, fmap_cons, Htl, !fmap_app. right. apply elem_of_app. by left.
  - rewrite Hitems'. apply NoDup_app. split; [|split; [|apply NoDup_singleton]].
    + rewrite Hitems in H6. change (NoDup ((i0 :: (c_item <$> kept (b_rest b))) ++ (c_item <$> tl))) in H6.
      by apply NoDup_app in H6 as [H6 _].
    + intros x Hx Hx'%list_elem_of_singleton. specialize (Hlti x Hx). lia.
  - rewrite Hnodes'. apply NoDup_app. split; [|split; [|apply NoDup_singleton]].
    + rewrite Hnodes in H7. by apply NoDup_app in H7 as [H7 _].
    + intros x Hx Hx'%list_elem_of_singleton. specialize (Hltn x Hx). lia.
  - intros x. rewrite Hitems', Hnodes', Hn. intros [Hx|Hx]; apply elem_of_app in Hx as [Hx|Hx%list_elem_of_singleton]; try lia.
    + specialize (Hlti x Hx). lia.
    + specialize (Hltn x Hx). lia.
Qed.

Lemma collision_eq s B index k v p0 :
  rep s B → String.length v = W → 0 <= index < CAPACITY → b_head (B index) = Some p0 → (b_rest (B index) = [] → st_junk s = None) →
  ∃ s', handle_collision index (st_next s) (with_item k v s) = Ok (tt, s') ∧ st_junk s' = st_junk s ∧
    items (st_table s') = items (st_table s) ∧ size (st_table s') = size (st_table s) ∧
    count (st_table s') = count (st_table s) ∧
    (∀ j, j ≠ index → overflow_buckets (st_table s') !! j = overflow_buckets (st_table s) !! j) ∧
    st_items s' = st_items (with_item k v s) ∧ st_next s' = S (S (st_next s)) ∧
    (∀ n, (n < st_next s)%nat → n ∉ node_ids (B index) → st_nodes s' !! n = st_nodes s !! n) ∧
    chain s' (overflow_buckets (st_table s') !! index) (b_rest (overflowed s (B index) k v)).
Proof.
  intros Hr Hv Hidx Hb Hjunk. set (s1 := with_item k v s). assert (Hr1 : rep s1 B) by by apply rep_with_item.
  pose proof (rp_bucket _ _ Hr1 index) as Hbk. pose proof (bk_chain _ _ _ Hbk) as Hc.
  assert (Hit : item_ok s1 (st_next s) (k, v)) by (split; [simpl; by rewrite lookup_insert_eq, Hv|done]).
  unfold handle_collision. rewrite (bind_Ok _ _ _ _ _ (bucket_at_eq s1 B index Hr1 Hidx)).
  destruct (overflow_buckets (st_table s1) !! index) as [h|] eqn:Hh.
  - destruct (linkedlist_insert_eq s1 h (b_rest (B index)) (st_next s) (k, v) Hc (bk_nodes _ _ _ Hbk)) as (s2 & x & Hrun & Hc2 & Hx & y & Hs2);
      [intros n Hn; apply (bk_fresh _ _ _ Hbk); by right|done|].
    rewrite (bind_Ok _ _ _ _ _ Hrun).
    assert (Hsz : size (st_table s2) = CAPACITY) by (rewrite Hs2; apply (rp_size _ _ Hr)).
    rewrite (set_bucket_at_eq s2 index (Some h) Hsz Hidx). eexists. split; [done|]. rewrite Hs2.
    do 4 (split; [done|]). split; [intros j Hj; simpl; by rewrite set_slot_ne|]. do 2 (split; [done|]). split.
    + intros n Hn Hn'. simpl. rewrite !lookup_insert_ne; [done|lia|]. intros ->. done.
    + simpl. rewrite set_slot_eq. rewrite <- Hs2. eapply chain_frame, Hc2. by intros c _.
  - assert (Hrest : b_rest (B index) = []).
    { destruct (b_rest (B index)) as [|c l]; [done|]. by destruct Hc. }
    unfold allocate_list, alloc, overflowed. rewrite Hrest.
    set (s2 := with_node (st_next s1) (mk_node None None) (set_st_next (S (st_next s1)) s1)).
    rewrite (bind_Ok _ _ s1 (st_next s1) s2).
    2:{ unfold s2, with_node, gets, modify, store_node, mbind, M_bind. simpl. by rewrite (Hjunk Hrest). }
    rewrite (bind_Ok _ _ _ _ _ (load_node_eq s2 (st_next s1) (mk_node None None) (lookup_insert_eq _ _ _))).
    set (s3 := with_node (st_next s1) (mk_node (Some (st_next s)) None) s2).
    change ((store_node _ _ ≫= ?g) s2) with (g tt s3). cbv beta.
    assert (Hsz : size (st_table s3) = CAPACITY) by apply (rp_size _ _ Hr).
    rewrite (set_bucket_at_eq s3 index _ Hsz Hidx). eexists. split; [done|].
    do 4 (split; [done|]). split; [intros j Hj; simpl; by rewrite set_slot_ne|]. do 2 (split; [done|]). split.
    + intros n Hn _. simpl. rewrite !lookup_insert_ne by lia. done.
    + simpl. rewrite set_slot_eq. split; [done|]. split; [exact Hit|]. exists None. split; [|done]. apply lookup_insert_eq.
Qed.

Lemma insert_collision s B k v i k0 v0 :
  rep s B → String.length v = W → b_head (B (hash_function k)) = Some (i, (k0, v0)) → k0 ≠ k →
  (b_rest (B (hash_function k)) = [] → st_junk s = None) →
  ∃ s', ht_insert k v s = Ok (tt, s') ∧ st_junk s' = st_junk s ∧
    rep s' (upd B (hash_function k) (overflowed s (B (hash_function k)) k v)).
Proof.
  intros Hr Hv Hb Hne Hjunk. set (index := hash_function k). pose proof (hash_range k) as Hidx. fold index in Hidx, Hb.
  destruct (collision_eq s B index k v (i, (k0, v0)) Hr Hv Hidx Hb Hjunk)
    as (s' & Hrun & Hj' & Ht & Hsz & Hco & Hov & Hi & Hn & Hno & Hc).
  set (s1 := with_item k v s). assert (Hr1 : rep s1 B) by by apply rep_with_item.
  destruct (bk_head _ _ _ (rp_bucket _ _ Hr1 index) _ _ Hb) as [Hi0 _].
  exists s'. split; [|split; [done|]].
  - unfold ht_insert. rewrite (bind_Ok _ _ _ _ _ (create_item_eq k v s)). fold s1 index.
    rewrite (bind_Ok _ _ _ _ _ (item_at_eq s1 B index Hr1 Hidx)), Hb. cbn [fmap option_fmap option_map fst].
    rewrite (bind_Ok _ _ _ _ _ (load_item_eq _ _ _ Hi0)). cbn [key fst].
    rewrite decide_False by (by rewrite strcmp_eq). exact Hrun.
  - destruct (kept_sub (b_rest (B index))) as [tl Htl].
    apply (rep_update s s' B index); [done|done| |..].
    + eapply overflowed_ok; [apply (rp_bucket _ _ Hr)|done|done|exact Hb|by rewrite Ht|done|done|done].
    + intros j Hj. by rewrite Ht, Hov.
    + intros j Hj _. rewrite Hi. simpl. rewrite lookup_insert_ne by lia. done.
    + done.
    + intros j. unfold item_ids, overflowed. simpl. rewrite Hb, fmap_app. rewrite Htl at 2. rewrite fmap_app. set_solver by lia.
    + intros j. unfold node_ids, overflowed. simpl. rewrite fmap_app. rewrite Htl at 2. rewrite fmap_app. set_solver by lia.
    + lia.
    + done.
    + rewrite Hco, Ht. apply (rp_count _ _ Hr).
Qed.

(** ** ht_delete *)
Definition drop_item (i : nat) (s : store) : store := set_st_items (delete i (st_items s)) s.
Definition drop_cell (c : cell) (s : store) : store :=
  set_st_nodes (delete (c_node c) (st_nodes s)) (drop_item (c_item c) s).
Definition drop_cells (l : list cell) (s : store) : store := foldl (λ s c, drop_cell c s) s l.

Lemma free_item_eq s i x : st_items s !! i = Some x → free_item i s = Ok (tt, drop_item i s).
Proof. intros H. unfold free_item. by rewrite (bind_Ok _ _ _ _ _ (load_item_eq _ _ _ H)). Qed.

Lemma free_list_eq l : ∀ fuel p s,
  chain s p l → NoDup (c_node <$> l) → NoDup (c_item <$> l) → (length l <= fuel)%nat →
  free_list fuel p s = Ok (tt, drop_cells l s).
Proof.
  induction l as [|c l IH]; intros fuel p s Hc Hn Hi Hf; [simpl in Hc; subst p; by destruct fuel|].
  destruct fuel as [|fuel]; [simpl in Hf; lia|]. destruct Hc as (-> & [Hit _] & nx & Hnx & Hc). cbn [free_list].
  rewrite (bind_Ok _ _ _ _ _ (load_node_eq _ _ _ Hnx)). cbn [item next deref of_option]. rewrite bind_ret.
  rewrite (bind_Ok _ _ _ _ _ (free_item_eq _ _ _ Hit)).
  change ((modify _ ≫= ?g) _) with (g tt (drop_cell c s)). cbv beta. simpl drop_cells.
  rewrite fmap_cons in Hn, Hi. apply NoDup_cons in Hn as [Hn1 Hn]. apply NoDup_cons in Hi as [Hi1 Hi].
  apply IH; [|done|done|simpl in Hf; lia]. eapply chain_frame, Hc. intros c' Hc'. unfold drop_cell, drop_item. simpl.
  rewrite !lookup_delete_ne; [done| |].
  - intros He. apply Hn1. rewrite He. apply list_elem_of_fmap. by exists c'.
  - intros He. apply Hi1. rewrite He. apply list_elem_of_fmap. by exists c'.
Qed.

Lemma drop_cells_frame l : ∀ s,
  st_table (drop_cells l s) = st_table s ∧ st_next (drop_cells l s) = st_next s ∧ st_junk (drop_cells l s) = st_junk s ∧
  (∀ i, i ∉ c_item <$> l → st_items (drop_cells l s) !! i = st_items s !! i) ∧
  (∀ n, n ∉ c_node <$> l → st_nodes (drop_cells l s) !! n = st_nodes s !! n).
Proof.
  induction l as [|c l IH]; intros s; [done|]. simpl drop_cells. destruct (IH (drop_cell c s)) as (H1 & H2 & H3 & H4 & H5).
  rewrite H1, H2, H3. do 3 (split; [done|]). split.
  - intros i Hi. rewrite fmap_cons, not_elem_of_cons in Hi. destruct Hi as [Hne Hi]. rewrite H4 by done.
    unfold drop_cell, drop_item. simpl. by rewrite lookup_delete_ne.
  - intros n Hn. rewrite fmap_cons, not_elem_of_cons in Hn. destruct Hn as [Hne Hn]. rewrite H5 by done.
    unfold drop_cell, drop_item. simpl. by rewrite lookup_delete_ne.
Qed.

Lemma free_linkedlist_eq s p l :
  chain s p l → NoDup (c_node <$> l) → NoDup (c_item <$> l) → free_linkedlist p s = Ok (tt, drop_cells l s).
Proof.
  intros Hc Hn Hi. unfold free_linkedlist. change ((gets st_nodes ≫= ?g) s) with (g (st_nodes s) s). cbv beta.
  apply free_list_eq; [done..|]. pose proof (chain_size _ _ _ Hc Hn). lia.
Qed.

(** Deleting the only name of a bucket. *)
Lemma delete_only s B k i v :
  rep s B → b_head (B (hash_function k)) = Some (i, (k, v)) → b_rest (B (hash_function k)) = [] →
  ∃ s', ht_delete k s = Ok (tt, s') ∧ st_junk s' = st_junk s ∧ rep s' (upd B (hash_function k) empty_bucket).
Proof.
  intros Hr Hb Hrest. set (index := hash_function k). pose proof (hash_range k) as Hidx. fold index in Hidx, Hb, Hrest.
  pose proof (rp_bucket _ _ Hr index) as Hbk. destruct (bk_head _ _ _ Hbk _ _ Hb) as [Hi _].
  pose proof (bk_chain _ _ _ Hbk) as Hc. rewrite Hrest in Hc. simpl in Hc.
  set (t1 := item_slot index None (st_table s)). set (s1 := with_table t1 s).
  set (s2 := with_table (mk_table (items t1) (overflow_buckets t1) (size t1) (count t1 + -1)) (drop_item i s1)).
  exists s2. split; [|split; [done|]].
  - unfold ht_delete. fold index. rewrite (bind_Ok _ _ _ _ _ (item_at_eq _ _ _ Hr Hidx)), Hb.
    rewrite (bind_Ok _ _ _ _ _ (bucket_at_eq _ _ _ Hr Hidx)), Hc. cbn [fmap option_fmap option_map fst].
    rewrite (bind_Ok _ _ _ _ _ (load_item_eq _ _ _ Hi)). cbn [key fst]. rewrite decide_True by (by apply strcmp_eq).
    rewrite (bind_Ok _ _ _ _ _ (set_item_at_eq s index None (rp_size _ _ Hr) Hidx)).
    by rewrite (bind_Ok _ _ _ _ _ (free_item_eq s1 _ _ Hi)).
  - apply (rep_update s s2 B index); [done|done| |..].
    + split; simpl; try done; [by rewrite set_slot_eq| | | |].
      * intros k' Hk'. by apply not_elem_of_nil in Hk'.
      * constructor.
      * constructor.
      * intros x [Hx|Hx]; by apply not_elem_of_nil in Hx.
    + intros j Hj. split; [|done]. simpl. by rewrite set_slot_ne.
    + intros j Hj Hn. simpl. rewrite lookup_delete_ne; [done|]. intros ->. apply Hn. unfold item_ids. rewrite Hb. left.
    + done.
    + intros j Hj. by apply not_elem_of_nil in Hj.
    + intros j Hj. by apply not_elem_of_nil in Hj.
    + done.
    + done.
    + simpl. rewrite (rp_count _ _ Hr). unfold set_slot.
      change (partial_alter (λ _, None) index (items (st_table s))) with (delete index (items (st_table s))).
      assert (Hsome : items (st_table s) !! index = Some i) by (by rewrite (bk_item _ _ _ Hbk), Hb).
      rewrite map_size_delete_Some by (by eexists).
      assert (base.size (items (st_table s)) ≠ 0%nat).
      { intros Hz%map_size_empty_inv. rewrite Hz, lookup_empty in Hsome. done. }
      lia.
Qed.

(** Deleting the first name of a bucket with an overflow list: the binding of the
    list's first node [c] moves into the table, the node and both old items are
    freed, and [nx] is the new list. *)
Definition moved_front (index : Z) (i : nat) (c : cell) (nx : option nat) (s : store) : store :=
  let s2 := with_item (c_key c) (c_val c) (with_node (c_node c) (mk_node (Some (c_item c)) None) (drop_item i s)) in
  let s3 := drop_cells [c] (with_table (item_slot index (Some (st_next s)) (st_table s)) s2) in
  with_table (bucket_slot index nx (st_table s3)) s3.

Lemma delete_front_eq s B k i v c l nx :
  rep s B → let index := hash_function k in
  b_head (B index) = Some (i, (k, v)) → b_rest (B index) = c :: l →
  st_nodes s !! c_node c = Some (mk_node (Some (c_item c)) nx) →
  ht_delete k s = Ok (tt, moved_front index i c nx s).
Proof.
  intros Hr index Hb Hrest Hnx. pose proof (hash_range k) as Hidx. fold index in Hidx.
  pose proof (rp_bucket _ _ Hr index) as Hbk. destruct (bk_head _ _ _ Hbk _ _ Hb) as [Hi _].
  pose proof (bk_chain _ _ _ Hbk) as Hc. pose proof (bk_items _ _ _ Hbk) as Hni. unfold item_ids in Hni.
  rewrite Hb in Hni. rewrite Hrest in Hc, Hni. destruct Hc as (Hh & [Hci Hcl] & _).
  rewrite fmap_cons in Hni. apply NoDup_cons in Hni as [[Hic _]%not_elem_of_cons _].
  set (s1 := drop_item i s). set (s2 := with_node (c_node c) (mk_node (Some (c_item c)) None) s1).
  set (s3 := with_item (c_key c) (c_val c) s2).
  set (s4 := with_table (item_slot index (Some (st_next s)) (st_table s)) s3).
  assert (Hlt : (c_item c < st_next s)%nat).
  { apply (bk_fresh _ _ _ Hbk). left. unfold item_ids. rewrite Hb, Hrest. right. left. }
  assert (Hci1 : st_items s2 !! c_item c = Some (mk_item (c_key c) (c_val c) (S W))) by (simpl; by rewrite lookup_delete_ne).
  assert (Hc4 : chain s4 (Some (c_node c)) [c]).
  { split; [done|]. split.
    - split; [|done]. simpl. rewrite lookup_insert_ne by lia. by rewrite lookup_delete_ne.
    - exists None. split; [apply lookup_insert_eq|done]. }
  unfold ht_delete. fold index. rewrite (bind_Ok _ _ _ _ _ (item_at_eq _ _ _ Hr Hidx)), Hb.
  rewrite (bind_Ok _ _ _ _ _ (bucket_at_eq _ _ _ Hr Hidx)), Hh. cbn [fmap option_fmap option_map fst].
  rewrite (bind_Ok _ _ _ _ _ (load_item_eq _ _ _ Hi)). cbn [key fst]. rewrite decide_True by (by apply strcmp_eq).
  rewrite (bind_Ok _ _ _ _ _ (free_item_eq _ _ _ Hi)). fold s1.
  rewrite (bind_Ok _ _ _ _ _ (load_node_eq s1 _ _ Hnx)). cbn [item next].
  change ((store_node _ _ ≫= ?g) s1) with (g tt s2). cbv beta. cbn [deref of_option]. rewrite bind_ret.
  rewrite (bind_Ok _ _ _ _ _ (load_item_eq _ _ _ Hci1)). cbn [key value].
  rewrite (bind_Ok _ _ _ _ _ (create_item_eq _ _ s2)). fold s3.
  rewrite (bind_Ok _ _ _ _ _ (set_item_at_eq s3 index _ (rp_size _ _ Hr) Hidx)). change (with_table _ s3) with s4.
  rewrite (bind_Ok _ _ _ _ _ (free_linkedlist_eq s4 _ [c] Hc4 ltac:(apply NoDup_singleton) ltac:(apply NoDup_singleton))).
  by rewrite (set_bucket_at_eq (drop_cells [c] s4) index nx (rp_size _ _ Hr) Hidx).
Qed.

(** The bucket that is left is represented. *)
Lemma moved_front_bucket s index b i kv c l nx :
  bucket_ok s index b → b_head b = Some (i, kv) → b_rest b = c :: l →
  st_nodes s !! c_node c = Some (mk_node (Some (c_item c)) nx) → chain s nx l → String.length (c_val c) = W →
  bucket_ok (moved_front index i c nx s) index (mk_bucket (Some (st_next s, cell_kv c)) l).
Proof.
  intros [_ _ _ _ Hkeys Hni Hnn Hfresh] Hb Hrest Hnx Hc Hcl. unfold item_ids, node_ids, kvs in *.
  rewrite Hb, Hrest, ?fmap_cons in *. apply NoDup_cons in Hni as [[Hic Hi1]%not_elem_of_cons Hni].
  apply NoDup_cons in Hni as [Hi2 Hni]. apply NoDup_cons in Hnn as [Hn1 Hnn].
  assert (Hlt : ∀ x, x ∈ c_item c :: (c_item <$> l) ∨ x ∈ c_node c :: (c_node <$> l) → (x < st_next s)%nat).
  { intros x [Hx|Hx]; apply Hfresh; [left; by right|by right]. }
  unfold moved_front. split; simpl.
  - by rewrite set_slot_eq.
  - intros j kv' [= <- <-]. split; [|done]. simpl.
    rewrite lookup_delete_ne by (specialize (Hlt (c_item c) ltac:(left; left)); lia). rewrite lookup_insert_eq. by rewrite Hcl.
  - rewrite set_slot_eq. eapply chain_frame, Hc. intros c' Hc'. simpl.
    assert (Hit : c_item c' ∈ c_item <$> l) by (apply list_elem_of_fmap; by exists c').
    assert (Hno : c_node c' ∈ c_node <$> l) by (apply list_elem_of_fmap; by exists c').
    specialize (Hlt (c_item c') ltac:(left; by right)). rewrite (lookup_delete_ne _ (c_item c)) by congruence.
    rewrite lookup_insert_ne by lia. rewrite lookup_delete_ne by congruence.
    rewrite lookup_delete_ne by congruence. by rewrite lookup_insert_ne by congruence.
  - done.
  - intros k' Hk'. apply Hkeys. simpl. by right.
  - apply NoDup_cons. split; [|done]. intros Hin. specialize (Hlt (st_next s) ltac:(left; by right)). lia.
  - done.
  - intros x [[->|Hx]%elem_of_cons|Hx]; [lia| |].
    + specialize (Hlt x ltac:(left; by right)). lia.
    + specialize (Hlt x ltac:(right; by right)). lia.
Qed.

Lemma delete_front s B k i v c l :
  rep s B → b_head (B (hash_function k)) = Some (i, (k, v)) → b_rest (B (hash_function k)) = c :: l →
  ∃ s', ht_delete k s = Ok (tt, s') ∧ st_junk s' = st_junk s ∧
    rep s' (upd B (hash_function k) (mk_bucket (Some (st_next s, cell_kv c)) l)).
Proof.
  intros Hr Hb Hrest. set (index := hash_function k) in *. pose proof (hash_range k) as Hidx. fold index in Hidx.
  pose proof (rp_bucket _ _ Hr index) as Hbk. pose proof (bk_chain _ _ _ Hbk) as Hc.
  rewrite Hrest in Hc. destruct Hc as (_ & [_ Hcl] & nx & Hnx & Hc).
  exists (moved_front index i c nx s). split; [by eapply delete_front_eq|split; [done|]].
  apply (rep_update s _ B index); [done|done|by eapply moved_front_bucket| | | | | |simpl; lia|done|].
  - intros j Hj. simpl. by rewrite !set_slot_ne.
  - intros j Hj Hn. unfold item_ids in Hn. rewrite Hb, Hrest, fmap_cons in Hn. simpl.
    rewrite lookup_delete_ne by set_solver. rewrite lookup_insert_ne by lia. rewrite lookup_delete_ne by set_solver. done.
  - intros n Hn Hn'. unfold node_ids in Hn'. rewrite Hrest, fmap_cons in Hn'. simpl.
    rewrite lookup_delete_ne by set_solver. rewrite lookup_insert_ne by set_solver. done.
  - intros j. unfold item_ids. simpl. rewrite Hb, Hrest, fmap_cons. intros [->|Hj]%elem_of_cons; [right; lia|left; set_solver].
  - intros j. unfold node_ids. simpl. rewrite Hrest, fmap_cons. intros Hj. left. by right.
  - simpl. rewrite (rp_count _ _ Hr). unfold set_slot.
    change (partial_alter (λ _, Some (st_next s)) index (items (st_table s))) with (<[index := st_next s]> (items (st_table s))).
    rewrite map_size_insert_Some; [done|]. exists i. by rewrite (bk_item _ _ _ Hbk), Hb.
Qed.

Lemma ht_delete_loop_absent s k index head l : ∀ fuel p prev,
  chain s p l → k ∉ c_key <$> l → (length l <= fuel)%nat → ht_delete_loop fuel index head p prev k s = Ok (tt, s).
Proof.
  induction l as [|c l IH]; intros fuel p prev Hc Hk Hf; [simpl in Hc; subst p; by destruct fuel|].
  destruct fuel as [|fuel]; [simpl in Hf; lia|]. destruct Hc as (-> & [Hi _] & nx & Hn & Hc). cbn [ht_delete_loop].
  rewrite fmap_cons, not_elem_of_cons in Hk. destruct Hk as [Hne Hk].
  rewrite (bind_Ok _ _ _ _ _ (load_node_eq _ _ _ Hn)). cbn [item next deref of_option]. rewrite bind_ret.
  rewrite (bind_Ok _ _ _ _ _ (load_item_eq _ _ _ Hi)). cbn [key fst cell_kv].
  rewrite decide_False by (rewrite strcmp_eq; congruence). apply IH; [done|done|simpl in Hf; lia].
Qed.

(** A name that the bucket does not have. *)
Lemma delete_absent s B k : rep s B → k ∉ (kvs (B (hash_function k))).*1 → ht_delete k s = Ok (tt, s).
Proof.
  intros Hr Hk. set (index := hash_function k) in *. pose proof (hash_range k) as Hidx. fold index in Hidx.
  pose proof (rp_bucket _ _ Hr index) as Hbk. unfold ht_delete. fold index.
  rewrite (bind_Ok _ _ _ _ _ (item_at_eq _ _ _ Hr Hidx)), (bind_Ok _ _ _ _ _ (bucket_at_eq _ _ _ Hr Hidx)).
  unfold kvs in Hk. destruct (b_head (B index)) as [[i [k0 v0]]|] eqn:Hb; cbn [fmap option_fmap option_map fst]; [|done].
  destruct (bk_head _ _ _ Hbk _ _ Hb) as [Hi _]. rewrite (bind_Ok _ _ _ _ _ (load_item_eq _ _ _ Hi)). cbn [key fst].
  rewrite fmap_cons, not_elem_of_cons in Hk. destruct Hk as [Hne Hk]. cbn [fst] in Hne.
  assert (Hcmp : ¬ (strcmp k0 k = 0)) by (rewrite strcmp_eq; congruence).
  destruct (overflow_buckets (st_table s) !! index) as [h|] eqn:Hh; rewrite (decide_False (P := strcmp k0 k = 0)) by done; [|done].
  change ((gets st_nodes ≫= ?g) s) with (g (st_nodes s) s). cbv beta.
  pose proof (bk_chain _ _ _ Hbk) as Hc. rewrite Hh in Hc.
  eapply ht_delete_loop_absent; [exact Hc| |pose proof (chain_size _ _ _ Hc (bk_nodes _ _ _ Hbk)); lia].
  intros Hin. apply Hk. rewrite <- list_fmap_compose. exact Hin.
Qed.

(** The first node of an overflow list: the whole list goes. *)
Lemma delete_second s B k i kv0 c l :
  rep s B → b_head (B (hash_function k)) = Some (i, kv0) → kv0.1 ≠ k → b_rest (B (hash_function k)) = c :: l → c_key c = k →
  ∃ s', ht_delete k s = Ok (tt, s') ∧ st_junk s' = st_junk s ∧
    rep s' (upd B (hash_function k) (mk_bucket (Some (i, kv0)) [])).
Proof.
  intros Hr Hb Hne Hrest Hck. set (index := hash_function k) in *. pose proof (hash_range k) as Hidx. fold index in Hidx.
  pose proof (rp_bucket _ _ Hr index) as Hbk. destruct (bk_head _ _ _ Hbk _ _ Hb) as [Hi Hl].
  pose proof (bk_chain _ _ _ Hbk) as Hc. pose proof (bk_items _ _ _ Hbk) as Hni. pose proof (bk_nodes _ _ _ Hbk) as Hnn.
  unfold item_ids in Hni. rewrite Hb in Hni. apply NoDup_cons in Hni as [Hi1 Hni].
  destruct (drop_cells_frame (b_rest (B index)) s) as (Ht & Hnext & Hj & Hit & Hno).
  set (s1 := drop_cells (b_rest (B index)) s) in *.
  set (s2 := with_table (bucket_slot index None (st_table s1)) s1).
  exists s2. split; [|split; [done|]].
  - unfold ht_delete. fold index. rewrite (bind_Ok _ _ _ _ _ (item_at_eq _ _ _ Hr Hidx)), Hb.
    rewrite (bind_Ok _ _ _ _ _ (bucket_at_eq _ _ _ Hr Hidx)). cbn [fmap option_fmap option_map fst].
    rewrite (bind_Ok _ _ _ _ _ (load_item_eq _ _ _ Hi)). cbn [key].
    pose proof Hc as Hc'. rewrite Hrest in Hc'. destruct Hc' as (Hh & [Hci _] & nx & Hnx & _). rewrite Hh.
    rewrite (decide_False (P := strcmp kv0.1 k = 0)) by (by rewrite strcmp_eq).
    change ((gets st_nodes ≫= ?g) s) with (g (st_nodes s) s). cbv beta. cbn [ht_delete_loop].
    rewrite (bind_Ok _ _ _ _ _ (load_node_eq _ _ _ Hnx)). cbn [item next deref of_option]. rewrite bind_ret.
    rewrite (bind_Ok _ _ _ _ _ (load_item_eq _ _ _ Hci)). cbn [key fst cell_kv].
    rewrite decide_True by (by apply strcmp_eq). rewrite <- Hh.
    rewrite (bind_Ok _ _ _ _ _ (free_linkedlist_eq s _ _ Hc Hnn Hni)). fold s1.
    assert (Hsz : size (st_table s1) = CAPACITY) by (rewrite Ht; apply (rp_size _ _ Hr)).
    by rewrite (set_bucket_at_eq s1 index None Hsz Hidx).
  - apply (rep_update s s2 B index); [done|done| |..].
    + split; simpl; try done.
      * by rewrite Ht, (bk_item _ _ _ Hbk), Hb.
      * intros j kv [= <- <-]. split; [|done]. simpl. by rewrite Hit.
      * by rewrite set_slot_eq.
      * intros k' Hk'%list_elem_of_singleton. apply (bk_keys _ _ _ Hbk). unfold kvs. rewrite Hb, Hk'. left.
      * apply NoDup_singleton.
      * constructor.
      * rewrite Hnext. intros x [->%list_elem_of_singleton|Hx]; [|by apply not_elem_of_nil in Hx].
        apply (bk_fresh _ _ _ Hbk). left. unfold item_ids. rewrite Hb. left.
    + intros j Hj'. simpl. by rewrite Ht, set_slot_ne.
    + intros j Hj' Hn. simpl. apply Hit. intros Hin. apply Hn. unfold item_ids. rewrite Hb. by right.
    + intros n Hn Hn'. simpl. by apply Hno.
    + intros j. unfold item_ids. simpl. rewrite Hb. intros ->%list_elem_of_singleton. left. left.
    + intros j Hj'. by apply not_elem_of_nil in Hj'.
    + simpl. by rewrite Hnext.
    + simpl. by rewrite Ht.
    + simpl. rewrite Ht. apply (rp_count _ _ Hr).
Qed.
End rep.
