(* ===== verification/HashTableTheorems.v ===== *)
(** * The hash table as a map from names to blob ids

    When it is one, and the names it loses when more than three share a bucket or
    one is deleted from an overflow list (NBFS2/hash_table.h). *)
From stdpp Require Import gmap.
From S2P Require Import Prelude HashTable HashTableProofs.
Local Open Scope Z_scope.

(** ** Bindings of a bucket *)
Lemma assoc_None l k : assoc l k = None ↔ k ∉ l.*1.
Proof.
  induction l as [|[k0 v0] l IH]; simpl; [split; [set_solver|done]|]. case_decide as Hd.
  - subst. split; [done|]. intros H. exfalso. apply H. left.
  - rewrite IH. set_solver.
Qed.
Lemma assoc_app l l' k : assoc (l ++ l') k = match assoc l k with Some v => Some v | None => assoc l' k end.
Proof. induction l as [|[k0 v0] l IH]; simpl; [done|]. case_decide; [done|apply IH]. Qed.

Lemma bucket_insert_assoc l k v k' :
  k ∉ (tail l).*1 → ((∃ v0, head l = Some (k, v0)) ∨ (length l <= 2)%nat) →
  assoc (bucket_insert l k v) k' = if decide (k' = k) then Some v else assoc l k'.
Proof.
  intros Hk Hlen. destruct l as [|[k0 v0] rest]; simpl in *; [repeat case_decide; naive_solver|].
  case_decide as Hd; [subst; simpl; repeat case_decide; naive_solver|].
  assert (chain_insert rest (k, v) = rest ++ [(k, v)]) as ->.
  { destruct Hlen as [[? [= ? ?]]|Hlen]; [done|]. by destruct rest as [|x [|y rest]]; [| |simpl in Hlen; lia]. }
  simpl. rewrite assoc_app. simpl. destruct (decide (k' = k)) as [->|Hne].
  - rewrite decide_False by done. rewrite (proj2 (assoc_None rest k) Hk). by rewrite decide_True.
  - rewrite (decide_False (P := k = k')) by done. case_decide; [done|]. by destruct (assoc rest k').
Qed.

(** The buckets [B'] are [B] with [l] in the bucket of [k]. *)
Lemma found_update (B B' : Z → bucket) k k' :
  (∀ j, j ≠ hash_function k → B' j = B j) → hash_function k' ≠ hash_function k → found B' k' = found B k'.
Proof. intros H Hne. unfold found. by rewrite H. Qed.

Lemma found_outside W s B k k' :
  rep W s B → hash_function k' ≠ hash_function k → assoc (kvs (B (hash_function k))) k' = None.
Proof.
  intros Hr Hne. apply assoc_None. intros Hin. apply Hne. by apply (bk_keys _ _ _ _ (rp_bucket _ _ _ Hr _)).
Qed.

(** A new list node has whatever [next] memory held.  It matters for the second name of a
    bucket only: handle_collision does not set it, linkedlist_insert does. *)
Definition junk_safe (s : store) (l : list (string * string)) (k : string) : Prop :=
  st_junk s = None ∨ length l ≠ 1%nat ∨ ∃ v0, head l = Some (k, v0).

Lemma insert_eq W s B k v :
  rep W s B → String.length v = W → junk_safe s (kvs (B (hash_function k))) k →
  ∃ s' B', ht_insert k v s = Ok (tt, s') ∧ st_junk s' = st_junk s ∧ rep W s' B' ∧
    kvs (B' (hash_function k)) = bucket_insert (kvs (B (hash_function k))) k v ∧
    (∀ j, j ≠ hash_function k → B' j = B j).
Proof.
  intros Hr Hv Hj. set (index := hash_function k).
  assert (Hupd : ∀ b j, j ≠ index → upd B index b j = B j) by (intros b j Hne; unfold upd; by rewrite decide_False).
  assert (Hat : ∀ b, upd B index b index = b) by (intros b; unfold upd; by rewrite decide_True).
  destruct (b_head (B index)) as [[i [k0 v0]]|] eqn:Hb.
  - destruct (decide (k0 = k)) as [->|Hne].
    + destruct (insert_update W s B k v i v0 Hr Hv Hb) as (s' & Hrun & Hj' & Hr').
      eexists s', _. split; [done|]. split; [congruence|]. split; [exact Hr'|]. split; [|apply Hupd].
      rewrite Hat. unfold kvs. simpl. rewrite Hb. simpl. by rewrite decide_True.
    + assert (Hj1 : b_rest (B index) = [] → st_junk s = None).
      { intros Hrest. destruct Hj as [?|[Hl|[v1 Hl]]]; [done|exfalso..]; unfold kvs in Hl; fold index in Hl; rewrite Hb in Hl.
        - by rewrite Hrest in Hl.
        - by injection Hl. }
      destruct (insert_collision W s B k v i k0 v0 Hr Hv Hb Hne Hj1) as (s' & Hrun & Hj' & Hr').
      eexists s', _. split; [done|]. split; [done|]. split; [exact Hr'|]. split; [|apply Hupd].
      rewrite Hat. unfold kvs, overflowed. cbn [b_head b_rest]. fold index. rewrite Hb. cbn [bucket_insert].
      rewrite decide_False by done. f_equal. apply kept_kvs.
  - destruct (insert_first W s B k v Hr Hv Hb) as (s' & Hrun & Hj' & Hr').
    eexists s', _. split; [done|]. split; [congruence|]. split; [exact Hr'|]. split; [|apply Hupd].
    rewrite Hat. unfold kvs. simpl. by rewrite Hb.
Qed.

Lemma insert_found W s B k v :
  let l := kvs (B (hash_function k)) in
  rep W s B → String.length v = W → junk_safe s l k →
  k ∉ (tail l).*1 → ((∃ v0, head l = Some (k, v0)) ∨ (length l <= 2)%nat) →
  ∃ s' B', ht_insert k v s = Ok (tt, s') ∧ st_junk s' = st_junk s ∧ rep W s' B' ∧ (∀ j, j ≠ hash_function k → B' j = B j) ∧
    ∀ k', found B' k' = if decide (k' = k) then Some v else found B k'.
Proof.
  intros l Hr Hv Hj Hk Hlen. destruct (insert_eq W s B k v Hr Hv Hj) as (s' & B' & Hrun & Hj' & Hr' & Hkvs & Hother).
  exists s', B'. do 4 (split; [done|]). intros k'.
  destruct (decide (hash_function k' = hash_function k)) as [Hh|Hh].
  - unfold found. by rewrite Hh, Hkvs, (bucket_insert_assoc _ _ _ _ Hk Hlen).
  - rewrite (found_update B B' k k' Hother Hh). rewrite decide_False by (by intros ->). done.
Qed.


(** Deletion of a name that its bucket starts with, or does not have: the name is
    not found afterwards and every other name as before. *)
Theorem ht_delete_correct W s B k :
  rep W s B → let l := kvs (B (hash_function k)) in NoDup l.*1 → k ∉ (tail l).*1 →
  ∃ s' B', ht_delete k s = Ok (tt, s') ∧ rep W s' B' ∧
    ∀ k', ht_search k' s' = Ok (if decide (k' = k) then None else found B k', s').
Proof.
  intros Hr l Hnd Hk. set (index := hash_function k) in *.
  assert (Hgo : ∀ s' b, rep W s' (upd B index b) → (∀ k', assoc (kvs b) k' = if decide (k' = k) then None else assoc l k') →
    ∀ k', ht_search k' s' = Ok (if decide (k' = k) then None else found B k', s')).
  { intros s' b Hr' Hb k'. rewrite (search_eq W s' _ k' Hr'). unfold found, upd.
    destruct (decide (hash_function k' = index)) as [Hh|Hh]; [rewrite Hb; by rewrite Hh|].
    rewrite decide_False by (by intros ->). done. }
  destruct (b_head (B index)) as [[i [k0 v0]]|] eqn:Hb.
  - assert (Hl : l = (k0, v0) :: (cell_kv <$> b_rest (B index))) by (unfold l, kvs; by rewrite Hb).
    destruct (decide (k0 = k)) as [->|Hne].
    + destruct (b_rest (B index)) as [|c rest] eqn:Hrest.
      * destruct (delete_only W s B k i v0 Hr Hb Hrest) as (s' & Hrun & _ & Hr').
        eexists s', _. split; [done|]. split; [exact Hr'|]. eapply Hgo; [exact Hr'|]. intros k'. rewrite Hl. simpl.
        repeat case_decide; naive_solver.
      * destruct (delete_front W s B k i v0 c rest Hr Hb Hrest) as (s' & Hrun & _ & Hr').
        eexists s', _. split; [done|]. split; [exact Hr'|]. eapply Hgo; [exact Hr'|]. intros k'.
        change (kvs (mk_bucket (Some (st_next s, cell_kv c)) rest)) with (cell_kv <$> c :: rest). rewrite Hl in *.
        destruct (decide (k' = k)) as [->|Hk']; [by apply assoc_None|]. cbn [assoc]. by rewrite decide_False.
    + assert (Habs : k ∉ (kvs (B index)).*1).
      { fold l. rewrite Hl in Hk |- *. rewrite fmap_cons, not_elem_of_cons. split; [cbn; congruence|exact Hk]. }
      exists s, B. split; [by apply (delete_absent W s B k Hr)|]. split; [done|]. intros k'.
      rewrite (search_eq W s B k' Hr). destruct (decide (k' = k)) as [->|]; [|done].
      unfold found. fold index. by rewrite (proj2 (assoc_None _ _) Habs).
  - assert (Habs : k ∉ (kvs (B index)).*1) by (unfold kvs; rewrite Hb; apply not_elem_of_nil).
    exists s, B. split; [by apply (delete_absent W s B k Hr)|]. split; [done|]. intros k'.
    rewrite (search_eq W s B k' Hr). destruct (decide (k' = k)) as [->|]; [|done].
    unfold found. fold index. by rewrite (proj2 (assoc_None _ _) Habs).
Qed.

(** C36. A fourth name in a bucket takes the place of the third: ht_insert unlinks the
    last node of an overflow list of two or more, and the name it held is not found
    any more. *)
Theorem insertion_loses_name W s B k v k0 v0 k1 v1 mid z vz :
  rep W s B → String.length v = W →
  kvs (B (hash_function k)) = (k0, v0) :: (k1, v1) :: mid ++ [(z, vz)] →
  NoDup (k :: (kvs (B (hash_function k))).*1) →
  ∃ s', ht_insert k v s = Ok (tt, s') ∧ found B z = Some vz ∧ ht_search z s' = Ok (None, s').
Proof.
  intros Hr Hv Hl Hnd.
  assert (Hj : junk_safe s (kvs (B (hash_function k))) k) by (right; left; by rewrite Hl).
  destruct (insert_eq W s B k v Hr Hv Hj) as (s' & B' & Hrun & _ & Hr' & Hkvs & Hother).
  assert (Hz : hash_function z = hash_function k).
  { apply (bk_keys _ _ _ _ (rp_bucket _ _ _ Hr _)). rewrite Hl. simpl. rewrite fmap_app. set_solver. }
  exists s'. split; [done|]. rewrite Hl in *. simpl in Hnd. rewrite fmap_app in Hnd. simpl in Hnd.
  assert (Hn : k ≠ k0 ∧ k ≠ z ∧ k0 ≠ z ∧ k1 ≠ z ∧ z ∉ mid.*1).
  { apply NoDup_cons in Hnd as [Ha Hnd]. apply NoDup_cons in Hnd as [Hb Hnd]. apply NoDup_cons in Hnd as [Hc Hnd].
    apply NoDup_app in Hnd as (_ & Hd & _). specialize (Hd z). set_solver. }
  destruct Hn as (H1 & H2 & H3 & H4 & H5). split.
  - unfold found. rewrite Hz, Hl. simpl. rewrite !decide_False by done. rewrite assoc_app.
    rewrite (proj2 (assoc_None mid z) H5). simpl. by rewrite decide_True.
  - rewrite (search_eq W s' B' z Hr'). unfold found. rewrite Hz, Hkvs. cbn [bucket_insert]. rewrite decide_False by done.
    assert (chain_insert ((k1, v1) :: mid ++ [(z, vz)]) (k, v) = ((k1, v1) :: mid) ++ [(k, v)]) as ->.
    { assert (∃ x l, mid ++ [(z, vz)] = x :: l) as (x & l & Hx) by (destruct mid; simpl; eauto).
      unfold chain_insert. rewrite Hx, <- Hx. f_equal. change ((k1, v1) :: mid ++ [(z, vz)]) with (((k1, v1) :: mid) ++ [(z, vz)]).
      apply removelast_last. }
    cbn [assoc]. rewrite decide_False by done. simpl. rewrite decide_False by done. rewrite assoc_app.
    rewrite (proj2 (assoc_None mid z) H5). simpl. by rewrite decide_False.
Qed.

(** C37. Deleting the name in the first node of an overflow list frees the whole list:
    no name of the list is found any more. *)
Theorem deletion_loses_names W s B k v k0 v0 rest :
  rep W s B → kvs (B (hash_function k)) = (k0, v0) :: (k, v) :: rest → k0 ≠ k →
  ∃ s', ht_delete k s = Ok (tt, s') ∧
    ∀ k', k' ∈ rest.*1 → k' ≠ k0 → is_Some (found B k') ∧ ht_search k' s' = Ok (None, s').
Proof.
  intros Hr Hl Hne. set (index := hash_function k) in *. pose proof Hl as Hkvs.
  destruct (b_head (B index)) as [[i kv0]|] eqn:Hb; [|unfold kvs in Hl; by rewrite Hb in Hl].
  unfold kvs in Hl. rewrite Hb in Hl. injection Hl as -> Hl.
  destruct (b_rest (B index)) as [|c l] eqn:Hrest; [done|]. rewrite fmap_cons in Hl. injection Hl as Hck _ Hl.
  destruct (delete_second W s B k i (k0, v0) c l Hr Hb Hne Hrest Hck) as (s' & Hrun & _ & Hr').
  exists s'. split; [done|]. intros k' Hk' Hne'.
  assert (Hin : k' ∈ (kvs (B index)).*1) by (rewrite Hkvs, !fmap_cons; by do 2 right).
  assert (Hh : hash_function k' = index) by (by apply (bk_keys _ _ _ _ (rp_bucket _ _ _ Hr index))). split.
  - unfold found. rewrite Hh. destruct (assoc (kvs (B index)) k') eqn:Ha; [by eexists|]. by apply assoc_None in Ha.
  - rewrite (search_eq W s' _ k' Hr'). unfold found, upd. rewrite Hh, decide_True by done. simpl. by rewrite decide_False.
Qed.

(** ** Three anagrams *)
Definition anagrams : store :=
  match insert_list [("abc", "1"); ("acb", "2"); ("bac", "3")] (empty_store None) with Ok (_, s) => s | Fault _ => empty_store None end.
Definition anagram_bucket : bucket := mk_bucket (Some (0%nat, ("abc", "1"))) [mk_cell 2 1 "acb" "2"; mk_cell 4 3 "bac" "3"].
Definition anagram_buckets : Z → bucket := upd (λ _, empty_bucket) 294 anagram_bucket.

Lemma empty_table_rep W s : st_table s = mk_table ∅ ∅ CAPACITY 0 → rep W s (λ _, empty_bucket).
Proof.
  intros Hs. split; try done; rewrite ?Hs; try done; [|intros i1 i2 x Hx; by apply not_elem_of_nil in Hx..].
  intros index. split; try done; rewrite ?Hs; try done; [intros k Hk; by apply not_elem_of_nil in Hk|constructor|constructor|].
  intros i [Hi|Hi]; by apply not_elem_of_nil in Hi.
Qed.
Lemma empty_store_rep W : rep W (empty_store None) (λ _, empty_bucket).
Proof. by apply empty_table_rep. Qed.

Lemma anagrams_rep : rep 1 anagrams anagram_buckets.
Proof.
  apply (rep_update 1 (empty_store None) anagrams (λ _, empty_bucket) 294); [apply empty_store_rep|by vm_compute| |..].
  - split; try reflexivity.
    + intros i kv [= <- <-]. split; reflexivity.
    + split; [reflexivity|]. split; [split; reflexivity|]. exists (Some 4%nat). split; [reflexivity|].
      split; [reflexivity|]. split; [split; reflexivity|]. exists None. split; reflexivity.
    + done.
    + intros k Hk. unfold kvs in Hk. simpl in Hk. repeat (apply elem_of_cons in Hk as [->|Hk]; [reflexivity|]).
      by apply not_elem_of_nil in Hk.
    + unfold item_ids. simpl. repeat constructor; set_solver.
    + unfold node_ids. simpl. repeat constructor; set_solver.
    + change (st_next anagrams) with 5%nat. unfold item_ids, node_ids. simpl. set_solver by lia.
  - intros j Hj. change (items (st_table anagrams)) with ({[294 := 0%nat]} : gmap Z nat).
    change (overflow_buckets (st_table anagrams)) with ({[294 := 2%nat]} : gmap Z nat).
    rewrite !lookup_singleton_ne by done. done.
  - intros i Hi. simpl in Hi. lia.
  - intros i Hi. simpl in Hi. lia.
  - intros i _. right. simpl. lia.
  - intros i _. right. simpl. lia.
  - simpl. lia.
  - reflexivity.
  - reflexivity.
Qed.


Lemma ht_delete_correct_witness :
  ∃ s' B', ht_delete "abc" anagrams = Ok (tt, s') ∧ rep 1 s' B' ∧
    ∀ k', ht_search k' s' = Ok (if decide (k' = "abc") then None else found anagram_buckets k', s').
Proof.
  apply (ht_delete_correct 1 anagrams anagram_buckets "abc"); [exact anagrams_rep| |].
  - vm_compute. repeat constructor; set_solver.
  - vm_compute. set_solver.
Defined.

Lemma insertion_loses_name_witness :
  ∃ s', ht_insert "cab" "4" anagrams = Ok (tt, s') ∧ found anagram_buckets "bac" = Some "3" ∧
    ht_search "bac" s' = Ok (None, s').
Proof.
  apply (insertion_loses_name 1 anagrams anagram_buckets "cab" "4" "abc" "1" "acb" "2" [] "bac" "3");
    [exact anagrams_rep|reflexivity|reflexivity|].
  vm_compute. repeat constructor; set_solver.
Defined.

Lemma deletion_loses_names_witness :
  ∃ s', ht_delete "acb" anagrams = Ok (tt, s') ∧
    ∀ k', k' ∈ ["bac"] → k' ≠ "abc" → is_Some (found anagram_buckets k') ∧ ht_search k' s' = Ok (None, s').
Proof.
  apply (deletion_loses_names 1 anagrams anagram_buckets "acb" "2" "abc" "1" [("bac", "3")]);
    [exact anagrams_rep|reflexivity|done].
Defined.

(** ** Outside these conditions

    Deleting a name further down an overflow list frees a node that the list still
    reaches, and with junk in fresh memory the list of a first collision has no end. *)
Example dangling_node :
  result ((_ ← ht_delete "bac"; ht_search "cba") anagrams) = None ∧
  result (ht_search "cba" anagrams) = Some None.
Proof. split; vm_compute; reflexivity. Qed.
(** An update with a longer value runs over the end of the old one. *)
Example update_overflows : (_ ← insert_list [("a", "1")]; ht_insert "a" "22") (empty_store None) = Fault StringOverflow.
Proof. vm_compute. reflexivity. Qed.
Example junk_in_list :
  result ((_ ← insert_list [("ab", "1"); ("ba", "2")]; ht_search "c") (empty_store (Some 77%nat))) = Some None ∧
  (_ ← insert_list [("abc", "1"); ("acb", "2")]; ht_search "bac") (empty_store (Some 77%nat)) = Fault UseAfterFree.
Proof. split; vm_compute; reflexivity. Qed.
