(* ===== verification/BlobIdChar.v ===== *)
(** * Blob ids as text (NBFS2/id_and_char.h)

    [sprintf] with "0x%016lx" and [strtoull] with base 16, as the C library
    defines them. *)
From Stdlib Require Import Ascii String.
From S2P Require Import Prelude.
Local Open Scope Z_scope.

Definition BLOBID_STRING_LEN : Z := 20.

(** ** Writing *)
Definition hex_char (d : Z) : Ascii.ascii :=
  Ascii.ascii_of_nat (Z.to_nat (if decide (d < 10) then 48 + d else 87 + d)).
(** The last [n] hexadecimal digits of [x]. *)
Fixpoint hex_digits (n : nat) (x : Z) : string :=
  match n with
  | O => EmptyString
  | S n' => String (hex_char (x / 16 ^ Z.of_nat n' mod 16)) (hex_digits n' x)
  end.
Definition blobid2char (blobid : Z) : string := String "0"%char (String "x"%char (hex_digits 16 blobid)).

(** ** Reading *)
Definition digit_value (c : Ascii.ascii) : option Z :=
  let n := Z.of_nat (Ascii.nat_of_ascii c) in
  if decide (48 <= n <= 57) then Some (n - 48)
  else if decide (97 <= n <= 102) then Some (n - 87)
  else if decide (65 <= n <= 70) then Some (n - 55) else None.
Definition is_space (c : Ascii.ascii) : bool :=
  let n := Z.of_nat (Ascii.nat_of_ascii c) in bool_decide (n = 32 ∨ 9 <= n <= 13).
Fixpoint skip_spaces (s : string) : string :=
  match s with String c s' => if is_space c then skip_spaces s' else s | EmptyString => s end.
Fixpoint scan (acc : Z) (s : string) : Z :=
  match s with
  | EmptyString => acc
  | String c s' => match digit_value c with Some d => scan (acc * 16 + d) s' | None => acc end
  end.
(** The prefix counts when a digit follows. *)
Definition skip_prefix (s : string) : string :=
  match s with
  | String a (String b (String c _ as s')) =>
      if decide (a = "0"%char ∧ (b = "x"%char ∨ b = "X"%char) ∧ digit_value c ≠ None) then s' else s
  | _ => s
  end.
Definition saturate (x : Z) : Z := if decide (x < 2 ^ 64) then x else 2 ^ 64 - 1.
Definition strtoull_16 (s : string) : Z :=
  match skip_spaces s with
  | String "-"%char s' => let x := scan 0 (skip_prefix s') in if decide (x < 2 ^ 64) then u64 (- x) else 2 ^ 64 - 1
  | String "+"%char s' => saturate (scan 0 (skip_prefix s'))
  | s' => saturate (scan 0 (skip_prefix s'))
  end.
Definition char2blobid (s : string) : Z := strtoull_16 s.

(** ** The round trip *)
Lemma digit_hex d : 0 <= d < 16 → digit_value (hex_char d) = Some d.
Proof.
  intros Hd. assert (d = 0 ∨ d = 1 ∨ d = 2 ∨ d = 3 ∨ d = 4 ∨ d = 5 ∨ d = 6 ∨ d = 7 ∨ d = 8 ∨ d = 9 ∨ d = 10 ∨ d = 11 ∨
    d = 12 ∨ d = 13 ∨ d = 14 ∨ d = 15) as Hcases by lia.
  repeat (destruct Hcases as [->|Hcases]; [reflexivity|]). by subst.
Qed.

Lemma scan_digits n : ∀ acc x, 0 <= x → scan acc (hex_digits n x) = acc * 16 ^ Z.of_nat n + x mod 16 ^ Z.of_nat n.
Proof.
  induction n as [|n IH]; intros acc x Hx; cbn [hex_digits scan]; [rewrite Z.mod_1_r; lia|].
  rewrite digit_hex by (apply Z.mod_pos_bound; lia). rewrite IH by done.
  rewrite Nat2Z.inj_succ, Z.pow_succ_r by lia. set (p := 16 ^ Z.of_nat n).
  assert (Hp : 0 < p) by (apply Z.pow_pos_nonneg; lia).
  rewrite (Z.mul_comm 16 p), Z.rem_mul_r by lia. lia.
Qed.

Lemma hex_length n x : String.length (hex_digits n x) = n.
Proof. induction n as [|n IH]; [done|]. cbn [hex_digits String.length]. by rewrite IH. Qed.

Lemma length_blobid2char blobid : String.length (blobid2char blobid) = 18%nat.
Proof. unfold blobid2char. cbn [String.length]. by rewrite hex_length. Qed.
Lemma char2blobid_blobid2char blobid : 0 <= blobid < 2 ^ 64 → char2blobid (blobid2char blobid) = blobid.
Proof.
  intros Hx. unfold char2blobid, strtoull_16, blobid2char.
  change (skip_spaces (String "0"%char (String "x"%char (hex_digits 16 blobid)))) with (String "0"%char (String "x"%char (hex_digits 16 blobid))).
  cbv beta iota. assert (skip_prefix (String "0"%char (String "x"%char (hex_digits 16 blobid))) = hex_digits 16 blobid) as ->.
  { cbn [skip_prefix hex_digits]. rewrite decide_True; [done|]. split; [done|]. split; [by left|].
    rewrite digit_hex by (apply Z.mod_pos_bound; lia). done. }
  rewrite scan_digits by lia. change (16 ^ Z.of_nat 16) with (2 ^ 64). rewrite Z.mod_small by lia.
  unfold saturate. rewrite decide_True by lia. lia.
Qed.

(** A blob id written as text has 18 characters, so that with its NUL it fits the
    buffers of [BLOBID_STRING_LEN] bytes, and reading the text gives the id back. *)
Theorem blobid_roundtrip blobid :
  0 <= blobid < 2 ^ 64 →
  strlen (blobid2char blobid) = 18 ∧ strlen (blobid2char blobid) < BLOBID_STRING_LEN ∧
  char2blobid (blobid2char blobid) = blobid.
Proof.
  intros Hx. unfold strlen. rewrite length_blobid2char. split; [done|]. split; [done|]. by apply char2blobid_blobid2char.
Qed.

Lemma blobid_roundtrip_witness :
  strlen (blobid2char (2 ^ 32 + 48879)) = 18 ∧ strlen (blobid2char (2 ^ 32 + 48879)) < BLOBID_STRING_LEN ∧
  char2blobid (blobid2char (2 ^ 32 + 48879)) = 2 ^ 32 + 48879.
Proof. apply (blobid_roundtrip (2 ^ 32 + 48879)). lia. Defined.
Example blobid_text : blobid2char (2 ^ 32 + 48879) = "0x000000010000beef".
Proof. reflexivity. Qed.
