(* ===== verification/BlobIo.v ===== *)
(** * Reading and writing whole blobs (NBFS2)

    create_super_blob.h, check_super_blob.h, write_super_blob.h, read_super_blob.h,
    write_normal_blob.h and read_normal_blob.h: each a chain of callbacks that share a
    struct allocated by the first function and freed by the last.  Calls to the
    blobstore wait in [b_calls] until an event completes them, with the effect that
    blob.h documents.  What a chain tells its caller goes through the interface
    [Client], which the file system of NBFS2 implements. *)
From stdpp Require Import gmap.
From S2P Require Import Prelude.
Local Open Scope Z_scope.

Definition ENOENT : Z := 2.
Definition ENOMEM : Z := 12.
Definition EBUSY : Z := 16.
Definition ENOSPC : Z := 28.

Section io.
(** What a caller registers to be called back, and its state. *)
Context {T X : Type}.

(** The struct the chains share; a field the code has not set is [None]. *)
Record io_args : Type := mk_io_args {
  a_blob : option Z;
  a_blobid : option Z;
  a_channel : option nat;
  a_payload : option nat;
  a_offset : Z;
  a_length : Z;
  a_cb : T;
  a_cluster_size : Z;
  a_io_unit_size : Z
}.
Definition set_a_blob (x : option Z) (a : io_args) : io_args :=
  mk_io_args x (a_blobid a) (a_channel a) (a_payload a) (a_offset a) (a_length a) (a_cb a) (a_cluster_size a) (a_io_unit_size a).
Definition set_a_blobid (x : option Z) (a : io_args) : io_args :=
  mk_io_args (a_blob a) x (a_channel a) (a_payload a) (a_offset a) (a_length a) (a_cb a) (a_cluster_size a) (a_io_unit_size a).
Definition set_a_channel (x : option nat) (a : io_args) : io_args :=
  mk_io_args (a_blob a) (a_blobid a) x (a_payload a) (a_offset a) (a_length a) (a_cb a) (a_cluster_size a) (a_io_unit_size a).

(** Which of the two copies of the code: for the super blob or for a given one. *)
Inductive which : Type := Super | Normal.

(** [User n] is a function of the caller. *)
Inductive callback : Type :=
| User (n : T)
| Csb_created (a : nat)
| Csb_super_set (a : nat)
| Chsb_got (flag : nat)
| Wb_got (a : nat)
| Wb_open (w : which) (a : nat)
| Wb_resize (w : which) (a : nat)
| Wb_sync (w : which) (a : nat)
| Wb_write (w : which) (a : nat)
| Rb_got (a : nat)
| Rb_open (w : which) (a : nat)
| Rb_read (w : which) (a : nat).

(** Calls to the blobstore; a blob's handle is its id. *)
Inductive call : Type :=
| InitBs
| LoadBs
| UnloadBs
| GetSuper
| SetSuper (id : Z)
| CreateBlob
| DeleteBlob (id : Z)
| OpenBlob (id : option Z)
| Resize (blob : Z) (clusters : Z)
| SyncMd (blob : Z)
| IoWrite (blob : Z) (channel : option nat) (payload : option nat) (offset length : Z)
| IoRead (blob : Z) (channel : option nat) (payload : option nat) (offset length : Z)
| Close (blob : Z).

(** A byte of memory or of a blob; one that nothing has written is [None]. *)
Definition byte : Type := option Z.
Record blob : Type := mk_blob { x_clusters : Z; x_data : Z → byte; x_xattrs : gmap string Z }.

(** The blobstore as its callers see it: [s_open] counts how often each blob is
    open, [s_xattr_addr] says where the value of an attribute lies in memory. *)
Record bstore : Type := mk_bstore {
  s_super : option Z;
  s_blobs : gmap Z blob;
  s_free : Z;
  s_cluster_size : Z;
  s_io_unit_size : Z;
  s_open : gmap Z nat;
  s_xattr_addr : Z → string → Z
}.
Definition set_s_super x (s : bstore) : bstore :=
  mk_bstore x (s_blobs s) (s_free s) (s_cluster_size s) (s_io_unit_size s) (s_open s) (s_xattr_addr s).
Definition set_s_blobs x (s : bstore) : bstore :=
  mk_bstore (s_super s) x (s_free s) (s_cluster_size s) (s_io_unit_size s) (s_open s) (s_xattr_addr s).
Definition set_s_free x (s : bstore) : bstore :=
  mk_bstore (s_super s) (s_blobs s) x (s_cluster_size s) (s_io_unit_size s) (s_open s) (s_xattr_addr s).
Definition set_s_open x (s : bstore) : bstore :=
  mk_bstore (s_super s) (s_blobs s) (s_free s) (s_cluster_size s) (s_io_unit_size s) x (s_xattr_addr s).

(** The blobstore and the program's objects: [b_channels] are the I/O channels in
    use, [b_flags] the flags of check_super_blob, [b_mem] the I/O buffers, and
    [b_client] the state of the caller. *)
Record world : Type := mk_world {
  b_store : bstore;
  b_channels : list nat;
  b_args : gmap nat io_args;
  b_flags : gmap nat Z;
  b_mem : gmap nat (list byte);
  b_calls : list (call * callback);
  b_next : nat;
  b_malloc : list bool;
  b_client : X
}.
(** What a caller does with the result of a chain or of its own call: [value] is
    the id or blob it comes with. *)
Class Client := client : T → option Z → Z → M world unit.
Context `{Client}.
Implicit Type w : world.

Definition set_b_store x w : world := mk_world x (b_channels w) (b_args w) (b_flags w) (b_mem w) (b_calls w) (b_next w) (b_malloc w) (b_client w).
Definition set_b_channels x w : world := mk_world (b_store w) x (b_args w) (b_flags w) (b_mem w) (b_calls w) (b_next w) (b_malloc w) (b_client w).
Definition set_b_args x w : world := mk_world (b_store w) (b_channels w) x (b_flags w) (b_mem w) (b_calls w) (b_next w) (b_malloc w) (b_client w).
Definition set_b_flags x w : world := mk_world (b_store w) (b_channels w) (b_args w) x (b_mem w) (b_calls w) (b_next w) (b_malloc w) (b_client w).
Definition set_b_mem x w : world := mk_world (b_store w) (b_channels w) (b_args w) (b_flags w) x (b_calls w) (b_next w) (b_malloc w) (b_client w).
Definition set_b_calls x w : world := mk_world (b_store w) (b_channels w) (b_args w) (b_flags w) (b_mem w) x (b_next w) (b_malloc w) (b_client w).
Definition set_b_next x w : world := mk_world (b_store w) (b_channels w) (b_args w) (b_flags w) (b_mem w) (b_calls w) x (b_malloc w) (b_client w).
Definition set_b_malloc x w : world := mk_world (b_store w) (b_channels w) (b_args w) (b_flags w) (b_mem w) (b_calls w) (b_next w) x (b_client w).
Definition set_b_client x w : world := mk_world (b_store w) (b_channels w) (b_args w) (b_flags w) (b_mem w) (b_calls w) (b_next w) (b_malloc w) x.

(** ** Primitives *)
Definition malloc_ok : M world bool :=
  l ← gets b_malloc;
  match l with [] => mret true | b :: l' => _ ← modify (set_b_malloc l'); mret b end.
Definition fresh : M world nat := n ← gets b_next; _ ← modify (set_b_next (S n)); mret n.
Definition load (a : nat) : M world io_args := m ← gets b_args; of_option UseAfterFree (m !! a).
Definition save (a : nat) (x : io_args) : M world unit := modify (λ w, set_b_args (<[a := x]> (b_args w)) w).
Definition free (a : nat) : M world unit := _ ← load a; modify (λ w, set_b_args (delete a (b_args w)) w).
Definition async (c : call) (cb : callback) : M world unit := modify (λ w, set_b_calls (b_calls w ++ [(c, cb)]) w).
(** A field of the struct. *)
Definition deref {A} (o : option A) : M world A := of_option Uninitialised o.

Definition load_blob (b : Z) : M world blob := s ← gets b_store; of_option UseAfterFree (s_blobs s !! b).
Definition upd_store (f : bstore → bstore) : M world unit := modify (λ w, set_b_store (f (b_store w)) w).
Definition num_clusters (b : Z) : M world Z := x ← load_blob b; mret (x_clusters x).
(** [spdk_blob_get_num_io_units] *)
Definition num_io_units (b : Z) : M world Z :=
  n ← num_clusters b; s ← gets b_store; mret (n * (s_cluster_size s / s_io_unit_size s)).
Definition alloc_channel : M world (option nat) :=
  ok ← malloc_ok;
  if negb (ok : bool) then mret None else
  c ← fresh; _ ← modify (λ w, set_b_channels (c :: b_channels w) w); mret (Some c).
Definition free_channel (c : nat) : M world unit :=
  modify (λ w, set_b_channels (filter (λ x, x ≠ c) (b_channels w)) w).

(** I/O buffers: [spdk_malloc] and [spdk_free] *)
Definition alloc_buffer (n : Z) : M world (option nat) :=
  ok ← malloc_ok;
  if negb (ok : bool) then mret None else
  p ← fresh;
  _ ← modify (λ w, set_b_mem (<[p := replicate (Z.to_nat n) None]> (b_mem w)) w);
  mret (Some p).
Definition free_buffer (p : option nat) : M world unit :=
  match p with None => mret tt | Some p => modify (λ w, set_b_mem (delete p (b_mem w)) w) end.

(** [args->cb_fn(args->cb_arg, rc); free(args); return;] *)
Definition end_with (a : nat) (args : io_args) (rc : Z) : M world unit := _ ← client (a_cb args) None rc; free a.

(** ** The end of a chain, the same for reads and writes *)
Definition io_complete (a : nat) (rc : Z) : M world unit :=
  args ← load a;
  if decide (rc ≠ 0) then end_with a args rc else
  _ ← (match a_channel args with Some c => free_channel c | None => mret tt end);
  b ← deref (a_blob args);
  _ ← async (Close b) (User (a_cb args));
  free a.
Definition _wsb_write_complete (a : nat) (rc : Z) : M world unit := io_complete a rc.
Definition _wnb_write_complete (a : nat) (rc : Z) : M world unit := io_complete a rc.
Definition _rsb_read_complete (a : nat) (rc : Z) : M world unit := io_complete a rc.
Definition _rnb_read_complete (a : nat) (rc : Z) : M world unit := io_complete a rc.

(** ** Writing *)
Definition start_write (w : which) (a : nat) (args : io_args) : M world unit :=
  b ← deref (a_blob args);
  async (IoWrite b (a_channel args) (a_payload args) (a_offset args) (a_length args)) (Wb_write w a).

Definition sync_complete (w : which) (a : nat) (rc : Z) : M world unit :=
  args ← load a;
  if decide (rc ≠ 0) then end_with a args rc else start_write w a args.
Definition _wsb_sync_complete : nat → Z → M world unit := sync_complete Super.
Definition _wnb_sync_complete : nat → Z → M world unit := sync_complete Normal.

Definition resize_complete (w : which) (a : nat) (rc : Z) : M world unit :=
  args ← load a;
  if decide (rc ≠ 0) then end_with a args rc else
  b ← deref (a_blob args);
  _ ← num_clusters b;
  async (SyncMd b) (Wb_sync w a).
Definition _wsb_resize_complete : nat → Z → M world unit := resize_complete Super.
Definition _wnb_resize_complete : nat → Z → M world unit := resize_complete Normal.

(** The clusters that [add_io_num] more I/O units take. *)
Definition clusters_for (add_io_num io_unit_size cluster_size : Z) : Z :=
  let bytes := u64 (add_io_num * io_unit_size) in
  u64 (bytes / cluster_size + (if decide (bytes mod cluster_size ≠ 0) then 1 else 0)).

Definition write_open_complete (w : which) (a : nat) (blb : Z) (rc : Z) : M world unit :=
  args ← load a;
  if decide (rc ≠ 0) then end_with a args rc else
  let args := set_a_blob (Some blb) args in
  _ ← save a args;
  ch ← alloc_channel;
  let args := set_a_channel ch args in
  _ ← save a args;
  match ch with
  | None => end_with a args (- ENOMEM)
  | Some _ =>
      c_num ← num_clusters blb;
      io_unit_num ← num_io_units blb;
      if decide (io_unit_num < u64 (a_offset args + a_length args)) then
        let add_io_num := u64 (a_offset args + a_length args - io_unit_num) in
        let add_c_num := clusters_for add_io_num (a_io_unit_size args) (a_cluster_size args) in
        s ← gets b_store;
        let free_c_num := s_free s in
        if decide (free_c_num < add_c_num) then end_with a args (- ENOSPC)
        else async (Resize blb (u64 (c_num + add_c_num))) (Wb_resize w a)
      else start_write w a args
  end.
Definition _wsb_open_complete : nat → Z → Z → M world unit := write_open_complete Super.
Definition _wnb_open_complete : nat → Z → Z → M world unit := write_open_complete Normal.

Definition _wsb_super_blobid_got (a : nat) (id rc : Z) : M world unit :=
  args ← load a;
  if decide (rc ≠ 0) then end_with a args rc else
  _ ← save a (set_a_blobid (Some id) args);
  async (OpenBlob (Some id)) (Wb_open Super a).

(** [payload] is [None] for NULL. *)
Definition write_super_blob (payload : option nat) (offset length : Z) (n : T) : M world unit :=
  ok ← malloc_ok;
  if negb (ok : bool) then client n None (- ENOMEM) else
  a ← fresh;
  s ← gets b_store;
  _ ← save a (mk_io_args None None None payload offset length n (s_cluster_size s) (s_io_unit_size s));
  async GetSuper (Wb_got a).

(** [payload] is not stored in the struct. *)
Definition write_normal_blob (blobid : Z) (payload : nat) (offset length : Z) (n : T) : M world unit :=
  ok ← malloc_ok;
  if negb (ok : bool) then client n None (- ENOMEM) else
  a ← fresh;
  s ← gets b_store;
  _ ← save a (mk_io_args None (Some blobid) None None offset length n (s_cluster_size s) (s_io_unit_size s));
  async (OpenBlob (Some blobid)) (Wb_open Normal a).

(** ** Reading *)
Definition read_open_complete (w : which) (a : nat) (blb : Z) (rc : Z) : M world unit :=
  args ← load a;
  if decide (rc ≠ 0) then end_with a args rc else
  let args := set_a_blob (Some blb) args in
  _ ← save a args;
  ch ← alloc_channel;
  let args := set_a_channel ch args in
  _ ← save a args;
  match ch with
  | None => end_with a args (- ENOMEM)
  | Some _ => async (IoRead blb ch (a_payload args) (a_offset args) (a_length args)) (Rb_read w a)
  end.
Definition _rsb_open_complete : nat → Z → Z → M world unit := read_open_complete Super.
Definition _rnb_open_complete : nat → Z → Z → M world unit := read_open_complete Normal.

Definition _rsb_super_blobid_got (a : nat) (id rc : Z) : M world unit :=
  args ← load a;
  if decide (rc ≠ 0) then end_with a args rc else
  _ ← save a (set_a_blobid (Some id) args);
  async (OpenBlob (Some id)) (Rb_open Super a).

Definition read_super_blob (payload : option nat) (offset length : Z) (n : T) : M world unit :=
  ok ← malloc_ok;
  if negb (ok : bool) then client n None (- ENOMEM) else
  a ← fresh;
  _ ← save a (mk_io_args None None None payload offset length n 0 0);
  async GetSuper (Rb_got a).

(** [blobid] is not stored in the struct, and the struct's field is what is opened. *)
Definition read_normal_blob (blobid : Z) (payload : nat) (offset length : Z) (n : T) : M world unit :=
  ok ← malloc_ok;
  if negb (ok : bool) then client n None (- ENOMEM) else
  a ← fresh;
  _ ← save a (mk_io_args None None None (Some payload) offset length n 0 0);
  args ← load a;
  async (OpenBlob (a_blobid args)) (Rb_open Normal a).

(** ** The super blob's id *)
Definition create_super_blob (n : T) : M world unit :=
  ok ← malloc_ok;
  if negb (ok : bool) then client n (Some 0) (- ENOMEM) else
  a ← fresh;
  _ ← save a (mk_io_args None None None None 0 0 n 0 0);
  async CreateBlob (Csb_created a).
Definition _csb_super_blob_created (a : nat) (id rc : Z) : M world unit :=
  args ← load a;
  if decide (rc ≠ 0) then _ ← client (a_cb args) (a_blobid args) rc; free a else
  _ ← save a (set_a_blobid (Some id) args);
  async (SetSuper id) (Csb_super_set a).
Definition _csb_super_blob_set (a : nat) (rc : Z) : M world unit :=
  args ← load a; _ ← client (a_cb args) (a_blobid args) rc; free a.

Definition check_super_blob (flag : nat) : M world unit := async GetSuper (Chsb_got flag).
Definition _chsb_super_blobid_got (flag : nat) (id rc : Z) : M world unit :=
  let v := if decide (rc = - ENOENT) then 0 else if decide (rc ≠ 0) then -1 else 1 in
  modify (λ w, set_b_flags (<[flag := v]> (b_flags w)) w).

(** ** Events *)
Definition dispatch (cb : callback) (value : option Z) (rc : Z) : M world unit :=
  let with_value (f : Z → M world unit) := match value with Some v => f v | None => f 0 end in
  match cb with
  | User n => client n value rc
  | Csb_created a => with_value (λ id, _csb_super_blob_created a id rc)
  | Csb_super_set a => _csb_super_blob_set a rc
  | Chsb_got flag => with_value (λ id, _chsb_super_blobid_got flag id rc)
  | Wb_got a => with_value (λ id, _wsb_super_blobid_got a id rc)
  | Wb_open Super a => with_value (λ b, _wsb_open_complete a b rc)
  | Wb_open Normal a => with_value (λ b, _wnb_open_complete a b rc)
  | Wb_resize Super a => _wsb_resize_complete a rc
  | Wb_resize Normal a => _wnb_resize_complete a rc
  | Wb_sync Super a => _wsb_sync_complete a rc
  | Wb_sync Normal a => _wnb_sync_complete a rc
  | Wb_write Super a => _wsb_write_complete a rc
  | Wb_write Normal a => _wnb_write_complete a rc
  | Rb_got a => with_value (λ id, _rsb_super_blobid_got a id rc)
  | Rb_open Super a => with_value (λ b, _rsb_open_complete a b rc)
  | Rb_open Normal a => with_value (λ b, _rnb_open_complete a b rc)
  | Rb_read Super a => _rsb_read_complete a rc
  | Rb_read Normal a => _rnb_read_complete a rc
  end.

(** [v] if [b] holds; a call cannot succeed otherwise, and the event is none. *)
Definition possible (P : Prop) `{Decision P} : M world unit := guard_or NoEvent (bool_decide P).

(** The bytes of an I/O, which the device moves from or to the buffer: it must be
    that long. *)
Definition buffer (payload : option nat) (n : Z) : M world (nat * list byte) :=
  p ← deref payload;
  m ← gets b_mem;
  buf ← of_option UseAfterFree (m !! p);
  _ ← guard_or OutOfBounds (bool_decide (n <= Z.of_nat (length buf)));
  mret (p, buf).
(** [memset] of the first [n] bytes of a buffer. *)
Definition memset (p : nat) (x : Z) (n : Z) : M world unit :=
  '(_, buf) ← buffer (Some p) n;
  modify (λ w, set_b_mem (<[p := replicate (Z.to_nat n) (Some x) ++ drop (Z.to_nat n) buf]> (b_mem w)) w).
Definition put_bytes (start n : Z) (buf : list byte) (f : Z → byte) : Z → byte :=
  λ i, if decide (start <= i < start + n) then default None (buf !! Z.to_nat (i - start)) else f i.
Definition get_bytes (start n : Z) (f : Z → byte) (buf : list byte) : list byte :=
  imap (λ i x, if decide (Z.of_nat i < n) then f (start + Z.of_nat i) else x) buf.

(** What a call does when it succeeds, and the value it answers with; [v] is the
    id of a new blob, or the free clusters of a new blobstore. *)
Definition bs_effect (c : call) (v : Z) : M world (option Z) :=
  s ← gets b_store;
  let unit_size := s_io_unit_size s in
  let in_blob b offset length :=
    (n ← num_io_units b; possible (is_Some (s_open s !! b) ∧ 0 <= offset ∧ 0 <= length ∧ offset + length <= n)) in
  match c with
  | InitBs => _ ← upd_store (λ s, set_s_super None (set_s_blobs ∅ (set_s_free v s))); mret None
  | LoadBs => mret None
  | UnloadBs => _ ← possible (s_open s = ∅); mret None
  | GetSuper => _ ← possible (is_Some (s_super s)); mret (s_super s)
  | SetSuper id => _ ← upd_store (set_s_super (Some id)); mret None
  | CreateBlob =>
      _ ← possible (s_blobs s !! v = None ∧ 0 <= v < 2 ^ 64);
      _ ← upd_store (set_s_blobs (<[v := mk_blob 0 (λ _, None) ∅]> (s_blobs s)));
      mret (Some v)
  | DeleteBlob id =>
      _ ← possible (is_Some (s_blobs s !! id) ∧ s_open s !! id = None);
      _ ← upd_store (set_s_blobs (delete id (s_blobs s)));
      mret None
  | OpenBlob o =>
      id ← deref o;
      _ ← possible (is_Some (s_blobs s !! id));
      _ ← upd_store (set_s_open (<[id := S (default O (s_open s !! id))]> (s_open s)));
      mret (Some id)
  | Resize b n =>
      x ← load_blob b;
      _ ← possible (n - x_clusters x <= s_free s);
      _ ← upd_store (λ s, set_s_free (s_free s - (n - x_clusters x))
            (set_s_blobs (<[b := mk_blob n (x_data x) (x_xattrs x)]> (s_blobs s)) s));
      mret None
  | SyncMd _ => mret None
  | IoWrite b _ payload offset length =>
      _ ← in_blob b offset length;
      '(_, buf) ← buffer payload (length * unit_size);
      x ← load_blob b;
      let data := put_bytes (offset * unit_size) (length * unit_size) buf (x_data x) in
      _ ← upd_store (set_s_blobs (<[b := mk_blob (x_clusters x) data (x_xattrs x)]> (s_blobs s)));
      mret None
  | IoRead b _ payload offset length =>
      _ ← in_blob b offset length;
      '(p, buf) ← buffer payload (length * unit_size);
      x ← load_blob b;
      _ ← modify (λ w, set_b_mem (<[p := get_bytes (offset * unit_size) (length * unit_size) (x_data x) buf]> (b_mem w)) w);
      mret None
  | Close b =>
      k ← of_option NoEvent (s_open s !! b);
      _ ← upd_store (set_s_open (match k with S (S k') => <[b := S k']> (s_open s) | _ => delete b (s_open s) end));
      mret None
  end.

Definition take_call (i : nat) : M world (call * callback) :=
  l ← gets b_calls;
  p ← of_option NoEvent (l !! i);
  _ ← modify (set_b_calls (delete i l));
  mret p.

(** The blobstore completes the call at position [i]. *)
Definition complete (i : nat) (rc v : Z) : M world unit :=
  '(c, cb) ← take_call i;
  if decide (rc = 0) then value ← bs_effect c v; dispatch cb value 0
  else dispatch cb None rc.

(** The oldest [n] calls, each when its turn comes, all with success. *)
Fixpoint serve (n : nat) : M world unit :=
  match n with O => mret tt | S n' => _ ← complete 0 0 0; serve n' end.
End io.

Arguments io_args : clear implicits.
Arguments mk_io_args {T}.
Arguments a_blob {T} _.
Arguments a_blobid {T} _.
Arguments a_channel {T} _.
Arguments a_payload {T} _.
Arguments a_offset {T} _.
Arguments a_length {T} _.
Arguments a_cb {T} _.
Arguments a_cluster_size {T} _.
Arguments a_io_unit_size {T} _.
Arguments callback : clear implicits.
Arguments User {T}.
Arguments Csb_created {T}.
Arguments Csb_super_set {T}.
Arguments Chsb_got {T}.
Arguments Wb_got {T}.
Arguments Wb_open {T}.
Arguments Wb_resize {T}.
Arguments Wb_sync {T}.
Arguments Wb_write {T}.
Arguments Rb_got {T}.
Arguments Rb_open {T}.
Arguments Rb_read {T}.
Arguments world : clear implicits.
Arguments mk_world {T X}.
Arguments b_store {T X} _.
Arguments b_channels {T X} _.
Arguments b_args {T X} _.
Arguments b_flags {T X} _.
Arguments b_mem {T X} _.
Arguments b_calls {T X} _.
Arguments b_next {T X} _.
Arguments b_malloc {T X} _.
Arguments b_client {T X} _.
Arguments Client : clear implicits.
