(* ===== verification/BlobIoExec.v ===== *)
(** * Running the handlers of blob I/O on known worlds

    What single operations do on a world where the loads succeed, and the tactic
    [steps] that runs a handler by them. *)
From stdpp Require Import gmap.
From S2P Require Import Prelude BlobIo.
Local Open Scope Z_scope.

Section basics.
Context {T X : Type} `{Client T X}.
Implicit Types (s : bstore) (args : gmap nat (io_args T)) (w : world T X).

(** The world in the middle of a chain: its struct is [A], at [a], and [l] are the
    calls pending. *)
Definition during s chs args a A fl mem l nx (x : X) : world T X :=
  mk_world s chs (<[a := A]> args) fl mem l nx [] x.

Lemma complete_ok s chs args fl mem c cb nx ml x v :
  complete 0 0 v (mk_world s chs args fl mem [(c, cb)] nx ml x) =
  (value ← bs_effect c v; dispatch cb value 0) (mk_world s chs args fl mem [] nx ml x).
Proof. done. Qed.
Lemma complete_error s chs args fl mem c cb nx ml x rc v : rc ≠ 0 →
  complete 0 rc v (mk_world s chs args fl mem [(c, cb)] nx ml x) = dispatch cb None rc (mk_world s chs args fl mem [] nx ml x).
Proof.
  intros Hrc. trans ((if decide (rc = 0) then value ← bs_effect c v; dispatch cb value 0 else dispatch cb None rc)
    (mk_world s chs args fl mem [] nx ml x)); [done|]. by rewrite decide_False.
Qed.
Lemma malloc_ok_eq w : b_malloc w = [] → malloc_ok w = Ok (true, w).
Proof. intros Hm. unfold malloc_ok. change ((gets b_malloc ≫= ?f) w) with (f (b_malloc w) w). cbv beta. by rewrite Hm. Qed.
Lemma alloc_buffer_eq n w : b_malloc w = [] →
  alloc_buffer n w = Ok (Some (b_next w), set_b_mem (<[b_next w := replicate (Z.to_nat n) None]> (b_mem w)) (set_b_next (S (b_next w)) w)).
Proof. intros Hm. unfold alloc_buffer. by rewrite (bind_Ok _ _ _ _ _ (malloc_ok_eq w Hm)). Qed.
Lemma load_eq a A w : b_args w !! a = Some A → load a w = Ok (A, w).
Proof. intros Ha. unfold load, mbind, M_bind, gets. by rewrite Ha. Qed.
Lemma blob_loaded b y w : s_blobs (b_store w) !! b = Some y → load_blob b w = Ok (y, w).
Proof. intros Ha. unfold load_blob, mbind, M_bind, gets. by rewrite Ha. Qed.
Lemma possible_eq (P : Prop) `{Decision P} w : P → possible P w = Ok (tt, w).
Proof. intros HP. unfold possible. by rewrite bool_decide_true. Qed.

Definition opened (b : Z) s : bstore := set_s_open (<[b := S (default O (s_open s !! b))]> (s_open s)) s.
(** The struct once the blob is open and has its channel. *)
Definition ready (b : Z) (ch : nat) (A : io_args T) : io_args T := set_a_channel (Some ch) (set_a_blob (Some b) A).
Definition io_units s (b : blob) : Z := x_clusters b * (s_cluster_size s / s_io_unit_size s).
Definition the_write (b : Z) (A : io_args T) : call := IoWrite b (a_channel A) (a_payload A) (a_offset A) (a_length A).
Definition the_read (b : Z) (A : io_args T) : call := IoRead b (a_channel A) (a_payload A) (a_offset A) (a_length A).

Lemma alloc_channel_eq s chs args fl mem l nx x :
  @alloc_channel T X (mk_world s chs args fl mem l nx [] x) = Ok (Some nx, mk_world s (nx :: chs) args fl mem l (S nx) [] x).
Proof. done. Qed.
Lemma num_clusters_eq b y (w : world T X) : s_blobs (b_store w) !! b = Some y → num_clusters b w = Ok (x_clusters y, w).
Proof. intros Hb. unfold num_clusters. by rewrite (bind_Ok _ _ _ _ _ (blob_loaded b y w Hb)). Qed.
Lemma num_io_units_eq b y (w : world T X) : s_blobs (b_store w) !! b = Some y →
  num_io_units b w = Ok (io_units (b_store w) y, w).
Proof. intros Hb. unfold num_io_units. by rewrite (bind_Ok _ _ _ _ _ (num_clusters_eq b y w Hb)). Qed.

End basics.

(** One operation of a handler on a known world. *)
Ltac known := cbn [b_args b_store b_calls b_mem set_b_args set_b_calls set_b_store set_b_channels set_b_mem set_b_client set_b_next set_b_flags set_b_malloc]; rewrite ?lookup_insert_eq; first [done | eassumption].
Ltac side := first [done | assumption | lia].
Ltac step :=
  cbv beta iota zeta;
  lazymatch goal with
  | |- ((?m ≫= ?g) ≫= ?f) ?w = _ => rewrite bind_assoc
  | |- (mret ?a ≫= ?f) ?w = _ => change ((mret a ≫= f) w) with (f a w)
  | |- (gets ?g ≫= ?f) ?w = _ => change ((gets g ≫= f) w) with (f (g w) w)
  | |- (modify ?g ≫= ?f) ?w = _ => change ((modify g ≫= f) w) with (f tt (g w))
  | |- (async ?c ?cb ≫= ?f) ?w = _ => change ((async c cb ≫= f) w) with (f tt (set_b_calls (b_calls w ++ [(c, cb)]) w))
  | |- (save ?a ?x ≫= ?f) ?w = _ => change ((save a x ≫= f) w) with (f tt (set_b_args (<[a := x]> (b_args w)) w))
  | |- (upd_store ?g ≫= ?f) ?w = _ => change ((upd_store g ≫= f) w) with (f tt (set_b_store (g (b_store w)) w))
  | |- (deref (Some ?a) ≫= ?f) ?w = _ => change ((deref (Some a) ≫= f) w) with (f a w)
  | |- (of_option ?e (Some ?a) ≫= ?f) ?w = _ => change ((of_option e (Some a) ≫= f) w) with (f a w)
  | |- (guard_or ?e (bool_decide ?P) ≫= ?f) ?w = _ => rewrite (bool_decide_true P) by side; change ((guard_or e true ≫= f) w) with (f tt w)
  | |- (load ?a ≫= ?f) ?w = _ => erewrite (bind_Ok (load a) f w) by (apply load_eq; known)
  | |- (load_blob ?a ≫= ?f) ?w = _ => erewrite (bind_Ok (load_blob a) f w) by (apply blob_loaded; known)
  | |- (possible ?P ≫= ?f) ?w = _ => rewrite (bind_Ok (possible P) f w tt w) by (apply possible_eq; known)
  | |- (fresh ≫= ?f) ?w = _ => change ((fresh ≫= f) w) with (f (b_next w) (set_b_next (S (b_next w)) w))
  | |- (alloc_channel ≫= ?f) ?w = _ => erewrite (bind_Ok alloc_channel f w) by apply alloc_channel_eq
  | |- (num_clusters ?b ≫= ?f) ?w = _ => erewrite (bind_Ok (num_clusters b) f w) by (apply num_clusters_eq; known)
  | |- (num_io_units ?b ≫= ?f) ?w = _ => erewrite (bind_Ok (num_io_units b) f w) by (apply num_io_units_eq; known)
  | |- (if decide _ then _ else _) _ = _ => first [rewrite decide_True by side | rewrite decide_False by side]
  | |- ((if decide _ then _ else _) ≫= _) _ = _ => first [rewrite decide_True by side | rewrite decide_False by side]
  end.
Ltac steps := repeat step; cbv beta iota zeta.

Section effects.
Context {T X : Type} `{Client T X}.
Implicit Types (s : bstore) (args : gmap nat (io_args T)) (w : world T X).

(** ** What some calls do *)
Lemma create_effect v w :
  s_blobs (b_store w) !! v = None → 0 <= v < 2 ^ 64 →
  bs_effect CreateBlob v w =
  Ok (Some v, set_b_store (set_s_blobs (<[v := mk_blob 0 (λ _, None) ∅]> (s_blobs (b_store w))) (b_store w)) w).
Proof. intros Hv Hr. unfold bs_effect. steps. done. Qed.

Lemma delete_effect b v w :
  is_Some (s_blobs (b_store w) !! b) → s_open (b_store w) !! b = None →
  bs_effect (DeleteBlob b) v w = Ok (None, set_b_store (set_s_blobs (delete b (s_blobs (b_store w))) (b_store w)) w).
Proof. intros Hb Ho. unfold bs_effect. steps. done. Qed.
Lemma init_effect v w :
  bs_effect InitBs v w = Ok (None, set_b_store (set_s_super None (set_s_blobs ∅ (set_s_free v (b_store w)))) w).
Proof. unfold bs_effect. steps. done. Qed.
Lemma set_super_effect id v w : bs_effect (SetSuper id) v w = Ok (None, set_b_store (set_s_super (Some id) (b_store w)) w).
Proof. unfold bs_effect. steps. done. Qed.
Lemma open_effect b y v w : s_blobs (b_store w) !! b = Some y →
  bs_effect (OpenBlob (Some b)) v w = Ok (Some b, set_b_store (opened b (b_store w)) w).
Proof. intros Hb. unfold bs_effect. steps. done. Qed.

(** The start of a chain on the super blob. *)
Lemma write_super_start s chs args fl mem l nx (x : X) o off len n :
  write_super_blob o off len n (mk_world s chs args fl mem l nx [] x) =
  Ok (tt, mk_world s chs (<[nx := mk_io_args None None None o off len n (s_cluster_size s) (s_io_unit_size s)]> args)
    fl mem (l ++ [(GetSuper, Wb_got nx)]) (S nx) [] x).
Proof. done. Qed.
Lemma read_super_start s chs args fl mem l nx (x : X) o off len n :
  read_super_blob o off len n (mk_world s chs args fl mem l nx [] x) =
  Ok (tt, mk_world s chs (<[nx := mk_io_args None None None o off len n 0 0]> args)
    fl mem (l ++ [(GetSuper, Rb_got nx)]) (S nx) [] x).
Proof. done. Qed.
End effects.
