(* ===== verification/BlobIoTheorems.v ===== *)
(** * What the chains of blob I/O do from their call to the caller's callback

    One lemma per callback, from world to world, and their composition: writing and
    reading the super blob, for any [Client], and what a failed transfer leaves. *)
From stdpp Require Import gmap.
From S2P Require Import Prelude BlobIo BlobIoExec.
Local Open Scope Z_scope.

Section chains.
Context {T X : Type} `{Client T X}.
Implicit Types (s : bstore) (args : gmap nat (io_args T)) (w : world T X).

(** Both stores written twice at the same key, and what is left is the same world. *)
Ltac same_world := unfold async, modify; cbn -[insert delete]; rewrite ?insert_insert_eq; done.

Lemma got_step s chs args a A fl mem nx x id :
  s_super s = Some id →
  complete 0 0 0 (during s chs args a A fl mem [(GetSuper, Wb_got a)] nx x) =
  Ok (tt, during s chs args a (set_a_blobid (Some id) A) fl mem [(OpenBlob (Some id), Wb_open Super a)] nx x).
Proof.
  intros Hs. unfold during. rewrite complete_ok. unfold bs_effect. steps. cbn [b_store]. rewrite Hs. cbn [dispatch].
  unfold _wsb_super_blobid_got. steps. same_world.
Qed.
Lemma read_got_step s chs args a A fl mem nx x id :
  s_super s = Some id →
  complete 0 0 0 (during s chs args a A fl mem [(GetSuper, Rb_got a)] nx x) =
  Ok (tt, during s chs args a (set_a_blobid (Some id) A) fl mem [(OpenBlob (Some id), Rb_open Super a)] nx x).
Proof.
  intros Hs. unfold during. rewrite complete_ok. unfold bs_effect. steps. cbn [b_store]. rewrite Hs. cbn [dispatch].
  unfold _rsb_super_blobid_got. steps. same_world.
Qed.

(** Completing an open that succeeds is calling the handler with the blob open. *)
Lemma write_opened k s chs args a A fl mem nx x b y :
  s_blobs s !! b = Some y →
  complete 0 0 0 (during s chs args a A fl mem [(OpenBlob (Some b), Wb_open k a)] nx x) =
  write_open_complete k a b 0 (during (opened b s) chs args a A fl mem [] nx x).
Proof.
  intros Hb. unfold during. rewrite complete_ok. unfold bs_effect. steps. cbn [b_store]. steps. by destruct k.
Qed.
Lemma read_opened k s chs args a A fl mem nx x b y :
  s_blobs s !! b = Some y →
  complete 0 0 0 (during s chs args a A fl mem [(OpenBlob (Some b), Rb_open k a)] nx x) =
  read_open_complete k a b 0 (during (opened b s) chs args a A fl mem [] nx x).
Proof.
  intros Hb. unfold during. rewrite complete_ok. unfold bs_effect. steps. cbn [b_store]. steps. by destruct k.
Qed.

Lemma open_fits_step k s chs args a A fl mem nx x b y :
  s_blobs s !! b = Some y → u64 (a_offset A + a_length A) <= io_units s y →
  complete 0 0 0 (during s chs args a A fl mem [(OpenBlob (Some b), Wb_open k a)] nx x) =
  Ok (tt, during (opened b s) (nx :: chs) args a (ready b nx A) fl mem [(the_write b (ready b nx A), Wb_write k a)] (S nx) x).
Proof.
  intros Hb Hfit. rewrite (write_opened k s chs args a A fl mem nx x b y Hb). unfold during, write_open_complete.
  assert (¬ io_units (opened b s) y < u64 (a_offset A + a_length A)) by (change (io_units (opened b s) y) with (io_units s y); lia).
  steps. unfold start_write. cbn [a_blob set_a_blob set_a_channel]. steps. same_world.
Qed.

(** The clusters that the blob lacks for the range of [A]. *)
Definition missing s (y : blob) (A : io_args T) : Z :=
  clusters_for (u64 (a_offset A + a_length A - io_units s y)) (a_io_unit_size A) (a_cluster_size A).

Lemma open_grows_step k s chs args a A fl mem nx x b y :
  s_blobs s !! b = Some y → io_units s y < u64 (a_offset A + a_length A) → missing s y A <= s_free s →
  complete 0 0 0 (during s chs args a A fl mem [(OpenBlob (Some b), Wb_open k a)] nx x) =
  Ok (tt, during (opened b s) (nx :: chs) args a (ready b nx A) fl mem
    [(Resize b (u64 (x_clusters y + missing s y A)), Wb_resize k a)] (S nx) x).
Proof.
  intros Hb Hlack Hfree. rewrite (write_opened k s chs args a A fl mem nx x b y Hb). unfold during, write_open_complete.
  assert (¬ s_free s < missing s y A) by lia.
  steps. unfold start_write. cbn [a_blob set_a_blob set_a_channel]. steps. same_world.
Qed.

(** The blob with [n] clusters. *)
Definition resized (b n : Z) (y : blob) s : bstore :=
  set_s_free (s_free s - (n - x_clusters y)) (set_s_blobs (<[b := mk_blob n (x_data y) (x_xattrs y)]> (s_blobs s)) s).

Lemma resize_step k s chs args a A fl mem nx x b y n :
  s_blobs s !! b = Some y → a_blob A = Some b → n - x_clusters y <= s_free s →
  complete 0 0 0 (during s chs args a A fl mem [(Resize b n, Wb_resize k a)] nx x) =
  Ok (tt, during (resized b n y s) chs args a A fl mem [(SyncMd b, Wb_sync k a)] nx x).
Proof.
  intros Hb HA Hfree. unfold during. rewrite complete_ok. unfold bs_effect. steps.
  trans (resize_complete k a 0 (during (resized b n y s) chs args a A fl mem [] nx x)); [by destruct k|].
  unfold during, resize_complete. steps. rewrite HA. steps.
  erewrite (bind_Ok (num_clusters b)) by (apply num_clusters_eq; apply lookup_insert_eq). same_world.
Qed.

Lemma sync_step k s chs args a A fl mem nx x b b' :
  a_blob A = Some b →
  complete 0 0 0 (during s chs args a A fl mem [(SyncMd b', Wb_sync k a)] nx x) =
  Ok (tt, during s chs args a A fl mem [(the_write b A, Wb_write k a)] nx x).
Proof.
  intros HA. unfold during. rewrite complete_ok. unfold bs_effect. steps.
  trans (sync_complete k a 0 (during s chs args a A fl mem [] nx x)); [by destruct k|].
  unfold during, sync_complete. steps. unfold start_write. rewrite HA. steps. same_world.
Qed.

Lemma buffer_eq p buf n w :
  b_mem w !! p = Some buf → n <= Z.of_nat (length buf) → buffer (Some p) n w = Ok ((p, buf), w).
Proof.
  intros Hp Hn. unfold buffer. steps. rewrite Hp. steps. done.
Qed.

(** The blob with the bytes of [buf] written. *)
Definition written (b off len : Z) (buf : list byte) (y : blob) s : bstore :=
  let u := s_io_unit_size s in
  set_s_blobs (<[b := mk_blob (x_clusters y) (put_bytes (off * u) (len * u) buf (x_data y)) (x_xattrs y)]> (s_blobs s)) s.

Lemma write_step k s chs args a A fl mem nx x b y ch p buf :
  s_blobs s !! b = Some y → is_Some (s_open s !! b) → mem !! p = Some buf →
  a_blob A = Some b → a_channel A = Some ch → a_payload A = Some p → args !! a = None →
  0 <= a_offset A → 0 <= a_length A → a_offset A + a_length A <= io_units s y →
  a_length A * s_io_unit_size s <= Z.of_nat (length buf) →
  complete 0 0 0 (during s chs args a A fl mem [(the_write b A, Wb_write k a)] nx x) =
  Ok (tt, mk_world (written b (a_offset A) (a_length A) buf y s) (filter (λ c, c ≠ ch) chs) args fl mem
    [(Close b, User (a_cb A))] nx [] x).
Proof.
  intros Hb Ho Hp HA Hch Hpl Ha H1 H2 H3 H4. unfold during. rewrite complete_ok. unfold bs_effect, the_write. steps.
  rewrite Hpl. erewrite (bind_Ok (buffer _ _)) by (apply buffer_eq; eassumption). steps.
  trans (io_complete a 0 (during (written b (a_offset A) (a_length A) buf y s) chs args a A fl mem [] nx x)); [by destruct k|].
  unfold during, io_complete. steps. rewrite Hch, HA. unfold free_channel. steps.
  unfold free. steps. unfold modify. cbn -[insert delete]. by rewrite delete_insert_id.
Qed.

(** Reading into [buf]. *)
Definition filled s (off len : Z) (buf : list byte) (y : blob) : list byte :=
  get_bytes (off * s_io_unit_size s) (len * s_io_unit_size s) (x_data y) buf.

Lemma read_open_step k s chs args a A fl mem nx x b y :
  s_blobs s !! b = Some y →
  complete 0 0 0 (during s chs args a A fl mem [(OpenBlob (Some b), Rb_open k a)] nx x) =
  Ok (tt, during (opened b s) (nx :: chs) args a (ready b nx A) fl mem [(the_read b (ready b nx A), Rb_read k a)] (S nx) x).
Proof.
  intros Hb. rewrite (read_opened k s chs args a A fl mem nx x b y Hb). unfold during, read_open_complete.
  steps. same_world.
Qed.

Lemma read_step k s chs args a A fl mem nx x b y ch p buf :
  s_blobs s !! b = Some y → is_Some (s_open s !! b) → mem !! p = Some buf →
  a_blob A = Some b → a_channel A = Some ch → a_payload A = Some p → args !! a = None →
  0 <= a_offset A → 0 <= a_length A → a_offset A + a_length A <= io_units s y →
  a_length A * s_io_unit_size s <= Z.of_nat (length buf) →
  complete 0 0 0 (during s chs args a A fl mem [(the_read b A, Rb_read k a)] nx x) =
  Ok (tt, mk_world s (filter (λ c, c ≠ ch) chs) args fl
    (<[p := filled s (a_offset A) (a_length A) buf y]> mem) [(Close b, User (a_cb A))] nx [] x).
Proof.
  intros Hb Ho Hp HA Hch Hpl Ha H1 H2 H3 H4. unfold during. rewrite complete_ok. unfold bs_effect, the_read. steps.
  rewrite Hpl. erewrite (bind_Ok (buffer _ _)) by (apply buffer_eq; eassumption). steps.
  trans (io_complete a 0 (during s chs args a A fl (<[p := filled s (a_offset A) (a_length A) buf y]> mem) [] nx x)); [by destruct k|].
  unfold during, io_complete. steps. rewrite Hch, HA. unfold free_channel. steps.
  unfold free. steps. unfold modify. cbn -[insert delete]. by rewrite delete_insert_id.
Qed.

Lemma close_step s chs args fl mem nx x b n :
  s_open s !! b ≠ Some O →
  complete 0 0 0 (mk_world (opened b s) chs args fl mem [(Close b, User n)] nx [] x) =
  client n None 0 (mk_world s chs args fl mem [] nx [] x).
Proof.
  intros Hb. rewrite complete_ok. unfold bs_effect. steps. cbn [opened b_store s_open set_s_open].
  rewrite lookup_insert_eq. steps. cbn [dispatch]. f_equal. unfold set_b_store. cbn -[insert delete].
  f_equal. destruct s as [su bl fr cs us op ad]. unfold opened, set_s_open in *. cbn -[insert delete] in *. f_equal.
  destruct (op !! b) as [k|] eqn:Hop; cbn -[insert delete].
  - destruct k as [|k]; [done|]. rewrite insert_insert_eq. by apply insert_id.
  - by rewrite delete_insert_id.
Qed.

Lemma serve_S m (w w' : world T X) : complete 0 0 0 w = Ok (tt, w') → serve (S m) w = serve m w'.
Proof. intros Hc. cbn [serve]. by rewrite (bind_Ok _ _ _ _ _ Hc). Qed.
Lemma serve_last (w w' : world T X) n v rc : complete 0 0 0 w = client n v rc w' → serve 1 w = client n v rc w'.
Proof.
  intros Hc. cbn [serve]. unfold mbind, M_bind. rewrite Hc. by destruct (client n v rc w') as [[[] ?]|].
Qed.

(** ** The geometry of a blobstore *)
Record geometry s : Prop := {
  g_unit : 0 < s_io_unit_size s;
  g_cluster : s_cluster_size s = s_cluster_size s / s_io_unit_size s * s_io_unit_size s;
  g_units : 0 < s_cluster_size s / s_io_unit_size s
}.
(** The least number of clusters that holds [n] I/O units. *)
Definition clusters_needed s (n : Z) : Z :=
  let k := s_cluster_size s / s_io_unit_size s in (n + k - 1) / k.

Lemma clusters_for_eq s n :
  geometry s → 0 <= n → n * s_io_unit_size s < 2 ^ 64 →
  clusters_for n (s_io_unit_size s) (s_cluster_size s) = u64 (clusters_needed s n).
Proof.
  intros [Hu Hc Hk] Hn Hb. unfold clusters_for, clusters_needed. set (k := s_cluster_size s / s_io_unit_size s) in *.
  rewrite Hc. set (u := s_io_unit_size s) in *.
  assert (Hbytes : u64 (n * u) = n * u) by (apply Z.mod_small; nia). rewrite Hbytes.
  rewrite Z.div_mul_cancel_r by lia. rewrite Z.mul_mod_distr_r by lia.
  f_equal. pose proof (Z.div_mod n k) as Hd. pose proof (Z.mod_pos_bound n k Hk) as Hm.
  assert ((n + k - 1) / k = n / k + (if decide (n mod k = 0) then 0 else 1)) as ->.
  { case_decide; symmetry; [apply (Z.div_unique _ _ _ (k - 1)) | apply (Z.div_unique _ _ _ (n mod k - 1))]; lia. }
  f_equal. repeat case_decide; nia.
Qed.

Lemma needed_shift s x n : geometry s →
  x + clusters_needed s (n - x * (s_cluster_size s / s_io_unit_size s)) = clusters_needed s n.
Proof.
  intros [_ _ Hk]. unfold clusters_needed. set (k := s_cluster_size s / s_io_unit_size s) in *.
  replace (n - x * k + k - 1) with ((n + k - 1) + (- x) * k) by lia. rewrite Z.div_add by lia. lia.
Qed.
Lemma needed_holds s n : geometry s → n <= clusters_needed s n * (s_cluster_size s / s_io_unit_size s).
Proof.
  intros [_ _ Hk]. unfold clusters_needed. set (k := s_cluster_size s / s_io_unit_size s) in *.
  pose proof (Z.div_mod (n + k - 1) k). pose proof (Z.mod_pos_bound (n + k - 1) k Hk). nia.
Qed.
Lemma needed_bounds s n x : geometry s → 0 <= x → x * (s_cluster_size s / s_io_unit_size s) < n → x < clusters_needed s n <= n.
Proof.
  intros Hg Hx Hn. pose proof (needed_holds s n Hg). destruct Hg as [_ _ Hk]. unfold clusters_needed in *.
  set (k := s_cluster_size s / s_io_unit_size s) in *. split; [nia|]. apply Z.div_le_upper_bound; nia.
Qed.

(** What a transfer of [len] I/O units at [off] needs of the numbers involved. *)
Record transfer s (off len : Z) (y : blob) : Prop := {
  t_off : 0 <= off;
  t_len : 0 <= len;
  t_clusters : 0 <= x_clusters y;
  t_fits : (off + len) * s_io_unit_size s < 2 ^ 64
}.

Lemma missing_eq s off len y A :
  geometry s → transfer s off len y → a_offset A = off → a_length A = len →
  a_io_unit_size A = s_io_unit_size s → a_cluster_size A = s_cluster_size s →
  io_units s y < off + len →
  u64 (off + len) = off + len ∧ missing s y A = clusters_needed s (off + len) - x_clusters y ∧
  u64 (x_clusters y + missing s y A) = clusters_needed s (off + len) ∧ 0 <= missing s y A.
Proof.
  intros Hg [Ht1 Ht2 Ht4 Ht5] <- <- Hu Hc Hlack. pose proof Hg as [Hpos Hcl Hk]. set (n := a_offset A + a_length A) in *.
  assert (Hn : 0 <= n < 2 ^ 64) by (unfold n in *; nia).
  destruct (needed_bounds s n (x_clusters y) Hg Ht4 Hlack) as [Hlo Hhi].
  unfold io_units in Hlack. assert (u64 n = n) as Hun by (by apply Z.mod_small).
  assert (missing s y A = clusters_needed s n - x_clusters y) as ->.
  { unfold missing. fold n. rewrite Hu, Hc. rewrite u64_small by (unfold io_units; nia).
    rewrite clusters_for_eq by (done || unfold io_units; nia). rewrite u64_small.
    - rewrite <- (needed_shift s (x_clusters y) n Hg). unfold io_units. lia.
    - pose proof (needed_shift s (x_clusters y) n Hg). unfold io_units. lia. }
  split; [done|]. split; [done|]. split; [|lia]. replace (x_clusters y + _) with (clusters_needed s n) by lia.
  apply Z.mod_small. lia.
Qed.

(** The blobstore after a write that the blob was made large enough for. *)
Definition after_write (b off len : Z) (buf : list byte) (y : blob) s : bstore :=
  let u := s_io_unit_size s in
  let c := Z.max (x_clusters y) (clusters_needed s (off + len)) in
  set_s_free (s_free s - (c - x_clusters y))
    (set_s_blobs (<[b := mk_blob c (put_bytes (off * u) (len * u) buf (x_data y)) (x_xattrs y)]> (s_blobs s)) s).

Definition super_args (s : bstore) (p : option nat) (off len : Z) (n : T) : io_args T :=
  mk_io_args None None None p off len n (s_cluster_size s) (s_io_unit_size s).

Lemma write_start s chs args fl mem nx x p off len n :
  write_super_blob p off len n (mk_world s chs args fl mem [] nx [] x) =
  Ok (tt, during s chs args nx (super_args s p off len n) fl mem [(GetSuper, Wb_got nx)] (S nx) x).
Proof. done. Qed.

Lemma filter_fresh (c : nat) chs : c ∉ chs → filter (λ d, d ≠ c) (c :: chs) = chs.
Proof.
  intros Hc. rewrite filter_cons_False by tauto. induction chs as [|d chs IH]; [done|].
  apply not_elem_of_cons in Hc as [Hd Hc]. rewrite filter_cons_True by done. by rewrite IH.
Qed.

(** The pending write, and what remains of the chain. *)
Lemma write_finish s chs args fl mem nx x b y A p buf :
  s_blobs s !! b = Some y → s_open s !! b ≠ Some O → mem !! p = Some buf → nx ∉ chs → ∀ a, args !! a = None →
  a_payload A = Some p → 0 <= a_offset A → 0 <= a_length A → a_offset A + a_length A <= io_units s y →
  a_length A * s_io_unit_size s <= Z.of_nat (length buf) →
  let A' := ready b nx A in
  serve 2 (during (opened b s) (nx :: chs) args a A' fl mem [(the_write b A', Wb_write Super a)] (S nx) x) =
  client (a_cb A) None 0 (mk_world (written b (a_offset A) (a_length A) buf y s) chs args fl mem [] (S nx) [] x).
Proof.
  intros Hb Ho Hp Hch a Ha Hpl H1 H2 H3 H4 A'.
  erewrite serve_S by (apply (write_step Super (opened b s) (nx :: chs) args a A' fl mem (S nx) x b y nx p buf);
    first [done | cbn -[insert]; rewrite lookup_insert_eq; by eexists]).
  apply serve_last. rewrite filter_fresh by done.
  apply (close_step (written b (a_offset A) (a_length A) buf y s)). exact Ho.
Qed.

Lemma after_grow s b off len buf y :
  x_clusters y < clusters_needed s (off + len) →
  let c := clusters_needed s (off + len) in
  written b off len buf (mk_blob c (x_data y) (x_xattrs y)) (resized b c y s) = after_write b off len buf y s.
Proof.
  intros Hlt c. unfold after_write, written, resized. cbv zeta. rewrite Z.max_r by lia. cbn -[insert]. by rewrite insert_insert_eq.
Qed.
Lemma after_fit s b off len buf y :
  clusters_needed s (off + len) <= x_clusters y → written b off len buf y s = after_write b off len buf y s.
Proof.
  intros Hle. unfold after_write, written. cbv zeta. rewrite Z.max_l by lia. rewrite Z.sub_diag, Z.sub_0_r. by destruct s.
Qed.

(** The blob once it is large enough. *)
Definition grown (b off len : Z) (y : blob) s : bstore :=
  if decide (io_units s y < off + len) then resized b (clusters_needed s (off + len)) y s else s.
Definition grown_blob (off len : Z) (y : blob) s : blob :=
  if decide (io_units s y < off + len) then mk_blob (clusters_needed s (off + len)) (x_data y) (x_xattrs y) else y.
Lemma grown_lookup b off len y s : s_blobs s !! b = Some y → s_blobs (grown b off len y s) !! b = Some (grown_blob off len y s).
Proof. intros Hb. unfold grown, grown_blob. case_decide; [apply lookup_insert_eq|done]. Qed.
Lemma grown_fits b off len y s : geometry s → off + len <= io_units (grown b off len y s) (grown_blob off len y s).
Proof. intros Hg. unfold grown, grown_blob. case_decide; [exact (needed_holds s (off + len) Hg)|lia]. Qed.
Lemma grown_unit b off len y s : s_io_unit_size (grown b off len y s) = s_io_unit_size s.
Proof. unfold grown. by case_decide. Qed.
Lemma grown_open b off len y s : s_open (grown b off len y s) = s_open s.
Proof. unfold grown. by case_decide. Qed.
Lemma grown_written s b off len buf y :
  geometry s → transfer s off len y →
  written b off len buf (grown_blob off len y s) (grown b off len y s) = after_write b off len buf y s.
Proof.
  intros Hg [Ht1 Ht2 Ht4 Ht5]. unfold grown, grown_blob. case_decide as Hfit.
  - apply after_grow. by apply (needed_bounds s (off + len) (x_clusters y) Hg Ht4 Hfit).
  - apply after_fit. unfold io_units in Hfit. unfold clusters_needed. destruct Hg as [_ _ Hk].
    set (k := s_cluster_size s / s_io_unit_size s) in *. enough ((off + len + k - 1) / k < x_clusters y + 1) by lia.
    apply Z.div_lt_upper_bound; nia.
Qed.

(** A write of the super blob gets to its transfer. *)
Lemma write_reaches s chs args fl mem nx x id y p off len n :
  geometry s → transfer s off len y → s_super s = Some id → s_blobs s !! id = Some y →
  clusters_needed s (off + len) - x_clusters y <= s_free s →
  let A := ready id (S nx) (set_a_blobid (Some id) (super_args s p off len n)) in
  ∃ k, ∀ m, (_ ← write_super_blob p off len n; serve (k + m)) (mk_world s chs args fl mem [] nx [] x) =
    serve m (during (opened id (grown id off len y s)) (S nx :: chs) args nx A fl mem
      [(the_write id A, Wb_write Super nx)] (S (S nx)) x).
Proof.
  intros Hg Ht Hs Hb Hfree A. pose proof Ht as [Ht1 Ht2 Ht4 Ht5]. pose proof Hg as [Hu Hcl Hk].
  assert (Hun : u64 (off + len) = off + len) by (apply u64_small; nia).
  set (A0 := set_a_blobid (Some id) (super_args s p off len n)).
  unfold grown. destruct (decide (io_units s y < off + len)) as [Hlack|Hfit].
  - exists 4%nat. intros m. erewrite bind_Ok by apply write_start. cbn [Nat.add].
    destruct (missing_eq s off len y A0) as (_ & Hm & Hsum & Hm0); try done.
    erewrite serve_S by (by apply got_step).
    erewrite serve_S by (apply (open_grows_step Super _ _ _ _ A0 _ _ _ _ id y);
      [done|change (io_units s y < u64 (off + len)); lia|change (missing s y A0 <= s_free s); lia]).
    rewrite Hsum.
    erewrite serve_S by (by apply (resize_step Super _ _ _ _ _ _ _ _ _ id y)).
    by erewrite serve_S by (by apply (sync_step Super _ _ _ _ _ _ _ _ _ id)).
  - exists 2%nat. intros m. erewrite bind_Ok by apply write_start. cbn [Nat.add].
    erewrite serve_S by (by apply got_step).
    by erewrite serve_S by (apply (open_fits_step Super _ _ _ _ A0 _ _ _ _ id y);
      [done|change (u64 (off + len) <= io_units s y); lia]).
Qed.

Lemma super_write_eq s chs args fl mem nx x id y p buf off len n :
  geometry s → transfer s off len y → s_super s = Some id → s_blobs s !! id = Some y → s_open s !! id ≠ Some O →
  mem !! p = Some buf → len * s_io_unit_size s <= Z.of_nat (length buf) → S nx ∉ chs → args !! nx = None →
  clusters_needed s (off + len) - x_clusters y <= s_free s →
  ∃ k, (_ ← write_super_blob (Some p) off len n; serve k) (mk_world s chs args fl mem [] nx [] x) =
    client n None 0 (mk_world (after_write id off len buf y s) chs args fl mem [] (S (S nx)) [] x).
Proof.
  intros Hg Ht Hs Hb Ho Hp Hbuf Hc Ha Hfree.
  destruct (write_reaches s chs args fl mem nx x id y (Some p) off len n Hg Ht Hs Hb Hfree) as [k Hrun].
  exists (k + 2)%nat. rewrite Hrun, <- (grown_written s id off len buf y Hg Ht).
  apply (write_finish (grown id off len y s) chs args fl mem (S nx) x id _ (set_a_blobid (Some id) (super_args s (Some p) off len n)) p buf);
    first [done | by apply grown_lookup | by rewrite grown_open | by apply grown_fits | by rewrite grown_unit | by apply Ht].
Qed.

(** A buffer that is too short for the transfer: the write is asked for all the same,
    and the device runs over the end of the buffer. *)
Lemma super_write_overruns s chs args fl mem nx x id y p buf off len n :
  geometry s → transfer s off len y → s_super s = Some id → s_blobs s !! id = Some y →
  mem !! p = Some buf → Z.of_nat (length buf) < len * s_io_unit_size s →
  clusters_needed s (off + len) - x_clusters y <= s_free s →
  ∃ k w', (_ ← write_super_blob (Some p) off len n; serve k) (mk_world s chs args fl mem [] nx [] x) = Ok (tt, w') ∧
    b_mem w' = mem ∧ b_calls w' = [(IoWrite id (Some (S nx)) (Some p) off len, Wb_write Super nx)] ∧
    complete 0 0 0 w' = Fault OutOfBounds.
Proof.
  intros Hg Ht Hs Hb Hp Hbuf Hfree.
  destruct (write_reaches s chs args fl mem nx x id y (Some p) off len n Hg Ht Hs Hb Hfree) as [k Hrun].
  specialize (Hrun O). rewrite Nat.add_0_r in Hrun. eexists k, _. split; [exact Hrun|]. do 2 (split; [done|]).
  unfold during. rewrite complete_ok. apply bind_Fault.
  set (s' := grown id off len y s).
  assert (s_blobs (opened id s') !! id = Some (grown_blob off len y s)) by (by apply grown_lookup).
  assert (is_Some (s_open (opened id s') !! id)) by (cbn -[insert]; rewrite lookup_insert_eq; by eexists).
  pose proof (grown_fits id off len y s Hg). pose proof (t_off _ _ _ _ Ht). pose proof (t_len _ _ _ _ Ht).
  unfold bs_effect, the_write. steps. apply bind_Fault. unfold buffer.
  cbn [a_payload ready set_a_channel set_a_blob set_a_blobid super_args]. steps. cbn [b_mem]. rewrite Hp. steps.
  rewrite bool_decide_false; [done|]. change (s_io_unit_size _) with (s_io_unit_size s'). unfold s'. rewrite grown_unit.
  cbn [a_length ready set_a_channel set_a_blob set_a_blobid super_args]. lia.
Qed.

Lemma read_finish s chs args fl mem nx x b y A p buf a :
  s_blobs s !! b = Some y → s_open s !! b ≠ Some O → mem !! p = Some buf → nx ∉ chs → args !! a = None →
  a_payload A = Some p → 0 <= a_offset A → 0 <= a_length A → a_offset A + a_length A <= io_units s y →
  a_length A * s_io_unit_size s <= Z.of_nat (length buf) →
  let A' := ready b nx A in
  serve 2 (during (opened b s) (nx :: chs) args a A' fl mem [(the_read b A', Rb_read Super a)] (S nx) x) =
  client (a_cb A) None 0 (mk_world s chs args fl (<[p := filled s (a_offset A) (a_length A) buf y]> mem) [] (S nx) [] x).
Proof.
  intros Hb Ho Hp Hch Ha Hpl H1 H2 H3 H4 A'.
  erewrite serve_S by (apply (read_step Super (opened b s) (nx :: chs) args a A' fl mem (S nx) x b y nx p buf);
    first [done | cbn -[insert]; rewrite lookup_insert_eq; by eexists]).
  apply serve_last. rewrite filter_fresh by done. by apply close_step.
Qed.

Definition read_args (p : nat) (off len : Z) (n : T) : io_args T := mk_io_args None None None (Some p) off len n 0 0.
Lemma read_start s chs args fl mem nx x p off len n :
  read_super_blob (Some p) off len n (mk_world s chs args fl mem [] nx [] x) =
  Ok (tt, during s chs args nx (read_args p off len n) fl mem [(GetSuper, Rb_got nx)] (S nx) x).
Proof. done. Qed.

Lemma super_read_eq s chs args fl mem nx x id y p buf off len n :
  s_super s = Some id → s_blobs s !! id = Some y → s_open s !! id ≠ Some O →
  mem !! p = Some buf → S nx ∉ chs → args !! nx = None →
  0 <= off → 0 <= len → off + len <= io_units s y → len * s_io_unit_size s <= Z.of_nat (length buf) →
  (_ ← read_super_blob (Some p) off len n; serve 4) (mk_world s chs args fl mem [] nx [] x) =
  client n None 0 (mk_world s chs args fl (<[p := filled s off len buf y]> mem) [] (S (S nx)) [] x).
Proof.
  intros Hs Hb Ho Hp Hc Ha H1 H2 H3 H4. erewrite bind_Ok by apply read_start.
  erewrite serve_S by (by apply read_got_step).
  erewrite serve_S by (by apply (read_open_step Super _ _ _ _ _ _ _ _ _ id y)).
  by erewrite (read_finish s) by
    first [eassumption | reflexivity | exact H1 | exact H2 | exact H3 | exact H4].
Qed.

(** What is read from where [buf] was written. *)
Lemma filled_written s off len buf y buf2 c xs :
  let u := s_io_unit_size s in
  0 < u → 0 <= off → 0 <= len → len * u <= Z.of_nat (length buf) → len * u <= Z.of_nat (length buf2) →
  filled s off len buf2 (mk_blob c (put_bytes (off * u) (len * u) buf (x_data y)) xs) =
  take (Z.to_nat (len * u)) buf ++ drop (Z.to_nat (len * u)) buf2.
Proof.
  intros u Hu H1 H2 H3 H4. unfold filled, get_bytes, put_bytes. cbn [x_data]. fold u.
  set (m := len * u) in *. assert (0 <= m) by (unfold m; nia). apply list_eq. intros i. rewrite list_lookup_imap.
  destruct (decide (Z.of_nat i < m)) as [Hi|Hi].
  - rewrite lookup_app_l by (rewrite length_take; lia). rewrite lookup_take_lt by lia.
    destruct (lookup_lt_is_Some_2 buf2 i ltac:(lia)) as [c' Hc]. destruct (lookup_lt_is_Some_2 buf i ltac:(lia)) as [d Hd].
    rewrite Hc, Hd. cbn [fmap option_fmap option_map]. rewrite !decide_True by lia.
    replace (Z.to_nat (off * u + Z.of_nat i - off * u)) with i by lia. exact (f_equal (λ o, Some (default None o)) Hd).
  - rewrite lookup_app_r by (rewrite length_take; lia). rewrite lookup_drop, length_take.
    replace (Z.to_nat m + (i - (Z.to_nat m `min` length buf)))%nat with i by lia.
    by destruct (buf2 !! i).
Qed.

(** C9. Writing the super blob: when every call of the chain succeeds and there is
    room, the caller is told 0; the blob has grown to the least number of clusters
    that holds the range, and by no more than was free; it has the bytes of the
    buffer in the range and its old ones elsewhere; the channel and the struct are
    released and the blob is open as often as before. *)
Theorem super_write_correct s chs args fl mem nx x id y p buf off len n :
  geometry s → transfer s off len y → s_super s = Some id → s_blobs s !! id = Some y → s_open s !! id ≠ Some O →
  mem !! p = Some buf → len * s_io_unit_size s <= Z.of_nat (length buf) → S nx ∉ chs → args !! nx = None →
  clusters_needed s (off + len) - x_clusters y <= s_free s →
  ∃ k, (_ ← write_super_blob (Some p) off len n; serve k) (mk_world s chs args fl mem [] nx [] x) =
    client n None 0 (mk_world (after_write id off len buf y s) chs args fl mem [] (S (S nx)) [] x).
Proof. apply super_write_eq. Qed.

(** C26. Reading back what was written: after a write of the super blob, a read of the
    same range leaves in the reader's buffer the bytes of the writer's, and tells the
    reader 0; nothing else differs. *)
Theorem super_roundtrip s chs args fl mem nx x id y p buf q buf2 off len n n2 :
  geometry s → transfer s off len y → s_super s = Some id → s_blobs s !! id = Some y → s_open s !! id ≠ Some O →
  mem !! p = Some buf → len * s_io_unit_size s <= Z.of_nat (length buf) → S nx ∉ chs → args !! nx = None →
  clusters_needed s (off + len) - x_clusters y <= s_free s →
  mem !! q = Some buf2 → len * s_io_unit_size s <= Z.of_nat (length buf2) →
  ∃ k s', (_ ← write_super_blob (Some p) off len n; serve k) (mk_world s chs args fl mem [] nx [] x) =
      client n None 0 (mk_world s' chs args fl mem [] (S (S nx)) [] x) ∧
    ∀ nx' x', S nx' ∉ chs → args !! nx' = None →
    let m := Z.to_nat (len * s_io_unit_size s) in
    (_ ← read_super_blob (Some q) off len n2; serve 4) (mk_world s' chs args fl mem [] nx' [] x') =
    client n2 None 0 (mk_world s' chs args fl (<[q := take m buf ++ drop m buf2]> mem) [] (S (S nx')) [] x').
Proof.
  intros Hg Ht Hs Hb Ho Hp Ht3 Hc Ha Hfree Hq Hlen. pose proof Ht as [Ht1 Ht2 Ht4 Ht5]. pose proof Hg as [Hu Hcl Hk].
  destruct (super_write_eq s chs args fl mem nx x id y p buf off len n Hg Ht Hs Hb Ho Hp Ht3 Hc Ha Hfree) as [k Hk'].
  exists k, (after_write id off len buf y s). split; [exact Hk'|]. intros nx' x' Hc' Ha' m.
  erewrite super_read_eq; [|exact Hs|apply lookup_insert_eq|exact Ho|exact Hq|done|done|done|done| |exact Hlen].
  - do 4 f_equal. exact (filled_written s off len buf y buf2 _ _ Hu Ht1 Ht2 Ht3 Hlen).
  - unfold io_units, after_write. cbn [x_clusters s_cluster_size s_io_unit_size set_s_free set_s_blobs].
    pose proof (needed_holds s (off + len) Hg). nia.
Qed.

(** A transfer that fails: the caller is told the error, but neither the I/O
    channel nor the open blob is given back, whether the chain wrote or read. *)
Theorem io_error_leaks s chs args fl mem nx x id y p off len n rc :
  s_super s = Some id → s_blobs s !! id = Some y → args !! nx = None → rc ≠ 0 → u64 (off + len) <= io_units s y →
  let failing start := (_ ← start : M (world T X) unit; _ ← serve 2; complete 0 rc 0) (mk_world s chs args fl mem [] nx [] x) in
  let told := λ A, (_ ← client n None rc; free nx) (during (opened id s) (S nx :: chs) args nx A fl mem [] (S (S nx)) x) in
  (∃ A, failing (write_super_blob (Some p) off len n) = told A) ∧ (∃ A, failing (read_super_blob (Some p) off len n) = told A).
Proof.
  intros Hs Hb Ha Hrc Hfit failing told. split; eexists; unfold failing, told.
  - erewrite bind_Ok by apply write_start. cbn [serve].
    set (A := set_a_blobid (Some id) (super_args s (Some p) off len n)). rewrite bind_assoc.
    erewrite bind_Ok by (by apply got_step). rewrite bind_assoc.
    erewrite bind_Ok by (apply (open_fits_step Super _ _ _ _ A _ _ _ _ id y); done).
    rewrite bind_ret. unfold during. rewrite complete_error by done.
    trans (io_complete nx rc (during (opened id s) (S nx :: chs) args nx (ready id (S nx) A) fl mem [] (S (S nx)) x)); [done|].
    unfold io_complete, during. steps. unfold end_with. done.
  - erewrite bind_Ok by apply read_start. cbn [serve].
    set (A := set_a_blobid (Some id) (read_args p off len n)). rewrite bind_assoc.
    erewrite bind_Ok by (by apply read_got_step). rewrite bind_assoc.
    erewrite bind_Ok by (apply (read_open_step Super _ _ _ _ A _ _ _ _ id y); done).
    rewrite bind_ret. unfold during. rewrite complete_error by done.
    trans (io_complete nx rc (during (opened id s) (S nx :: chs) args nx (ready id (S nx) A) fl mem [] (S (S nx)) x)); [done|].
    unfold io_complete, during. steps. unfold end_with. done.
Qed.

(** The chains for a given blob use what they have not set: write_normal_blob
    hands an unset buffer to the write, and read_normal_blob opens the blob of an
    unset id; neither gets to transfer anything. *)
Theorem normal_chains_undefined s chs args fl mem nx x id y p off len n :
  s_blobs s !! id = Some y → 0 <= off → 0 <= len → off + len < 2 ^ 64 → off + len <= io_units s y →
  let start := mk_world s chs args fl mem [] nx [] x in
  (_ ← write_normal_blob id p off len n; serve 2) start = Fault Uninitialised ∧
  (_ ← read_normal_blob id p off len n; serve 1) start = Fault Uninitialised.
Proof.
  intros Hb H1 H2 H3 Hfit start. split.
  - set (A := mk_io_args None (Some id) None None off len n (s_cluster_size s) (s_io_unit_size s)).
    trans (serve 2 (during s chs args nx A fl mem [(OpenBlob (Some id), Wb_open Normal nx)] (S nx) x)); [done|].
    erewrite serve_S by (apply (open_fits_step Normal _ _ _ _ A _ _ _ _ id y); [done|];
      change (u64 (off + len) <= io_units s y); by rewrite u64_small by lia).
    cbn [serve]. unfold during. rewrite (bind_Fault (complete _ _ _) _ _ Uninitialised); [done|].
    assert (is_Some (s_open (opened id s) !! id)) by (cbn -[insert]; rewrite lookup_insert_eq; by eexists).
    rewrite complete_ok. unfold bs_effect, the_write. steps. by rewrite (bind_Fault (buffer _ _) _ _ Uninitialised).
  - set (A := read_args p off len n).
    trans ((_ ← (args ← load nx; async (OpenBlob (a_blobid args)) (Rb_open Normal nx)); serve 1)
      (during s chs args nx A fl mem [] (S nx) x)); [done|].
    unfold during. steps. cbn [serve]. rewrite (bind_Fault (complete _ _ _) _ _ Uninitialised); [done|].
    trans ((value ← bs_effect (OpenBlob None) 0; dispatch (Rb_open Normal nx) value 0)
      (during s chs args nx A fl mem [] (S nx) x)); done.
Qed.
End chains.

(** ** A caller that keeps what it is told, on a small blobstore *)
#[export] Instance note_client : Client nat (list (nat * option Z * Z)) :=
  λ n v rc, modify (λ w, set_b_client (b_client w ++ [(n, v, rc)]) w).

(** Two I/O units of two bytes in a cluster; the super blob has one of three clusters. *)
Definition small_blob : blob := mk_blob 1 (λ i, Some i) ∅.
Definition small_store : bstore := mk_bstore (Some 7) {[7 := small_blob]} 2 4 2 ∅ (λ _ _, 0).
Definition six_bytes : list byte := Some <$> [10; 11; 12; 13; 14; 15].
Definition small_world : world nat (list (nat * option Z * Z)) :=
  mk_world small_store [] ∅ ∅ {[0%nat := six_bytes; 1%nat := replicate 8 None]} [] 2 [] [].

Lemma small_geometry : geometry small_store.
Proof. by split. Qed.
Lemma small_transfer : transfer small_store 1 3 small_blob.
Proof. by split. Qed.

Lemma super_write_correct_witness :
  ∃ k, (_ ← write_super_blob (Some 0%nat) 1 3 5%nat; serve k) small_world =
    client 5%nat None 0 (mk_world (after_write 7 1 3 six_bytes small_blob small_store) [] ∅ ∅
      {[0%nat := six_bytes; 1%nat := replicate 8 None]} [] 4 [] []).
Proof.
  apply (super_write_correct small_store [] ∅ ∅ _ 2 [] 7 small_blob 0 six_bytes 1 3 5%nat);
    [exact small_geometry|exact small_transfer|done|done|done|done|done|apply not_elem_of_nil|done|done].
Defined.

Lemma super_roundtrip_witness :
  ∃ k s', (_ ← write_super_blob (Some 0%nat) 1 3 5%nat; serve k) small_world =
      client 5%nat None 0 (mk_world s' [] ∅ ∅ {[0%nat := six_bytes; 1%nat := replicate 8 None]} [] 4 [] []) ∧
    ∀ nx' x', S nx' ∉ ([] : list nat) → (∅ : gmap nat (io_args nat)) !! nx' = None →
    let m := Z.to_nat (3 * s_io_unit_size small_store) in
    (_ ← read_super_blob (Some 1%nat) 1 3 6%nat; serve 4)
      (mk_world s' [] ∅ ∅ {[0%nat := six_bytes; 1%nat := replicate 8 None]} [] nx' [] x') =
    client 6%nat None 0 (mk_world s' [] ∅ ∅
      (<[1%nat := take m six_bytes ++ drop m (replicate 8 None)]> {[0%nat := six_bytes; 1%nat := replicate 8 None]})
      [] (S (S nx')) [] x').
Proof.
  apply (super_roundtrip small_store [] ∅ ∅ _ 2 [] 7 small_blob 0 six_bytes 1 (replicate 8 None) 1 3 5%nat 6%nat);
    [exact small_geometry|exact small_transfer|done|done|done|done|done|apply not_elem_of_nil|done|done|done|done].
Defined.

Lemma io_error_leaks_witness :
  let failing start := (_ ← start : M (world nat (list (nat * option Z * Z))) unit; _ ← serve 2; complete 0 (-5) 0) small_world in
  let told := λ A, (_ ← client 5%nat None (-5); free 2)
    (during (opened 7 small_store) [3%nat] ∅ 2 A ∅ {[0%nat := six_bytes; 1%nat := replicate 8 None]} [] 4 []) in
  (∃ A, failing (write_super_blob (Some 0%nat) 0 2 5%nat) = told A) ∧ (∃ A, failing (read_super_blob (Some 0%nat) 0 2 5%nat) = told A).
Proof.
  apply (io_error_leaks small_store [] ∅ ∅ _ 2 [] 7 small_blob 0 0 2 5%nat (-5)); done.
Defined.

Lemma normal_chains_undefined_witness :
  let start := small_world in
  (_ ← write_normal_blob 7 0 0 2 5%nat; serve 2) start = Fault Uninitialised ∧
  (_ ← read_normal_blob 7 0 0 2 5%nat; serve 1) start = Fault Uninitialised.
Proof.
  apply (normal_chains_undefined small_store [] ∅ ∅ _ 2 [] 7 small_blob 0 0 2 5%nat); [done|lia|lia|lia|done].
Defined.
