(* ===== verification/Nbfs2.v ===== *)
(** * The file system of NBFS2 (NBFS2/NBFS2.c)

    A blobstore whose super blob holds the hash table of files as an array of
    records.  The handlers are callbacks of the blobstore or of the chains of BlobIo,
    whose [Client] they are; a function of the user is recorded when it is called. *)
From Stdlib Require Import Ascii String.
From stdpp Require Import gmap.
From S2P Require Import Prelude.
From S2P Require HashTable.
From S2P Require Import BlobIdChar BlobIo.
Local Open Scope Z_scope.

Definition INIT_HASHTABLE_SIZE : Z := 65536.
Definition MAXFILENAME : nat := 128.
Definition ENABLE_RANDOM_RW : Z := 0.
Definition XATTR_HTS : string := "HASHTABLE_SIZE".
Definition XATTR_SPBDS : string := "SUPERBLOB_DATA_SIZE".
Definition MTHD_INIT : Z := 0.

(** A conversion to [int]. *)
Definition s32 (x : Z) : Z := let y := u32 x in if decide (y < 2 ^ 31) then y else y - 2 ^ 32.

(** ** State

    [args->fs] is the one file system of the program; what the code has not set is
    [None], and a number it has not set is any number. *)
Record _nbfs2_filesystem : Type := mk_fs {
  fs_bs : option unit;
  fs_superblob : option Z;
  fs_superblob_id : option Z;
  fs_spb_data_size : Z;
  fs_table : option unit;
  fs_ht_size : Z;
  fs_read_buff : option nat;
  fs_write_buff : option nat
}.
Record _nbfs2_file : Type := mk_file { f_blobid : option Z; f_filename : string }.
(** [n_cb] is [None] for NULL. *)
Record _nbfs2_args : Type := mk_args { n_file : option nat; n_build_mthd : Z; n_cb : option nat }.

(** The functions of NBFS2.c that are called back, with the struct they get. *)
Inductive ncallback : Type :=
| N_blob_deleted (a : nat)
| N_file_created (a : nat)
| N_unload_complete (a : nat)
| N_superblob_written (a : nat)
| N_superblob_read (a : nat)
| N_superblob_opened_load (a : nat)
| N_superblob_id_got (a : nat)
| N_bs_load_complete (a : nat)
| N_superblob_opened_init (a : nat)
| N_superblob_created (a : nat)
| N_bs_init_complete (a : nat)
| N_user (n : nat).

(** [n_ht] is the memory of the hash table, [n_stopped] the codes given to
    spdk_app_stop, [n_told] the calls of the user's functions. *)
Record nstate : Type := mk_nstate {
  n_fs : _nbfs2_filesystem;
  n_args : gmap nat _nbfs2_args;
  n_files : gmap nat _nbfs2_file;
  n_ht : HashTable.store;
  n_stopped : list Z;
  n_told : list (nat * Z)
}.
Definition nworld : Type := world ncallback nstate.

Definition set_fs_bs x f : _nbfs2_filesystem := mk_fs x (fs_superblob f) (fs_superblob_id f) (fs_spb_data_size f) (fs_table f) (fs_ht_size f) (fs_read_buff f) (fs_write_buff f).
Definition set_fs_superblob x f : _nbfs2_filesystem := mk_fs (fs_bs f) x (fs_superblob_id f) (fs_spb_data_size f) (fs_table f) (fs_ht_size f) (fs_read_buff f) (fs_write_buff f).
Definition set_fs_superblob_id x f : _nbfs2_filesystem := mk_fs (fs_bs f) (fs_superblob f) x (fs_spb_data_size f) (fs_table f) (fs_ht_size f) (fs_read_buff f) (fs_write_buff f).
Definition set_fs_spb_data_size x f : _nbfs2_filesystem := mk_fs (fs_bs f) (fs_superblob f) (fs_superblob_id f) x (fs_table f) (fs_ht_size f) (fs_read_buff f) (fs_write_buff f).
Definition set_fs_table x f : _nbfs2_filesystem := mk_fs (fs_bs f) (fs_superblob f) (fs_superblob_id f) (fs_spb_data_size f) x (fs_ht_size f) (fs_read_buff f) (fs_write_buff f).
Definition set_fs_ht_size x f : _nbfs2_filesystem := mk_fs (fs_bs f) (fs_superblob f) (fs_superblob_id f) (fs_spb_data_size f) (fs_table f) x (fs_read_buff f) (fs_write_buff f).
Definition set_fs_read_buff x f : _nbfs2_filesystem := mk_fs (fs_bs f) (fs_superblob f) (fs_superblob_id f) (fs_spb_data_size f) (fs_table f) (fs_ht_size f) x (fs_write_buff f).
Definition set_fs_write_buff x f : _nbfs2_filesystem := mk_fs (fs_bs f) (fs_superblob f) (fs_superblob_id f) (fs_spb_data_size f) (fs_table f) (fs_ht_size f) (fs_read_buff f) x.

Definition set_n_fs x (s : nstate) : nstate := mk_nstate x (n_args s) (n_files s) (n_ht s) (n_stopped s) (n_told s).
Definition set_n_args x (s : nstate) : nstate := mk_nstate (n_fs s) x (n_files s) (n_ht s) (n_stopped s) (n_told s).
Definition set_n_files x (s : nstate) : nstate := mk_nstate (n_fs s) (n_args s) x (n_ht s) (n_stopped s) (n_told s).
Definition set_n_ht x (s : nstate) : nstate := mk_nstate (n_fs s) (n_args s) (n_files s) x (n_stopped s) (n_told s).
Definition set_n_stopped x (s : nstate) : nstate := mk_nstate (n_fs s) (n_args s) (n_files s) (n_ht s) x (n_told s).
Definition set_n_told x (s : nstate) : nstate := mk_nstate (n_fs s) (n_args s) (n_files s) (n_ht s) (n_stopped s) x.

(** ** Primitives *)
Definition gets_n {A} (f : nstate → A) : M nworld A := gets (λ w, f (b_client w)).
Definition modify_n (f : nstate → nstate) : M nworld unit := modify (λ w, set_b_client (f (b_client w)) w).
Definition upd_fs (f : _nbfs2_filesystem → _nbfs2_filesystem) : M nworld unit := modify_n (λ s, set_n_fs (f (n_fs s)) s).
Definition load_args (a : nat) : M nworld _nbfs2_args := m ← gets_n n_args; of_option UseAfterFree (m !! a).
Definition save_args (a : nat) (x : _nbfs2_args) : M nworld unit := modify_n (λ s, set_n_args (<[a := x]> (n_args s)) s).
Definition load_file (i : nat) : M nworld _nbfs2_file := m ← gets_n n_files; of_option UseAfterFree (m !! i).
Definition save_file (i : nat) (x : _nbfs2_file) : M nworld unit := modify_n (λ s, set_n_files (<[i := x]> (n_files s)) s).
Definition spdk_app_stop (rc : Z) : M nworld unit := modify_n (λ s, set_n_stopped (n_stopped s ++ [rc]) s).
(** [args->file] *)
Definition file_of (a : nat) : M nworld nat := x ← load_args a; of_option Uninitialised (n_file x).
(** [args->cb_fn(args->cb_arg, rc)] *)
Definition tell (a : nat) (rc : Z) : M nworld unit :=
  x ← load_args a;
  n ← of_option NullDeref (n_cb x);
  modify_n (λ s, set_n_told (n_told s ++ [(n, rc)]) s).
Definition set_callback (a : nat) (cb : option nat) : M nworld unit :=
  x ← load_args a; save_args a (mk_args (n_file x) (n_build_mthd x) cb).
(** An operation of the hash table, on [args->fs->table]. *)
Definition on_table {A} (m : M HashTable.store A) : M nworld A :=
  f ← gets_n n_fs;
  _ ← of_option Uninitialised (fs_table f);
  w ← get;
  match m (n_ht (b_client w)) with
  | Ok (x, t) => _ ← modify_n (set_n_ht t); mret x
  | Fault e => fail e
  end.
Definition bs_call (c : call) (cb : ncallback) : M nworld unit :=
  f ← gets_n n_fs; _ ← of_option Uninitialised (fs_bs f); async c (User cb).
Definition set_xattr (name : string) (v : Z) : M nworld unit :=
  f ← gets_n n_fs;
  b ← of_option Uninitialised (fs_superblob f);
  x ← load_blob b;
  upd_store (λ s, set_s_blobs (<[b := mk_blob (x_clusters x) (x_data x) (<[name := v]> (x_xattrs x))]> (s_blobs s)) s).
(** What [spdk_blob_get_xattr_value] stores through its [value] argument: the address
    of the value; [None] when there is no such attribute. *)
Definition get_xattr_value (name : string) : M nworld (option Z) :=
  f ← gets_n n_fs;
  b ← of_option Uninitialised (fs_superblob f);
  x ← load_blob b;
  s ← gets b_store;
  mret (if decide (is_Some (x_xattrs x !! name)) then Some (s_xattr_addr s b name) else None).
(** ** A record of the super blob: struct _nbfs2_super_block_meta_data as its bytes *)
Definition RECORD_SIZE : nat := 136.
Fixpoint bytes_of (n : nat) (x : Z) : list byte :=
  match n with O => [] | S n' => Some (x mod 256) :: bytes_of n' (x / 256) end.
Fixpoint number_of (l : list byte) : option Z :=
  match l with
  | [] => Some 0
  | None :: _ => None
  | Some b :: l' => x ← number_of l'; mret (b + 256 * x)
  end.
Definition char_byte (c : Ascii.ascii) : byte := Some (Z.of_nat (Ascii.nat_of_ascii c)).
Fixpoint string_bytes (s : string) : list byte :=
  match s with EmptyString => [Some 0] | String c s' => char_byte c :: string_bytes s' end.
(** The C string at the start of [l]. *)
Fixpoint read_string (l : list byte) : M nworld string :=
  match l with
  | [] => fail OutOfBounds
  | None :: _ => fail Uninitialised
  | Some b :: l' =>
      if decide (b = 0) then mret EmptyString else
      s ← read_string l'; mret (String (Ascii.ascii_of_nat (Z.to_nat b)) s)
  end.
(** [strcpy(spb_mdata->name, key)], over the first bytes of the field. *)
Definition put_name (k : string) (r : list byte) : M nworld (list byte) :=
  _ ← guard_or StringOverflow (bool_decide (String.length k < MAXFILENAME)%nat);
  mret (take 8 r ++ string_bytes k ++ drop (8 + S (String.length k)) r).
Definition put_blobid (id : Z) (r : list byte) : list byte := bytes_of 8 id ++ drop 8 r.

(** [memcpy(buff + offset, spb_mdata, RECORD_SIZE)] *)
Definition splice (offset : nat) (r buf : list byte) : list byte := take offset buf ++ r ++ drop (offset + length r) buf.
Definition write_bytes (p : option nat) (offset : nat) (r : list byte) : M nworld unit :=
  p ← of_option NullDeref p;
  m ← gets b_mem;
  buf ← of_option UseAfterFree (m !! p);
  _ ← guard_or OutOfBounds (bool_decide (offset + length r <= length buf)%nat);
  modify (λ w, set_b_mem (<[p := splice offset r buf]> (b_mem w)) w).
Definition read_bytes (p : option nat) (offset n : nat) : M nworld (list byte) :=
  p ← of_option NullDeref p;
  m ← gets b_mem;
  buf ← of_option UseAfterFree (m !! p);
  _ ← guard_or OutOfBounds (bool_decide (offset + n <= length buf)%nat);
  mret (take n (drop offset buf)).

(** ** Operations *)
Section handlers.
Context `{Client ncallback nstate}.

Definition _nbfs2_blob_deleted (a : nat) (rc : Z) : M nworld unit :=
  if decide (rc ≠ 0) then spdk_app_stop (-1) else
  i ← file_of a;
  f ← load_file i;
  id ← of_option Uninitialised (f_blobid f);
  _ ← on_table (HashTable.ht_delete (blobid2char id));
  upd_fs (λ fs, set_fs_spb_data_size (u64 (fs_spb_data_size fs - Z.of_nat RECORD_SIZE)) fs).

(** [strcpy(blobid_string, ht_search(table, filename))], and the id it stands for. *)
Definition search_blobid (filename : string) : M nworld Z :=
  o ← on_table (HashTable.ht_search filename);
  v ← of_option NullDeref o;
  _ ← guard_or StringOverflow (bool_decide (strlen v < BLOBID_STRING_LEN));
  mret (char2blobid v).

Definition nbfs2_delete_file (a : nat) (filename : string) (cb : option nat) : M nworld unit :=
  _ ← set_callback a cb;
  id ← search_blobid filename;
  i ← file_of a;
  _ ← load_file i;
  _ ← save_file i (mk_file (Some id) filename);
  bs_call (DeleteBlob id) (N_blob_deleted a).

(** The buffer of the user is [buffer]. *)
Definition nbfs2_read_file (a : nat) (buffer : nat) (length : Z) (n : nat) : M nworld unit :=
  i ← file_of a;
  f ← load_file i;
  id ← of_option Uninitialised (f_blobid f);
  read_normal_blob id buffer ENABLE_RANDOM_RW length (N_user n).
Definition nbfs2_write_file (a : nat) (buffer : nat) (length : Z) (n : nat) : M nworld unit :=
  i ← file_of a;
  f ← load_file i;
  id ← of_option Uninitialised (f_blobid f);
  write_normal_blob id buffer ENABLE_RANDOM_RW length (N_user n).

Definition nbfs2_open_file_sync (a : nat) (filename : string) : M nworld unit :=
  id ← search_blobid filename;
  i ← file_of a;
  _ ← load_file i;
  save_file i (mk_file (Some id) filename).

Definition _nbfs2_file_created (a : nat) (id rc : Z) : M nworld unit :=
  if decide (rc ≠ 0) then _ ← tell a rc; spdk_app_stop (-1) else
  i ← file_of a;
  f ← load_file i;
  _ ← save_file i (mk_file (Some id) (f_filename f));
  _ ← on_table (HashTable.ht_insert (f_filename f) (blobid2char id));
  _ ← upd_fs (λ fs, set_fs_spb_data_size (u64 (fs_spb_data_size fs + Z.of_nat RECORD_SIZE)) fs);
  tell a 0.
Definition nbfs2_create_file (a : nat) (filename : string) (cb : option nat) : M nworld unit :=
  _ ← set_callback a cb;
  ok ← malloc_ok;
  if negb (ok : bool) then _ ← tell a (- ENOMEM); spdk_app_stop (-1) else
  i ← fresh;
  x ← load_args a;
  _ ← save_args a (mk_args (Some i) (n_build_mthd x) (n_cb x));
  _ ← save_file i (mk_file None filename);
  bs_call CreateBlob (N_file_created a).

(** ** Unloading *)
Definition _nbfs2_unload_complete (a : nat) (rc : Z) : M nworld unit :=
  if decide (rc ≠ 0) then _ ← tell a rc; spdk_app_stop (-1) else
  f ← gets_n n_fs;
  _ ← free_buffer (fs_write_buff f);
  _ ← free_buffer (fs_read_buff f);
  _ ← tell a 0;
  spdk_app_stop 0.
Definition _nbfs2_superblob_written (a : nat) (rc : Z) : M nworld unit :=
  if decide (rc ≠ 0) then _ ← tell a rc; spdk_app_stop (-1) else
  bs_call UnloadBs (N_unload_complete a).

(** The record being filled, the records so far, and the offset of the next. *)
Record cursor : Type := mk_cursor { spb_mdata : list byte; mdata_num : Z; offset : nat }.
(** The [int]s of the loops do not overflow. *)
Definition in_int (x : Z) : M nworld unit := guard_or OutOfBounds (bool_decide (x < 2 ^ 31)).
Definition write_item (i : nat) (c : cursor) : M nworld cursor :=
  x ← on_table (HashTable.load_item i);
  r ← put_name (HashTable.key x) (spb_mdata c);
  let r := put_blobid (char2blobid (HashTable.value x)) r in
  f ← gets_n n_fs;
  _ ← write_bytes (fs_write_buff f) (offset c) r;
  _ ← in_int (Z.of_nat (offset c + RECORD_SIZE));
  mret (mk_cursor r (mdata_num c + 1) (offset c + RECORD_SIZE)).
Fixpoint write_list (fuel : nat) (head : option nat) (c : cursor) : M nworld cursor :=
  match head with
  | None => mret c
  | Some h =>
      match fuel with
      | O => fail OutOfFuel
      | S fuel' =>
          n ← on_table (HashTable.load_node h);
          i ← of_option NullDeref (HashTable.item n);
          c ← write_item i c;
          write_list fuel' (HashTable.next n) c
      end
  end.
Definition write_bucket (index : Z) (c : cursor) : M nworld cursor :=
  o ← on_table (HashTable.item_at index);
  match o with
  | None => mret c
  | Some i =>
      c ← write_item i c;
      head ← on_table (HashTable.bucket_at index);
      m ← on_table (gets HashTable.st_nodes);
      write_list (S (base.size m)) head c
  end.
(** [for (i = 0; i < n; i++)], from [i]. *)
Fixpoint write_buckets (n : nat) (i : Z) (c : cursor) : M nworld cursor :=
  match n with O => mret c | S n' => c ← write_bucket i c; write_buckets n' (i + 1) c end.

Definition _nbfs2_write_htable (a : nat) : M nworld unit :=
  ok ← malloc_ok;
  if negb (ok : bool) then _ ← tell a (- ENOMEM); spdk_app_stop (-1) else
  f ← gets_n n_fs;
  _ ← of_option Uninitialised (fs_table f);
  c ← write_buckets (Z.to_nat (fs_ht_size f)) 0 (mk_cursor (replicate RECORD_SIZE None) 0 0);
  let data_size := u64 (mdata_num c * Z.of_nat RECORD_SIZE) in
  _ ← upd_fs (set_fs_spb_data_size data_size);
  _ ← set_xattr XATTR_HTS (fs_ht_size f);
  _ ← set_xattr XATTR_SPBDS data_size;
  f ← gets_n n_fs;
  _ ← of_option Uninitialised (fs_bs f);
  write_super_blob (fs_write_buff f) 0 (fs_spb_data_size f) (N_superblob_written a).
Definition nbfs2_unload_fs (a : nat) (cb : option nat) : M nworld unit :=
  _ ← set_callback a cb;
  f ← gets_n n_fs;
  p ← alloc_buffer (fs_spb_data_size f);
  _ ← upd_fs (set_fs_write_buff p);
  _nbfs2_write_htable a.

(** ** Loading *)
Definition parse_record (r : list byte) : M nworld (Z * string) :=
  id ← of_option Uninitialised (number_of (take 8 r));
  name ← read_string (drop 8 r);
  mret (id, name).
(** The turns [i], ..., [i + n - 1] of the loop; [false] when it returned early. *)
Fixpoint read_records (n : nat) (off : nat) : M nworld bool :=
  match n with
  | O => mret true
  | S n' =>
      f ← gets_n n_fs;
      r ← read_bytes (fs_read_buff f) off RECORD_SIZE;
      _ ← in_int (Z.of_nat (off + RECORD_SIZE));
      ok ← malloc_ok;
      if negb (ok : bool) then _ ← spdk_app_stop (-1); mret false else
      '(id, name) ← parse_record r;
      _ ← on_table (HashTable.ht_insert name (blobid2char id));
      read_records n' (off + RECORD_SIZE)
  end.
Definition _nbfs2_build_htable (a : nat) : M nworld unit :=
  ok ← malloc_ok;
  if negb (ok : bool) then _ ← tell a (- ENOMEM); spdk_app_stop (-1) else
  f ← gets_n n_fs;
  let n := s32 (fs_spb_data_size f / Z.of_nat RECORD_SIZE) in
  done ← read_records (Z.to_nat n) 0;
  if (done : bool) then tell a 0 else mret tt.
Definition _nbfs2_superblob_read (a : nat) (rc : Z) : M nworld unit :=
  if decide (rc ≠ 0) then _ ← tell a rc; spdk_app_stop (-1) else _nbfs2_build_htable a.
(** [value] of spdk_blob_get_xattr_value is the address of the field, so that a pointer is stored
    there: 4 of its bytes in [ht_size] and the others in the padding behind it. *)
Definition _nbfs2_superblob_opened_load (a : nat) (blb rc : Z) : M nworld unit :=
  if decide (rc ≠ 0) then _ ← tell a rc; spdk_app_stop (-1) else
  _ ← upd_fs (set_fs_superblob (Some blb));
  o ← get_xattr_value XATTR_HTS;
  _ ← (match o with Some v => upd_fs (set_fs_ht_size (u32 v)) | None => mret tt end);
  f ← gets_n n_fs;
  _ ← upd_fs (set_fs_table (Some tt));
  _ ← on_table (HashTable.create_table (s32 (fs_ht_size f)));
  o ← get_xattr_value XATTR_SPBDS;
  _ ← (match o with Some v => upd_fs (set_fs_spb_data_size v) | None => mret tt end);
  f ← gets_n n_fs;
  p ← alloc_buffer (fs_spb_data_size f);
  _ ← upd_fs (set_fs_read_buff p);
  f ← gets_n n_fs;
  _ ← of_option Uninitialised (fs_bs f);
  read_super_blob (fs_read_buff f) 0 (fs_spb_data_size f) (N_superblob_read a).
Definition _nbfs2_superblob_id_got (a : nat) (id rc : Z) : M nworld unit :=
  if decide (rc ≠ 0) then _ ← tell a rc; spdk_app_stop (-1) else
  _ ← upd_fs (set_fs_superblob_id (Some id));
  bs_call (OpenBlob (Some id)) (N_superblob_opened_load a).
Definition _nbfs2_bs_load_complete (a : nat) (rc : Z) : M nworld unit :=
  if decide (rc ≠ 0) then _ ← tell a rc; spdk_app_stop (-1) else
  _ ← upd_fs (set_fs_bs (Some tt));
  bs_call GetSuper (N_superblob_id_got a).

(** ** Initialising *)
Definition _nbfs2_superblob_opened_init (a : nat) (blb rc : Z) : M nworld unit :=
  if decide (rc ≠ 0) then _ ← tell a rc; spdk_app_stop (-1) else
  _ ← upd_fs (set_fs_superblob (Some blb));
  _ ← upd_fs (set_fs_ht_size INIT_HASHTABLE_SIZE);
  _ ← set_xattr XATTR_HTS INIT_HASHTABLE_SIZE;
  _ ← upd_fs (set_fs_table (Some tt));
  _ ← on_table (HashTable.create_table (s32 INIT_HASHTABLE_SIZE));
  tell a 0.
Definition _nbfs2_superblob_created (a : nat) (id : option Z) (rc : Z) : M nworld unit :=
  if decide (rc ≠ 0) then _ ← tell a rc; spdk_app_stop (-1) else
  _ ← upd_fs (set_fs_superblob_id id);
  bs_call (OpenBlob id) (N_superblob_opened_init a).
Definition _nbfs2_bs_init_complete (a : nat) (rc : Z) : M nworld unit :=
  if decide (rc ≠ 0) then _ ← tell a rc; spdk_app_stop (-1) else
  _ ← upd_fs (set_fs_bs (Some tt));
  create_super_blob (N_superblob_created a).

Definition nbfs2_build_fs (a : nat) (cb : option nat) : M nworld unit :=
  _ ← set_callback a cb;
  x ← load_args a;
  if decide (n_build_mthd x = MTHD_INIT) then async InitBs (User (N_bs_init_complete a))
  else async LoadBs (User (N_bs_load_complete a)).
(** [created] is the result of creating the block device. *)
Definition _nbfs2_start (a : nat) (created : Z) : M nworld unit :=
  if decide (created ≠ 0) then spdk_app_stop (-1) else nbfs2_build_fs a None.
(** The struct that [main] makes of its third argument. *)
Definition main_args (argv3 : string) : _nbfs2_args := mk_args None (strcmp argv3 "init") None.

(** ** Callbacks *)
Definition ndispatch (cb : ncallback) (value : option Z) (rc : Z) : M nworld unit :=
  match cb with
  | N_blob_deleted a => _nbfs2_blob_deleted a rc
  | N_file_created a => _nbfs2_file_created a (default 0 value) rc
  | N_unload_complete a => _nbfs2_unload_complete a rc
  | N_superblob_written a => _nbfs2_superblob_written a rc
  | N_superblob_read a => _nbfs2_superblob_read a rc
  | N_superblob_opened_load a => _nbfs2_superblob_opened_load a (default 0 value) rc
  | N_superblob_id_got a => _nbfs2_superblob_id_got a (default 0 value) rc
  | N_bs_load_complete a => _nbfs2_bs_load_complete a rc
  | N_superblob_opened_init a => _nbfs2_superblob_opened_init a (default 0 value) rc
  | N_superblob_created a => _nbfs2_superblob_created a value rc
  | N_bs_init_complete a => _nbfs2_bs_init_complete a rc
  | N_user n => modify_n (λ s, set_n_told (n_told s ++ [(n, rc)]) s)
  end.
End handlers.

(** A callback calls another only when the start of a chain fails, and that one
    none: three levels are enough. *)
Fixpoint nclient (n : nat) : Client ncallback nstate :=
  match n with
  | O => λ _ _ _, fail OutOfFuel
  | S n' => @ndispatch (nclient n')
  end.
#[export] Instance nbfs2_client : Client ncallback nstate := nclient 3.
