(* ===== verification/Nbfs2Exec.v ===== *)
(** * Single operations of the file system of NBFS2 on known worlds

    And the tactic [nsteps], which runs a handler by them and by those of blob I/O. *)
From stdpp Require Import gmap.
From S2P Require Import Prelude.
From S2P Require HashTable.
From S2P Require Import BlobIo BlobIoExec Nbfs2.
Local Open Scope Z_scope.

Ltac nstep :=
  cbv beta iota zeta;
  lazymatch goal with
  | |- (gets_n ?g ≫= ?f) ?w = _ => change ((gets_n g ≫= f) w) with (f (g (b_client w)) w)
  | |- (modify_n ?g ≫= ?f) ?w = _ => change ((modify_n g ≫= f) w) with (f tt (set_b_client (g (b_client w)) w))
  | |- (upd_fs ?g ≫= ?f) ?w = _ =>
      change ((upd_fs g ≫= f) w) with (f tt (set_b_client (set_n_fs (g (n_fs (b_client w))) (b_client w)) w))
  | |- _ => step
  end.
Ltac nsteps := repeat nstep; cbv beta iota zeta.

(** ** Operations of the table, seen from the file system *)
Definition with_ht (t : HashTable.store) (w : nworld) : nworld := set_b_client (set_n_ht t (b_client w)) w.
Lemma on_table_eq {A} (m : M HashTable.store A) (w : nworld) x t :
  fs_table (n_fs (b_client w)) = Some tt → m (n_ht (b_client w)) = Ok (x, t) → on_table m w = Ok (x, with_ht t w).
Proof.
  intros Ht Hm. unfold on_table. change ((gets_n n_fs ≫= ?f) w) with (f (n_fs (b_client w)) w). cbv beta. rewrite Ht.
  change ((of_option Uninitialised (Some tt) ≫= ?f) w) with (f tt w). cbv beta.
  change ((get ≫= ?f) w) with (f w w). cbv beta. by rewrite Hm.
Qed.
Lemma with_ht_same w : with_ht (n_ht (b_client w)) w = w.
Proof. destruct w as [? ? ? ? ? ? ? ? []]; done. Qed.
Lemma on_table_read {A} (m : M HashTable.store A) (w : nworld) x :
  fs_table (n_fs (b_client w)) = Some tt → m (n_ht (b_client w)) = Ok (x, n_ht (b_client w)) → on_table m w = Ok (x, w).
Proof. intros Ht Hm. rewrite (on_table_eq m w x _ Ht Hm). by rewrite with_ht_same. Qed.

(** ** Objects *)
(** [args->file] set to [filename] and its id. *)
Definition with_file (i : nat) (f : _nbfs2_file) (w : nworld) : nworld :=
  set_b_client (set_n_files (<[i := f]> (n_files (b_client w))) (b_client w)) w.
Definition with_xattr (sb : Z) (name : string) (v : Z) (y : blob) (s : bstore) : bstore :=
  set_s_blobs (<[sb := mk_blob (x_clusters y) (x_data y) (<[name := v]> (x_xattrs y))]> (s_blobs s)) s.

Lemma set_xattr_run name v (w : nworld) sb y :
  fs_superblob (n_fs (b_client w)) = Some sb → s_blobs (b_store w) !! sb = Some y →
  set_xattr name v w = Ok (tt, set_b_store (with_xattr sb name v y (b_store w)) w).
Proof.
  intros Hf Hb. unfold set_xattr. change ((gets_n n_fs ≫= ?f) w) with (f (n_fs (b_client w)) w). cbv beta. rewrite Hf.
  by steps.
Qed.

Lemma told_eq a x n rc (w : nworld) :
  n_args (b_client w) !! a = Some x → n_cb x = Some n →
  tell a rc w = Ok (tt, set_b_client (set_n_told (n_told (b_client w) ++ [(n, rc)]) (b_client w)) w).
Proof.
  intros Ha Hn. unfold tell, load_args. rewrite bind_assoc.
  change ((gets_n n_args ≫= ?f) w) with (f (n_args (b_client w)) w). cbv beta. rewrite Ha.
  change ((of_option UseAfterFree (Some x) ≫= ?f) w) with (f x w). cbv beta. by rewrite Hn.
Qed.

Lemma file_of_eq a x i (w : nworld) : n_args (b_client w) !! a = Some x → n_file x = Some i → file_of a w = Ok (i, w).
Proof.
  intros Ha Hi. unfold file_of, load_args. rewrite bind_assoc.
  change ((gets_n n_args ≫= ?f) w) with (f (n_args (b_client w)) w). cbv beta. rewrite Ha.
  change ((of_option UseAfterFree (Some x) ≫= ?f) w) with (f x w). cbv beta. by rewrite Hi.
Qed.

Lemma file_loaded i f (w : nworld) : n_files (b_client w) !! i = Some f → load_file i w = Ok (f, w).
Proof.
  intros Hi. unfold load_file. change ((gets_n n_files ≫= ?f) w) with (f (n_files (b_client w)) w). cbv beta. by rewrite Hi.
Qed.

Lemma set_callback_eq a x cb (w : nworld) :
  n_args (b_client w) !! a = Some x →
  set_callback a cb w =
  Ok (tt, set_b_client (set_n_args (<[a := mk_args (n_file x) (n_build_mthd x) cb]> (n_args (b_client w))) (b_client w)) w).
Proof.
  intros Ha. unfold set_callback, load_args. rewrite bind_assoc.
  change ((gets_n n_args ≫= ?f) w) with (f (n_args (b_client w)) w). cbv beta. by rewrite Ha.
Qed.

Lemma bind_unit (m : M nworld unit) w : (_ ← m; mret tt) w = m w.
Proof. unfold mbind, M_bind. by destruct (m w) as [[[] ?]|]. Qed.
