(* ===== verification/Nbfs2Records.v ===== *)
(** * Records of the super blob: bytes and back

    What [put_name] and [put_blobid] make of a record, whatever it held, and that
    [parse_record] gets the id and the name out again. *)
From Stdlib Require Import Ascii String.
From S2P Require Import Prelude BlobIo Nbfs2.
Local Open Scope Z_scope.

(** A C string has no NUL inside. *)
Fixpoint no_nul (s : string) : Prop :=
  match s with EmptyString => True | String c s' => c ≠ Ascii.zero ∧ no_nul s' end.
#[export] Instance no_nul_dec s : Decision (no_nul s).
Proof. induction s; simpl; apply _. Defined.

Lemma length_bytes_of n : ∀ x, length (bytes_of n x) = n.
Proof. induction n as [|n IH]; intros x; simpl; [done|]. by rewrite IH. Qed.
Lemma length_string_bytes s : length (string_bytes s) = S (String.length s).
Proof. induction s as [|c s IH]; simpl; [done|]. by rewrite IH. Qed.

Lemma number_of_bytes n : ∀ x, 0 <= x → number_of (bytes_of n x) = Some (x mod 256 ^ Z.of_nat n).
Proof.
  induction n as [|n IH]; intros x Hx; cbn [bytes_of number_of]; [by rewrite Z.mod_1_r|].
  rewrite IH by (apply Z.div_pos; lia). cbn [mbind option_bind mret option_ret]. f_equal.
  rewrite Nat2Z.inj_succ, Z.pow_succ_r by lia. rewrite Z.rem_mul_r by lia. lia.
Qed.

Lemma char_of_byte c : Ascii.ascii_of_nat (Z.to_nat (Z.of_nat (Ascii.nat_of_ascii c))) = c.
Proof. rewrite Nat2Z.id. apply Ascii.ascii_nat_embedding. Qed.
Lemma char_not_nul c : c ≠ Ascii.zero → Z.of_nat (Ascii.nat_of_ascii c) ≠ 0.
Proof. intros Hc H0. apply Hc. rewrite <- (char_of_byte c), H0. done. Qed.

Lemma read_string_bytes s r w : no_nul s → read_string (string_bytes s ++ r) w = Ok (s, w).
Proof.
  induction s as [|c s IH]; intros Hs; [done|]. destruct Hs as [Hc Hs].
  cbn [string_bytes app read_string char_byte]. rewrite decide_False by (by apply char_not_nul).
  rewrite (bind_Ok _ _ _ _ _ (IH Hs)). by rewrite char_of_byte.
Qed.

(** The record with name [k] and the id that [v] stands for, where [r] was. *)
Definition with_name (k : string) (r : list byte) : list byte :=
  take 8 r ++ string_bytes k ++ drop (8 + S (String.length k)) r.
Definition next_record (r : list byte) (k : string) (id : Z) : list byte := put_blobid id (with_name k r).

Lemma length_next_record r k id :
  length r = RECORD_SIZE → (String.length k < MAXFILENAME)%nat → length (next_record r k id) = RECORD_SIZE.
Proof.
  intros Hr Hk. unfold next_record, put_blobid, with_name, RECORD_SIZE, MAXFILENAME in *.
  rewrite length_app, length_drop, !length_app, length_take, length_drop, length_bytes_of, length_string_bytes. lia.
Qed.

Lemma parse_next_record r k id w :
  length r = RECORD_SIZE → no_nul k → 0 <= id < 2 ^ 64 →
  parse_record (next_record r k id) w = Ok ((id, k), w).
Proof.
  intros Hr Hk Hid. unfold parse_record, next_record, put_blobid, RECORD_SIZE in *.
  rewrite take_app_length' by (by rewrite length_bytes_of). rewrite number_of_bytes by lia.
  rewrite Z.mod_small by (change (256 ^ Z.of_nat 8) with (2 ^ 64); lia).
  rewrite drop_app_length' by (by rewrite length_bytes_of). unfold with_name.
  rewrite drop_app_length' by (rewrite length_take; lia).
  change ((of_option Uninitialised (Some id) ≫= ?f) w) with (f id w). cbv beta.
  by rewrite (bind_Ok _ _ _ _ _ (read_string_bytes k _ w Hk)).
Qed.

(** ** A buffer filled with pieces *)
Lemma length_splice off r buf : (off + length r <= length buf)%nat → length (splice off r buf) = length buf.
Proof. intros H. unfold splice. rewrite !length_app, length_take, length_drop. lia. Qed.

Lemma splice_splice off a b buf :
  (off + length a + length b <= length buf)%nat →
  splice (off + length a) b (splice off a buf) = splice off (a ++ b) buf.
Proof.
  intros H. unfold splice. rewrite length_app.
  assert (Hta : length (take off buf ++ a) = (off + length a)%nat) by (rewrite length_app, length_take; lia).
  assert (take (off + length a) (take off buf ++ a ++ drop (off + length a) buf) = take off buf ++ a) as ->.
  { rewrite (app_assoc (take off buf)). by rewrite take_app_length' by done. }
  assert (drop (off + length a + length b) (take off buf ++ a ++ drop (off + length a) buf) = drop (off + (length a + length b)) buf) as ->.
  { rewrite (app_assoc (take off buf)). rewrite drop_app_ge by lia. rewrite Hta, drop_drop. f_equal. lia. }
  by rewrite <- !app_assoc.
Qed.
Lemma splice_nil off buf : splice off [] buf = buf.
Proof. unfold splice. cbn. rewrite Nat.add_0_r. apply take_drop. Qed.
(** What is read back from where it was put. *)
Lemma read_splice off r buf : (off + length r <= length buf)%nat → take (length r) (drop off (splice off r buf)) = r.
Proof.
  intros H. unfold splice. rewrite drop_app_length' by (rewrite length_take; lia). by rewrite take_app_length'.
Qed.
