(* ===== verification/Nbfs2Unload.v ===== *)
(** * Writing the hash table into the write buffer

    [write_buckets] puts one record for every binding of every bucket into the buffer,
    one after the other, and changes nothing else. *)
From stdpp Require Import gmap.
From S2P Require Import Prelude.
From S2P Require HashTable.
From S2P Require Import HashTableProofs BlobIdChar BlobIo Nbfs2 Nbfs2Exec Nbfs2Records.
Local Open Scope Z_scope.

Notation bindings := (list (string * string)) (only parsing).

(** ** Records in a row *)
Fixpoint image (r : list byte) (l : bindings) : list byte :=
  match l with
  | [] => []
  | (k, v) :: l' => let r' := next_record r k (char2blobid v) in r' ++ image r' l'
  end.
Fixpoint last_record (r : list byte) (l : bindings) : list byte :=
  match l with [] => r | (k, v) :: l' => last_record (next_record r k (char2blobid v)) l' end.
Definition advance (c : cursor) (l : bindings) : cursor :=
  mk_cursor (last_record (spb_mdata c) l) (mdata_num c + Z.of_nat (length l)) (offset c + RECORD_SIZE * length l).
Definition names_fit (l : bindings) : Prop := Forall (λ kv, String.length kv.1 < MAXFILENAME)%nat l.

Lemma image_app l1 l2 : ∀ r, image r (l1 ++ l2) = image r l1 ++ image (last_record r l1) l2.
Proof. induction l1 as [|[k v] l1 IH]; intros r; simpl; [done|]. by rewrite IH, app_assoc. Qed.
Lemma last_record_app l1 l2 : ∀ r, last_record r (l1 ++ l2) = last_record (last_record r l1) l2.
Proof. induction l1 as [|[k v] l1 IH]; intros r; simpl; done. Qed.
Lemma advance_app c l1 l2 : advance (advance c l1) l2 = advance c (l1 ++ l2).
Proof. unfold advance. cbn [spb_mdata mdata_num offset]. rewrite last_record_app, length_app. f_equal; lia. Qed.
Lemma advance_nil c : advance c [] = c.
Proof. unfold advance. destruct c as [r m o]; cbn [length last_record spb_mdata mdata_num offset]. f_equal; lia. Qed.
Lemma length_image l : ∀ r, length r = RECORD_SIZE → names_fit l →
  length (image r l) = (RECORD_SIZE * length l)%nat ∧ length (last_record r l) = RECORD_SIZE.
Proof.
  induction l as [|[k v] l IH]; intros r Hr Hl; [done|]. apply Forall_cons in Hl as [Hk Hl]. cbn [image last_record].
  pose proof (length_next_record r k (char2blobid v) Hr Hk) as Hn. destruct (IH _ Hn Hl) as [Hi Hlast].
  split; [|done]. rewrite length_app, Hn, Hi. cbn [length]. lia.
Qed.

(** ** The loops *)
Section unload.
Context (W p : nat) (s : HashTable.store).

(** A world in the middle of [_nbfs2_write_htable]. *)
Record unloading (buf : list byte) (w : nworld) : Prop := {
  ul_table : fs_table (n_fs (b_client w)) = Some tt;
  ul_buff : fs_write_buff (n_fs (b_client w)) = Some p;
  ul_ht : n_ht (b_client w) = s;
  ul_mem : b_mem w !! p = Some buf
}.
Definition with_buf (buf : list byte) (w : nworld) : nworld := set_b_mem (<[p := buf]> (b_mem w)) w.
Lemma unloading_with buf buf' w : unloading buf w → unloading buf' (with_buf buf' w).
Proof. intros [? ? ? ?]. split; [done..|]. apply lookup_insert_eq. Qed.
Lemma with_buf_twice b1 b2 w : with_buf b2 (with_buf b1 w) = with_buf b2 w.
Proof. unfold with_buf, set_b_mem. cbn -[insert]. by rewrite insert_insert_eq. Qed.
Lemma with_buf_same buf w : unloading buf w → with_buf buf w = w.
Proof. intros [_ _ _ Hm]. unfold with_buf. rewrite insert_id by done. by destruct w. Qed.

(** [m] appends the records of [l] at the cursor. *)
Definition appends (m : cursor → M nworld cursor) (l : bindings) : Prop :=
  ∀ c buf w, unloading buf w → length (spb_mdata c) = RECORD_SIZE → names_fit l →
  (offset c + RECORD_SIZE * length l <= length buf)%nat → Z.of_nat (length buf) < 2 ^ 31 →
  m c w = Ok (advance c l, with_buf (splice (offset c) (image (spb_mdata c) l) buf) w).

Lemma appends_nil : appends mret [].
Proof.
  intros c buf w Hw _ _ _ _. cbn [image]. rewrite splice_nil, (with_buf_same buf w Hw), advance_nil. done.
Qed.
Lemma appends_app m1 m2 l1 l2 : appends m1 l1 → appends m2 l2 → appends (λ c, c' ← m1 c; m2 c') (l1 ++ l2).
Proof.
  intros H1 H2 c buf w Hw Hc [Hl1 Hl2]%Forall_app Hlen Hint. rewrite length_app in Hlen.
  destruct (length_image l1 _ Hc Hl1) as [Hi1 Hr1]. destruct (length_image l2 _ Hr1 Hl2) as [Hi2 _].
  rewrite (bind_Ok _ _ _ _ _ (H1 c buf w Hw Hc Hl1 ltac:(lia) Hint)).
  rewrite (H2 _ (splice (offset c) (image (spb_mdata c) l1) buf)).
  - rewrite advance_app, with_buf_twice. cbn [advance offset spb_mdata]. rewrite <- Hi1, splice_splice by lia.
    by rewrite image_app.
  - by eapply unloading_with.
  - done.
  - done.
  - cbn [advance offset]. rewrite length_splice by lia. lia.
  - by rewrite length_splice by lia.
Qed.

Lemma write_bytes_eq off r buf w :
  b_mem w !! p = Some buf → (off + length r <= length buf)%nat →
  write_bytes (Some p) off r w = Ok (tt, with_buf (splice off r buf) w).
Proof.
  intros Hp Hlen. unfold write_bytes. change ((of_option NullDeref (Some p) ≫= ?f) w) with (f p w). cbv beta.
  change ((gets b_mem ≫= ?f) w) with (f (b_mem w) w). cbv beta. rewrite Hp.
  change ((of_option UseAfterFree (Some buf) ≫= ?f) w) with (f buf w). cbv beta. by rewrite bool_decide_eq_true_2.
Qed.

Lemma write_item_appends i k v : item_ok W s i (k, v) → appends (write_item i) [(k, v)].
Proof.
  intros [Hi _] c buf w Hw Hc Hl Hlen Hint. apply Forall_cons in Hl as [Hk _]. cbn [length] in Hlen. simpl in Hk.
  pose proof Hw as [Ht Hb Hh Hm]. unfold write_item.
  rewrite (bind_Ok _ _ _ _ _ (on_table_read (HashTable.load_item i) w (HashTable.mk_item k v (S W)) Ht
    ltac:(rewrite Hh; by apply load_item_eq))). cbn [HashTable.key HashTable.value].
  assert (put_name k (spb_mdata c) w = Ok (with_name k (spb_mdata c), w)) as Hput
    by (unfold put_name; by rewrite bool_decide_eq_true_2).
  rewrite (bind_Ok _ _ _ _ _ Hput). change ((gets_n n_fs ≫= ?f) w) with (f (n_fs (b_client w)) w). cbv beta zeta.
  fold (next_record (spb_mdata c) k (char2blobid v)).
  pose proof (length_next_record (spb_mdata c) k (char2blobid v) Hc Hk) as Hn.
  rewrite Hb, (bind_Ok _ _ _ _ _ (write_bytes_eq (offset c) (next_record (spb_mdata c) k (char2blobid v)) buf w Hm ltac:(lia))).
  unfold in_int. rewrite bool_decide_eq_true_2 by lia. unfold advance. cbn [image length last_record].
  rewrite app_nil_r, Nat.mul_1_r. done.
Qed.

Lemma write_list_appends l : ∀ fuel h, chain W s h l → (length l < fuel)%nat →
  appends (write_list fuel h) (cell_kv <$> l).
Proof.
  induction l as [|[nd i k v] l IH]; intros fuel h Hc Hf; (destruct fuel as [|fuel]; [simpl in Hf; lia|]).
  - simpl in Hc. subst h. apply appends_nil.
  - destruct Hc as (-> & Hi & nx & Hn & Hc). simpl in Hf. cbn [write_list].
    assert (Hgo : appends (λ c, c' ← write_item i c; write_list fuel nx c') ([(k, v)] ++ (cell_kv <$> l)))
      by (apply appends_app; [by apply write_item_appends|apply IH; [done|lia]]).
    intros c buf w Hw. pose proof Hw as [Ht _ Hh _].
    rewrite (bind_Ok _ _ _ _ _ (on_table_read (HashTable.load_node nd) w _ Ht ltac:(rewrite Hh; by apply load_node_eq))).
    change ((of_option NullDeref (HashTable.item ?n) ≫= ?f) w) with (f i w). cbv beta. cbn [HashTable.next].
    by apply Hgo.
Qed.

Context (B : Z → bucket) (Hrep : rep W s B).

Lemma write_bucket_appends index : 0 <= index < HashTable.CAPACITY → appends (write_bucket index) (kvs (B index)).
Proof.
  intros Hindex. pose proof (rp_bucket _ _ _ Hrep index) as Hb. intros c buf w Hw. pose proof Hw as [Ht _ Hh _].
  unfold write_bucket.
  rewrite (bind_Ok _ _ _ _ _ (on_table_read (HashTable.item_at index) w _ Ht ltac:(rewrite Hh; by eapply item_at_eq))).
  unfold kvs. destruct (b_head (B index)) as [[i [k v]]|] eqn:Hhd; cbn [fmap option_fmap option_map fst]; [|by apply appends_nil].
  change ((k, v) :: ?l) with ([(k, v)] ++ l).
  apply (appends_app (write_item i) (λ c, head ← on_table (HashTable.bucket_at index); m ← on_table (gets HashTable.st_nodes);
    write_list (S (base.size m)) head c)); [by apply write_item_appends; eapply bk_head| |done].
  clear c buf w Hw Ht Hh. intros c buf w Hw. pose proof Hw as [Ht _ Hh _].
  rewrite (bind_Ok _ _ _ _ _ (on_table_read (HashTable.bucket_at index) w _ Ht ltac:(rewrite Hh; by eapply bucket_at_eq))).
  rewrite (bind_Ok _ _ _ _ _ (on_table_read (gets HashTable.st_nodes) w _ Ht ltac:(reflexivity))).
  rewrite Hh. apply write_list_appends; [apply Hb| |done].
  pose proof (chain_size _ _ _ _ (bk_chain _ _ _ _ Hb) (bk_nodes _ _ _ _ Hb)). lia.
Qed.

(** The bindings of [n] buckets from [i]. *)
Fixpoint entries (n : nat) (i : Z) : bindings :=
  match n with O => [] | S n' => kvs (B i) ++ entries n' (i + 1) end.

Lemma write_buckets_appends n : ∀ i, 0 <= i → i + Z.of_nat n <= HashTable.CAPACITY → appends (write_buckets n i) (entries n i).
Proof.
  induction n as [|n IH]; intros i Hi Hn; [apply appends_nil|].
  change (appends (λ c, c' ← write_bucket i c; write_buckets n (i + 1) c') (kvs (B i) ++ entries n (i + 1))).
  apply appends_app; [apply write_bucket_appends; lia|apply IH; lia].
Qed.
End unload.
