(* ===== verification/Nbfs2Load.v ===== *)
(** * Building the hash table from the read buffer

    [read_records] inserts the records in their order; on an empty table, the records
    of a table with at most three names in a bucket give the same buckets again. *)
From stdpp Require Import gmap.
From S2P Require Import Prelude.
From S2P Require HashTable.
From S2P Require Import HashTableProofs HashTableTheorems BlobIdChar BlobIo BlobIoExec Nbfs2 Nbfs2Exec Nbfs2Records Nbfs2Unload.
Local Open Scope Z_scope.

(** ** Insertions, on the lists of the buckets *)
Definition insert_at (F : Z → bindings) (kv : string * string) : Z → bindings :=
  λ j, if decide (j = HashTable.hash_function kv.1) then bucket_insert (F j) kv.1 kv.2 else F j.
Definition insert_all (F : Z → bindings) (l : bindings) : Z → bindings := foldl insert_at F l.

Lemma insert_all_ext l : ∀ F G, (∀ j, F j = G j) → ∀ j, insert_all F l j = insert_all G l j.
Proof.
  induction l as [|kv l IH]; intros F G H j; [apply H|]. cbn [insert_all foldl]. apply IH. intros j'. unfold insert_at. by rewrite H.
Qed.
(** A bucket only grows. *)
Lemma length_insert l k v : (length l <= length (bucket_insert l k v))%nat.
Proof.
  destruct l as [|[k0 v0] rest]; [simpl; lia|]. unfold bucket_insert. case_decide; [done|]. unfold chain_insert.
  destruct rest as [|x [|y rest]]; [simpl; lia..|]. cbn [length]. rewrite length_app. cbn [length].
  assert (length (removelast (x :: y :: rest)) = length (y :: rest)) as ->; [|simpl; lia].
  generalize x y. induction rest as [|z rest IH]; [done|]. intros a b. cbn [removelast length] in *. by rewrite (IH b z).
Qed.
Lemma length_insert_all l : ∀ F j, (length (F j) <= length (insert_all F l j))%nat.
Proof.
  induction l as [|kv l IH]; intros F j; [done|]. cbn [insert_all foldl]. fold (insert_all (insert_at F kv) l).
  etrans; [|apply IH]. unfold insert_at. case_decide; [apply length_insert|done].
Qed.

Lemma insert_all_other l : ∀ F j, (∀ k, k ∈ l.*1 → HashTable.hash_function k ≠ j) → insert_all F l j = F j.
Proof.
  induction l as [|[k v] l IH]; intros F j Hl; [done|]. cbn [insert_all foldl]. fold (insert_all (insert_at F (k, v)) l).
  rewrite IH by (intros k' Hk'; apply Hl; rewrite fmap_cons; by right). unfold insert_at. cbn [fst].
  rewrite decide_False; [done|]. intros ->. apply (Hl k); [rewrite fmap_cons; left|done].
Qed.

(** Inserting a bucket's bindings into the empty one. *)
Lemma insert_all_bucket l i F :
  (∀ k, k ∈ l.*1 → HashTable.hash_function k = i) → NoDup l.*1 → (length l <= 3)%nat → F i = [] → insert_all F l i = l.
Proof.
  intros Hh Hnd Hlen HF.
  assert (Hat : ∀ G (kv : string * string), kv ∈ l → insert_at G kv i = bucket_insert (G i) kv.1 kv.2).
  { intros G kv Hkv. unfold insert_at. rewrite decide_True; [done|]. symmetry. apply Hh. by apply list_elem_of_fmap_2. }
  destruct l as [|[k0 v0] [|[k1 v1] [|[k2 v2] [|]]]]; cbn [length] in Hlen; [done| | | |lia];
    cbn [insert_all foldl]; rewrite !Hat by set_solver; rewrite HF; [done|..];
    apply NoDup_cons in Hnd as [Hn _]; cbn in Hn;
    cbn [bucket_insert fst snd chain_insert app]; repeat (rewrite decide_False by set_solver; cbn [bucket_insert chain_insert app]); done.
Qed.

Section entries.
Context (W : nat) (s : HashTable.store) (B : Z → bucket) (Hrep : rep W s B).

Lemma entries_hash n : ∀ i k, k ∈ (entries B n i).*1 → i <= HashTable.hash_function k < i + Z.of_nat n.
Proof.
  induction n as [|n IH]; intros i k Hk; [by apply not_elem_of_nil in Hk|]. cbn [entries] in Hk.
  rewrite fmap_app, elem_of_app in Hk. destruct Hk as [Hk|Hk].
  - rewrite (bk_keys _ _ _ _ (rp_bucket _ _ _ Hrep i) k Hk). lia.
  - specialize (IH _ _ Hk). lia.
Qed.

Lemma insert_entries n : ∀ i F,
  (∀ j, NoDup (kvs (B j)).*1 ∧ (length (kvs (B j)) <= 3)%nat) → (∀ j, i <= j → F j = []) →
  ∀ j, insert_all F (entries B n i) j = if decide (i <= j < i + Z.of_nat n) then kvs (B j) else F j.
Proof.
  induction n as [|n IH]; intros i F HB HF j; [by rewrite decide_False by lia|].
  cbn [entries]. unfold insert_all. rewrite foldl_app. fold (insert_all F (kvs (B i))).
  assert (Hother : ∀ j, j ≠ i → insert_all F (kvs (B i)) j = F j).
  { intros j' Hj'. apply insert_all_other. intros k Hk. rewrite (bk_keys _ _ _ _ (rp_bucket _ _ _ Hrep i) k Hk). done. }
  fold (insert_all (insert_all F (kvs (B i))) (entries B n (i + 1))).
  rewrite (IH (i + 1)); [|done|intros j' Hj'; rewrite Hother by lia; apply HF; lia].
  destruct (HB i) as [Hnd Hlen].
  destruct (decide (j = i)) as [->|Hj].
  - rewrite decide_False, decide_True by lia. apply insert_all_bucket; [|done|done|apply HF; lia].
    intros k Hk. by apply (bk_keys _ _ _ _ (rp_bucket _ _ _ Hrep i)).
  - rewrite Hother by done. repeat case_decide; try done; lia.
Qed.
End entries.

(** ** The loop *)
Section load.
Context (q : nat) (buf : list byte).

(** A world in the middle of [_nbfs2_build_htable]. *)
Record loading (t : HashTable.store) (w : nworld) : Prop := {
  ld_table : fs_table (n_fs (b_client w)) = Some tt;
  ld_buff : fs_read_buff (n_fs (b_client w)) = Some q;
  ld_ht : n_ht (b_client w) = t;
  ld_mem : b_mem w !! q = Some buf;
  ld_malloc : b_malloc w = []
}.
Lemma loading_with t t' w : loading t w → loading t' (with_ht t' w).
Proof. by intros [? ? ? ? ?]. Qed.

(** Names and values that a record can hold. *)
Definition binding_ok (kv : string * string) : Prop :=
  (String.length kv.1 < MAXFILENAME)%nat ∧ no_nul kv.1 ∧ ∃ id, 0 <= id < 2 ^ 64 ∧ kv.2 = blobid2char id.

Lemma read_bytes_eq off n w :
  b_mem w !! q = Some buf → (off + n <= length buf)%nat → read_bytes (Some q) off n w = Ok (take n (drop off buf), w).
Proof.
  intros Hm Hlen. unfold read_bytes. change ((of_option NullDeref (Some q) ≫= ?f) w) with (f q w). cbv beta.
  change ((gets b_mem ≫= ?f) w) with (f (b_mem w) w). cbv beta. rewrite Hm.
  change ((of_option UseAfterFree (Some buf) ≫= ?f) w) with (f buf w). cbv beta. by rewrite bool_decide_eq_true_2.
Qed.

Lemma read_records_eq l : ∀ r off t B w,
  loading t w → rep 18 t B →
  HashTable.st_junk t = None ∨ (∀ j, (length (insert_all (λ j, kvs (B j)) l j) <= 1)%nat) → Forall binding_ok l → length r = RECORD_SIZE →
  (off + RECORD_SIZE * length l <= length buf)%nat → Z.of_nat (length buf) < 2 ^ 31 →
  take (RECORD_SIZE * length l) (drop off buf) = image r l →
  ∃ t' B', read_records (length l) off w = Ok (true, with_ht t' w) ∧ rep 18 t' B' ∧
    ∀ j, kvs (B' j) = insert_all (λ j, kvs (B j)) l j.
Proof.
  induction l as [|[k v] l IH]; intros r off t B w Hw Hr Hj Hl Hrec Hlen Hint Hbuf.
  { exists t, B. split; [|done]. rewrite <- (ld_ht _ _ Hw). by rewrite with_ht_same. }
  apply Forall_cons in Hl as [(Hk & Hnul & id & Hid & Hv) Hl]. cbn [fst snd] in Hk, Hnul, Hv. subst v.
  pose proof Hw as [Htab Hb Ht Hm Hmal]. cbn [image length] in Hbuf, Hlen.
  assert (Hrt : char2blobid (blobid2char id) = id) by (by apply char2blobid_blobid2char).
  set (r' := next_record r k (char2blobid (blobid2char id))) in Hbuf.
  assert (Hr' : length r' = RECORD_SIZE) by (by apply length_next_record).
  assert (Hhead : take RECORD_SIZE (drop off buf) = r').
  { apply (f_equal (take RECORD_SIZE)) in Hbuf. rewrite take_take in Hbuf.
    replace (RECORD_SIZE `min` (RECORD_SIZE * S (length l)))%nat with RECORD_SIZE in Hbuf by lia.
    rewrite Hbuf. by apply take_app_length'. }
  cbn [length read_records]. change ((gets_n n_fs ≫= ?f) w) with (f (n_fs (b_client w)) w). cbv beta.
  rewrite Hb, (bind_Ok _ _ _ _ _ (read_bytes_eq off RECORD_SIZE w Hm ltac:(lia))).
  unfold in_int at 1. rewrite bool_decide_eq_true_2 by lia. change ((guard_or _ true ≫= ?f) w) with (f tt w). cbv beta.
  rewrite (bind_Ok _ _ _ _ _ (malloc_ok_eq w Hmal)). cbn [negb]. rewrite Hhead.
  assert (Hparse : parse_record r' w = Ok ((id, k), w)) by (unfold r'; rewrite Hrt; by apply parse_next_record).
  rewrite (bind_Ok _ _ _ _ _ Hparse).
  destruct (insert_eq 18 t B k (blobid2char id) Hr) as (t1 & B1 & Hins & Hj1 & Hr1 & Hkvs & Hother);
    [apply length_blobid2char| |].
  { destruct Hj as [|Hj]; [by left|right]. specialize (Hj (HashTable.hash_function k)). cbn [insert_all foldl] in Hj.
    pose proof (length_insert_all l (insert_at (λ j, kvs (B j)) (k, blobid2char id)) (HashTable.hash_function k)) as Hle.
    unfold insert_all in Hle. unfold insert_at at 1 in Hle. cbn [fst snd] in Hle. rewrite decide_True in Hle by done.
    destruct (kvs (B (HashTable.hash_function k))) as [|[k0 v0] rest]; [by left|]. right. exists v0. cbn [head]. f_equal.
    unfold bucket_insert in Hle. case_decide as Hd; [by rewrite Hd|]. exfalso. unfold chain_insert in Hle.
    destruct rest as [|x [|y rest]]; cbn [length] in Hle; rewrite ?length_app in Hle; simpl in Hle; lia. }
  rewrite (bind_Ok _ _ _ _ _ (on_table_eq (HashTable.ht_insert k (blobid2char id)) w tt t1 Htab ltac:(by rewrite Ht))).
  assert (Hins' : ∀ j, insert_all (λ j, kvs (B1 j)) l j = insert_all (λ j, kvs (B j)) ((k, blobid2char id) :: l) j).
  { intros j. cbn [insert_all foldl]. apply insert_all_ext. intros j'. unfold insert_at. cbn [fst snd].
    case_decide as Hd; [by subst j'|by rewrite Hother]. }
  destruct (IH r' (off + RECORD_SIZE)%nat t1 B1 (with_ht t1 w)) as (t' & B' & Hrun & Hrep & HB'); try done.
  - rewrite Hj1. destruct Hj as [|Hj]; [by left|right]. intros j. rewrite Hins'. apply Hj.
  - lia.
  - apply (f_equal (drop RECORD_SIZE)) in Hbuf. rewrite (drop_app_length' r') in Hbuf by done. rewrite <- Hbuf.
    rewrite <- drop_drop, take_drop_commute. f_equal. f_equal. lia.
  - exists t', B'. split; [exact Hrun|]. split; [done|]. intros j. by rewrite HB', Hins'.
Qed.
End load.
