(* ===== verification/Nbfs2Metadata.v ===== *)
(** * Unloading and loading the metadata of NBFS2

    What _nbfs2_write_htable leaves, and that _nbfs2_build_htable builds the same
    table from it. *)
From stdpp Require Import gmap.
From S2P Require Import Prelude.
From S2P Require HashTable.
From S2P Require Import HashTableProofs HashTableTheorems BlobIdChar BlobIo BlobIoExec Nbfs2 Nbfs2Exec Nbfs2Records Nbfs2Unload Nbfs2Load.
Local Open Scope Z_scope.

(** ** The metadata round trip *)


(** All the bindings of a table of [CAPACITY] buckets, in the order of the records. *)
Definition bindings_of (B : Z → bucket) : bindings := entries B (Z.to_nat HashTable.CAPACITY) 0.
Definition empty_record : list byte := replicate RECORD_SIZE None.

Lemma write_all_buckets p t B :
  rep 18 t B → appends p t (write_buckets (Z.to_nat HashTable.CAPACITY) 0) (bindings_of B).
Proof.
  intros Hrep. unfold bindings_of.
  apply (write_buckets_appends 18 p t B Hrep); [lia|]. unfold HashTable.CAPACITY. lia.
Qed.

(** What _nbfs2_write_htable leaves: the records in the buffer, their size in the
    file system and in the attributes of the super blob, and the write of the super
    blob begun. *)
Section unloaded.
Context (p : nat) (y : blob) (buf : list byte) (l : bindings) (w : nworld).

Definition metadata_size : Z := Z.of_nat (RECORD_SIZE * length l).
Definition sized_store (b : Z) : bstore :=
  let y1 := mk_blob (x_clusters y) (x_data y) (<[XATTR_HTS := HashTable.CAPACITY]> (x_xattrs y)) in
  with_xattr b XATTR_SPBDS metadata_size y1 (with_xattr b XATTR_HTS HashTable.CAPACITY y (b_store w)).
Definition sized_client : nstate := set_n_fs (set_fs_spb_data_size metadata_size (n_fs (b_client w))) (b_client w).
Definition filled_world (b : Z) : nworld :=
  mk_world (sized_store b) (b_channels w) (b_args w) (b_flags w)
    (<[p := splice 0 (image empty_record l) buf]> (b_mem w)) (b_calls w) (b_next w) [] sized_client.
End unloaded.

Lemma write_htable_eq `{Client ncallback nstate} a (w : nworld) p buf sb y B :
  unloading p (n_ht (b_client w)) buf w → b_malloc w = [] → fs_bs (n_fs (b_client w)) = Some tt →
  fs_superblob (n_fs (b_client w)) = Some sb → s_blobs (b_store w) !! sb = Some y →
  fs_ht_size (n_fs (b_client w)) = HashTable.CAPACITY → rep 18 (n_ht (b_client w)) B →
  let l := bindings_of B in
  names_fit l → (RECORD_SIZE * length l <= length buf)%nat → Z.of_nat (length buf) < 2 ^ 31 →
  _nbfs2_write_htable a w =
  write_super_blob (Some p) 0 (metadata_size l) (N_superblob_written a) (filled_world p y buf l w sb).
Proof.
  intros Hul Hmal Hbs Hsb Hblob Hsize Hrep l Hnames Hlen Hint. unfold _nbfs2_write_htable.
  rewrite (bind_Ok _ _ _ _ _ (malloc_ok_eq w Hmal)). cbn [negb]. nsteps.
  rewrite (ul_table _ _ _ _ Hul). nsteps. rewrite Hsize.
  pose proof (write_all_buckets p _ B Hrep (mk_cursor empty_record 0 0) buf w Hul eq_refl Hnames Hlen Hint) as Hrun.
  rewrite (bind_Ok _ _ _ _ _ Hrun). fold l. cbn [advance mdata_num spb_mdata offset] in *. cbv zeta.
  assert (Hsz : u64 ((0 + Z.of_nat (length l)) * Z.of_nat RECORD_SIZE) = metadata_size l).
  { unfold metadata_size. rewrite u64_small; unfold RECORD_SIZE in *; lia. }
  rewrite Hsz. nsteps. set (w2 := set_b_client _ _).
  rewrite (bind_Ok _ _ _ _ _ (set_xattr_run XATTR_HTS HashTable.CAPACITY w2 sb y Hsb Hblob)). set (w3 := set_b_store _ w2).
  rewrite (bind_Ok _ _ _ _ _ (set_xattr_run XATTR_SPBDS (metadata_size l) w3 sb _ Hsb (lookup_insert_eq _ _ _))).
  set (w4 := set_b_store _ w3). nsteps. change (fs_bs (n_fs (b_client w4))) with (fs_bs (n_fs (b_client w))). rewrite Hbs. nsteps.
  change (fs_write_buff (n_fs (b_client w4))) with (fs_write_buff (n_fs (b_client w))). rewrite (ul_buff _ _ _ _ Hul).
  change (fs_spb_data_size (n_fs (b_client w4))) with (metadata_size l).
  f_equal. unfold filled_world. rewrite <- Hmal. reflexivity.
Qed.

(** At most three names in a bucket, all different. *)
Definition shallow (B : Z → bucket) : Prop := ∀ j, NoDup (kvs (B j)).*1 ∧ (length (kvs (B j)) <= 3)%nat.

Lemma inserted_back B W s j :
  rep W s B → shallow B →
  insert_all (λ _, []) (bindings_of B) j = if decide (0 <= j < HashTable.CAPACITY) then kvs (B j) else [].
Proof.
  intros Hrep HB. unfold bindings_of. rewrite (insert_entries W s B Hrep _ 0 (λ _, []) HB) by done.
  by rewrite Z.add_0_l, Z2Nat.id by (by vm_compute).
Qed.

Lemma rebuilt B W s B' :
  rep W s B → shallow B → (∀ j, kvs (B' j) = insert_all (λ _, []) (bindings_of B) j) → ∀ k, found B' k = found B k.
Proof.
  intros Hrep HB HB' k. pose proof (hash_range k) as Hk. unfold found. by rewrite HB', (inserted_back B W s _ Hrep HB), decide_True.
Qed.


Lemma build_htable_eq `{Client ncallback nstate} a x n (v : nworld) q rb t l r :
  loading q rb t v → n_args (b_client v) !! a = Some x → n_cb x = Some n →
  fs_spb_data_size (n_fs (b_client v)) = Z.of_nat (RECORD_SIZE * length l) →
  Forall binding_ok l → length r = RECORD_SIZE → take (RECORD_SIZE * length l) rb = image r l →
  (RECORD_SIZE * length l <= length rb)%nat → Z.of_nat (length rb) < 2 ^ 31 →
  rep 18 t (λ _, empty_bucket) → HashTable.st_junk t = None ∨ (∀ j, (length (insert_all (λ _, []) l j) <= 1)%nat) →
  ∃ v' B', _nbfs2_build_htable a v = Ok (tt, v') ∧ rep 18 (n_ht (b_client v')) B' ∧
    n_told (b_client v') = n_told (b_client v) ++ [(n, 0)] ∧
    ∀ j, kvs (B' j) = insert_all (λ _, []) l j.
Proof.
  intros Hld Ha Hn Hsize Hl Hr Htake Hlen Hint Hrep Hj. unfold _nbfs2_build_htable.
  rewrite (bind_Ok _ _ _ _ _ (malloc_ok_eq v (ld_malloc _ _ _ _ Hld))). cbn [negb].
  change ((gets_n n_fs ≫= ?f) v) with (f (n_fs (b_client v)) v). cbv beta zeta. rewrite Hsize.
  assert (Z.to_nat (s32 (Z.of_nat (RECORD_SIZE * length l) / Z.of_nat RECORD_SIZE)) = length l) as ->.
  { rewrite Nat2Z.inj_mul, Z.mul_comm, Z.div_mul by done. unfold s32. unfold RECORD_SIZE in Hlen.
    rewrite u32_small by lia. rewrite decide_True by lia. lia. }
  destruct (read_records_eq q rb l r 0 t (λ _, empty_bucket) v Hld Hrep Hj Hl Hr Hlen Hint Htake)
    as (t' & B' & Hrun & Hrep' & HB').
  rewrite (bind_Ok _ _ _ _ _ Hrun), (told_eq a x n 0 (with_ht t' v) Ha Hn).
  eexists _, B'. split; [done|]. split; [exact Hrep'|]. split; [done|exact HB'].
Qed.

Lemma read_image l r buf :
  length r = RECORD_SIZE → names_fit l → (RECORD_SIZE * length l <= length buf)%nat →
  take (RECORD_SIZE * length l) (splice 0 (image r l) buf) = image r l.
Proof.
  intros Hr Hl Hlen. destruct (length_image l r Hr Hl) as [Himg _].
  rewrite <- Himg. rewrite <- (drop_0 (splice 0 (image r l) buf)). apply read_splice. lia.
Qed.

(** C8. The metadata round trip: unloading writes one record for every file into the
    buffer of the super blob and records their size; loading from a buffer that
    starts with these bytes builds a table in which every name has the blob id it
    had.  This holds as long as no bucket has more than one name, and also with up to
    three names in a bucket if the memory that malloc returns while loading is zero
    (the code reads it then without setting it). *)
Theorem metadata_roundtrip `{Client ncallback nstate} a (w : nworld) p buf sb y B :
  unloading p (n_ht (b_client w)) buf w → b_malloc w = [] → fs_bs (n_fs (b_client w)) = Some tt →
  fs_superblob (n_fs (b_client w)) = Some sb → s_blobs (b_store w) !! sb = Some y →
  fs_ht_size (n_fs (b_client w)) = HashTable.CAPACITY → rep 18 (n_ht (b_client w)) B → shallow B →
  let l := bindings_of B in let size := (RECORD_SIZE * length l)%nat in
  Forall binding_ok l → (size <= length buf)%nat → Z.of_nat (length buf) < 2 ^ 31 →
  ∃ w' buf', _nbfs2_write_htable a w = Ok (tt, w') ∧ b_mem w' !! p = Some buf' ∧
    fs_spb_data_size (n_fs (b_client w')) = Z.of_nat size ∧
    ∀ a2 x n (v : nworld) q rb t,
    loading q rb t v → n_args (b_client v) !! a2 = Some x → n_cb x = Some n →
    fs_spb_data_size (n_fs (b_client v)) = fs_spb_data_size (n_fs (b_client w')) →
    (size <= length rb)%nat → Z.of_nat (length rb) < 2 ^ 31 → take size rb = take size buf' →
    rep 18 t (λ _, empty_bucket) → HashTable.st_junk t = None ∨ (∀ j, (length (kvs (B j)) <= 1)%nat) →
    ∃ v' B', _nbfs2_build_htable a2 v = Ok (tt, v') ∧ n_told (b_client v') = n_told (b_client v) ++ [(n, 0)] ∧
      rep 18 (n_ht (b_client v')) B' ∧ ∀ k, found B' k = found B k.
Proof.
  intros Hul Hmal Hbs Hsb Hblob Hsize Hrep HB l size Hl Hlen Hint.
  assert (Hnames : names_fit l) by (eapply Forall_impl; [exact Hl|]; intros kv Hkv; apply Hkv).
  rewrite (write_htable_eq a w p buf sb y B Hul Hmal Hbs Hsb Hblob Hsize Hrep Hnames Hlen Hint).
  unfold filled_world. rewrite write_super_start. match goal with |- context [Ok (tt, ?v)] => set (w' := v) end.
  assert (Hsz : fs_spb_data_size (n_fs (b_client w')) = Z.of_nat (RECORD_SIZE * length l))
    by (change (metadata_size l = Z.of_nat (RECORD_SIZE * length l)); unfold metadata_size; reflexivity).
  exists w', (splice 0 (image empty_record l) buf). split; [exact eq_refl|]. split; [apply lookup_insert_eq|].
  split; [exact Hsz|].
  intros a2 x n v q rb t Hld Ha Hn Hvs Hrl Hrint Htake Ht Hj.
  assert (Htake' : take size rb = image empty_record l).
  { rewrite Htake. exact (read_image l empty_record buf eq_refl Hnames Hlen). }
  rewrite Hsz in Hvs.
  assert (Hj' : HashTable.st_junk t = None ∨ (∀ j, (length (insert_all (λ _, []) l j) <= 1)%nat)).
  { destruct Hj as [|Hj]; [by left|right]. intros j. unfold l. rewrite (inserted_back B 18 _ j Hrep HB). case_decide; [apply Hj|simpl; lia]. }
  destruct (build_htable_eq a2 x n v q rb t l empty_record Hld Ha Hn Hvs Hl eq_refl Htake' Hrl Hrint Ht Hj')
    as (v' & B' & Hb & Hr' & Htold & HB').
  exists v', B'. split; [exact Hb|]. split; [exact Htold|]. split; [exact Hr'|].
  exact (rebuilt B 18 _ B' Hrep HB HB').
Qed.

