(* ===== verification/Nbfs2Files.v ===== *)
(** * Creating, opening and deleting files of NBFS2

    From the call of the user to the end of the last callback, for a table that
    stands for given buckets. *)
From stdpp Require Import gmap.
From S2P Require Import Prelude.
From S2P Require HashTable.
From S2P Require Import HashTableProofs HashTableTheorems BlobIdChar BlobIo BlobIoExec Nbfs2 Nbfs2Exec.
Local Open Scope Z_scope.

(** ** Files by name *)
Lemma chain_values W s l : ∀ h, chain W s h l → Forall (λ c, String.length (c_val c) = W) l.
Proof.
  induction l as [|c l IH]; intros h Hc; [constructor|]. destruct Hc as (_ & [_ Hv] & nx & _ & Hc).
  constructor; [exact Hv|by eapply IH].
Qed.
Lemma found_length W s B k v : rep W s B → found B k = Some v → String.length v = W.
Proof.
  intros Hrep Hf. unfold found in Hf. set (b := B (HashTable.hash_function k)) in *.
  pose proof (rp_bucket _ _ _ Hrep (HashTable.hash_function k)) as Hb. fold b in Hb.
  assert (Hall : Forall (λ kv, String.length kv.2 = W) (kvs b)).
  { unfold kvs. destruct (b_head b) as [[i kv]|] eqn:Hhd; [|constructor]. constructor; [by apply (bk_head _ _ _ _ Hb i kv)|].
    apply Forall_fmap. eapply Forall_impl; [exact (chain_values _ _ _ _ (bk_chain _ _ _ _ Hb))|done]. }
  induction (kvs b) as [|[k0 v0] l IH]; [done|]. apply Forall_cons in Hall as [Hv Hl]. cbn [assoc] in Hf.
  case_decide; [by injection Hf as ->|by apply IH].
Qed.

(** The blob id that a table gives a name. *)
Definition id_of (B : Z → bucket) (k : string) : option Z := char2blobid <$> found B k.

Lemma search_blobid_eq k (w : nworld) B :
  fs_table (n_fs (b_client w)) = Some tt → rep 18 (n_ht (b_client w)) B →
  search_blobid k w = match id_of B k with Some id => Ok (id, w) | None => Fault NullDeref end.
Proof.
  intros Ht Hrep. unfold search_blobid.
  rewrite (bind_Ok _ _ _ _ _ (on_table_read (HashTable.ht_search k) w _ Ht (search_eq _ _ _ k Hrep))).
  unfold id_of. destruct (found B k) as [v|] eqn:Hf; [|done].
  change ((of_option NullDeref (Some v) ≫= ?f) w) with (f v w). cbv beta.
  rewrite bool_decide_eq_true_2; [done|]. unfold strlen. by rewrite (found_length 18 _ B k v Hrep Hf).
Qed.


Lemma open_file_eq k (w : nworld) a x i f B :
  fs_table (n_fs (b_client w)) = Some tt → rep 18 (n_ht (b_client w)) B →
  n_args (b_client w) !! a = Some x → n_file x = Some i → n_files (b_client w) !! i = Some f →
  nbfs2_open_file_sync a k w =
  match id_of B k with Some id => Ok (tt, with_file i (mk_file (Some id) k) w) | None => Fault NullDeref end.
Proof.
  intros Ht Hrep Ha Hi Hf. unfold nbfs2_open_file_sync. pose proof (search_blobid_eq k w B Ht Hrep) as Hs.
  destruct (id_of B k) as [id|]; [|by rewrite (bind_Fault _ _ _ _ Hs)].
  rewrite (bind_Ok _ _ _ _ _ Hs), (bind_Ok _ _ _ _ _ (file_of_eq a x i w Ha Hi)), (bind_Ok _ _ _ _ _ (file_loaded i f w Hf)). done.
Qed.


(** What the start of a creation leaves. *)
Definition creating (a : nat) (x : _nbfs2_args) (name : string) (n : nat) (w : nworld) : nworld :=
  let i := b_next w in let s := b_client w in
  mk_world (b_store w) (b_channels w) (b_args w) (b_flags w) (b_mem w)
    (b_calls w ++ [(CreateBlob, User (N_file_created a))]) (S i) (b_malloc w)
    (mk_nstate (n_fs s) (<[a := mk_args (Some i) (n_build_mthd x) (Some n)]> (n_args s))
       (<[i := mk_file None name]> (n_files s)) (n_ht s) (n_stopped s) (n_told s)).
Lemma create_start a x name n (w : nworld) :
  n_args (b_client w) !! a = Some x → b_malloc w = [] → fs_bs (n_fs (b_client w)) = Some tt →
  nbfs2_create_file a name (Some n) w = Ok (tt, creating a x name n w).
Proof.
  intros Ha Hm Hbs. unfold nbfs2_create_file. rewrite (bind_Ok _ _ _ _ _ (set_callback_eq a x (Some n) w Ha)).
  set (w1 := set_b_client _ w).
  assert (Hm1 : malloc_ok w1 = Ok (true, w1)) by (by apply malloc_ok_eq).
  rewrite (bind_Ok _ _ _ _ _ Hm1). cbn [negb].
  change ((fresh ≫= ?f) w1) with (f (b_next w) (set_b_next (S (b_next w)) w1)). cbv beta.
  set (w2 := set_b_next _ w1). set (x1 := mk_args (n_file x) (n_build_mthd x) (Some n)).
  assert (Hl : load_args a w2 = Ok (x1, w2)).
  { unfold load_args. change ((gets_n n_args ≫= ?f) w2) with (f (<[a := x1]> (n_args (b_client w))) w2). cbv beta.
    by rewrite lookup_insert_eq. }
  rewrite (bind_Ok _ _ _ _ _ Hl). unfold save_args, save_file, modify_n.
  change ((modify ?g ≫= ?f) w2) with (f tt (g w2)). cbv beta.
  match goal with |- (modify ?g ≫= ?f) ?v = _ => change ((modify g ≫= f) v) with (f tt (g v)) end. cbv beta.
  unfold bs_call. match goal with |- (gets_n ?g ≫= ?f) ?v = _ => change ((gets_n g ≫= f) v) with (f (n_fs (b_client w)) v) end.
  cbv beta. rewrite Hbs. unfold creating. destruct w as [st ch ar fl me ca nx ma [fs na nf ht sp to]].
  unfold w2, w1, x1, async, modify. cbn -[insert]. by rewrite insert_insert_eq.
Qed.

(** The completion of a creation, up to the insertion into the table. *)
Lemma file_created_eq a x i f id t n (w : nworld) :
  n_args (b_client w) !! a = Some x → n_file x = Some i → n_cb x = Some n → n_files (b_client w) !! i = Some f →
  fs_table (n_fs (b_client w)) = Some tt →
  HashTable.ht_insert (f_filename f) (blobid2char id) (n_ht (b_client w)) = Ok (tt, t) →
  let s := b_client w in
  _nbfs2_file_created a id 0 w =
  Ok (tt, set_b_client (mk_nstate (set_fs_spb_data_size (u64 (fs_spb_data_size (n_fs s) + Z.of_nat RECORD_SIZE)) (n_fs s))
    (n_args s) (<[i := mk_file (Some id) (f_filename f)]> (n_files s)) t (n_stopped s) (n_told s ++ [(n, 0)])) w).
Proof.
  intros Ha Hi Hn Hf Ht Hins s. unfold _nbfs2_file_created. rewrite decide_False by tauto.
  rewrite (bind_Ok _ _ _ _ _ (file_of_eq a x i w Ha Hi)), (bind_Ok _ _ _ _ _ (file_loaded i f w Hf)).
  unfold save_file, modify_n. change ((modify ?g ≫= ?f) w) with (f tt (g w)). cbv beta. set (w1 := set_b_client _ w).
  rewrite (bind_Ok _ _ _ _ _ (on_table_eq (HashTable.ht_insert (f_filename f) (blobid2char id)) w1 tt t Ht Hins)).
  unfold upd_fs, modify_n. set (w2 := with_ht t w1). change ((modify ?g ≫= ?f) w2) with (f tt (g w2)). cbv beta.
  etrans; [by apply (told_eq a x n 0)|done].
Qed.


(** The world after a deletion has asked for the blob to be deleted. *)
Definition deleting (a i : nat) (x : _nbfs2_args) (cb : option nat) (name : string) (id : Z) (w : nworld) : nworld :=
  let s := b_client w in
  mk_world (b_store w) (b_channels w) (b_args w) (b_flags w) (b_mem w)
    (b_calls w ++ [(DeleteBlob id, User (N_blob_deleted a))]) (b_next w) (b_malloc w)
    (mk_nstate (n_fs s) (<[a := mk_args (n_file x) (n_build_mthd x) cb]> (n_args s))
       (<[i := mk_file (Some id) name]> (n_files s)) (n_ht s) (n_stopped s) (n_told s)).
Lemma delete_start a x i f name cb id (w : nworld) B :
  n_args (b_client w) !! a = Some x → n_file x = Some i → n_files (b_client w) !! i = Some f →
  fs_bs (n_fs (b_client w)) = Some tt → fs_table (n_fs (b_client w)) = Some tt →
  rep 18 (n_ht (b_client w)) B → id_of B name = Some id →
  nbfs2_delete_file a name cb w = Ok (tt, deleting a i x cb name id w).
Proof.
  intros Ha Hi Hf Hbs Ht Hrep Hid. unfold nbfs2_delete_file. rewrite (bind_Ok _ _ _ _ _ (set_callback_eq a x cb w Ha)).
  set (w1 := set_b_client _ w). pose proof (search_blobid_eq name w1 B Ht Hrep) as Hs. rewrite Hid in Hs.
  rewrite (bind_Ok _ _ _ _ _ Hs).
  assert (Ha1 : n_args (b_client w1) !! a = Some (mk_args (n_file x) (n_build_mthd x) cb)) by apply lookup_insert_eq.
  rewrite (bind_Ok _ _ _ _ _ (file_of_eq a _ i w1 Ha1 Hi)), (bind_Ok _ _ _ _ _ (file_loaded i f w1 Hf)).
  unfold save_file, modify_n. change ((modify ?g ≫= ?f) w1) with (f tt (g w1)). cbv beta.
  unfold bs_call. match goal with |- (gets_n ?g ≫= ?f) ?v = _ => change ((gets_n g ≫= f) v) with (f (n_fs (b_client w)) v) end.
  cbv beta. rewrite Hbs. done.
Qed.

Lemma blob_deleted_eq a x i f id (w : nworld) B :
  n_args (b_client w) !! a = Some x → n_file x = Some i → n_files (b_client w) !! i = Some f → f_blobid f = Some id →
  fs_table (n_fs (b_client w)) = Some tt → rep 18 (n_ht (b_client w)) B →
  blobid2char id ∉ (kvs (B (HashTable.hash_function (blobid2char id)))).*1 →
  let s := b_client w in
  _nbfs2_blob_deleted a 0 w =
  Ok (tt, set_b_client (set_n_fs (set_fs_spb_data_size (u64 (fs_spb_data_size (n_fs s) - Z.of_nat RECORD_SIZE)) (n_fs s)) s) w).
Proof.
  intros Ha Hi Hf Hid Ht Hrep Habs s. unfold _nbfs2_blob_deleted. rewrite decide_False by tauto.
  rewrite (bind_Ok _ _ _ _ _ (file_of_eq a x i w Ha Hi)), (bind_Ok _ _ _ _ _ (file_loaded i f w Hf)), Hid.
  change ((of_option Uninitialised (Some id) ≫= ?f) w) with (f id w). cbv beta.
  by rewrite (bind_Ok _ _ _ _ _ (on_table_read _ w _ Ht (delete_absent 18 _ B _ Hrep Habs))).
Qed.

(** C38. Deleting a file: the blob is deleted, but the table is searched for the blob id
    as text instead of the name, so that (unless a file has such a name) the name is
    still found, with the id of the blob that is gone; and the caller is never told. *)
Theorem delete_keeps_name a x i f name cb id v (w : nworld) B :
  n_args (b_client w) !! a = Some x → n_file x = Some i → n_files (b_client w) !! i = Some f → b_calls w = [] →
  fs_bs (n_fs (b_client w)) = Some tt → fs_table (n_fs (b_client w)) = Some tt →
  rep 18 (n_ht (b_client w)) B → id_of B name = Some id →
  is_Some (s_blobs (b_store w) !! id) → s_open (b_store w) !! id = None →
  blobid2char id ∉ (kvs (B (HashTable.hash_function (blobid2char id)))).*1 →
  ∃ w', (_ ← nbfs2_delete_file a name cb; complete 0 0 v) w = Ok (tt, w') ∧
    s_blobs (b_store w') !! id = None ∧ n_ht (b_client w') = n_ht (b_client w) ∧
    n_told (b_client w') = n_told (b_client w) ∧ b_calls w' = [] ∧
    nbfs2_open_file_sync a name w' = Ok (tt, with_file i (mk_file (Some id) name) w').
Proof.
  intros Ha Hi Hf Hcalls Hbs Ht Hrep Hid Hblob Hopen Habs.
  rewrite (bind_Ok _ _ _ _ _ (delete_start a x i f name cb id w B Ha Hi Hf Hbs Ht Hrep Hid)).
  unfold deleting. rewrite Hcalls. cbn [app]. rewrite complete_ok.
  erewrite bind_Ok by (apply delete_effect; [exact Hblob|exact Hopen]).
  set (x' := mk_args (n_file x) (n_build_mthd x) cb). match goal with |- context [dispatch _ _ _ ?v] => set (w2 := v) end.
  pose proof (blob_deleted_eq a x' i (mk_file (Some id) name) id w2 B ltac:(apply lookup_insert_eq) Hi
    ltac:(apply lookup_insert_eq) eq_refl Ht Hrep Habs) as Hrun. cbv zeta in Hrun.
  eexists. split; [exact Hrun|]. split; [apply lookup_delete_eq|]. do 3 (split; [done|]).
  rewrite (open_file_eq name _ a x' i (mk_file (Some id) name) B);
    [by rewrite Hid|exact Ht|exact Hrep|apply lookup_insert_eq|exact Hi|apply lookup_insert_eq].
Qed.

