(* ===== verification/Nbfs2Start.v ===== *)
(** * Starting and stopping NBFS2

    Initialisation, and what unloading and loading do with the sizes of the metadata. *)
From stdpp Require Import gmap.
From S2P Require Import Prelude.
From S2P Require HashTable.
From S2P Require Import HashTableProofs HashTableTheorems BlobIdChar BlobIo BlobIoExec BlobIoTheorems Nbfs2 Nbfs2Exec Nbfs2Records Nbfs2Unload Nbfs2Load Nbfs2Metadata.
Local Open Scope Z_scope.

(** ** Start-up *)

Lemma init_bs_step a s chs args fl mem nx x v :
  args !! nx = None →
  complete 0 0 v (mk_world s chs args fl mem [(InitBs, User (N_bs_init_complete a))] nx [] x) =
  Ok (tt, during (set_s_super None (set_s_blobs ∅ (set_s_free v s))) chs args nx
    (mk_io_args None None None None 0 0 (N_superblob_created a) 0 0) fl mem [(CreateBlob, Csb_created nx)] (S nx)
    (set_n_fs (set_fs_bs (Some tt) (n_fs x)) x)).
Proof. intros Hn. rewrite complete_ok. by erewrite bind_Ok by apply init_effect. Qed.

Lemma created_step s chs args a A fl mem nx x v :
  s_blobs s !! v = None → 0 <= v < 2 ^ 64 →
  complete 0 0 v (during s chs args a A fl mem [(CreateBlob, Csb_created a)] nx x) =
  Ok (tt, during (set_s_blobs (<[v := mk_blob 0 (λ _, None) ∅]> (s_blobs s)) s) chs args a
    (set_a_blobid (Some v) A) fl mem [(SetSuper v, Csb_super_set a)] nx (x : nstate)).
Proof.
  intros Hv Hr. unfold during. rewrite complete_ok. erewrite bind_Ok by (apply create_effect; [exact Hv|exact Hr]).
  trans (_csb_super_blob_created a v 0 (during (set_s_blobs (<[v := mk_blob 0 (λ _, None) ∅]> (s_blobs s)) s) chs args a
    A fl mem [] nx x)); [done|].
  unfold during, _csb_super_blob_created. steps. unfold async, modify. cbn -[insert]. by rewrite insert_insert_eq.
Qed.

Lemma super_set_step s chs args i A fl mem nx (x : nstate) id a :
  args !! i = None → a_blobid A = Some id → a_cb A = N_superblob_created a → fs_bs (n_fs x) = Some tt →
  complete 0 0 0 (during s chs args i A fl mem [(SetSuper id, Csb_super_set i)] nx x) =
  Ok (tt, mk_world (set_s_super (Some id) s) chs args fl mem [(OpenBlob (Some id), User (N_superblob_opened_init a))] nx []
    (set_n_fs (set_fs_superblob_id (Some id) (n_fs x)) x)).
Proof.
  intros Hi Hid Hcb Hbs. unfold during. rewrite complete_ok. erewrite bind_Ok by apply set_super_effect.
  trans (_csb_super_blob_set i 0 (during (set_s_super (Some id) s) chs args i A fl mem [] nx x)); [done|].
  unfold during, _csb_super_blob_set. steps. rewrite Hcb, Hid.
  erewrite bind_Ok.
  2:{ change (client (N_superblob_created a) (Some id) 0 ?w) with (_nbfs2_superblob_created a (Some id) 0 w).
      unfold _nbfs2_superblob_created. nsteps. unfold bs_call. nsteps. cbn [n_fs set_n_fs set_fs_superblob_id fs_bs b_client set_b_client].
      rewrite Hbs. nsteps. reflexivity. }
  unfold free. steps. unfold modify. cbn -[insert delete]. by rewrite delete_insert_id.
Qed.

(** The file system that has just been initialised. *)
Definition initialised (id : Z) (n : nat) (x : nstate) : nstate :=
  mk_nstate (set_fs_table (Some tt) (set_fs_ht_size INIT_HASHTABLE_SIZE (set_fs_superblob (Some id) (n_fs x))))
    (n_args x) (n_files x) (HashTable.set_st_table (HashTable.mk_table ∅ ∅ HashTable.CAPACITY 0) (n_ht x))
    (n_stopped x) (n_told x ++ [(n, 0)]).

Lemma opened_init_step s chs args fl mem nx (x : nstate) id y a xa :
  s_blobs s !! id = Some y → n_args x !! a = Some xa →
  complete 0 0 0 (mk_world s chs args fl mem [(OpenBlob (Some id), User (N_superblob_opened_init a))] nx [] x) =
  match n_cb xa with
  | Some n => Ok (tt, mk_world (with_xattr id XATTR_HTS INIT_HASHTABLE_SIZE y (opened id s)) chs args fl mem [] nx []
      (initialised id n x))
  | None => Fault NullDeref
  end.
Proof.
  intros Hy Ha. rewrite complete_ok. erewrite bind_Ok by (by apply (open_effect id y)).
  set (w1 := mk_world (opened id s) chs args fl mem [] nx []
    (set_n_fs (set_fs_ht_size INIT_HASHTABLE_SIZE (set_fs_superblob (Some id) (n_fs x))) x)).
  trans ((_ ← set_xattr XATTR_HTS INIT_HASHTABLE_SIZE; _ ← upd_fs (set_fs_table (Some tt));
    _ ← on_table (HashTable.create_table (s32 INIT_HASHTABLE_SIZE)); tell a 0) w1); [done|].
  rewrite (bind_Ok _ _ _ _ _ (set_xattr_run XATTR_HTS INIT_HASHTABLE_SIZE w1 id y eq_refl Hy)). nsteps.
  set (w2 := set_b_client _ _).
  rewrite (bind_Ok _ _ _ _ _ (on_table_eq (HashTable.create_table (s32 INIT_HASHTABLE_SIZE)) w2 tt _ eq_refl eq_refl)).
  set (w3 := with_ht _ w2). destruct (n_cb xa) as [n|] eqn:Hn; [by rewrite (told_eq a xa n 0 w3 Ha Hn)|].
  unfold tell, load_args. nsteps. change (n_args (b_client w3)) with (n_args x). rewrite Ha. nsteps. by rewrite Hn.
Qed.


(** The calls of an initialisation, all with success: [free] clusters, the super blob [id]. *)
Definition initialisation (start : M nworld unit) (free id : Z) : M nworld unit :=
  _ ← start; _ ← complete 0 0 free; _ ← complete 0 0 id; serve 2.

(** The state when the super blob is about to be opened. *)
Definition before_open (a : nat) (x : _nbfs2_args) (cb : option nat) (id : Z) (c : nstate) : nstate :=
  set_n_fs (set_fs_superblob_id (Some id) (set_fs_bs (Some tt) (n_fs c)))
    (set_n_args (<[a := mk_args (n_file x) (n_build_mthd x) cb]> (n_args c)) c).
Definition new_store (free id : Z) (s : bstore) : bstore :=
  set_s_super (Some id) (set_s_blobs {[id := mk_blob 0 (λ _, None) ∅]} (set_s_free free s)).

Lemma initialisation_eq a x cb s chs args fl mem nx (c : nstate) free id :
  n_args c !! a = Some x → n_build_mthd x = MTHD_INIT → args !! nx = None → 0 <= id < 2 ^ 64 →
  let xa := mk_args (n_file x) (n_build_mthd x) cb in
  initialisation (nbfs2_build_fs a cb) free id (mk_world s chs args fl mem [] nx [] c) =
  match cb with
  | Some n => Ok (tt, mk_world (with_xattr id XATTR_HTS INIT_HASHTABLE_SIZE (mk_blob 0 (λ _, None) ∅)
      (opened id (new_store free id s))) chs args fl mem [] (S nx) [] (initialised id n (before_open a x cb id c)))
  | None => Fault NullDeref
  end.
Proof.
  intros Ha Hm Hnx Hid xa. unfold initialisation, nbfs2_build_fs.
  erewrite bind_Ok.
  2:{ erewrite bind_Ok by (apply set_callback_eq; exact Ha). unfold load_args. nsteps.
      cbn [b_client set_b_client n_args set_n_args]. rewrite lookup_insert_eq. nsteps. cbn [n_build_mthd].
      reflexivity. }
  erewrite bind_Ok by (by apply init_bs_step).
  erewrite bind_Ok by (apply created_step; [apply lookup_empty|done]).
  cbn [serve]. erewrite bind_Ok by (by apply (super_set_step _ _ _ _ _ _ _ _ _ id a)).
  pose proof (opened_init_step (new_store free id s) chs args fl mem (S nx) (before_open a x cb id c) id
    (mk_blob 0 (λ _, None) ∅) a xa (lookup_singleton_eq _ _) (lookup_insert_eq _ _ _)) as Hrun.
  etrans; [apply bind_unit|]. destruct cb; exact Hrun.
Qed.

(** C27. Initialising: a caller that passes a function is told 0, with a new super blob
    set and open and an empty table, and with the size of the metadata never set;
    but the program itself passes NULL, so that its start ends in a call of NULL. *)
Theorem init_correct a x n s chs args fl mem nx (c : nstate) free id :
  n_args c !! a = Some x → n_build_mthd x = MTHD_INIT → args !! nx = None → 0 <= id < 2 ^ 64 →
  let w := mk_world s chs args fl mem [] nx [] c in
  (∃ w', initialisation (nbfs2_build_fs a (Some n)) free id w = Ok (tt, w') ∧
    s_super (b_store w') = Some id ∧ s_open (b_store w') = <[id := S (default O (s_open s !! id))]> (s_open s) ∧
    b_args w' = args ∧ n_told (b_client w') = n_told c ++ [(n, 0)] ∧ n_stopped (b_client w') = n_stopped c ∧
    rep 18 (n_ht (b_client w')) (λ _, empty_bucket) ∧
    fs_spb_data_size (n_fs (b_client w')) = fs_spb_data_size (n_fs c)) ∧
  initialisation (_nbfs2_start a 0) free id w = Fault NullDeref.
Proof.
  intros Ha Hm Hnx Hid w. split.
  - eexists. split; [exact (initialisation_eq a x (Some n) s chs args fl mem nx c free id Ha Hm Hnx Hid)|].
    do 5 (split; [done|]). split; [by apply empty_table_rep|done].
  - exact (initialisation_eq a x None s chs args fl mem nx c free id Ha Hm Hnx Hid).
Qed.

(** ** Unloading *)
Lemma bind_same (m1 m2 : M nworld unit) w1 w2 (f : unit → M nworld unit) : m1 w1 = m2 w2 → (m1 ≫= f) w1 = (m2 ≫= f) w2.
Proof. unfold mbind, M_bind. by intros ->. Qed.

(** The world when [_nbfs2_write_htable] starts: the buffer is allocated. *)
Definition with_buffer (a : nat) (x : _nbfs2_args) (cb : option nat) s chs args fl mem nx (c : nstate) (size : nat) : nworld :=
  mk_world s chs args fl (<[nx := replicate size None]> mem) [] (S nx) []
    (set_n_fs (set_fs_write_buff (Some nx) (n_fs c)) (set_n_args (<[a := mk_args (n_file x) (n_build_mthd x) cb]> (n_args c)) c)).
Lemma unload_start a x cb s chs args fl mem nx (c : nstate) size :
  n_args c !! a = Some x → fs_spb_data_size (n_fs c) = Z.of_nat size →
  nbfs2_unload_fs a cb (mk_world s chs args fl mem [] nx [] c) =
  _nbfs2_write_htable a (with_buffer a x cb s chs args fl mem nx c size).
Proof.
  intros Ha Hsize. unfold nbfs2_unload_fs. erewrite bind_Ok by (apply set_callback_eq; exact Ha). nsteps.
  cbn [n_fs set_n_args b_client set_b_client]. rewrite Hsize. unfold alloc_buffer. nsteps.
  erewrite bind_Ok by (by apply malloc_ok_eq). cbn [negb]. nsteps. by rewrite Nat2Z.id.
Qed.

(** C39. Unloading: the buffer has as many bytes as the metadata, but that number of
    bytes is passed as the number of I/O units to write.  With one file or more, and
    units of two bytes or more, the unloading gets to that write, which is longer than
    its buffer, and carrying it out runs over the end of the buffer. *)
Theorem unload_overruns a x cb s chs args fl mem nx (c : nstate) sb y B :
  let l := bindings_of B in let size := (RECORD_SIZE * length l)%nat in
  n_args c !! a = Some x → fs_bs (n_fs c) = Some tt → fs_table (n_fs c) = Some tt → fs_superblob (n_fs c) = Some sb →
  fs_ht_size (n_fs c) = HashTable.CAPACITY → rep 18 (n_ht c) B → names_fit l → l ≠ [] →
  fs_spb_data_size (n_fs c) = Z.of_nat size → Z.of_nat size < 2 ^ 31 →
  geometry s → 1 < s_io_unit_size s < 2 ^ 32 → s_super s = Some sb → s_blobs s !! sb = Some y → 0 <= x_clusters y →
  clusters_needed s (Z.of_nat size) - x_clusters y <= s_free s →
  ∃ k w' buf ch done, (_ ← nbfs2_unload_fs a cb; serve k) (mk_world s chs args fl mem [] nx [] c) = Ok (tt, w') ∧
    b_mem w' !! nx = Some buf ∧ length buf = size ∧
    b_calls w' = [(IoWrite sb (Some ch) (Some nx) 0 (Z.of_nat size), done)] ∧
    Z.of_nat size < Z.of_nat size * s_io_unit_size s ∧ complete 0 0 0 w' = Fault OutOfBounds.
Proof.
  intros l size Ha Hbs Ht Hsb Hhts Hrep Hnames Hl Hsize Hint Hg Hu Hsup Hy Hc Hfree.
  set (w1 := with_buffer a x cb s chs args fl mem nx c size).
  assert (Hbuf : length (replicate size (None : byte)) = size) by apply length_replicate.
  assert (Hul : unloading nx (n_ht (b_client w1)) (replicate size None) w1) by (split; [exact Ht|done|done|apply lookup_insert_eq]).
  assert (Hpos : (0 < length l)%nat) by (destruct l; [done|simpl; lia]).
  set (s2 := sized_store y l w1 sb).
  set (y1 := mk_blob (x_clusters y) (x_data y) (<[XATTR_HTS := HashTable.CAPACITY]> (x_xattrs y))).
  assert (Hms : metadata_size l = Z.of_nat size) by (unfold metadata_size, size; reflexivity).
  assert (Hcn : ∀ n, clusters_needed s2 n = clusters_needed s n) by done.
  destruct (super_write_overruns s2 chs args fl (<[nx := splice 0 (image empty_record l) (replicate size None)]> (b_mem w1)) (S nx)
    (sized_client l w1) sb (mk_blob (x_clusters y) (x_data y) (<[XATTR_SPBDS := metadata_size l]> (x_xattrs y1))) nx
    (splice 0 (image empty_record l) (replicate size None)) 0 (metadata_size l) (N_superblob_written a)) as (k & w' & Hrun & Hmem & Hcalls & Hover).
  - by destruct Hg.
  - rewrite Hms. split; cbn [x_clusters]; [done|lia|done|].
    change (s_io_unit_size s2) with (s_io_unit_size s). rewrite Z.add_0_l. nia.
  - exact Hsup.
  - apply lookup_insert_eq.
  - apply lookup_insert_eq.
  - rewrite length_splice; rewrite length_replicate; [rewrite Hms; change (s_io_unit_size s2) with (s_io_unit_size s)|].
    + unfold RECORD_SIZE in size. nia.
    + destruct (length_image l empty_record eq_refl Hnames) as [-> _]. done.
  - rewrite Z.add_0_l, Hms, Hcn. exact Hfree.
  - eexists k, w', _, _, _. split; [etrans; [|exact Hrun]|]; [|split; [rewrite Hmem; apply lookup_insert_eq|]; split;
      [|split; [rewrite <- Hms; exact Hcalls|]; split; [assert (0 < Z.of_nat size) by (unfold size, RECORD_SIZE; lia); nia|exact Hover]]].
    2:{ rewrite length_splice; rewrite length_replicate; [done|].
      destruct (length_image l empty_record eq_refl Hnames) as [-> _]. done. }
    assert (Hlen : (RECORD_SIZE * length l <= length (replicate size (None : byte)))%nat) by (rewrite Hbuf; done).
    assert (Hint' : Z.of_nat (length (replicate size (None : byte))) < 2 ^ 31) by (rewrite Hbuf; exact Hint).
    pose proof (write_htable_eq a w1 nx _ sb y B Hul eq_refl Hbs Hsb Hy Hhts Hrep Hnames Hlen Hint') as Hw.
    apply bind_same. etrans; [exact (unload_start a x cb s chs args fl mem nx c size Ha Hsize)|]. exact Hw.
Qed.

(** ** Loading *)
Lemma get_xattr_eq name (w : nworld) sb y v :
  fs_superblob (n_fs (b_client w)) = Some sb → s_blobs (b_store w) !! sb = Some y → x_xattrs y !! name = Some v →
  get_xattr_value name w = Ok (Some (s_xattr_addr (b_store w) sb name), w).
Proof.
  intros Hf Hb Hv. unfold get_xattr_value. nsteps. rewrite Hf. nsteps. unfold mret, M_ret. rewrite decide_True; [done|by eexists].
Qed.

(** The state when the sizes are set and the table is made; [rb] is the read buffer. *)
Definition loading_fs (sb buckets size : Z) (rb : option nat) (f : _nbfs2_filesystem) : _nbfs2_filesystem :=
  mk_fs (fs_bs f) (Some sb) (fs_superblob_id f) size (Some tt) buckets rb (fs_write_buff f).
Definition loading_client (sb buckets size : Z) (rb : option nat) (c : nstate) : nstate :=
  mk_nstate (loading_fs sb buckets size rb (n_fs c)) (n_args c) (n_files c)
    (HashTable.set_st_table (HashTable.mk_table ∅ ∅ (s32 buckets) 0) (n_ht c)) (n_stopped c) (n_told c).

(** The rest of the handler. *)
Definition read_metadata (a : nat) : M nworld unit :=
  f ← gets_n n_fs; p ← alloc_buffer (fs_spb_data_size f); _ ← upd_fs (set_fs_read_buff p); f ← gets_n n_fs;
  _ ← of_option Uninitialised (fs_bs f); read_super_blob (fs_read_buff f) 0 (fs_spb_data_size f) (N_superblob_read a).
Lemma sizes_read a s chs args fl mem nx (c : nstate) sb y v1 v2 :
  s_blobs s !! sb = Some y → x_xattrs y !! XATTR_HTS = Some v1 → x_xattrs y !! XATTR_SPBDS = Some v2 →
  let buckets := u32 (s_xattr_addr s sb XATTR_HTS) in let size := s_xattr_addr s sb XATTR_SPBDS in
  _nbfs2_superblob_opened_load a sb 0 (mk_world s chs args fl mem [] nx [] c) =
  read_metadata a (mk_world s chs args fl mem [] nx [] (loading_client sb buckets size (fs_read_buff (n_fs c)) c)).
Proof.
  intros Hy H1 H2 buckets size. unfold _nbfs2_superblob_opened_load. nsteps. set (w1 := set_b_client _ _).
  rewrite (bind_Ok _ _ _ _ _ (get_xattr_eq XATTR_HTS w1 sb y v1 eq_refl Hy H1)).
  change (s_xattr_addr (b_store w1) sb XATTR_HTS) with (s_xattr_addr s sb XATTR_HTS). fold buckets. clearbody buckets. nsteps.
  set (w2 := set_b_client _ (set_b_client _ w1)). change (fs_ht_size _) with buckets.
  rewrite (bind_Ok _ _ _ _ _ (on_table_eq (HashTable.create_table (s32 buckets)) w2 tt
    (HashTable.set_st_table (HashTable.mk_table ∅ ∅ (s32 buckets) 0) (n_ht c)) eq_refl eq_refl)).
  set (w3 := with_ht _ w2).
  rewrite (bind_Ok _ _ _ _ _ (get_xattr_eq XATTR_SPBDS w3 sb y v2 eq_refl Hy H2)).
  change (s_xattr_addr (b_store w3) sb XATTR_SPBDS) with size. clearbody size. nsteps. done.
Qed.
Lemma read_metadata_eq a s chs args fl mem nx (c : nstate) sb buckets size rb :
  fs_bs (n_fs c) = Some tt →
  read_metadata a (mk_world s chs args fl mem [] nx [] (loading_client sb buckets size rb c)) =
  read_super_blob (Some nx) 0 size (N_superblob_read a)
    (mk_world s chs args fl (<[nx := replicate (Z.to_nat size) None]> mem) [] (S nx) []
       (loading_client sb buckets size (Some nx) c)).
Proof.
  intros Hbs. unfold read_metadata, alloc_buffer. nsteps. erewrite bind_Ok by (by apply malloc_ok_eq). cbn [negb]. nsteps.
  set (w5 := set_b_client _ _). change (fs_bs (n_fs (b_client w5))) with (fs_bs (n_fs c)). rewrite Hbs. nsteps. done.
Qed.

(** C40. Loading: what the attributes of the super blob hold is not read; the addresses
    at which they lie become the size of the metadata, which is read, and (their low
    32 bits) the number of buckets of the table. *)
Theorem load_reads_addresses a s chs args fl mem nx (c : nstate) sb y v1 v2 :
  fs_bs (n_fs c) = Some tt → s_blobs s !! sb = Some y →
  x_xattrs y !! XATTR_HTS = Some v1 → x_xattrs y !! XATTR_SPBDS = Some v2 →
  let buckets := u32 (s_xattr_addr s sb XATTR_HTS) in let size := s_xattr_addr s sb XATTR_SPBDS in
  ∃ w' A, _nbfs2_superblob_opened_load a sb 0 (mk_world s chs args fl mem [] nx [] c) = Ok (tt, w') ∧
    fs_ht_size (n_fs (b_client w')) = buckets ∧ HashTable.size (HashTable.st_table (n_ht (b_client w'))) = s32 buckets ∧
    fs_spb_data_size (n_fs (b_client w')) = size ∧
    b_calls w' = [(GetSuper, Rb_got (S nx))] ∧ b_args w' !! S nx = Some A ∧ a_length A = size ∧ a_payload A = Some nx ∧
    b_mem w' !! nx = Some (replicate (Z.to_nat size) None).
Proof.
  intros Hbs Hy H1 H2 buckets size. rewrite (sizes_read a s chs args fl mem nx c sb y v1 v2 Hy H1 H2).
  fold buckets size. clearbody buckets size. rewrite (read_metadata_eq _ _ _ _ _ _ _ _ _ _ _ _ Hbs), read_super_start.
  eexists _, _. split; [reflexivity|]. do 4 (split; [reflexivity|]). split; [apply lookup_insert_eq|].
  do 2 (split; [reflexivity|]). apply lookup_insert_eq.
Qed.
