(* ===== verification/Nbfs2Demo.v ===== *)
(** * The claims about NBFS2 on a small file system

    One file, "a", with blob 8; the super blob is blob 7. *)
From stdpp Require Import gmap.
From S2P Require Import Prelude.
From S2P Require HashTable.
From S2P Require Import HashTableProofs HashTableTheorems BlobIdChar BlobIo BlobIoExec BlobIoTheorems Nbfs2 Nbfs2Exec Nbfs2Records Nbfs2Unload Nbfs2Load Nbfs2Metadata Nbfs2Files Nbfs2Start.
Local Open Scope Z_scope.

Definition demo_value : string := blobid2char 8.
Definition demo_table : HashTable.store :=
  match HashTable.ht_insert "a" demo_value (HashTable.empty_store None) with Ok (_, s) => s | Fault _ => HashTable.empty_store None end.
Definition demo_buckets : Z → bucket :=
  upd (λ _, empty_bucket) (HashTable.hash_function "a") (mk_bucket (Some (0%nat, ("a", demo_value))) []).

Lemma file_a_rep : rep 18 demo_table demo_buckets.
Proof.
  destruct (insert_first 18 (HashTable.empty_store None) (λ _, empty_bucket) "a" demo_value) as (s & Hrun & _ & Hrep);
    [apply empty_store_rep|reflexivity|reflexivity|]. unfold demo_table. by rewrite Hrun.
Qed.
Lemma demo_bindings : bindings_of demo_buckets = [("a", demo_value)].
Proof. vm_compute. reflexivity. Qed.
Lemma demo_shallow : shallow demo_buckets.
Proof.
  intros j. unfold demo_buckets, upd. case_decide; cbn [kvs b_head b_rest empty_bucket fmap list_fmap length].
  - split; [|lia]. repeat constructor; set_solver.
  - split; [constructor|lia].
Qed.

Definition demo_fs (read_buff write_buff : option nat) : _nbfs2_filesystem :=
  mk_fs (Some tt) (Some 7) (Some 7) 136 (Some tt) HashTable.CAPACITY read_buff write_buff.
Definition demo_state (f : _nbfs2_filesystem) (t : HashTable.store) : nstate :=
  mk_nstate f {[0%nat := mk_args (Some 1%nat) MTHD_INIT (Some 5%nat)]} {[1%nat := mk_file (Some 8) "a"]} t [] [].
Definition demo_super : blob := mk_blob 1 (λ _, None) {[XATTR_HTS := 65536; XATTR_SPBDS := 136]}.
(** Four I/O units of 512 bytes in a cluster. *)
Definition demo_store : bstore :=
  mk_bstore (Some 7) {[7 := demo_super; 8 := mk_blob 0 (λ _, None) ∅]} 100 2048 512 {[7 := 1%nat]} (λ _ _, 8192).
Definition demo_world (f : _nbfs2_filesystem) (t : HashTable.store) (mem : gmap nat (list byte)) : nworld :=
  mk_world demo_store [] ∅ ∅ mem [] 3 [] (demo_state f t).
Definition demo_buffer : list byte := replicate 136 None.

Lemma metadata_roundtrip_witness :
  let size := (RECORD_SIZE * length (bindings_of demo_buckets))%nat in
  ∃ w' buf', _nbfs2_write_htable 0 (demo_world (demo_fs None (Some 2%nat)) demo_table {[2%nat := demo_buffer]}) = Ok (tt, w') ∧
    b_mem w' !! 2%nat = Some buf' ∧ fs_spb_data_size (n_fs (b_client w')) = Z.of_nat size ∧
    ∀ a2 x n (v : nworld) q rb t,
    loading q rb t v → n_args (b_client v) !! a2 = Some x → n_cb x = Some n →
    fs_spb_data_size (n_fs (b_client v)) = fs_spb_data_size (n_fs (b_client w')) →
    (size <= length rb)%nat → Z.of_nat (length rb) < 2 ^ 31 → take size rb = take size buf' →
    rep 18 t (λ _, empty_bucket) → HashTable.st_junk t = None ∨ (∀ j, (length (kvs (demo_buckets j)) <= 1)%nat) →
    ∃ v' B', _nbfs2_build_htable a2 v = Ok (tt, v') ∧ n_told (b_client v') = n_told (b_client v) ++ [(n, 0)] ∧
      rep 18 (n_ht (b_client v')) B' ∧ ∀ k, found B' k = found demo_buckets k.
Proof.
  apply (metadata_roundtrip 0 (demo_world (demo_fs None (Some 2%nat)) demo_table {[2%nat := demo_buffer]})
    2 demo_buffer 7 demo_super demo_buckets);
    [by split|reflexivity|reflexivity|reflexivity|reflexivity|reflexivity|exact file_a_rep|exact demo_shallow|..].
  - rewrite demo_bindings. constructor; [|constructor]. split; [cbn; unfold MAXFILENAME; lia|]. split; [done|]. exists 8. split; [lia|reflexivity].
  - rewrite demo_bindings. cbn. lia.
  - cbn. lia.
Defined.


Lemma delete_keeps_name_witness :
  let w := demo_world (demo_fs None None) demo_table ∅ in
  ∃ w', (_ ← nbfs2_delete_file 0 "a" (Some 6%nat); complete 0 0 0) w = Ok (tt, w') ∧
    s_blobs (b_store w') !! 8 = None ∧ n_ht (b_client w') = n_ht (b_client w) ∧
    n_told (b_client w') = n_told (b_client w) ∧ b_calls w' = [] ∧
    nbfs2_open_file_sync 0 "a" w' = Ok (tt, with_file 1 (mk_file (Some 8) "a") w').
Proof.
  intros w. apply (delete_keeps_name 0 (mk_args (Some 1%nat) MTHD_INIT (Some 5%nat)) 1 (mk_file (Some 8) "a") "a" (Some 6%nat) 8 0 w demo_buckets);
    [reflexivity|reflexivity|reflexivity|reflexivity|reflexivity|reflexivity|exact file_a_rep|by vm_compute|by eexists|reflexivity
    |vm_compute; apply not_elem_of_nil].
Defined.

Definition fresh_state : nstate :=
  mk_nstate (mk_fs None None None 0 None 0 None None) {[0%nat := main_args "init"]} ∅ (HashTable.empty_store None) [] [].
Lemma init_correct_witness :
  let w := mk_world demo_store [] ∅ ∅ ∅ [] 3 [] fresh_state in
  (∃ w', initialisation (nbfs2_build_fs 0 (Some 6%nat)) 100 7 w = Ok (tt, w') ∧
    s_super (b_store w') = Some 7 ∧ s_open (b_store w') = <[7 := 2%nat]> (s_open demo_store) ∧
    b_args w' = ∅ ∧ n_told (b_client w') = [(6%nat, 0)] ∧ n_stopped (b_client w') = [] ∧
    rep 18 (n_ht (b_client w')) (λ _, empty_bucket) ∧ fs_spb_data_size (n_fs (b_client w')) = 0) ∧
  initialisation (_nbfs2_start 0 0) 100 7 w = Fault NullDeref.
Proof.
  apply (init_correct 0 (main_args "init") 6 demo_store [] ∅ ∅ ∅ 3 fresh_state 100 7); [reflexivity|by vm_compute|reflexivity|lia].
Defined.

Lemma unload_overruns_witness :
  ∃ k w' buf ch done, (_ ← nbfs2_unload_fs 0 (Some 6%nat); serve k) (demo_world (demo_fs None None) demo_table ∅) = Ok (tt, w') ∧
    b_mem w' !! 3%nat = Some buf ∧ length buf = (RECORD_SIZE * length (bindings_of demo_buckets))%nat ∧
    b_calls w' = [(IoWrite 7 (Some ch) (Some 3%nat) 0 (Z.of_nat (RECORD_SIZE * length (bindings_of demo_buckets))), done)] ∧
    Z.of_nat (RECORD_SIZE * length (bindings_of demo_buckets)) <
      Z.of_nat (RECORD_SIZE * length (bindings_of demo_buckets)) * s_io_unit_size demo_store ∧
    complete 0 0 0 w' = Fault OutOfBounds.
Proof.
  apply (unload_overruns 0 (mk_args (Some 1%nat) MTHD_INIT (Some 5%nat)) (Some 6%nat) demo_store [] ∅ ∅ ∅ 3
    (demo_state (demo_fs None None) demo_table) 7 demo_super demo_buckets);
    [reflexivity|reflexivity|reflexivity|reflexivity|reflexivity|exact file_a_rep|..].
  - rewrite demo_bindings. constructor; [|constructor]. cbn. unfold MAXFILENAME. lia.
  - by rewrite demo_bindings.
  - rewrite demo_bindings. reflexivity.
  - rewrite demo_bindings. cbn. lia.
  - by split.
  - cbn. lia.
  - reflexivity.
  - reflexivity.
  - cbn. lia.
  - rewrite demo_bindings. by vm_compute.
Defined.

Lemma load_reads_addresses_witness :
  ∃ w' A, _nbfs2_superblob_opened_load 0 7 0 (mk_world demo_store [] ∅ ∅ ∅ [] 3 [] (demo_state (demo_fs None None) demo_table)) = Ok (tt, w') ∧
    fs_ht_size (n_fs (b_client w')) = u32 (8192) ∧
    HashTable.size (HashTable.st_table (n_ht (b_client w'))) = s32 (u32 (8192)) ∧
    fs_spb_data_size (n_fs (b_client w')) = 8192 ∧
    b_calls w' = [(GetSuper, Rb_got 4)] ∧ b_args w' !! 4%nat = Some A ∧ a_length A = 8192 ∧ a_payload A = Some 3%nat ∧
    b_mem w' !! 3%nat = Some (replicate (Z.to_nat (8192)) None).
Proof.
  apply (load_reads_addresses 0 demo_store [] ∅ ∅ ∅ 3 (demo_state (demo_fs None None) demo_table) 7 demo_super 65536 136);
    reflexivity.
Defined.
