(* ===== verification/MultiIo.v ===== *)
(** * The test of concurrent I/O of NBFS2 (NBFS2/apps/multiIO/test_multi_IO.c)

    Four blobs, each created, resized, written, read back, compared, closed and
    deleted by a chain of callbacks of its own.  The chains share one counter: it times
    the writes, and decides who unloads the blobstore.  Calls to the blobstore and its
    events are those of [BlobIo], whose [Client] the program is. *)
From stdpp Require Import gmap.
From S2P Require Import Prelude BlobIo.
Local Open Scope Z_scope.

Definition N_CLUSTER : Z := 2.
Definition IO_NUM : nat := 4.

(** ** State

    [struct test_multi_io_t].  [t_bs] says whether [bs] is set; a pointer or id that the
    code has not set is [None], and NULL is [Some None]. *)
Record test_multi_io_t : Type := mk_test {
  t_bs : bool;
  t_blob : option Z;
  t_blobid : option Z;
  t_channel : option (option nat);
  t_read_buff : option (option nat);
  t_write_buff : option (option nat);
  t_io_unit_size : Z;
  t_cluster_size : Z;
  t_rc : Z
}.
Definition set_t_bs x t : test_multi_io_t := mk_test x (t_blob t) (t_blobid t) (t_channel t) (t_read_buff t) (t_write_buff t) (t_io_unit_size t) (t_cluster_size t) (t_rc t).
Definition set_t_blob x t : test_multi_io_t := mk_test (t_bs t) x (t_blobid t) (t_channel t) (t_read_buff t) (t_write_buff t) (t_io_unit_size t) (t_cluster_size t) (t_rc t).
Definition set_t_blobid x t : test_multi_io_t := mk_test (t_bs t) (t_blob t) x (t_channel t) (t_read_buff t) (t_write_buff t) (t_io_unit_size t) (t_cluster_size t) (t_rc t).
Definition set_t_channel x t : test_multi_io_t := mk_test (t_bs t) (t_blob t) (t_blobid t) x (t_read_buff t) (t_write_buff t) (t_io_unit_size t) (t_cluster_size t) (t_rc t).
Definition set_t_read_buff x t : test_multi_io_t := mk_test (t_bs t) (t_blob t) (t_blobid t) (t_channel t) x (t_write_buff t) (t_io_unit_size t) (t_cluster_size t) (t_rc t).
Definition set_t_write_buff x t : test_multi_io_t := mk_test (t_bs t) (t_blob t) (t_blobid t) (t_channel t) (t_read_buff t) x (t_io_unit_size t) (t_cluster_size t) (t_rc t).
Definition set_t_io_unit_size x t : test_multi_io_t := mk_test (t_bs t) (t_blob t) (t_blobid t) (t_channel t) (t_read_buff t) (t_write_buff t) x (t_cluster_size t) (t_rc t).
Definition set_t_cluster_size x t : test_multi_io_t := mk_test (t_bs t) (t_blob t) (t_blobid t) (t_channel t) (t_read_buff t) (t_write_buff t) (t_io_unit_size t) x (t_rc t).
Definition set_t_rc x t : test_multi_io_t := mk_test (t_bs t) (t_blob t) (t_blobid t) (t_channel t) (t_read_buff t) (t_write_buff t) (t_io_unit_size t) (t_cluster_size t) x.

(** The callbacks, with the struct they get. *)
Inductive mcallback : Type :=
| M_unload_complete (a : nat)
| M_delete_complete (a : nat)
| M_delete_blob (a : nat)
| M_read_complete (a : nat)
| M_write_complete (a : nat)
| M_sync_complete (a : nat)
| M_resize_complete (a : nat)
| M_open_complete (a : nat)
| M_blob_create_complete (a : nat)
| M_bs_init_complete (a : nat).

(** The structs, the counter, how often the time of the writes was printed, the codes
    given to spdk_app_stop, and what fresh memory holds where an [int] is read. *)
Record mstate : Type := mk_mstate {
  m_structs : gmap nat test_multi_io_t;
  fini_count : Z;
  m_timed : nat;
  m_stopped : list Z;
  m_junk : Z
}.
Abbreviation mworld := (world mcallback mstate).
Definition set_m_structs x (s : mstate) : mstate := mk_mstate x (fini_count s) (m_timed s) (m_stopped s) (m_junk s).
Definition set_fini_count x (s : mstate) : mstate := mk_mstate (m_structs s) x (m_timed s) (m_stopped s) (m_junk s).
Definition set_m_timed x (s : mstate) : mstate := mk_mstate (m_structs s) (fini_count s) x (m_stopped s) (m_junk s).
Definition set_m_stopped x (s : mstate) : mstate := mk_mstate (m_structs s) (fini_count s) (m_timed s) x (m_junk s).

(** ** Primitives *)
Definition gets_m {A} (f : mstate → A) : M mworld A := gets (λ w, f (b_client w)).
Definition modify_m (f : mstate → mstate) : M mworld unit := modify (λ w, set_b_client (f (b_client w)) w).
Definition load_t (a : nat) : M mworld test_multi_io_t := m ← gets_m m_structs; of_option UseAfterFree (m !! a).
Definition save_t (a : nat) (t : test_multi_io_t) : M mworld unit := modify_m (λ s, set_m_structs (<[a := t]> (m_structs s)) s).
Definition free_t (a : nat) : M mworld unit := _ ← load_t a; modify_m (λ s, set_m_structs (delete a (m_structs s)) s).
(** [malloc] of a struct, and [calloc]. *)
Definition alloc_t (t : test_multi_io_t) : M mworld (option nat) :=
  ok ← malloc_ok;
  if negb (ok : bool) then mret None else a ← fresh; _ ← save_t a t; mret (Some a).
Definition spdk_app_stop (rc : Z) : M mworld unit := modify_m (λ s, set_m_stopped (m_stopped s ++ [rc]) s).
(** [bs_call a c cb]: a call on [test_multi_io->bs]. *)
Definition bs_call (t : test_multi_io_t) (c : call) (cb : mcallback) : M mworld unit :=
  _ ← guard_or NullDeref (t_bs t); async c (User cb).
(** [memcmp] of the first [n] bytes of two buffers, whether they are equal. *)
Definition same_bytes (p q : option nat) (n : Z) : M mworld bool :=
  '(_, x) ← buffer p n;
  '(_, y) ← buffer q n;
  x ← of_option Uninitialised (mapM (λ b, b) (take (Z.to_nat n) x));
  y ← of_option Uninitialised (mapM (λ b, b) (take (Z.to_nat n) y));
  mret (bool_decide (x = y)).

(** ** The end of a chain *)
Definition unload_complete (a : nat) (bserrno : Z) : M mworld unit :=
  t ← load_t a;
  let t := if decide (bserrno ≠ 0) then set_t_rc bserrno t else t in
  _ ← save_t a t;
  _ ← spdk_app_stop (t_rc t);
  r ← deref (t_read_buff t);
  _ ← free_buffer r;
  p ← deref (t_write_buff t);
  _ ← free_buffer p;
  free_t a.

Definition unload_bs (a : nat) (bserrno : Z) : M mworld unit :=
  t ← load_t a;
  let t := if decide (bserrno ≠ 0) then set_t_rc bserrno t else t in
  _ ← save_t a t;
  if t_bs t then
    c ← deref (t_channel t);
    _ ← (match c with Some c => free_channel c | None => mret tt end);
    _ ← modify_m (λ s, set_fini_count (fini_count s + 1) s);
    n ← gets_m fini_count;
    if decide (n = Z.of_nat IO_NUM) then bs_call t UnloadBs (M_unload_complete a) else mret tt
  else spdk_app_stop bserrno.

Definition delete_complete (a : nat) (bserrno : Z) : M mworld unit :=
  if decide (bserrno ≠ 0) then unload_bs a bserrno else unload_bs a 0.

Definition delete_blob (a : nat) (bserrno : Z) : M mworld unit :=
  if decide (bserrno ≠ 0) then unload_bs a bserrno else
  t ← load_t a;
  id ← deref (t_blobid t);
  bs_call t (DeleteBlob id) (M_delete_complete a).

(** ** Reading back *)
Definition read_complete (a : nat) (bserrno : Z) : M mworld unit :=
  if decide (bserrno ≠ 0) then unload_bs a bserrno else
  t ← load_t a;
  p ← deref (t_write_buff t);
  q ← deref (t_read_buff t);
  same ← same_bytes p q (t_cluster_size t);
  if negb (same : bool) then unload_bs a (-1) else
  b ← deref (t_blob t);
  async (Close b) (User (M_delete_blob a)).

(** How many I/O units a blob of the test has. *)
Definition test_units (t : test_multi_io_t) : Z := u64 (t_cluster_size t * N_CLUSTER) / t_io_unit_size t.

Definition read_blob (a : nat) : M mworld unit :=
  t ← load_t a;
  q ← alloc_buffer (u64 (t_cluster_size t * N_CLUSTER));
  let t := set_t_read_buff (Some q) t in
  _ ← save_t a t;
  match q with
  | None => unload_bs a (- ENOMEM)
  | Some _ =>
      b ← deref (t_blob t);
      c ← deref (t_channel t);
      async (IoRead b c q 0 (test_units t)) (User (M_read_complete a))
  end.

Definition cal_time (a : nat) : M mworld unit :=
  _ ← modify_m (λ s, set_fini_count (fini_count s + 1) s);
  n ← gets_m fini_count;
  _ ← (if decide (n = Z.of_nat IO_NUM) then
         _ ← modify_m (set_fini_count 0); modify_m (λ s, set_m_timed (S (m_timed s)) s)
       else mret tt);
  read_blob a.

(** ** Writing *)
Definition write_complete (a : nat) (bserrno : Z) : M mworld unit :=
  if decide (bserrno ≠ 0) then unload_bs a bserrno else cal_time a.

Definition blob_write (a : nat) : M mworld unit :=
  t ← load_t a;
  p ← alloc_buffer (u64 (t_cluster_size t * N_CLUSTER));
  let t := set_t_write_buff (Some p) t in
  _ ← save_t a t;
  match p with
  | None => unload_bs a (- ENOMEM)
  | Some i =>
      _ ← memset i 90 (t_cluster_size t);
      _ ← guard_or NullDeref (t_bs t);
      c ← alloc_channel;
      let t := set_t_channel (Some c) t in
      _ ← save_t a t;
      match c with
      | None => unload_bs a (- ENOMEM)
      | Some _ =>
          b ← deref (t_blob t);
          async (IoWrite b c p 0 (test_units t)) (User (M_write_complete a))
      end
  end.

Definition sync_complete (a : nat) (bserrno : Z) : M mworld unit :=
  if decide (bserrno ≠ 0) then unload_bs a bserrno else blob_write a.

Definition resize_complete (a : nat) (bserrno : Z) : M mworld unit :=
  if decide (bserrno ≠ 0) then unload_bs a bserrno else
  t ← load_t a;
  b ← deref (t_blob t);
  _ ← num_clusters b;
  async (SyncMd b) (User (M_sync_complete a)).

Definition open_complete (a : nat) (blob : Z) (bserrno : Z) : M mworld unit :=
  if decide (bserrno ≠ 0) then unload_bs a bserrno else
  t ← load_t a;
  _ ← save_t a (set_t_blob (Some blob) t);
  async (Resize blob N_CLUSTER) (User (M_resize_complete a)).

Definition blob_create_complete (a : nat) (blobid bserrno : Z) : M mworld unit :=
  if decide (bserrno ≠ 0) then unload_bs a bserrno else
  t ← load_t a;
  let t := set_t_blobid (Some blobid) t in
  _ ← save_t a t;
  bs_call t (OpenBlob (Some blobid)) (M_open_complete a).

Definition create_blob (a : nat) : M mworld unit :=
  t ← load_t a; bs_call t CreateBlob (M_blob_create_complete a).

(** ** The start *)

(** A struct from [malloc]. *)
Definition fresh_struct (junk : Z) : test_multi_io_t := mk_test false None None None None None 0 0 junk.

(** The [malloc]s of [meta_args]; [None] when one fails. *)
Fixpoint alloc_structs (n : nat) : M mworld (option (list nat)) :=
  match n with
  | O => mret (Some [])
  | S n' =>
      junk ← gets_m m_junk;
      a ← alloc_t (fresh_struct junk);
      match a with
      | None => mret None
      | Some a => l ← alloc_structs n'; mret (cons a <$> l)
      end
  end.

Fixpoint init_structs (l : list nat) (t : test_multi_io_t) : M mworld unit :=
  match l with
  | [] => mret tt
  | a :: l' =>
      x ← load_t a;
      _ ← save_t a (set_t_cluster_size (t_io_unit_size t) (set_t_io_unit_size (t_io_unit_size t) (set_t_bs (t_bs t) x)));
      init_structs l' t
  end.

Fixpoint create_blobs (l : list nat) : M mworld unit :=
  match l with [] => mret tt | a :: l' => _ ← create_blob a; create_blobs l' end.

Definition bs_init_complete (a : nat) (bserrno : Z) : M mworld unit :=
  if decide (bserrno ≠ 0) then unload_bs a bserrno else
  t ← load_t a;
  s ← gets b_store;
  let t := set_t_cluster_size (s_cluster_size s) (set_t_io_unit_size (s_io_unit_size s) (set_t_bs true t)) in
  _ ← save_t a t;
  meta_args ← alloc_structs IO_NUM;
  match meta_args with
  | None => spdk_app_stop (-1)
  | Some meta_args => _ ← init_structs meta_args t; create_blobs meta_args
  end.

(** [rc] is what spdk_bdev_create_bs_dev_ext returns. *)
Definition test_start (a : nat) (rc : Z) : M mworld unit :=
  _ ← load_t a;
  if decide (rc ≠ 0) then spdk_app_stop (-1) else async InitBs (User (M_bs_init_complete a)).

(** Up to the event loop: [argc] arguments; the struct comes from [calloc]. *)
Definition main (argc rc : Z) : M mworld unit :=
  if decide (argc ≠ 3) then mret tt else
  a ← alloc_t (mk_test false (Some 0) (Some 0) (Some None) (Some None) (Some None) 0 0 0);
  match a with None => mret tt | Some a => test_start a rc end.

(** ** The program as a client of the blobstore *)
Definition mdispatch (cb : mcallback) (value : option Z) (rc : Z) : M mworld unit :=
  match cb with
  | M_unload_complete a => unload_complete a rc
  | M_delete_complete a => delete_complete a rc
  | M_delete_blob a => delete_blob a rc
  | M_read_complete a => read_complete a rc
  | M_write_complete a => write_complete a rc
  | M_sync_complete a => sync_complete a rc
  | M_resize_complete a => resize_complete a rc
  | M_open_complete a => open_complete a (default 0 value) rc
  | M_blob_create_complete a => blob_create_complete a (default 0 value) rc
  | M_bs_init_complete a => bs_init_complete a rc
  end.
#[export] Instance multi_io_client : Client mcallback mstate := mdispatch.
