(* ===== verification/MultiIoRuns.v ===== *)
(** * The interleavings of the test of concurrent I/O

    The runs in which the blobstore answers every call of the four chains with success,
    in any order, and leaves the unloading for later ([runs]); those in which it may
    also unload at any time ([orders]); where a chain is, what it owns, and what one
    completion does. *)
From stdpp Require Import gmap.
From S2P Require Import Prelude BlobIo BlobIoExec MultiIo.
Local Open Scope Z_scope.

(** ** What a run looks like *)

(** The events that count. *)
Inductive mark : Type := Wrote | Ended.
#[export] Instance mark_eq_dec : EqDecision mark.
Proof. solve_decision. Defined.
Definition marks (cb : mcallback) : list mark :=
  match cb with M_write_complete _ => [Wrote] | M_delete_complete _ => [Ended] | _ => [] end.

(** The process before main. *)
Definition boot (s : bstore) (junk : Z) : mworld := mk_world s [] ∅ ∅ ∅ [] 0 [] (mk_mstate ∅ 0 0 [] junk).

(** [runs s F junk n tr w]: the test on the store [s], formatted to [F] free clusters, with
    [n] calls of the chains completed since. *)
Inductive runs (s : bstore) (F junk : Z) : nat → list mark → mworld → Prop :=
| runs_start w : (_ ← main 3 0; complete 0 0 F) (boot s junk) = Ok (tt, w) → runs s F junk 0 [] w
| runs_step n tr w i c cb v w' :
    runs s F junk n tr w → b_calls w !! i = Some (c, User cb) → c ≠ UnloadBs →
    complete i 0 v w = Ok (tt, w') → runs s F junk (S n) (tr ++ marks cb) w'.

(** Runs in any order at all: the blobstore may also be unloaded, [k] times, as soon as
    that is asked for. *)
Definition is_unload (p : call * callback mcallback) : bool := match p.1 with UnloadBs => true | _ => false end.
Inductive orders (s : bstore) (F junk : Z) : nat → list mark → nat → mworld → Prop :=
| orders_start w : (_ ← main 3 0; complete 0 0 F) (boot s junk) = Ok (tt, w) → orders s F junk 0 [] 0 w
| orders_step n tr k w i c cb v w' :
    orders s F junk n tr k w → b_calls w !! i = Some (c, User cb) → complete i 0 v w = Ok (tt, w') →
    orders s F junk (S n) (tr ++ marks cb) (if is_unload (c, User cb) then S k else k) w'.

Lemma orders_runs s F junk n tr w : orders s F junk n tr 0 w → runs s F junk n tr w.
Proof.
  intros H. remember 0%nat as k eqn:Hk. induction H as [w H|n tr k w i c cb v w' H IH Hi Hrun]; [by constructor|].
  destruct c; try discriminate Hk; (eapply runs_step; [by apply IH|exact Hi|done|exact Hrun]).
Qed.

(** The counter, as a function of what happened: its value, the times printed and the
    calls to unload. *)
Definition tick (k : Z * nat * nat) (m : mark) : Z * nat * nat :=
  let '(n, timed, unloads) := k in
  if decide (n + 1 = 4) then match m with Wrote => (0, S timed, unloads) | Ended => (4, timed, S unloads) end
  else (n + 1, timed, unloads).
Definition counter (tr : list mark) : Z * nat * nat := foldl tick (0, O, O) tr.

(** ** The chains *)
Inductive stage : Type := Creating | Opening | Resizing | Syncing | Writing | Reading | Closing | Deleting | Done.
#[export] Instance stage_eq_dec : EqDecision stage.
Proof. solve_decision. Defined.
Definition rank (g : stage) : nat :=
  match g with
  | Creating => 0 | Opening => 1 | Resizing => 2 | Syncing => 3 | Writing => 4 | Reading => 5 | Closing => 6
  | Deleting => 7 | Done => 8
  end.

(** A chain: its struct, where it is, and, once it has them, its blob, buffers and
    channel. *)
Record chain : Type := mk_chain { h_a : nat; h_stage : stage; h_id : Z; h_p : nat; h_q : nat; h_c : nat }.
Definition at_least (n : nat) (h : chain) : bool := (n <=? rank (h_stage h))%nat.

Definition ids_of (h : chain) : list Z := if at_least 1 h && negb (at_least 8 h) then [h_id h] else [].
Definition chans_of (h : chain) : list nat := if at_least 4 h && negb (at_least 8 h) then [h_c h] else [].
Definition owned (h : chain) : list nat :=
  h_a h :: (if at_least 4 h then [h_p h; h_c h] else []) ++ (if at_least 5 h then [h_q h] else []).
Definition calls_of (h : chain) : list (call * callback mcallback) :=
  let i := h_id h in
  match h_stage h with
  | Creating => [(CreateBlob, User (M_blob_create_complete (h_a h)))]
  | Opening => [(OpenBlob (Some i), User (M_open_complete (h_a h)))]
  | Resizing => [(Resize i 2, User (M_resize_complete (h_a h)))]
  | Syncing => [(SyncMd i, User (M_sync_complete (h_a h)))]
  | Writing => [(IoWrite i (Some (h_c h)) (Some (h_p h)) 0 2, User (M_write_complete (h_a h)))]
  | Reading => [(IoRead i (Some (h_c h)) (Some (h_q h)) 0 2, User (M_read_complete (h_a h)))]
  | Closing => [(Close i, User (M_delete_blob (h_a h)))]
  | Deleting => [(DeleteBlob i, User (M_delete_complete (h_a h)))]
  | Done => []
  end.

Definition struct_of (u junk : Z) (h : chain) : test_multi_io_t :=
  mk_test true (if at_least 2 h then Some (h_id h) else None) (if at_least 1 h then Some (h_id h) else None)
    (if at_least 4 h then Some (Some (h_c h)) else None) (if at_least 5 h then Some (Some (h_q h)) else None)
    (if at_least 4 h then Some (Some (h_p h)) else None) u u junk.

(** What the world holds of a chain, for I/O units of [u] bytes. *)
Record chain_ok (u junk : Z) (w : mworld) (h : chain) : Prop := {
  ok_struct : m_structs (b_client w) !! h_a h = Some (struct_of u junk h);
  ok_blob : h_id h ∈ ids_of h → ∃ B, s_blobs (b_store w) !! h_id h = Some B ∧
    x_clusters B = (if at_least 3 h then 2 else 0) ∧
    (at_least 5 h = true → ∀ j, 0 <= j < u → x_data B j = Some 90);
  ok_open : h_id h ∈ ids_of h → s_open (b_store w) !! h_id h = if at_least 2 h && negb (at_least 7 h) then Some 1%nat else None;
  ok_write : at_least 4 h = true → ∃ l : list byte, b_mem w !! h_p h = Some (replicate (Z.to_nat u) (Some 90) ++ l) ∧ length l = Z.to_nat u;
  ok_read : at_least 5 h = true → ∃ l : list byte, b_mem w !! h_q h = Some l ∧ length l = Z.to_nat (2 * u) ∧
    (at_least 6 h = true → take (Z.to_nat u) l = replicate (Z.to_nat u) (Some 90))
}.

(** ** Running a handler *)
Lemma load_t_eq a t w : m_structs (b_client w) !! a = Some t → load_t a w = Ok (t, w).
Proof. intros Ha. unfold load_t, gets_m, mbind, M_bind, gets. by rewrite Ha. Qed.
Lemma buffer_ok p l n (w : mworld) : b_mem w !! p = Some l → n <= Z.of_nat (length l) → buffer (Some p) n w = Ok ((p, l), w).
Proof.
  intros Hp Hn. unfold buffer. rewrite (bind_Ok _ _ w p w) by done. change ((gets b_mem ≫= ?f) w) with (f (b_mem w) w).
  cbv beta. rewrite (bind_Ok _ _ w l w) by (by rewrite Hp). by rewrite bool_decide_eq_true_2.
Qed.
Lemma alloc_channel_ok (w : mworld) : b_malloc w = [] →
  alloc_channel w = Ok (Some (b_next w), set_b_channels (b_next w :: b_channels w) (set_b_next (S (b_next w)) w)).
Proof. intros Hm. unfold alloc_channel. by rewrite (bind_Ok _ _ _ _ _ (malloc_ok_eq w Hm)). Qed.

(** A call of the list completes with success. *)
Lemma complete_user i c cb v (w : mworld) : b_calls w !! i = Some (c, User cb) →
  complete i 0 v w = (value ← bs_effect c v; mdispatch cb value 0) (set_b_calls (delete i (b_calls w)) w).
Proof.
  intros Hi. unfold complete, take_call. rewrite !bind_assoc. change ((gets b_calls ≫= ?f) w) with (f (b_calls w) w). cbv beta.
  by rewrite Hi.
Qed.
(** The guard of an effect holds when the call succeeded. *)
Lemma possible_inv {A} (P : Prop) `{Decision P} (f : unit → M mworld A) w r :
  (possible P ≫= f) w = Ok r → P ∧ f tt w = Ok r.
Proof. unfold possible, guard_or, mbind, M_bind. by destruct (bool_decide_reflect P). Qed.

Ltac world_simpl :=
  cbn [b_store b_channels b_args b_flags b_mem b_calls b_next b_malloc b_client set_b_store set_b_channels set_b_args set_b_flags
    set_b_mem set_b_calls set_b_next set_b_malloc set_b_client m_structs fini_count m_timed m_stopped m_junk set_m_structs
    set_fini_count set_m_timed set_m_stopped s_super s_blobs s_free s_cluster_size s_io_unit_size s_open s_xattr_addr set_s_super
    set_s_blobs set_s_free set_s_open].
Ltac world_known := world_simpl; rewrite ?lookup_insert_eq; first [done | eassumption].
Ltac struct_simpl :=
  cbv beta iota delta [t_bs t_blob t_blobid t_channel t_read_buff t_write_buff t_io_unit_size t_cluster_size t_rc set_t_bs set_t_blob set_t_blobid
    set_t_channel set_t_read_buff set_t_write_buff set_t_io_unit_size set_t_cluster_size set_t_rc IO_NUM].
Ltac mstep :=
  cbv beta iota zeta;
  struct_simpl; world_simpl;
  lazymatch goal with
  | |- (load_t ?a ≫= ?f) ?w = _ => erewrite (bind_Ok (load_t a) f w) by (apply load_t_eq; world_known)
  | |- (save_t ?a ?t ≫= ?f) ?w = _ =>
      change ((save_t a t ≫= f) w) with (f tt (set_b_client (set_m_structs (<[a := t]> (m_structs (b_client w))) (b_client w)) w))
  | |- (modify_m ?g ≫= ?f) ?w = _ => change ((modify_m g ≫= f) w) with (f tt (set_b_client (g (b_client w)) w))
  | |- (gets_m ?g ≫= ?f) ?w = _ => change ((gets_m g ≫= f) w) with (f (g (b_client w)) w)
  | |- (guard_or ?e true ≫= ?f) ?w = _ => change ((guard_or e true ≫= f) w) with (f tt w)
  | |- (alloc_buffer ?n ≫= ?f) ?w = _ => rewrite (bind_Ok _ f w _ _ (alloc_buffer_eq n w ltac:(world_known)))
  | |- (alloc_channel ≫= ?f) ?w = _ => rewrite (bind_Ok _ f w _ _ (alloc_channel_ok w ltac:(world_known)))
  | |- (load_blob ?b ≫= ?f) ?w = _ => erewrite (bind_Ok (load_blob b) f w) by (apply blob_loaded; world_known)
  | |- (num_clusters ?b ≫= ?f) ?w = _ => erewrite (bind_Ok (num_clusters b) f w) by (apply num_clusters_eq; world_known)
  | |- (num_io_units ?b ≫= ?f) ?w = _ => erewrite (bind_Ok (num_io_units b) f w) by (apply num_io_units_eq; world_known)
  | |- (possible ?P ≫= ?f) ?w = _ => rewrite (bind_Ok (possible P) f w tt w) by (apply possible_eq; unfold io_units; world_simpl;
      first [done | eassumption | split_and!; first [done | eassumption | lia | by eexists]])
  | |- (buffer (Some ?p) ?n ≫= ?f) ?w = _ =>
      refine (eq_trans (bind_Ok _ _ _ _ _ (buffer_ok p _ n w _ _)) _);
      [world_known|unfold byte in *; rewrite ?length_app, ?length_replicate, ?length_drop; lia|]
  | |- _ => step
  end.
Ltac msteps := repeat mstep; cbv beta iota zeta.

(** What counts at the end of each stage, and what unloads. *)
Definition mark_of (h : chain) : list mark := match h_stage h with Writing => [Wrote] | Deleting => [Ended] | _ => [] end.
Definition unload_call (a : nat) : call * callback mcallback := (UnloadBs, User (M_unload_complete a)).

(** ** The bytes *)
Lemma get_written u f l : (∀ j, 0 <= j < u → f j = Some 90) → Z.of_nat (length l) = 2 * u →
  take (Z.to_nat u) (get_bytes (0 * u) (2 * u) f l) = replicate (Z.to_nat u) (Some 90).
Proof.
  intros Hf Hl. apply list_eq_same_length with (n := Z.to_nat u); [by rewrite length_replicate| |].
  { unfold get_bytes. rewrite length_take, length_imap. lia. }
  intros k x y Hk. unfold get_bytes. rewrite lookup_take_lt, list_lookup_imap by lia.
  intros (b & Hb & ->)%fmap_Some [-> _]%lookup_replicate. rewrite decide_True, Hf by lia. done.
Qed.
Lemma put_read u l f j : length l = Z.to_nat u → 0 <= j < u →
  put_bytes (0 * u) (2 * u) (replicate (Z.to_nat u) (Some 90) ++ l) f j = Some 90.
Proof.
  intros Hl Hj. unfold put_bytes. rewrite decide_True by lia. rewrite lookup_app_l by (rewrite length_replicate; lia).
  by rewrite lookup_replicate_2 by lia.
Qed.
Lemma all_written n x : mapM (λ b : byte, b) (replicate n (Some x)) = Some (replicate n x).
Proof. induction n as [|n IH]; [done|]. simpl. by rewrite IH. Qed.
Lemma same_bytes_eq p q u l l2 (w : mworld) :
  b_mem w !! p = Some (replicate (Z.to_nat u) (Some 90) ++ l) → b_mem w !! q = Some l2 →
  take (Z.to_nat u) l2 = replicate (Z.to_nat u) (Some 90) → same_bytes (Some p) (Some q) u w = Ok (true, w).
Proof.
  intros Hp Hq Ht. destruct (Z.le_gt_cases 0 u) as [Hu|Hu].
  - assert (Hl : u <= Z.of_nat (length l2)).
    { apply (f_equal length) in Ht. rewrite length_take, length_replicate in Ht. lia. }
    unfold same_bytes. refine (eq_trans (bind_Ok _ _ _ _ _ (buffer_ok p _ u w Hp _)) _); [rewrite length_app, length_replicate; lia|].
    cbv beta iota. refine (eq_trans (bind_Ok _ _ _ _ _ (buffer_ok q _ u w Hq Hl)) _). cbv beta iota.
    rewrite Ht, take_app_length' by (by rewrite length_replicate). rewrite all_written.
    by rewrite !(bind_Ok (of_option _ (Some _)) _ w _ w eq_refl), bool_decide_eq_true_2.
  - unfold same_bytes. refine (eq_trans (bind_Ok _ _ _ _ _ (buffer_ok p _ u w Hp _)) _); [lia|].
    cbv beta iota. refine (eq_trans (bind_Ok _ _ _ _ _ (buffer_ok q _ u w Hq _)) _); [lia|]. cbv beta iota.
    replace (Z.to_nat u) with O by lia. cbn [take]. done.
Qed.

(** What a step of chain [h] to [h'] does to the world. *)
Record advance (u junk : Z) (w w' : mworld) (h h' : chain) (i : nat) : Prop := {
  ad_a : h_a h' = h_a h;
  ad_id : h_stage h ≠ Creating → h_id h' = h_id h;
  ad_rank : rank (h_stage h') = S (rank (h_stage h));
  ad_ok : chain_ok u junk w' h';
  ad_structs a : a ≠ h_a h → m_structs (b_client w') !! a = m_structs (b_client w) !! a;
  ad_blobs j : j ≠ h_id h' → s_blobs (b_store w') !! j = s_blobs (b_store w) !! j ∧ s_open (b_store w') !! j = s_open (b_store w) !! j;
  ad_new : h_stage h = Creating → s_blobs (b_store w) !! h_id h' = None;
  ad_gone : h_stage h' = Done → s_blobs (b_store w') !! h_id h' = None ∧ s_open (b_store w') !! h_id h' = None;
  ad_mem p : p ∉ owned h' → b_mem w' !! p = b_mem w !! p;
  ad_owned : ∃ new, owned h' = owned h ++ new ∧ NoDup new ∧ (∀ x, x ∈ new → (b_next w <= x < b_next w')%nat);
  ad_next : (b_next w <= b_next w')%nat;
  ad_store : s_cluster_size (b_store w') = s_cluster_size (b_store w) ∧ s_io_unit_size (b_store w') = s_io_unit_size (b_store w);
  ad_malloc : b_malloc w' = b_malloc w;
  ad_chans : b_channels w' = match h_stage h' with
    | Writing => h_c h' :: b_channels w | Done => filter (λ x, x ≠ h_c h) (b_channels w) | _ => b_channels w end;
  ad_free : s_free (b_store w') = s_free (b_store w) - (if decide (h_stage h' = Syncing) then 2 else 0);
  ad_count : ∃ un, (un = [] ∨ h_stage h' = Done ∧ un = [unload_call (h_a h)]) ∧
    b_calls w' = delete i (b_calls w) ++ calls_of h' ++ un ∧
    ∀ k, foldl tick (fini_count (b_client w), m_timed (b_client w), k) (mark_of h) =
      (fini_count (b_client w'), m_timed (b_client w'), (k + length un)%nat);
  ad_stopped : m_stopped (b_client w') = m_stopped (b_client w)
}.

(** A world from its parts: [s_] the blobstore's, [m_] the program's. *)
Definition world_of super blobs free cs us op xa chs args fl mem calls nx structs fc tm sp jk : mworld :=
  mk_world (mk_bstore super blobs free cs us op xa) chs args fl mem calls nx [] (mk_mstate structs fc tm sp jk).
Lemma world_parts w : b_malloc w = [] → w = world_of (s_super (b_store w)) (s_blobs (b_store w)) (s_free (b_store w))
  (s_cluster_size (b_store w)) (s_io_unit_size (b_store w)) (s_open (b_store w)) (s_xattr_addr (b_store w)) (b_channels w) (b_args w)
  (b_flags w) (b_mem w) (b_calls w) (b_next w) (m_structs (b_client w)) (fini_count (b_client w)) (m_timed (b_client w))
  (m_stopped (b_client w)) (m_junk (b_client w)).
Proof. intros Hm. destruct w as [[] ? ? ? ? ? ? ? []]. simpl in *. by subst. Qed.
(** The parts of the frame that are as expected. *)
Ltac frame :=
  world_simpl; cbn [h_a h_stage h_id h_p h_q h_c]; try done; try lia;
  lazymatch goal with
  | |- ∀ a, a ≠ _ → _ !! a = _ !! a => intros; rewrite ?lookup_insert_ne by done; done
  | |- ∀ j, j ≠ _ → _ !! j = _ ∧ _ => intros; rewrite ?lookup_insert_ne, ?lookup_delete_ne by done; done
  | |- ∃ new, owned _ = _ ++ new ∧ _ => try (exists []; split; [done|]; split; [constructor|]; intros ? []%not_elem_of_nil)
  | |- _ = _ - (if decide _ then 0 else 0) => lia
  | |- _ = _ - (if decide ?P then _ else _) => first [rewrite decide_False by done; lia | rewrite decide_True by done; lia]
  | |- ∃ un, _ ∧ _ ++ _ = _ ∧ _ => try (exists []; rewrite app_nil_r; split; [by left|]; split; [done|]; intros; cbn; by rewrite Nat.add_0_r)
  | |- _ => idtac
  end.

Section steps.
Context (u junk : Z) (w : mworld) (i : nat) (a : nat) (id : Z) (p q c : nat).
Hypothesis Hu : 0 < u ∧ 2 * u < 2 ^ 64.
Hypothesis Hmalloc : b_malloc w = [].
Hypothesis Hunit : s_io_unit_size (b_store w) = u.
Hypothesis Hcluster : u <= s_cluster_size (b_store w).

Lemma bytes_eq : u64 (u * N_CLUSTER) = 2 * u.
Proof. unfold N_CLUSTER. rewrite u64_small; lia. Qed.
Lemma units_eq b x y z1 z2 z3 t : test_units (mk_test b x y z1 z2 z3 u u t) = 2.
Proof. unfold test_units. cbn. rewrite bytes_eq. apply Z.div_mul. lia. Qed.

Let at_ (g : stage) : chain := mk_chain a g id p q c.

Lemma creates v :
  chain_ok u junk w (at_ Creating) → b_calls w !! i = Some (CreateBlob, User (M_blob_create_complete a)) →
  s_blobs (b_store w) !! v = None → s_open (b_store w) !! v = None → 0 <= v < 2 ^ 64 →
  ∃ w', complete i 0 v w = Ok (tt, w') ∧ advance u junk w w' (at_ Creating) (mk_chain a Opening v p q c) i.
Proof.
  intros [Ht _ _ _ _] Hi Hv Ho Hr. rewrite (complete_user _ _ _ _ _ Hi). simpl in Ht.
  destruct w as [[] ? ? ? ? ? ? ? []]. cbn in *. subst b_malloc.
  eexists. split.
  - unfold bs_effect. msteps. cbn [mdispatch default]. unfold blob_create_complete. msteps. unfold bs_call. msteps.
    unfold async, modify. world_simpl. reflexivity.
  - split; frame. split; cbn.
    + by rewrite lookup_insert_eq.
    + intros _. eexists. split; [apply lookup_insert_eq|done].
    + done.
    + done.
    + done.
Qed.

Lemma opens v :
  chain_ok u junk w (at_ Opening) → b_calls w !! i = Some (OpenBlob (Some id), User (M_open_complete a)) →
  ∃ w', complete i 0 v w = Ok (tt, w') ∧ advance u junk w w' (at_ Opening) (at_ Resizing) i.
Proof.
  intros [Ht Hb Ho _ _] Hi. rewrite (complete_user _ _ _ _ _ Hi). cbn in Ht, Hb, Ho.
  destruct (Hb ltac:(left)) as (B & HB & Hcl & _). specialize (Ho ltac:(left)).
  destruct w as [[] ? ? ? ? ? ? ? []]. cbn in *. subst b_malloc.
  eexists. split.
  - unfold bs_effect. msteps. cbn [mdispatch default]. unfold open_complete. msteps. unfold async, modify. world_simpl. reflexivity.
  - split; frame. rewrite Ho. split; cbn.
    + by rewrite lookup_insert_eq.
    + intros _. by exists B.
    + intros _. by rewrite lookup_insert_eq.
    + done.
    + done.
Qed.

Lemma resizes v :
  chain_ok u junk w (at_ Resizing) → b_calls w !! i = Some (Resize id 2, User (M_resize_complete a)) → 2 <= s_free (b_store w) →
  ∃ w', complete i 0 v w = Ok (tt, w') ∧ advance u junk w w' (at_ Resizing) (at_ Syncing) i.
Proof.
  intros [Ht Hb Ho _ _] Hi Hfree. rewrite (complete_user _ _ _ _ _ Hi). cbn in Hb, Ho.
  assert (Ht' : m_structs (b_client w) !! a = Some (mk_test true (Some id) (Some id) None None None u u junk)) by exact Ht. clear Ht.
  destruct (Hb ltac:(left)) as (B & HB & Hcl & _). specialize (Ho ltac:(left)).
  assert (Hguard : 2 - x_clusters B <= s_free (b_store w)) by lia.
  destruct w as [[] ? ? ? ? ? ? ? []]. cbn in *. subst b_malloc.
  eexists. split.
  - unfold bs_effect. msteps. cbn [mdispatch]. unfold resize_complete. msteps. unfold async, modify. world_simpl. reflexivity.
  - split; frame. split; cbn.
    + done.
    + intros _. rewrite lookup_insert_eq. by eexists.
    + done.
    + done.
    + done.
Qed.

Lemma syncs v :
  chain_ok u junk w (at_ Syncing) → b_calls w !! i = Some (SyncMd id, User (M_sync_complete a)) →
  ∃ w', complete i 0 v w = Ok (tt, w') ∧ advance u junk w w' (at_ Syncing) (mk_chain a Writing id (b_next w) q (S (b_next w))) i.
Proof.
  intros [Ht Hb Ho _ _] Hi. rewrite (complete_user _ _ _ _ _ Hi). cbn in Hb, Ho.
  assert (Ht' : m_structs (b_client w) !! a = Some (mk_test true (Some id) (Some id) None None None u u junk)) by exact Ht. clear Ht.
  destruct (Hb ltac:(left)) as (B & HB & Hcl & _). specialize (Ho ltac:(left)).
  destruct w as [[] ? ? ? ? ? ? ? []]. cbn in *. subst b_malloc.
  eexists. split.
  - unfold bs_effect. msteps. cbn [mdispatch]. unfold sync_complete. msteps. unfold blob_write. mstep. cbn [t_cluster_size]. rewrite bytes_eq. msteps. unfold memset. msteps.
    unfold async, modify. struct_simpl. rewrite units_eq. world_simpl. reflexivity.
  - split; frame.
    + split; cbn.
      * by rewrite !lookup_insert_eq.
      * intros _. by exists B.
      * done.
      * intros _. rewrite lookup_insert_eq. eexists. split; [done|]. rewrite length_drop, length_replicate. lia.
      * done.
    + intros n Hn. change (n ∉ [a; b_next; S b_next]) in Hn. rewrite !not_elem_of_cons in Hn. destruct Hn as (_ & Hn & _).
      by rewrite !lookup_insert_ne.
    + exists [b_next; S b_next]. split; [done|]. split; [repeat constructor; set_solver by lia|]. intros n Hn. set_solver by lia.
Qed.

Lemma writes v :
  chain_ok u junk w (at_ Writing) → (p < b_next w)%nat → b_calls w !! i = Some (IoWrite id (Some c) (Some p) 0 2, User (M_write_complete a)) →
  ∃ w', complete i 0 v w = Ok (tt, w') ∧ advance u junk w w' (at_ Writing) (mk_chain a Reading id p (b_next w) c) i.
Proof.
  intros [Ht Hb Ho Hw _] Hp Hi. rewrite (complete_user _ _ _ _ _ Hi). cbn in Hb, Ho, Hw.
  assert (Ht' : m_structs (b_client w) !! a = Some (mk_test true (Some id) (Some id) (Some (Some c)) None (Some (Some p)) u u junk))
    by exact Ht. clear Ht.
  destruct (Hb ltac:(left)) as (B & HB & Hcl & _). specialize (Ho ltac:(left)). destruct (Hw eq_refl) as (l & Hl & Hlen).
  assert (Hroom : 2 <= x_clusters B * (s_cluster_size (b_store w) / s_io_unit_size (b_store w))).
  { rewrite Hcl, Hunit. pose proof (Z.div_le_mono u (s_cluster_size (b_store w)) u ltac:(lia) Hcluster) as Hd.
    rewrite Z.div_same in Hd by lia. lia. }
  destruct w as [[] ? ? ? ? ? ? ? []]. cbn in *. subst b_malloc s_io_unit_size.
  destruct (decide (fini_count + 1 = 4)) as [Hc|Hc].
  all: eexists; (split; [unfold bs_effect; msteps; unfold write_complete; msteps; unfold cal_time; msteps; unfold read_blob; mstep; struct_simpl;
    rewrite bytes_eq; msteps; unfold async, modify; struct_simpl; rewrite units_eq; world_simpl; reflexivity|]).
  all: split; frame.
  all: lazymatch goal with
    | |- chain_ok _ _ _ _ => split; cbn
    | |- ∀ n, n ∉ _ → _ => let y := fresh in let Hy := fresh in intros y Hy; change (y ∉ [a; p; c; b_next]) in Hy; rewrite lookup_insert_ne by set_solver; done
    | |- ∃ new, owned _ = _ ∧ _ => exists [b_next]; split; [done|]; split; [apply NoDup_singleton|]; intros ? ->%list_elem_of_singleton; lia
    | |- _ => idtac
    end.
  6, 12: exists []; rewrite app_nil_r; split; [by left|]; split; [done|]; intros n; cbn; by rewrite Nat.add_0_r, ?decide_True, ?decide_False by done.
  5, 10: intros _; rewrite lookup_insert_eq; eexists; split; [done|]; split; [by rewrite length_replicate|done].
  4, 8: intros _; rewrite lookup_insert_ne by lia; by exists l.
  3, 6: done.
  2, 4: intros _; rewrite lookup_insert_eq; eexists; split; [done|]; split; [done|]; intros _ j Hj; by apply put_read.
  all: by rewrite lookup_insert_eq.
Qed.

Lemma reads v :
  chain_ok u junk w (at_ Reading) → b_calls w !! i = Some (IoRead id (Some c) (Some q) 0 2, User (M_read_complete a)) → p ≠ q →
  ∃ w', complete i 0 v w = Ok (tt, w') ∧ advance u junk w w' (at_ Reading) (at_ Closing) i.
Proof.
  intros [Ht Hb Ho Hw Hr] Hi Hpq. rewrite (complete_user _ _ _ _ _ Hi). cbn in Hb, Ho, Hw, Hr.
  assert (Ht' : m_structs (b_client w) !! a = Some (mk_test true (Some id) (Some id) (Some (Some c)) (Some (Some q)) (Some (Some p)) u u junk))
    by exact Ht. clear Ht.
  destruct (Hb ltac:(left)) as (B & HB & Hcl & Hdata). specialize (Ho ltac:(left)). destruct (Hw eq_refl) as (l & Hl & Hlen).
  destruct (Hr eq_refl) as (l2 & Hl2 & Hlen2 & _). specialize (Hdata eq_refl).
  assert (Hlz : Z.of_nat (length l2) = 2 * u) by lia. pose proof (get_written u (x_data B) l2 Hdata Hlz) as Hgot.
  assert (Hroom : 2 <= x_clusters B * (s_cluster_size (b_store w) / s_io_unit_size (b_store w))).
  { rewrite Hcl, Hunit. pose proof (Z.div_le_mono u (s_cluster_size (b_store w)) u ltac:(lia) Hcluster) as Hd.
    rewrite Z.div_same in Hd by lia. lia. }
  destruct w as [[] ? ? ? ? ? ? ? []]. cbn in *. subst b_malloc s_io_unit_size.
  eexists. split.
  - unfold bs_effect. msteps. cbn [mdispatch]. unfold read_complete. msteps.
    refine (eq_trans (bind_Ok _ _ _ _ _ (same_bytes_eq p q u l _ _ _ _ Hgot)) _); [world_simpl; by rewrite lookup_insert_ne|world_known|].
    msteps. cbn [negb]. msteps. unfold async, modify. struct_simpl. world_simpl. reflexivity.
  - split; frame.
    + split; cbn.
      * done.
      * intros _. exists B. split; [done|]. split; [done|]. by intros _.
      * done.
      * intros _. rewrite lookup_insert_ne by done. by exists l.
      * intros _. rewrite lookup_insert_eq. eexists. split; [done|]. split; [by unfold get_bytes; rewrite length_imap|done].
    + intros y Hy. change (y ∉ [a; p; c; q]) in Hy. rewrite lookup_insert_ne by set_solver. done.
Qed.

Lemma closes v :
  chain_ok u junk w (at_ Closing) → b_calls w !! i = Some (Close id, User (M_delete_blob a)) →
  ∃ w', complete i 0 v w = Ok (tt, w') ∧ advance u junk w w' (at_ Closing) (at_ Deleting) i.
Proof.
  intros [Ht Hb Ho Hw Hr] Hi. rewrite (complete_user _ _ _ _ _ Hi). cbn in Hb, Ho, Hw, Hr.
  assert (Ht' : m_structs (b_client w) !! a = Some (mk_test true (Some id) (Some id) (Some (Some c)) (Some (Some q)) (Some (Some p)) u u junk))
    by exact Ht. clear Ht.
  destruct (Hb ltac:(left)) as (B & HB & Hcl & Hdata). specialize (Ho ltac:(left)).
  destruct w as [[] ? ? ? ? ? ? ? []]. cbn in *. subst b_malloc s_io_unit_size.
  eexists. split.
  - unfold bs_effect. msteps. rewrite Ho. msteps. cbn [mdispatch]. unfold delete_blob. msteps. unfold bs_call. msteps.
    unfold async, modify. struct_simpl. world_simpl. reflexivity.
  - split; frame. split; cbn.
    + done.
    + intros _. by exists B.
    + intros _. by rewrite lookup_delete_eq.
    + exact Hw.
    + exact Hr.
Qed.

Lemma deletes v :
  chain_ok u junk w (at_ Deleting) → b_calls w !! i = Some (DeleteBlob id, User (M_delete_complete a)) →
  ∃ w', complete i 0 v w = Ok (tt, w') ∧ advance u junk w w' (at_ Deleting) (at_ Done) i.
Proof.
  intros [Ht Hb Ho Hw Hr] Hi. rewrite (complete_user _ _ _ _ _ Hi). cbn in Hb, Ho, Hw, Hr.
  assert (Ht' : m_structs (b_client w) !! a = Some (mk_test true (Some id) (Some id) (Some (Some c)) (Some (Some q)) (Some (Some p)) u u junk))
    by exact Ht. clear Ht.
  destruct (Hb ltac:(left)) as (B & HB & Hcl & Hdata). specialize (Ho ltac:(left)).
  destruct w as [[] ? ? ? ? ? ? ? []]. cbn in *. subst b_malloc s_io_unit_size.
  destruct (decide (fini_count + 1 = 4)) as [Hc|Hc].
  all: eexists; (split; [unfold bs_effect; msteps; cbn [mdispatch]; unfold delete_complete; msteps; unfold unload_bs; mstep; cbv zeta;
    rewrite !(decide_False (P := 0 ≠ 0)) by (intros E; by apply E); msteps; unfold free_channel; msteps; unfold bs_call; msteps; unfold async, modify; struct_simpl; world_simpl; reflexivity|]).
  all: split; frame.
  6: exists []; split; [by left|]; split; [by rewrite !app_nil_r|]; intros n; cbn; by rewrite decide_False, Nat.add_0_r by done.
  3: { exists [unload_call a]. split; [by right|]. split; [done|]. intros n. cbn. rewrite decide_True by done. repeat f_equal; lia. }
  2, 4: intros _; split; [apply lookup_delete_eq|exact Ho].
  all: split; cbn; [by rewrite lookup_insert_eq|by intros ?%not_elem_of_nil|by intros ?%not_elem_of_nil|exact Hw|exact Hr].
Qed.
End steps.
