(* ===== verification/MultiIoInv.v ===== *)
(** * The invariant of the interleavings of the test of concurrent I/O

    The four chains own disjoint structs, buffers, channels and blobs, so a completion
    moves one of them and leaves the others as they are. *)
From stdpp Require Import gmap.
From S2P Require Import Prelude BlobIo BlobIoExec MultiIo MultiIoRuns.
Local Open Scope Z_scope.

Definition how_many (f : chain → bool) (l : list chain) : nat := sum_list_with (λ h, if f h then 1%nat else 0%nat) l.
Definition occurs (m : mark) (tr : list mark) : nat := length (filter (λ x, x = m) tr).

Lemma filter_absent x (l : list nat) : x ∉ l → filter (λ y, y ≠ x) l = l.
Proof.
  induction l as [|y l IH]; [done|]. rewrite not_elem_of_cons. intros [Hy Hl]. rewrite filter_cons_True by done. by rewrite IH.
Qed.

Section inv.
Context (s : bstore) (F junk : Z).
Let u : Z := s_io_unit_size s.

(** What holds after [n] completions that counted as [tr], with the chains at [l]. *)
Record inv (n : nat) (tr : list mark) (w : mworld) (l : list chain) : Prop := {
  in_len : length l = 4%nat;
  in_ok : Forall (chain_ok u junk w) l;
  in_ids : NoDup (l ≫= ids_of);
  in_owned : NoDup (l ≫= owned);
  in_next : Forall (λ x, (x < b_next w)%nat) (l ≫= owned);
  in_blobs j : j ∉ l ≫= ids_of → s_blobs (b_store w) !! j = None ∧ s_open (b_store w) !! j = None;
  in_chans : b_channels w ≡ₚ l ≫= chans_of;
  in_calls : ∃ us, b_calls w ≡ₚ (l ≫= calls_of) ++ map unload_call us ∧
    counter tr = (fini_count (b_client w), m_timed (b_client w), length us) ∧
    ∀ a, a ∈ us → ∃ h, h ∈ l ∧ h_a h = a ∧ h_stage h = Done;
  in_free : s_free (b_store w) = F - 2 * Z.of_nat (how_many (at_least 3) l);
  in_store : s_cluster_size (b_store w) = s_cluster_size s ∧ s_io_unit_size (b_store w) = u;
  in_malloc : b_malloc w = [];
  in_stopped : m_stopped (b_client w) = [];
  in_steps : n = sum_list_with (λ h, rank (h_stage h)) l;
  in_wrote : occurs Wrote tr = how_many (at_least 5) l;
  in_ended : occurs Ended tr = how_many (at_least 8) l
}.

#[export] Instance inv_proper n tr w : Proper ((≡ₚ) ==> iff) (inv n tr w).
Proof.
  assert (Himp : ∀ l l', l ≡ₚ l' → inv n tr w l → inv n tr w l').
  { intros l l' Hl []. split; unfold how_many in *; try done; rewrite <- ?Hl; try done.
    - intros j. rewrite <- Hl. apply in_blobs0.
    - destruct in_calls0 as (us & ? & ? & Hus). exists us. rewrite <- Hl. split; [done|]. split; [done|].
      intros a (h & Hh & ?)%Hus. exists h. by rewrite <- Hl. }
  intros l l' Hl. split; apply Himp; [done|by symmetry].
Qed.

(** What one of the others owns, this one does not. *)
Lemma apart {A} (f : chain → list A) h h2 rest x :
  NoDup ((h :: rest) ≫= f) → h2 ∈ rest → x ∈ f h2 → x ∉ f h.
Proof.
  rewrite bind_cons. intros (_ & Hd & _)%NoDup_app H2 Hx Hh. apply (Hd x Hh), list_elem_of_bind. by exists h2.
Qed.

Lemma ids_here h : h_stage h ≠ Creating → h_stage h ≠ Done → ids_of h = [h_id h].
Proof. unfold ids_of, at_least. by destruct (h_stage h). Qed.

(** A step of [h] leaves a chain that owns nothing of [h'] as it is. *)
Lemma chain_framed w w' h h' i h2 :
  advance u junk w w' h h' i → chain_ok u junk w h2 → h_a h2 ≠ h_a h → (h_id h2 ∈ ids_of h2 → h_id h2 ≠ h_id h') →
  (∀ p, p ∈ owned h2 → p ∉ owned h') → chain_ok u junk w' h2.
Proof.
  intros Ha [H1 H2 H3 H4 H5] Hne Hid Hown. split.
  - by rewrite (ad_structs _ _ _ _ _ _ _ Ha).
  - intros Hi. destruct (ad_blobs _ _ _ _ _ _ _ Ha _ (Hid Hi)) as [-> _]. by apply H2.
  - intros Hi. destruct (ad_blobs _ _ _ _ _ _ _ Ha _ (Hid Hi)) as [_ ->]. by apply H3.
  - intros Hr. rewrite (ad_mem _ _ _ _ _ _ _ Ha); [by apply H4|]. apply Hown. unfold owned. rewrite Hr. set_solver.
  - intros Hr. rewrite (ad_mem _ _ _ _ _ _ _ Ha); [by apply H5|]. apply Hown. unfold owned. rewrite Hr. set_solver.
Qed.

Section move.
Context (n i : nat) (tr : list mark) (w w' : mworld) (h h' : chain) (rest : list chain).
Hypothesis Hinv : inv n tr w (h :: rest).
Hypothesis Hadv : advance u junk w w' h h' i.

Lemma others_ids h2 : h2 ∈ rest → h_id h2 ∈ ids_of h2 → h_id h2 ≠ h_id h'.
Proof.
  intros H2 Hid. destruct (decide (h_stage h = Creating)) as [Hc|Hc].
  - intros E. pose proof (ad_new _ _ _ _ _ _ _ Hadv Hc) as Hnone.
    pose proof (proj1 (Forall_forall _ _) (in_ok _ _ _ _ Hinv) h2 ltac:(by right)) as Hok.
    destruct (ok_blob _ _ _ _ Hok Hid) as (B & HB & _). congruence.
  - rewrite (ad_id _ _ _ _ _ _ _ Hadv Hc). intros E. pose proof (ad_rank _ _ _ _ _ _ _ Hadv) as Hr.
    eapply (apart ids_of h h2 rest); [exact (in_ids _ _ _ _ Hinv)|exact H2|exact Hid|].
    rewrite ids_here, E; [left|done|]. intros Hd. rewrite Hd in Hr. by destruct (h_stage h').
Qed.

Lemma others_owned h2 p : h2 ∈ rest → p ∈ owned h2 → p ∉ owned h'.
Proof.
  intros H2 Hp. destruct (ad_owned _ _ _ _ _ _ _ Hadv) as (new & -> & _ & Hnew). intros [Hh|Hn]%elem_of_app.
  - by eapply (apart owned h h2 rest); [exact (in_owned _ _ _ _ Hinv)| | |].
  - pose proof (in_next _ _ _ _ Hinv) as Hlt. rewrite Forall_forall in Hlt.
    specialize (Hlt p ltac:(apply list_elem_of_bind; exists h2; split; [done|by right])). specialize (Hnew p Hn). lia.
Qed.

Lemma moved_ok : Forall (chain_ok u junk w') (h' :: rest).
Proof.
  constructor; [exact (ad_ok _ _ _ _ _ _ _ Hadv)|]. apply Forall_forall. intros h2 H2.
  eapply chain_framed; [exact Hadv| | |intros; by eapply others_ids|intros p Hp; by eapply others_owned].
  - apply (proj1 (Forall_forall _ _) (in_ok _ _ _ _ Hinv)). by right.
  - intros E. eapply (apart owned h h2 rest (h_a h2)); [exact (in_owned _ _ _ _ Hinv)|done|by left|rewrite E; by left].
Qed.

Lemma moved_ids : NoDup ((h' :: rest) ≫= ids_of).
Proof.
  pose proof (in_ids _ _ _ _ Hinv) as Hnd. rewrite bind_cons in *. apply NoDup_app in Hnd as (_ & _ & Hrest).
  apply NoDup_app. split; [unfold ids_of; destruct (_ && _); repeat constructor; set_solver|]. split; [|done].
  intros j Hj (h2 & Hj2 & H2)%list_elem_of_bind.
  assert (j = h_id h') as -> by (unfold ids_of in Hj; destruct (_ && _); set_solver).
  assert (h_id h' = h_id h2) as E by (unfold ids_of in Hj2; destruct (_ && _); set_solver).
  rewrite E in Hj2. by eapply (others_ids h2).
Qed.

Lemma moved_owned : NoDup ((h' :: rest) ≫= owned) ∧ Forall (λ x, (x < b_next w')%nat) ((h' :: rest) ≫= owned).
Proof.
  pose proof (in_owned _ _ _ _ Hinv) as Hnd. pose proof (in_next _ _ _ _ Hinv) as Hlt. rewrite !bind_cons in *.
  apply NoDup_app in Hnd as (Hh & _ & Hrest). rewrite Forall_app in Hlt. destruct Hlt as [Hlt1 Hlt2].
  destruct (ad_owned _ _ _ _ _ _ _ Hadv) as (new & Hown & Hnew & Hrange). pose proof (ad_next _ _ _ _ _ _ _ Hadv) as Hle.
  rewrite Forall_forall in Hlt1. split.
  - apply NoDup_app. split; [|split; [|done]].
    + rewrite Hown. apply NoDup_app. split; [done|]. split; [|done]. intros x Hx Hn. specialize (Hlt1 x Hx). specialize (Hrange x Hn). lia.
    + intros x Hx (h2 & Hx2 & H2)%list_elem_of_bind. by eapply (others_owned h2).
  - rewrite Hown, !Forall_app. split_and!.
    + apply Forall_forall. intros x Hx. specialize (Hlt1 x Hx). lia.
    + apply Forall_forall. intros x Hx. by apply Hrange.
    + eapply Forall_impl; [exact Hlt2|]. simpl. intros. lia.
Qed.

Lemma moved_blobs j : j ∉ (h' :: rest) ≫= ids_of → s_blobs (b_store w') !! j = None ∧ s_open (b_store w') !! j = None.
Proof.
  rewrite bind_cons, elem_of_app. intros Hj. pose proof (ad_rank _ _ _ _ _ _ _ Hadv) as Hr.
  destruct (decide (j = h_id h')) as [->|Hne].
  - destruct (decide (h_stage h' = Done)) as [Hd|Hd]; [exact (ad_gone _ _ _ _ _ _ _ Hadv Hd)|].
    exfalso. apply Hj. left. rewrite ids_here; [left| |done]. intros Hc. rewrite Hc in Hr. by destruct (h_stage h).
  - destruct (ad_blobs _ _ _ _ _ _ _ Hadv j Hne) as [-> ->]. apply (in_blobs _ _ _ _ Hinv).
    rewrite bind_cons, elem_of_app. intros [Hh|Hrest]; [|by apply Hj; right].
    assert (h_stage h ≠ Creating) as Hc by (unfold ids_of, at_least in Hh; intros E; rewrite E in Hh; by apply not_elem_of_nil in Hh).
    rewrite (ad_id _ _ _ _ _ _ _ Hadv Hc) in Hne. unfold ids_of in Hh. destruct (_ && _); set_solver.
Qed.
Lemma chans_owned h2 x : x ∈ chans_of h2 → x ∈ owned h2.
Proof. unfold chans_of, owned. destruct (at_least 4 h2); [|by intros ?%not_elem_of_nil]. destruct (negb _); set_solver. Qed.

Lemma chans_of_eq h2 : chans_of h2 = match h_stage h2 with Writing | Reading | Closing | Deleting => [h_c h2] | _ => [] end.
Proof. unfold chans_of, at_least. by destruct (h_stage h2). Qed.

Lemma moved_chans : b_channels w' ≡ₚ (h' :: rest) ≫= chans_of.
Proof.
  pose proof (in_chans _ _ _ _ Hinv) as Hc. pose proof (ad_chans _ _ _ _ _ _ _ Hadv) as Hc'. pose proof (ad_rank _ _ _ _ _ _ _ Hadv) as Hr.
  destruct (ad_owned _ _ _ _ _ _ _ Hadv) as (new & Hown & _). rewrite !bind_cons in *.
  assert (Hkeep : at_least 4 h = true → h_c h' = h_c h).
  { intros H4. assert (at_least 4 h' = true) as H4' by (unfold at_least in *; rewrite Hr; apply Nat.leb_le in H4; apply Nat.leb_le; lia).
    unfold owned in Hown. rewrite H4, H4' in Hown. simpl in Hown. congruence. }
  rewrite chans_of_eq. rewrite (chans_of_eq h) in Hc. unfold at_least in Hkeep.
  destruct (h_stage h) eqn:Hg, (h_stage h') eqn:Hg'; try discriminate Hr; simpl in *; rewrite Hc', ?Hc, ?Hkeep by done; try done.
  rewrite filter_cons_False by (intros E; by apply E). apply Permutation_refl'.
  apply filter_absent. intros (h2 & Hx & H2)%list_elem_of_bind.
  eapply (apart owned h h2 rest (h_c h)); [exact (in_owned _ _ _ _ Hinv)|done|by apply chans_owned|].
  unfold owned, at_least. rewrite Hg. set_solver.
Qed.

Lemma moved_calls x : b_calls w !! i = Some x → calls_of h = [x] →
  ∃ us, b_calls w' ≡ₚ ((h' :: rest) ≫= calls_of) ++ map unload_call us ∧
    counter (tr ++ mark_of h) = (fini_count (b_client w'), m_timed (b_client w'), length us) ∧
    ∀ a, a ∈ us → ∃ h2, h2 ∈ h' :: rest ∧ h_a h2 = a ∧ h_stage h2 = Done.
Proof.
  intros Hi Hx. destruct (in_calls _ _ _ _ Hinv) as (us & Hp & Hcount & Hus).
  destruct (ad_count _ _ _ _ _ _ _ Hadv) as (un & Hun & Hcalls & Htick).
  rewrite bind_cons, Hx in Hp. rewrite (delete_Permutation _ _ _ Hi) in Hp. simpl in Hp. apply Permutation_cons_inv in Hp.
  assert (Hold : ∀ a, a ∈ us → ∃ h2, h2 ∈ h' :: rest ∧ h_a h2 = a ∧ h_stage h2 = Done).
  { intros a (h2 & [->|H2]%elem_of_cons & Ha & Hd)%Hus; [|exists h2; split; [by right|done]].
    pose proof (ad_rank _ _ _ _ _ _ _ Hadv) as Hr. rewrite Hd in Hr. by destruct (h_stage h'). }
  assert (Hnew : counter (tr ++ mark_of h) = (fini_count (b_client w'), m_timed (b_client w'), (length us + length un)%nat)).
  { unfold counter in *. by rewrite foldl_app, Hcount. }
  destruct Hun as [->|[Hd ->]].
  - exists us. split; [|split; [by rewrite Hnew, Nat.add_0_r|done]].
    rewrite Hcalls, Hp, app_nil_r, bind_cons, <- app_assoc. solve_Permutation.
  - exists (us ++ [h_a h]). split; [|split; [by rewrite Hnew, length_app|]].
    + rewrite Hcalls, Hp, bind_cons, map_app. simpl. solve_Permutation.
    + intros a [Ha| ->%list_elem_of_singleton]%elem_of_app; [by apply Hold|]. exists h'.
      split; [left|]. split; [exact (ad_a _ _ _ _ _ _ _ Hadv)|done].
Qed.

(** The invariant goes with the chain that moves. *)
Lemma inv_moves x : b_calls w !! i = Some x → calls_of h = [x] → inv (S n) (tr ++ mark_of h) w' (h' :: rest).
Proof.
  intros Hi Hx. pose proof (ad_rank _ _ _ _ _ _ _ Hadv) as Hr. destruct moved_owned as [Ho1 Ho2].
  pose proof (in_wrote _ _ _ _ Hinv) as Hw. pose proof (in_ended _ _ _ _ Hinv) as He. pose proof (in_steps _ _ _ _ Hinv) as Hn.
  pose proof (in_free _ _ _ _ Hinv) as Hf. unfold how_many, occurs in *. simpl in *.
  split.
  - exact (in_len _ _ _ _ Hinv).
  - exact moved_ok.
  - exact moved_ids.
  - exact Ho1.
  - exact Ho2.
  - exact moved_blobs.
  - exact moved_chans.
  - by eapply moved_calls.
  - rewrite (ad_free _ _ _ _ _ _ _ Hadv), Hf. unfold how_many, at_least. simpl.
    by destruct (h_stage h), (h_stage h'); try discriminate Hr; simpl; lia.
  - destruct (ad_store _ _ _ _ _ _ _ Hadv) as [-> ->]. exact (in_store _ _ _ _ Hinv).
  - rewrite (ad_malloc _ _ _ _ _ _ _ Hadv). exact (in_malloc _ _ _ _ Hinv).
  - rewrite (ad_stopped _ _ _ _ _ _ _ Hadv). exact (in_stopped _ _ _ _ Hinv).
  - simpl. rewrite Hr. lia.
  - unfold how_many, occurs, at_least, mark_of. rewrite filter_app, length_app, Hw. simpl.
    unfold at_least. by destruct (h_stage h), (h_stage h'); try discriminate Hr; simpl; lia.
  - unfold how_many, occurs, at_least, mark_of. rewrite filter_app, length_app, He. simpl.
    unfold at_least. by destruct (h_stage h), (h_stage h'); try discriminate Hr; simpl; lia.
Qed.
End move.
End inv.
