(* ===== verification/MultiIoTheorems.v ===== *)
(** * What the test of concurrent I/O does, in every interleaving

    The invariant holds at the start and is kept by every completion; from it: the
    test always gets to its end, but not always by unloading the blobstore last. *)
From stdpp Require Import gmap.
From S2P Require Import Prelude BlobIo BlobIoExec MultiIo MultiIoRuns MultiIoInv.
Local Open Scope Z_scope.

(** ** The counter *)

(** The orders in which writes and ends can come. *)
Inductive ordered : list mark → Prop :=
| ordered_nil : ordered []
| ordered_snoc tr m : ordered tr → (occurs Ended (tr ++ [m]) <= occurs Wrote (tr ++ [m]) <= 4)%nat → ordered (tr ++ [m]).

Lemma occurs_snoc m tr x : occurs m (tr ++ [x]) = (occurs m tr + if decide (x = m) then 1 else 0)%nat.
Proof. unfold occurs. rewrite filter_app, length_app. simpl. unfold filter. simpl. by destruct (decide (x = m)). Qed.
Lemma occurs_all tr : (occurs Wrote tr + occurs Ended tr = length tr)%nat.
Proof.
  induction tr as [|m tr IH] using rev_ind; [done|]. rewrite !occurs_snoc, length_app. simpl. destruct m; simpl; lia.
Qed.

(** Who unloads: the fourth event, when it is an end, or else the eighth. *)
Definition unloads (tr : list mark) : nat :=
  if decide (tr !! 3%nat = Some Ended) then 1%nat else if decide (length tr = 8%nat) then 1%nat else 0%nat.
Definition times (tr : list mark) : nat := if decide (tr !! 3%nat = Some Wrote) then 1%nat else 0%nat.

Lemma ordered_le tr : ordered tr → (occurs Ended tr <= occurs Wrote tr <= 4)%nat.
Proof. intros []; [unfold occurs; simpl; lia|done]. Qed.

Lemma counter_spec tr : ordered tr → ∃ k, counter tr = (k, times tr, unloads tr) ∧
  k = Z.of_nat (length tr) - (if decide (tr !! 3%nat = Some Wrote) then 4 else 0).
Proof.
  intros Ho. induction Ho as [|tr m Ho (k & IH & Hk) Hm]; [by exists 0|].
  pose proof (occurs_all tr) as Hall. pose proof (ordered_le tr Ho) as Hle. rewrite !occurs_snoc in Hm.
  unfold counter in *. rewrite foldl_app, IH. cbn [foldl tick]. unfold unloads, times in *. rewrite length_app. cbn [length].
  destruct (decide (length tr < 3)%nat) as [Hlt|Hge].
  { rewrite !lookup_ge_None_2 by (rewrite ?length_app; simpl; lia). rewrite lookup_ge_None_2 in Hk by lia.
    simpl in *. rewrite decide_False by lia. eexists. split; [|reflexivity]. rewrite !decide_False by lia. subst k. do 3 f_equal. lia. }
  destruct (decide (length tr = 3)%nat) as [H3|H3].
  { rewrite lookup_app_r, H3 by lia. cbn [lookup Nat.sub]. rewrite lookup_ge_None_2 in Hk |- * by lia. simpl in *.
    rewrite H3 in Hk. subst k. rewrite decide_True by done. destruct m; simpl; eexists; by split. }
  rewrite lookup_app_l by lia. destruct (lookup_lt_is_Some_2 tr 3) as [x Hx]; [lia|]. rewrite Hx in *. destruct x; simpl in *.
  - destruct (decide (length tr + 1 = 8)%nat) as [H8|H8].
    + assert (m = Ended) as -> by (destruct m; [simpl in Hm; lia|done]). rewrite decide_True by lia.
      rewrite decide_False by lia. eexists. split; [done|]. lia.
    + assert (length tr ≠ 8)%nat by (destruct m; simpl in Hm; lia).
      rewrite decide_False by (destruct m; simpl in Hm; lia). rewrite decide_False by done. eexists. split; [done|]. lia.
  - rewrite decide_False by lia. eexists. split; [done|]. lia.
Qed.

Lemma ids_few l : (length (l ≫= ids_of) <= length l)%nat.
Proof. induction l as [|h l IH]; [done|]. rewrite bind_cons, length_app. unfold ids_of at 1. destruct (_ && _); simpl; lia. Qed.
Lemma how_many_cons f h l : how_many f (h :: l) = ((if f h then 1 else 0) + how_many f l)%nat.
Proof. done. Qed.
Lemma rank_le g : (rank g <= 8)%nat.
Proof. destruct g; simpl; lia. Qed.
Lemma steps_left l : (sum_list_with (λ h, rank (h_stage h)) l <= 8 * length l)%nat ∧
  (sum_list_with (λ h, rank (h_stage h)) l < 8 * length l → ∃ h, h ∈ l ∧ h_stage h ≠ Done)%nat ∧
  (sum_list_with (λ h, rank (h_stage h)) l = 8 * length l → Forall (λ h, h_stage h = Done) l)%nat.
Proof.
  induction l as [|h l (IH1 & IH2 & IH3)]; [simpl; split; [lia|]; split; [lia|constructor]|]. simpl. pose proof (rank_le (h_stage h)).
  split; [lia|]. destruct (decide (h_stage h = Done)) as [Hd|Hd].
  - rewrite Hd. simpl. split; [|intros; constructor; [done|apply IH3; lia]].
    intros Hlt. destruct IH2 as (h2 & H2 & Hd2); [lia|]. exists h2. split; [by right|done].
  - split; [intros _; exists h; split; [left|done]|]. intros Heq. assert (rank (h_stage h) = 8%nat) by lia. by destruct (h_stage h).
Qed.
Lemma all_done {A} (f : chain → list A) l : (∀ h, h_stage h = Done → f h = []) → Forall (λ h, h_stage h = Done) l → l ≫= f = [].
Proof. intros Hf. induction 1 as [|h l Hd _ IH]; [done|]. by rewrite bind_cons, IH, Hf. Qed.
Lemma calls_here h : h_stage h ≠ Done → ∃ c cb, calls_of h = [(c, User cb)] ∧ c ≠ UnloadBs.
Proof. unfold calls_of. destruct (h_stage h); intros Hd; try by destruct Hd. all: eexists _, _; split; [reflexivity|done]. Qed.

(** ** The runs keep the invariant *)
Section runs.
Context (s : bstore) (F junk : Z).
Hypothesis Hopen : s_open s = ∅.
Hypothesis Hunit : 0 < s_io_unit_size s ∧ 2 * s_io_unit_size s < 2 ^ 64.
Hypothesis Hcluster : s_io_unit_size s <= s_cluster_size s.
Implicit Types (tr : list mark) (w : mworld) (h : chain).

Lemma inv_start w : (_ ← main 3 0; complete 0 0 F) (boot s junk) = Ok (tt, w) →
  inv s F junk 0 [] w (map (λ a, mk_chain a Creating 0 0 0 0) [1; 2; 3; 4]%nat).
Proof.
  destruct s as [sup bl fr cs us op xa]. cbn in *. subst op. intros Hw. vm_compute in Hw. injection Hw as <-.
  split; try done; try (by repeat constructor; set_solver).
  - exists []. split; [rewrite app_nil_r; apply Permutation_refl|]. split; [done|]. by intros a ?%not_elem_of_nil.
  - unfold how_many, at_least. simpl. lia.
Qed.

(** Where the pending call of a chain leads. *)
Lemma goes n i tr w h rest x v :
  inv s F junk n tr w (h :: rest) → b_calls w !! i = Some x → calls_of h = [x] →
  (h_stage h = Creating → s_blobs (b_store w) !! v = None ∧ 0 <= v < 2 ^ 64) →
  (h_stage h = Resizing → 2 <= s_free (b_store w)) →
  ∃ w' h', complete i 0 v w = Ok (tt, w') ∧ advance (s_io_unit_size s) junk w w' h h' i.
Proof.
  intros Hinv Hi Hx Hnew Hfree. pose proof (Forall_cons_1 _ _ _ (in_ok _ _ _ _ _ _ _ Hinv)) as [Hok _].
  destruct (in_store _ _ _ _ _ _ _ Hinv) as [Hcs Hus]. pose proof (in_malloc _ _ _ _ _ _ _ Hinv) as Hm. rewrite <- Hcs in Hcluster.
  pose proof (in_next _ _ _ _ _ _ _ Hinv) as Hlt. pose proof (in_owned _ _ _ _ _ _ _ Hinv) as Hnd. rewrite bind_cons in Hlt, Hnd.
  apply NoDup_app in Hnd as [Hnd _]. apply Forall_app in Hlt as [Hlt _].
  destruct h as [a g id p q c]. unfold calls_of in Hx. cbn in Hx. destruct g; try discriminate Hx; injection Hx as <-.
  - destruct (Hnew eq_refl) as [Hv Hr].
    assert (Ho : s_open (b_store w) !! v = None).
    { apply (in_blobs _ _ _ _ _ _ _ Hinv). intros (h2 & Hv2 & H2)%list_elem_of_bind.
      pose proof (proj1 (Forall_forall _ _) (in_ok _ _ _ _ _ _ _ Hinv) h2 H2) as Hok2.
      assert (v = h_id h2) as -> by (unfold ids_of in Hv2; destruct (_ && _); set_solver).
      destruct (ok_blob _ _ _ _ Hok2 Hv2) as (B & HB & _). congruence. }
    destruct (creates (s_io_unit_size s) junk w i a id p q c Hm Hus Hcluster v Hok Hi Hv Ho Hr) as (w' & H1 & H2). by eexists _, _.
  - destruct (opens (s_io_unit_size s) junk w i a id p q c Hm Hus Hcluster v Hok Hi) as (w' & H1 & H2). by eexists _, _.
  - destruct (resizes (s_io_unit_size s) junk w i a id p q c Hm Hus Hcluster v Hok Hi (Hfree eq_refl)) as (w' & H1 & H2). by eexists _, _.
  - destruct (syncs (s_io_unit_size s) junk w i a id p q c Hunit Hm Hus Hcluster v Hok Hi) as (w' & H1 & H2). by eexists _, _.
  - assert (Hp : (p < b_next w)%nat) by (rewrite Forall_forall in Hlt; apply Hlt; unfold owned; simpl; set_solver).
    destruct (writes (s_io_unit_size s) junk w i a id p q c Hunit Hm Hus Hcluster v Hok Hp Hi) as (w' & H1 & H2). by eexists _, _.
  - assert (Hpq : p ≠ q) by (intros ->; unfold owned in Hnd; simpl in Hnd; rewrite !NoDup_cons in Hnd; set_solver).
    destruct (reads (s_io_unit_size s) junk w i a id p q c Hunit Hm Hus Hcluster v Hok Hi Hpq) as (w' & H1 & H2). by eexists _, _.
  - destruct (closes (s_io_unit_size s) junk w i a id p q c Hm Hus Hcluster v Hok Hi) as (w' & H1 & H2). by eexists _, _.
  - destruct (deletes (s_io_unit_size s) junk w i a id p q c Hm Hus Hcluster v Hok Hi) as (w' & H1 & H2). by eexists _, _.
Qed.

(** What the success of a call says about it. *)
Lemma create_inv i cb v w w' : b_calls w !! i = Some (CreateBlob, User cb) → complete i 0 v w = Ok (tt, w') →
  s_blobs (b_store w) !! v = None ∧ 0 <= v < 2 ^ 64.
Proof.
  intros Hi. rewrite (complete_user _ _ _ _ _ Hi). unfold bs_effect. rewrite bind_assoc.
  match goal with |- ((gets ?g ≫= ?f) ?x) = _ → _ => change ((gets g ≫= f) x) with (f (g x) x) end. cbv beta iota zeta. rewrite bind_assoc.
  by intros [? _]%possible_inv.
Qed.
Lemma resize_inv i b m cb v B w w' : b_calls w !! i = Some (Resize b m, User cb) → s_blobs (b_store w) !! b = Some B →
  complete i 0 v w = Ok (tt, w') → m - x_clusters B <= s_free (b_store w).
Proof.
  intros Hi HB. rewrite (complete_user _ _ _ _ _ Hi). unfold bs_effect. rewrite bind_assoc.
  match goal with |- ((gets ?g ≫= ?f) ?x) = _ → _ => change ((gets g ≫= f) x) with (f (g x) x) end. cbv beta iota zeta. rewrite bind_assoc.
  rewrite (bind_Ok _ _ _ _ _ (blob_loaded b B (set_b_calls _ w) HB)). cbv beta. rewrite bind_assoc.
  by intros [? _]%possible_inv.
Qed.

(** The chain that a pending call belongs to. *)
Lemma owner n tr w l i c cb : inv s F junk n tr w l → b_calls w !! i = Some (c, User cb) → c ≠ UnloadBs →
  ∃ h rest, l ≡ₚ h :: rest ∧ calls_of h = [(c, User cb)] ∧ mark_of h = marks cb.
Proof.
  intros Hinv Hi Hc. destruct (in_calls _ _ _ _ _ _ _ Hinv) as (us & Hp & _).
  assert (Hin : (c, User cb) ∈ (l ≫= calls_of) ++ map unload_call us) by (rewrite <- Hp; by eapply list_elem_of_lookup_2).
  apply elem_of_app in Hin as [(h & Hh & Hl)%list_elem_of_bind|(a & [= E1 E2] & _)%list_elem_of_fmap]; [|by destruct Hc].
  apply elem_of_Permutation in Hl as [rest Hrest]. exists h, rest. split; [done|].
  unfold calls_of, mark_of in *. destruct (h_stage h); try (apply list_elem_of_singleton in Hh; injection Hh as -> ->; done).
  by apply not_elem_of_nil in Hh.
Qed.

Lemma inv_step n tr w l i c cb v w' :
  inv s F junk n tr w l → b_calls w !! i = Some (c, User cb) → c ≠ UnloadBs → complete i 0 v w = Ok (tt, w') →
  ∃ l', inv s F junk (S n) (tr ++ marks cb) w' l'.
Proof.
  intros Hinv Hi Hc Hrun. destruct (owner _ _ _ _ _ _ _ Hinv Hi Hc) as (h & rest & Hl & Hx & Hm). rewrite Hl in Hinv.
  pose proof (Forall_cons_1 _ _ _ (in_ok _ _ _ _ _ _ _ Hinv)) as [Hok _].
  destruct (goes n i tr w h rest _ v Hinv Hi Hx) as (w2 & h' & Hrun2 & Hadv).
  - intros Hg. unfold calls_of in Hx. rewrite Hg in Hx. injection Hx as <- <-. by eapply create_inv.
  - intros Hg. unfold calls_of in Hx. rewrite Hg in Hx. injection Hx as <- <-.
    destruct (ok_blob _ _ _ _ Hok) as (B & HB & Hcl & _); [rewrite ids_here by (by rewrite Hg); left|].
    pose proof (resize_inv _ _ _ _ _ _ _ _ Hi HB Hrun) as Hle. unfold at_least in Hcl. rewrite Hg in Hcl. simpl in Hcl. lia.
  - rewrite Hrun in Hrun2. injection Hrun2 as <-. exists (h' :: rest). rewrite <- Hm. by eapply inv_moves.
Qed.

Lemma runs_inv n tr w : runs s F junk n tr w → ∃ l, inv s F junk n tr w l.
Proof.
  induction 1 as [w Hw|n tr w i c cb v w' _ [l IH] Hi Hc Hrun]; [eexists; by apply inv_start|]. by eapply inv_step.
Qed.

Lemma runs_ordered n tr w : runs s F junk n tr w → ordered tr.
Proof.
  intros Hr. pose proof (runs_inv n tr w Hr) as Hinv. revert Hinv.
  induction Hr as [w Hw|n tr w i c cb v w' Hr IH Hi Hc Hrun]; [constructor|]. intros [l Hinv].
  specialize (IH (runs_inv n tr w Hr)).
  assert (Hle : (how_many (at_least 8) l <= how_many (at_least 5) l <= length l)%nat).
  { clear. induction l as [|h l IH]; [simpl; lia|]. rewrite !how_many_cons. simpl.
    assert (at_least 8 h = true → at_least 5 h = true) by (unfold at_least; by destruct (h_stage h)).
    destruct (at_least 8 h), (at_least 5 h); naive_solver lia. }
  rewrite <- (in_wrote _ _ _ _ _ _ _ Hinv), <- (in_ended _ _ _ _ _ _ _ Hinv), (in_len _ _ _ _ _ _ _ Hinv) in Hle.
  destruct cb; simpl in *; rewrite ?app_nil_r; try done; by constructor.
Qed.

(** A call of a chain that is not done can succeed. *)
Lemma inv_progress n tr w l : inv s F junk n tr w l → 8 <= F → (n < 32)%nat →
  ∃ i c cb v w', b_calls w !! i = Some (c, User cb) ∧ c ≠ UnloadBs ∧ complete i 0 v w = Ok (tt, w').
Proof.
  intros Hinv HF Hn. pose proof (in_len _ _ _ _ _ _ _ Hinv) as Hlen. rewrite (in_steps _ _ _ _ _ _ _ Hinv) in Hn.
  destruct (proj1 (proj2 (steps_left l)) ltac:(lia)) as (h & Hh & Hd).
  destruct (calls_here h Hd) as (c & cb & Hx & Hc). apply elem_of_Permutation in Hh as [rest Hl]. pose proof Hinv as Hinv2. rewrite Hl in Hinv2.
  assert (Hin : (c, User cb) ∈ b_calls w).
  { destruct (in_calls _ _ _ _ _ _ _ Hinv2) as (us & Hp & _). rewrite Hp, bind_cons, Hx. left. }
  apply list_elem_of_lookup in Hin as [i Hi].
  assert (Hv : ∃ v, v ∈ seqZ 0 5 ∧ v ∉ l ≫= ids_of).
  { destruct (decide (Exists (λ v, v ∉ l ≫= ids_of) (seqZ 0 5))) as [He|He]; [by apply Exists_exists in He|exfalso].
    assert (Hsub : seqZ 0 5 ⊆+ l ≫= ids_of).
    { apply NoDup_submseteq; [apply NoDup_seqZ|]. intros v Hv. destruct (decide (v ∈ l ≫= ids_of)) as [|Hnot]; [done|].
      exfalso. apply He, Exists_exists. by exists v. }
    apply submseteq_length in Hsub. rewrite length_seqZ in Hsub. pose proof (ids_few l). lia. }
  destruct Hv as (v & Hv1%elem_of_seqZ & Hv2).
  destruct (goes n i tr w h rest _ v Hinv2 Hi Hx) as (w' & h' & Hrun & _).
  - intros _. split; [apply (in_blobs _ _ _ _ _ _ _ Hinv v Hv2)|lia].
  - intros Hg. rewrite (in_free _ _ _ _ _ _ _ Hinv2), how_many_cons. unfold at_least at 1. rewrite Hg. simpl.
    assert (how_many (at_least 3) rest <= length rest)%nat.
    { clear. induction rest as [|h l IH]; [simpl; lia|]. rewrite how_many_cons. simpl. destruct (at_least 3 h); lia. }
    rewrite Hl in Hlen. simpl in Hlen. lia.
  - by exists i, c, cb, v, w'.
Qed.
End runs.

(** The end of the program: the struct that unloads passes on its [rc]. *)
Lemma unload_runs u junk w h v :
  chain_ok u junk w h → h_stage h = Done → b_calls w = [unload_call (h_a h)] → s_open (b_store w) = ∅ →
  ∃ w', complete 0 0 v w = Ok (tt, w') ∧ m_stopped (b_client w') = m_stopped (b_client w) ++ [junk] ∧ b_calls w' = [] ∧
    b_store w' = b_store w ∧ b_channels w' = b_channels w.
Proof.
  intros [Ht _ _ _ _] Hd Hc Ho. destruct h as [a g id p q c]. cbn in *. subst g.
  assert (Ht' : m_structs (b_client w) !! a = Some (mk_test true (Some id) (Some id) (Some (Some c)) (Some (Some q)) (Some (Some p)) u u junk))
    by exact Ht. clear Ht.
  assert (Hi : b_calls w !! 0%nat = Some (UnloadBs, User (M_unload_complete a))) by (by rewrite Hc).
  rewrite (complete_user _ _ _ _ _ Hi).
  destruct w as [[] ? ? ? ? ? ? ? []]. cbn in *. subst.
  eexists. split.
  - unfold bs_effect. msteps. cbn [mdispatch]. unfold unload_complete. mstep. rewrite !(decide_False (P := 0 ≠ 0)) by (intros E; by apply E).
    msteps. unfold spdk_app_stop, free_buffer. msteps. unfold free_t. msteps. unfold modify_m, modify. world_simpl. reflexivity.
  - world_simpl. done.
Qed.

(** ** The end of a run *)
Section ends.
Context (s : bstore) (F junk : Z).
Hypothesis Hopen : s_open s = ∅.
Hypothesis Hunit : 0 < s_io_unit_size s ∧ 2 * s_io_unit_size s < 2 ^ 64.
Hypothesis Hcluster : s_io_unit_size s <= s_cluster_size s.
Implicit Types (tr : list mark) (w : mworld).

(** Everything is given back, and one call is left. *)
Definition finished w : Prop := s_blobs (b_store w) = ∅ ∧ s_open (b_store w) = ∅ ∧ b_channels w = [].

Lemma run_ends n tr w : runs s F junk n tr w →
  (n <= 32)%nat ∧ m_stopped (b_client w) = [] ∧
  (n = 32%nat → finished w ∧ ∃ a, b_calls w = [unload_call a] ∧
    ∀ v, ∃ w', complete 0 0 v w = Ok (tt, w') ∧ finished w' ∧ b_calls w' = [] ∧ m_stopped (b_client w') = [junk]).
Proof.
  intros Hr. destruct (runs_inv s F junk Hopen Hunit Hcluster n tr w Hr) as [l Hinv].
  pose proof (runs_ordered s F junk Hopen Hunit Hcluster n tr w Hr) as Hord. pose proof (in_len _ _ _ _ _ _ _ Hinv) as Hlen.
  destruct (steps_left l) as (Hle & _ & Hall). pose proof (in_steps _ _ _ _ _ _ _ Hinv) as Hn.
  pose proof (in_stopped _ _ _ _ _ _ _ Hinv) as Hst.
  split; [lia|]. split; [done|]. intros H32. specialize (Hall ltac:(lia)).
  assert (Hids : l ≫= ids_of = []) by (apply all_done; [|done]; intros h Hd; unfold ids_of, at_least; by rewrite Hd).
  pose proof (in_blobs _ _ _ _ _ _ _ Hinv) as Hb. rewrite Hids in Hb.
  assert (Hfin : finished w).
  { split; [|split]; [apply map_empty; intros j; apply Hb; apply not_elem_of_nil..|].
    apply Permutation_nil_r. rewrite (in_chans _ _ _ _ _ _ _ Hinv), (all_done chans_of); [done| |done].
    intros h Hd. unfold chans_of, at_least. by rewrite Hd. }
  split; [done|].
  destruct (in_calls _ _ _ _ _ _ _ Hinv) as (us & Hp & Hcount & Hus).
  rewrite (all_done calls_of) in Hp; [|intros h Hd; unfold calls_of; by rewrite Hd|done].
  assert (Hone : length us = 1%nat).
  { destruct (counter_spec tr Hord) as (k & Hk & _). rewrite Hcount in Hk. injection Hk as _ _ ->.
    assert (Hcnt : length tr = 8%nat).
    { rewrite <- occurs_all, (in_wrote _ _ _ _ _ _ _ Hinv), (in_ended _ _ _ _ _ _ _ Hinv).
      clear -Hall Hlen. destruct l as [|h1 [|h2 [|h3 [|h4 [|]]]]]; try discriminate Hlen.
      rewrite !Forall_cons in Hall. destruct Hall as (H1 & H2 & H3 & H4 & _). rewrite !how_many_cons. unfold at_least.
      by rewrite H1, H2, H3, H4. }
    unfold unloads. destruct (decide _); [done|]. by rewrite decide_True. }
  destruct us as [|a [|]]; try discriminate Hone. simpl in Hp. apply Permutation_singleton_r in Hp.
  destruct (Hus a ltac:(left)) as (h & Hh & <- & Hd). exists (h_a h). split; [done|]. intros v.
  pose proof (proj1 (Forall_forall _ _) (in_ok _ _ _ _ _ _ _ Hinv) h Hh) as Hok.
  destruct (unload_runs _ _ w h v Hok Hd Hp (proj1 (proj2 Hfin))) as (w' & Hrun & Hst' & Hcalls & Hstore & Hchans).
  exists w'. split; [done|]. unfold finished. rewrite Hstore, Hchans, Hst', Hst. done.
Qed.

(** As long as no end of a chain was counted fourth, unloading is asked for last. *)
Lemma unload_comes_last n tr w i cb :
  runs s F junk n tr w → tr !! 3%nat ≠ Some Ended → b_calls w !! i = Some (UnloadBs, User cb) → n = 32%nat.
Proof.
  intros Hr H3 Hi. destruct (runs_inv s F junk Hopen Hunit Hcluster n tr w Hr) as [l Hinv].
  destruct (counter_spec tr (runs_ordered s F junk Hopen Hunit Hcluster n tr w Hr)) as (k & Hk & _).
  destruct (in_calls _ _ _ _ _ _ _ Hinv) as (us & Hp & Hcount & _). rewrite Hcount in Hk. injection Hk as _ _ Hus.
  assert (Hin : (UnloadBs, User cb) ∈ (l ≫= calls_of) ++ map unload_call us) by (rewrite <- Hp; by eapply list_elem_of_lookup_2).
  apply elem_of_app in Hin as [(h & Hh & _)%list_elem_of_bind|(a & _ & Ha)%list_elem_of_fmap].
  { unfold calls_of in Hh. destruct (h_stage h); set_solver. }
  assert (length us ≠ 0%nat) by (destruct us; [by apply not_elem_of_nil in Ha|done]).
  unfold unloads in Hus. rewrite (decide_False (P := _ = Some Ended)) in Hus by done.
  destruct (decide (length tr = 8%nat)) as [H8|]; [|lia].
  rewrite <- occurs_all, (in_wrote _ _ _ _ _ _ _ Hinv), (in_ended _ _ _ _ _ _ _ Hinv) in H8.
  rewrite (in_steps _ _ _ _ _ _ _ Hinv). pose proof (in_len _ _ _ _ _ _ _ Hinv) as Hlen. clear -H8 Hlen.
  destruct l as [|h1 [|h2 [|h3 [|h4 [|]]]]]; try discriminate Hlen. rewrite !how_many_cons in H8.
  assert (Hd : (∀ h, (if at_least 5 h then 1 else 0) + (if at_least 8 h then 1 else 0) <= 2 ∧
    ((if at_least 5 h then 1 else 0) + (if at_least 8 h then 1 else 0) = 2 → rank (h_stage h) = 8))%nat)
    by (intros [? [] ? ? ? ?]; unfold at_least; simpl; lia).
  pose proof (Hd h1). pose proof (Hd h2). pose proof (Hd h3). pose proof (Hd h4). simpl in *. lia.
Qed.

(** An order in which unloading does not overtake the chains: a run, or a run and
    the unloading at its end. *)
Lemma orders_split n tr k w : orders s F junk n tr k w → tr !! 3%nat ≠ Some Ended →
  (k = 0%nat ∧ runs s F junk n tr w) ∨
  (k = 1%nat ∧ n = 33%nat ∧ finished w ∧ b_calls w = [] ∧ m_stopped (b_client w) = [junk]).
Proof.
  induction 1 as [w Hw|n tr k w i c cb v w' Ho IH Hi Hrun]; intros H3; [left; split; [done|by constructor]|].
  assert (Hpre : tr !! 3%nat ≠ Some Ended) by (intros He; apply H3; by apply lookup_app_l_Some).
  destruct (IH Hpre) as [[-> Hr]|(_ & _ & _ & Hc & _)]; [|by rewrite Hc in Hi].
  destruct (decide (is_unload (c, User cb) = true)) as [Hu|Hu].
  - right. rewrite Hu. destruct c; try discriminate Hu. pose proof (unload_comes_last n tr w i cb Hr Hpre Hi) as ->.
    destruct (run_ends _ _ _ Hr) as (_ & _ & Hend). destruct (Hend eq_refl) as (_ & a & Hc & Hun).
    rewrite Hc in Hi. destruct i; [|done]. destruct (Hun v) as (w2 & Hrun2 & Hfin & Hc2 & Hst). rewrite Hrun in Hrun2. by injection Hrun2 as <-.
  - left. apply not_true_is_false in Hu. rewrite Hu. split; [done|]. eapply runs_step; [exact Hr|exact Hi|by intros ->|exact Hrun].
Qed.
End ends.

(** C13. The test of concurrent I/O when the blobstore answers every call with success,
    in any order in which it is not unloaded early: either the unloading, once asked
    for, is left to the end ([k = 0]), or it is never asked for early, because the
    fourth event to be counted is not the end of a chain.  The test makes at most 33
    calls, is never stuck before the 32nd, and is not stopped until then.  Then every
    blob is deleted, every channel is back, nothing was reported as wrong (the bytes
    read are those written), and the last call unloads the blobstore.  Its completion
    stops the program with the [rc] of a struct from [malloc]: what the memory held,
    since no one sets it.  (Unloading early can overtake two chains: [early_unload] of
    MultiIoDemo.) *)
Theorem multi_io_completes s F junk n tr k w :
  s_open s = ∅ → 0 < s_io_unit_size s ∧ 2 * s_io_unit_size s < 2 ^ 64 → s_io_unit_size s <= s_cluster_size s → 8 <= F →
  orders s F junk n tr k w → k = 0%nat ∨ tr !! 3%nat ≠ Some Ended →
  (n <= 33)%nat ∧
  ((n < 32)%nat → ∃ i c cb v w', b_calls w !! i = Some (c, User cb) ∧ c ≠ UnloadBs ∧ complete i 0 v w = Ok (tt, w')) ∧
  ((n <= 32)%nat → m_stopped (b_client w) = []) ∧
  ((32 <= n)%nat → s_blobs (b_store w) = ∅ ∧ s_open (b_store w) = ∅ ∧ b_channels w = []) ∧
  (n = 32%nat → ∃ a w', b_calls w = [(UnloadBs, User (M_unload_complete a))] ∧ complete 0 0 0 w = Ok (tt, w') ∧
     b_calls w' = [] ∧ m_stopped (b_client w') = [junk]) ∧
  (n = 33%nat → b_calls w = [] ∧ m_stopped (b_client w) = [junk]).
Proof.
  intros Ho Hu Hcl HF Hord Hlast.
  assert (Hcases : runs s F junk n tr w ∨ (n = 33%nat ∧ finished w ∧ b_calls w = [] ∧ m_stopped (b_client w) = [junk])).
  { destruct Hlast as [->|H3]; [left; by apply orders_runs|].
    destruct (orders_split s F junk Ho Hu Hcl n tr k w Hord H3) as [[_ Hr]|(_ & Hend)]; [by left|by right]. }
  destruct Hcases as [Hr|(-> & Hfin & Hc & Hst)]; [|split_and!; (done || lia)].
  destruct (run_ends s F junk Ho Hu Hcl n tr w Hr) as (Hn & Hst & Hend).
  destruct (runs_inv s F junk Ho Hu Hcl n tr w Hr) as [l Hinv].
  split; [lia|]. split; [intros; by eapply inv_progress|]. split; [done|]. split; [intros; by apply Hend; lia|]. split; [|lia].
  intros H32. destruct (Hend H32) as (_ & a & Hc & Hun). destruct (Hun 0) as (w' & Hrun & _ & Hc' & Hst'). by exists a, w'.
Qed.

(** C14. The counter of the test in every interleaving: it counts at most eight events, in
    which ends never outnumber writes; the blobstore is unloaded once, and the time of
    the writes printed at most once.  If the fourth event is a write, the time is
    printed with it, and the unloading comes with the last event.  But if the fourth is
    the end of a chain, the time is never printed, and the blobstore is unloaded then:
    at that moment at least two other chains have a call pending. *)
Theorem multi_io_unloads s F junk n tr w :
  s_open s = ∅ → 0 < s_io_unit_size s ∧ 2 * s_io_unit_size s < 2 ^ 64 → s_io_unit_size s <= s_cluster_size s →
  runs s F junk n tr w →
  (length tr <= 8)%nat ∧ (occurs Ended tr <= occurs Wrote tr)%nat ∧
  length (filter is_unload (b_calls w)) = unloads tr ∧ m_timed (b_client w) = times tr ∧
  (length tr = 4%nat → tr !! 3%nat = Some Ended → (2 <= length (filter (λ p, negb (is_unload p)) (b_calls w)))%nat).
Proof.
  intros Ho Hu Hcl Hr. destruct (runs_inv s F junk Ho Hu Hcl n tr w Hr) as [l Hinv].
  pose proof (runs_ordered s F junk Ho Hu Hcl n tr w Hr) as Hord. pose proof (ordered_le tr Hord) as Hle. pose proof (occurs_all tr) as Hall.
  destruct (counter_spec tr Hord) as (k & Hk & _). destruct (in_calls _ _ _ _ _ _ _ Hinv) as (us & Hp & Hcount & _).
  rewrite Hcount in Hk. injection Hk as _ Htimed Hus.
  assert (Hun : filter is_unload (l ≫= calls_of) = [] ∧
    length (filter (λ p, negb (is_unload p)) (l ≫= calls_of)) = (length l - how_many (at_least 8) l)%nat ∧
    (how_many (at_least 8) l <= length l)%nat).
  { clear. induction l as [|h l (IH1 & IH2 & IH3)]; [done|]. rewrite bind_cons, !filter_app, length_app, IH1, IH2, how_many_cons.
    clear IH1 IH2. generalize dependent (how_many (at_least 8) l). intros k Hk.
    unfold calls_of, at_least. destruct (h_stage h); simpl; (split; [done|]; split; lia). }
  destruct Hun as (Hun1 & Hun2 & Hun3).
  assert (Hmap : filter is_unload (map unload_call us) = map unload_call us) by (clear; induction us as [|a us IH]; [done|]; rewrite map_cons, filter_cons_True, IH by done; done).
  split; [lia|]. split; [lia|]. split; [|split; [done|]].
  - rewrite Hp, filter_app, Hun1, Hmap. simpl. by rewrite length_map, Hus.
  - intros H4 He. rewrite Hp, filter_app, length_app, Hun2, (in_len _ _ _ _ _ _ _ Hinv), <- (in_ended _ _ _ _ _ _ _ Hinv). lia.
Qed.

(** ** Errors *)
Definition before_io (c : call) : bool :=
  match c with CreateBlob | OpenBlob _ | Resize _ _ | SyncMd _ => true | _ => false end.

Lemma complete_failed i c cb rc v (w : mworld) : b_calls w !! i = Some (c, User cb) → rc ≠ 0 →
  complete i rc v w = mdispatch cb None rc (set_b_calls (delete i (b_calls w)) w).
Proof.
  intros Hi Hrc. unfold complete, take_call. rewrite !bind_assoc. change ((gets b_calls ≫= ?f) w) with (f (b_calls w) w). cbv beta.
  rewrite Hi. trans ((if decide (rc = 0) then value ← bs_effect c v; mdispatch cb value 0 else mdispatch cb None rc)
    (set_b_calls (delete i (b_calls w)) w)); [done|]. by rewrite decide_False.
Qed.

(** Every callback hands an error to [unload_bs] and does nothing else. *)
Lemma failed h c cb rc : rc ≠ 0 → calls_of h = [(c, User cb)] → mdispatch cb None rc = unload_bs (h_a h) rc.
Proof.
  intros Hrc Hx. unfold calls_of in Hx. destruct (h_stage h); try discriminate Hx; injection Hx as <- <-; cbn [mdispatch];
    unfold blob_create_complete, open_complete, resize_complete, sync_complete, write_complete, read_complete, delete_blob, delete_complete;
    by rewrite decide_True.
Qed.

(** C22. An error in the test of concurrent I/O.  Before a chain has its I/O channel, its
    first error reads the field [channel] of a struct that nothing has filled.  Later,
    the chain is given up: it only gives its channel back and counts as ended, with the
    blobstore unloaded if it was the fourth to count, but its blob stays, and stays
    open if it was. *)
Theorem multi_io_error s F junk n tr w i c cb rc v :
  s_open s = ∅ → 0 < s_io_unit_size s ∧ 2 * s_io_unit_size s < 2 ^ 64 → s_io_unit_size s <= s_cluster_size s →
  runs s F junk n tr w → b_calls w !! i = Some (c, User cb) → c ≠ UnloadBs → rc ≠ 0 →
  (before_io c = true → complete i rc v w = Fault Uninitialised) ∧
  (before_io c = false → ∃ w' a ch, complete i rc v w = Ok (tt, w') ∧
     b_store w' = b_store w ∧ ch ∈ b_channels w ∧ b_channels w' = filter (λ x, x ≠ ch) (b_channels w) ∧
     fini_count (b_client w') = fini_count (b_client w) + 1 ∧ m_stopped (b_client w') = [] ∧
     b_calls w' = delete i (b_calls w) ++ (if decide (fini_count (b_client w) + 1 = 4) then [(UnloadBs, User (M_unload_complete a))] else [])).
Proof.
  intros Ho Hu Hcl Hr Hi Hc Hrc. destruct (runs_inv s F junk Ho Hu Hcl n tr w Hr) as [l Hinv].
  destruct (owner _ _ _ _ _ _ _ _ _ _ Hinv Hi Hc) as (h & rest & Hl & Hx & _). rewrite Hl in Hinv.
  pose proof (Forall_cons_1 _ _ _ (in_ok _ _ _ _ _ _ _ Hinv)) as [Hok _]. pose proof (in_stopped _ _ _ _ _ _ _ Hinv) as Hst.
  pose proof (in_chans _ _ _ _ _ _ _ Hinv) as Hch. rewrite bind_cons, chans_of_eq in Hch.
  rewrite (complete_failed _ _ _ _ _ _ Hi Hrc), (failed h c cb rc Hrc Hx).
  pose proof (ok_struct _ _ _ _ Hok) as Ht.
  assert (Hload : load_t (h_a h) (set_b_calls (delete i (b_calls w)) w) = Ok (struct_of (s_io_unit_size s) junk h, set_b_calls (delete i (b_calls w)) w))
    by (by apply load_t_eq).
  unfold unload_bs. rewrite (bind_Ok _ _ _ _ _ Hload). cbv zeta. rewrite !(decide_True (P := rc ≠ 0)) by done. split; intros Hb.
  - assert (t_channel (struct_of (s_io_unit_size s) junk h) = None) as Hnone.
    { unfold calls_of in Hx. unfold struct_of, at_least. destruct (h_stage h); try discriminate Hx; injection Hx as <- <-; by try discriminate Hb. }
    unfold struct_of in *. cbn in Hnone |- *. msteps. by rewrite Hnone.
  - assert (t_channel (struct_of (s_io_unit_size s) junk h) = Some (Some (h_c h)) ∧ h_c h ∈ b_channels w) as [Hsome Hmem].
    { unfold calls_of in Hx. unfold struct_of, at_least. rewrite Hch.
      destruct (h_stage h); try discriminate Hx; injection Hx as <- <-; try discriminate Hb; (split; [done|left]). }
    unfold struct_of in *. cbn in Hsome |- *. rewrite Hsome. destruct (decide (fini_count (b_client w) + 1 = 4)) as [H4|H4].
    all: eexists _, (h_a h), (h_c h); (split; [msteps; unfold free_channel; msteps; unfold bs_call; msteps; reflexivity|]).
    all: world_simpl; rewrite ?app_nil_r; by split_and!.
Qed.
