(* ===== verification/MultiIoDemo.v ===== *)
(** * The theorems on the test of concurrent I/O, on concrete runs *)
From stdpp Require Import gmap.
From S2P Require Import Prelude BlobIo MultiIo MultiIoRuns MultiIoInv MultiIoTheorems.
Local Open Scope Z_scope.

(** A run from the calls that complete: their positions, and the id for a new blob. *)
Fixpoint replay (es : list (nat * Z)) (tr : list mark) (w : mworld) : option (list mark * mworld) :=
  match es with
  | [] => Some (tr, w)
  | (i, v) :: es' =>
      match b_calls w !! i with
      | Some (c, User cb) =>
          if is_unload (c, User cb) then None else
          match complete i 0 v w with Ok (_, w') => replay es' (tr ++ marks cb) w' | Fault _ => None end
      | _ => None
      end
  end.
Lemma replay_runs s F junk es n tr w r :
  runs s F junk n tr w → replay es tr w = Some r → runs s F junk (length es + n) r.1 r.2.
Proof.
  revert n tr w. induction es as [|[i v] es IH]; intros n tr w Hr; simpl; [by intros [= <-]|].
  destruct (b_calls w !! i) as [[c cb]|] eqn:Hi; [|done]. destruct cb; try done. destruct (is_unload _) eqn:Hu; [done|].
  destruct (complete i 0 v w) as [[[] w']|] eqn:Hrun; [|done]. rewrite <- Nat.add_succ_r.
  apply IH. eapply runs_step; try done. by intros ->.
Qed.

(** I/O units of 4 bytes, clusters of 8. *)
Definition small_store : bstore := mk_bstore None ∅ 0 8 4 ∅ (λ _ _, 0).
Definition started : mworld :=
  match (_ ← main 3 0; complete 0 0 100) (boot small_store 77) with Ok (_, w) => w | Fault _ => boot small_store 77 end.
Lemma started_runs : runs small_store 100 77 0 [] started.
Proof. apply runs_start. vm_compute. reflexivity. Qed.
Definition after (es : list (nat * Z)) : list mark * mworld := default ([], started) (replay es [] started).
Lemma after_runs es : is_Some (replay es [] started) → runs small_store 100 77 (length es + 0) (after es).1 (after es).2.
Proof. intros [r Hr]. eapply replay_runs; [exact started_runs|]. unfold after. by rewrite Hr. Qed.

(** Eight rounds of the four chains; two chains to their end, one after the other; and
    the four up to their writes. *)
Definition rounds : list (nat * Z) := map (λ k, (0%nat, Z.of_nat k)) (seq 1 32).
Definition alone (v : Z) : list (nat * Z) := (0%nat, v) :: replicate 7 (3%nat, 0).
Definition two_alone : list (nat * Z) := alone 1 ++ (0%nat, 2) :: replicate 7 (2%nat, 0).
Definition to_writes : list (nat * Z) := map (λ k, (0%nat, Z.of_nat k)) (seq 1 16).

(** The same, with the unloading completed as soon as it is asked for. *)
Fixpoint replay_all (es : list (nat * Z)) (tr : list mark) (k : nat) (w : mworld) : option (list mark * nat * mworld) :=
  match es with
  | [] => Some (tr, k, w)
  | (i, v) :: es' =>
      match b_calls w !! i with
      | Some (c, User cb) =>
          match complete i 0 v w with
          | Ok (_, w') => replay_all es' (tr ++ marks cb) (if is_unload (c, User cb) then S k else k) w'
          | Fault _ => None
          end
      | _ => None
      end
  end.
Lemma replay_orders s F junk es n tr k w tr' k' w' :
  orders s F junk n tr k w → replay_all es tr k w = Some (tr', k', w') → orders s F junk (length es + n) tr' k' w'.
Proof.
  revert n tr k w. induction es as [|[i v] es IH]; intros n tr k w Ho; simpl; [by intros [= <- <- <-]|].
  destruct (b_calls w !! i) as [[c cb]|] eqn:Hi; [|done]. destruct cb; try done.
  destruct (complete i 0 v w) as [[[] w2]|] eqn:Hrun; [|done]. rewrite <- Nat.add_succ_r. apply IH. by eapply orders_step.
Qed.
Definition ordered_after (es : list (nat * Z)) : list mark * nat * mworld := default ([], 0%nat, started) (replay_all es [] 0 started).
Lemma ordered_after_orders es : is_Some (replay_all es [] 0 started) →
  orders small_store 100 77 (length es + 0) (ordered_after es).1.1 (ordered_after es).1.2 (ordered_after es).2.
Proof.
  intros [[[tr k] w] Hr]. unfold ordered_after. rewrite Hr. eapply replay_orders; [|exact Hr]. apply orders_start. vm_compute. reflexivity.
Qed.

(** The rounds and the unloading. *)
Definition to_the_end : list (nat * Z) := rounds ++ [(0%nat, 0)].

Lemma multi_io_completes_witness :
  (let w := (ordered_after rounds).2 in
   ∃ a w', b_calls w = [(UnloadBs, User (M_unload_complete a))] ∧ complete 0 0 0 w = Ok (tt, w') ∧
     b_calls w' = [] ∧ m_stopped (b_client w') = [77]) ∧
  (let w := (ordered_after to_the_end).2 in b_calls w = [] ∧ m_stopped (b_client w) = [77]).
Proof.
  split.
  - destruct (multi_io_completes small_store 100 77 32 (ordered_after rounds).1.1 0 (ordered_after rounds).2)
      as (_ & _ & _ & _ & H & _); [done|by split|done|done| |by left|exact (H eq_refl)].
    apply (ordered_after_orders rounds). vm_compute. by eexists.
  - destruct (multi_io_completes small_store 100 77 33 (ordered_after to_the_end).1.1 1 (ordered_after to_the_end).2)
      as (_ & _ & _ & _ & _ & H); [done|by split|done|done| |right; vm_compute; done|exact (H eq_refl)].
    apply (ordered_after_orders to_the_end). vm_compute. by eexists.
Defined.

(** Two chains that end before the others start to write: the unloading that the second
    asks for completes and stops the program, with the two others waiting. *)
Definition early : list (nat * Z) := two_alone ++ [(2%nat, 0)].
Lemma early_unload :
  orders small_store 100 77 17 (ordered_after early).1.1 1 (ordered_after early).2 ∧
  m_stopped (b_client (ordered_after early).2) = [77] ∧ map fst (b_calls (ordered_after early).2) = [CreateBlob; CreateBlob].
Proof.
  split; [|split; vm_compute; reflexivity]. apply (ordered_after_orders early). vm_compute. by eexists.
Qed.

Lemma multi_io_unloads_witness :
  let w := (after two_alone).2 in
  length (filter is_unload (b_calls w)) = 1%nat ∧ m_timed (b_client w) = 0%nat ∧
  (2 <= length (filter (λ p, negb (is_unload p)) (b_calls w)))%nat.
Proof.
  destruct (multi_io_unloads small_store 100 77 16 (after two_alone).1 (after two_alone).2) as (_ & _ & H1 & H2 & H3);
    [done|by split|done|apply (after_runs two_alone); vm_compute; by eexists|].
  split; [exact H1|]. split; [exact H2|]. apply H3; vm_compute; reflexivity.
Defined.

Lemma multi_io_error_witness :
  complete 0 (-12) 0 started = Fault Uninitialised ∧
  let w := (after to_writes).2 in
  ∃ w' a ch, complete 0 (-5) 0 w = Ok (tt, w') ∧
     b_store w' = b_store w ∧ ch ∈ b_channels w ∧ b_channels w' = filter (λ x, x ≠ ch) (b_channels w) ∧
     fini_count (b_client w') = 1 ∧ m_stopped (b_client w') = [] ∧
     b_calls w' = delete 0%nat (b_calls w) ++ (if decide (0 + 1 = 4) then [(UnloadBs, User (M_unload_complete a))] else []).
Proof.
  split.
  - apply (multi_io_error small_store 100 77 0 [] started 0 CreateBlob (M_blob_create_complete 1) (-12) 0);
      [done|by split|done|exact started_runs|reflexivity|done|done|done].
  - apply (multi_io_error small_store 100 77 16 (after to_writes).1 (after to_writes).2 0
      (IoWrite 1 (Some 6%nat) (Some 5%nat) 0 2) (M_write_complete 1) (-5) 0);
      [done|by split|done|apply (after_runs to_writes); vm_compute; by eexists|vm_compute; reflexivity|done|done|done].
Defined.
