(* ===== verification/DiskCheck.v ===== *)
(** * The disk check of NBFS2 (NBFS2/apps/dschk/disk_check.c)

    It formats or loads a blobstore, says whether there is a super blob, and unloads.
    check_super_blob answers through a local variable of its caller. *)
From stdpp Require Import gmap.
From S2P Require Import Prelude BlobIo BlobIoExec.
Local Open Scope Z_scope.

Definition mth_init : Z := 0.

(** The callbacks. *)
Inductive dcallback : Type :=
| D_unload_complete
| D_bs_build_complete.

(** [struct _test_pack_args] ([d_bs]: whether [bs] is set), what was printed of the
    free clusters and of the super blob (the flag), the codes given to spdk_app_stop.
    [d_now] is the environment's: the result with which spdk_bs_get_super calls back
    before it returns, [None] when the answer comes as an event of its own. *)
Record dstate : Type := mk_dstate {
  d_bs : bool;
  d_mth : Z;
  d_free : list Z;
  d_flags : list Z;
  d_stopped : list Z;
  d_now : option Z
}.
Abbreviation dworld := (world dcallback dstate).
Definition set_d_bs x d : dstate := mk_dstate x (d_mth d) (d_free d) (d_flags d) (d_stopped d) (d_now d).
Definition set_d_mth x d : dstate := mk_dstate (d_bs d) x (d_free d) (d_flags d) (d_stopped d) (d_now d).
Definition set_d_free x d : dstate := mk_dstate (d_bs d) (d_mth d) x (d_flags d) (d_stopped d) (d_now d).
Definition set_d_flags x d : dstate := mk_dstate (d_bs d) (d_mth d) (d_free d) x (d_stopped d) (d_now d).
Definition set_d_stopped x d : dstate := mk_dstate (d_bs d) (d_mth d) (d_free d) (d_flags d) x (d_now d).

Definition gets_d {A} (f : dstate → A) : M dworld A := gets (λ w, f (b_client w)).
Definition modify_d (f : dstate → dstate) : M dworld unit := modify (λ w, set_b_client (f (b_client w)) w).
Definition stop (rc : Z) : M dworld unit := modify_d (λ d, set_d_stopped (d_stopped d ++ [rc]) d).
Definition write_flag (p : nat) (x : Z) : M dworld unit := modify (λ w, set_b_flags (<[p := x]> (b_flags w)) w).

(** The blobstore answers the last call, on the super blob's id, at once. *)
Definition answer_now (flag : nat) : M dworld unit :=
  now ← gets_d d_now;
  match now with
  | None => mret tt
  | Some rc =>
      l ← gets b_calls;
      '(c, _) ← take_call (pred (length l));
      if decide (rc = 0) then id ← bs_effect c 0; _chsb_super_blobid_got flag (default 0 id) 0
      else _chsb_super_blobid_got flag 0 rc
  end.

Definition _unload_complete (bserrno : Z) : M dworld unit :=
  if decide (bserrno ≠ 0) then stop (-1) else stop 0.

Definition _bs_build_complete (bserrno : Z) : M dworld unit :=
  if decide (bserrno ≠ 0) then stop (-1) else
  _ ← modify_d (set_d_bs true);
  s ← gets b_store;
  _ ← modify_d (λ d, set_d_free (d_free d ++ [s_free s]) d);
  flag ← fresh;
  _ ← write_flag flag 0;
  _ ← check_super_blob flag;
  _ ← answer_now flag;
  flags ← gets b_flags;
  v ← of_option UseAfterFree (flags !! flag);
  _ ← modify_d (λ d, set_d_flags (d_flags d ++ [v]) d);
  _ ← async UnloadBs (User D_unload_complete);
  modify (λ w, set_b_flags (delete flag (b_flags w)) w).

(** [rc] is what spdk_bdev_create_bs_dev_ext returns. *)
Definition _test_start (rc : Z) : M dworld unit :=
  if decide (rc ≠ 0) then stop (-1) else
  mth ← gets_d d_mth;
  async (if decide (mth = mth_init) then InitBs else LoadBs) (User D_bs_build_complete).

(** Up to the event loop; [mth] is what strcmp says of the last argument and "init". *)
Definition main (argc mth rc : Z) : M dworld unit :=
  if decide (argc ≠ 4) then mret tt else _ ← modify_d (set_d_mth mth); _test_start rc.

#[export] Instance disk_check_client : Client dcallback dstate := λ cb _ rc,
  match cb with D_unload_complete => _unload_complete rc | D_bs_build_complete => _bs_build_complete rc end.

(** ** What it prints *)

(** The blobstore once it is formatted, to [F] free clusters, or loaded. *)
Definition built (mth F : Z) (s : bstore) : bstore :=
  if decide (mth = mth_init) then set_s_super None (set_s_blobs ∅ (set_s_free F s)) else s.
Definition boot (s : bstore) (now : option Z) : dworld :=
  mk_world s [] ∅ ∅ ∅ [] 0 [] (mk_dstate false 1 [] [] [] now).
(** What spdk_bs_get_super says of the store when nothing else goes wrong. *)
Definition super_result (s : bstore) : Z := match s_super s with Some _ => 0 | None => - ENOENT end.

Ltac check_simpl :=
  cbn [d_bs d_mth d_free d_flags d_stopped d_now set_d_bs set_d_mth set_d_free set_d_flags set_d_stopped b_store b_channels b_args
    b_flags b_mem b_calls b_next b_malloc b_client set_b_store set_b_channels set_b_args set_b_flags set_b_mem set_b_calls set_b_next
    set_b_malloc set_b_client lookup delete list_delete list_lookup app length pred].

Lemma built_open mth F s : s_open (built mth F s) = s_open s.
Proof. unfold built. by destruct (decide _). Qed.

Lemma build_step mth F s now : (_ ← main 4 mth 0; complete 0 0 F) (boot s now) =
  _bs_build_complete 0 (mk_world (built mth F s) [] ∅ ∅ ∅ [] 0 [] (mk_dstate false mth [] [] [] now)).
Proof.
  trans ((_ ← async (if decide (mth = mth_init) then InitBs else LoadBs) (User D_bs_build_complete); complete 0 0 F)
    (mk_world s [] ∅ ∅ ∅ [] 0 [] (mk_dstate false mth [] [] [] now))); [done|].
  unfold built. by destruct (decide (mth = mth_init)).
Qed.

(** The checks of the blobstore that was built: what is printed, and what is left to
    answer. *)
Lemma checked s mth (now : option Z) :
  (∀ rc, now = Some rc → rc = super_result s ∨ rc ≠ 0 ∧ rc ≠ - ENOENT) →
  let flag := match now with
    | Some rc => if decide (rc = - ENOENT) then 0 else if decide (rc ≠ 0) then -1 else 1
    | None => 0 end in
  _bs_build_complete 0 (mk_world s [] ∅ ∅ ∅ [] 0 [] (mk_dstate false mth [] [] [] now)) =
  Ok (tt, mk_world s [] ∅ ∅ ∅ ((if now then [] else [(GetSuper, Chsb_got 0)]) ++ [(UnloadBs, User D_unload_complete)]) 1 []
    (mk_dstate true mth [s_free s] [flag] [] now)).
Proof.
  intros Hnow flag. destruct now as [rc|]; [|done].
  destruct (Hnow rc eq_refl) as [->|[H0 H1]]; subst flag.
  - by destruct s as [[id|] ? ? ? ? ? ?].
  - unfold _bs_build_complete, modify_d, write_flag, check_super_blob. steps. unfold answer_now, gets_d, take_call. steps.
    check_simpl. steps. check_simpl. steps. unfold _chsb_super_blobid_got. steps. check_simpl.
    rewrite lookup_insert_eq. steps. unfold async, modify. check_simpl. rewrite insert_insert_eq, delete_insert_id by done.
    done.
Qed.

Lemma unload_step s l d : s_open s = ∅ →
  complete (length l) 0 0 (mk_world s [] ∅ ∅ ∅ (l ++ [(UnloadBs, User D_unload_complete)]) 1 [] d) =
  Ok (tt, mk_world s [] ∅ ∅ ∅ l 1 [] (set_d_stopped (d_stopped d ++ [0]) d)).
Proof.
  intros Ho. unfold complete, take_call. steps. check_simpl. rewrite list_lookup_middle by done. steps. unfold bs_effect. steps.
  rewrite delete_middle, app_nil_r. done.
Qed.

(** C34. The disk check of a blobstore that builds: it prints the free clusters of the
    store it formatted or loaded.  When the blobstore answers the question for the
    super blob before the call returns, what it prints of the super blob is right;
    when it answers later, it prints that there is none, whatever the store holds, and
    the answer goes to a variable that is gone.  It unloads, and stops with 0. *)
Theorem disk_check_reports s mth F now :
  s_open s = ∅ → let s' := built mth F s in now = None ∨ now = Some (super_result s') →
  ∃ w w', (_ ← main 4 mth 0; complete 0 0 F) (boot s now) = Ok (tt, w) ∧ d_free (b_client w) = [s_free s'] ∧
    d_flags (b_client w) = [if now then if s_super s' then 1 else 0 else 0] ∧ b_flags w = ∅ ∧
    (now = None → b_calls w !! 0%nat = Some (GetSuper, Chsb_got 0)) ∧
    complete (length (b_calls w) - 1) 0 0 w = Ok (tt, w') ∧ b_store w' = s' ∧ d_stopped (b_client w') = [0].
Proof.
  intros Ho s' Hnow. rewrite build_step. fold s'. pose proof (checked s' mth now) as Hrun. cbv zeta in Hrun.
  rewrite Hrun by (intros rc ->; destruct Hnow as [|[= ->]]; [done|by left]).
  assert (Hopen : s_open s' = ∅) by (by rewrite <- Ho; apply built_open).
  destruct Hnow as [->|[= ->]].
  - eexists _, _. split_and!; try done; [apply (unload_step s' [(GetSuper, Chsb_got 0)] _ Hopen)|done..].
  - eexists _, _. split_and!; try done; [|apply (unload_step s' [] _ Hopen)|done..].
    check_simpl. unfold super_result. by destruct (s_super s').
Qed.

(** Two blobstores that are loaded, one with a super blob and one without: only the
    answer that comes at once tells them apart. *)
Definition loaded_store (super : option Z) : bstore := mk_bstore super ∅ 5 8 4 ∅ (λ _ _, 0).

Lemma disk_check_reports_witness :
  (∃ w, (_ ← main 4 1 0; complete 0 0 0) (boot (loaded_store (Some 1)) (Some 0)) = Ok (tt, w) ∧ d_flags (b_client w) = [1]) ∧
  (∃ w, (_ ← main 4 1 0; complete 0 0 0) (boot (loaded_store None) (Some (- ENOENT))) = Ok (tt, w) ∧ d_flags (b_client w) = [0]) ∧
  (∃ w, (_ ← main 4 1 0; complete 0 0 0) (boot (loaded_store (Some 1)) None) = Ok (tt, w) ∧ d_flags (b_client w) = [0]).
Proof.
  split_and!.
  - destruct (disk_check_reports (loaded_store (Some 1)) 1 0 (Some 0)) as (w & _ & H1 & _ & H2 & _); [done|by right|by exists w].
  - destruct (disk_check_reports (loaded_store None) 1 0 (Some (- ENOENT))) as (w & _ & H1 & _ & H2 & _); [done|by right|by exists w].
  - destruct (disk_check_reports (loaded_store (Some 1)) 1 0 None) as (w & _ & H1 & _ & H2 & _); [done|by left|by exists w].
Defined.
