(* ===== verification/MultiIoAlpha.v ===== *)
(** * The first test of concurrent I/O (NBFS2/test_multi_io_alpha.c)

    It creates [_TEST_BLOB_NUM] blobs and writes a buffer to each with write_normal_blob,
    which does not pass the buffer on.  [Client] of [BlobIo]. *)
From stdpp Require Import gmap.
From S2P Require Import Prelude BlobIo BlobIoExec BlobIoTheorems.
Local Open Scope Z_scope.

Definition _TEST_BUFFER_SIZE : Z := 4096.
Definition _TEST_OFFSET : Z := 0.
Definition _TEST_BLOB_NUM : nat := 1.

(** A field that is not set is [None]; [w_bs] says whether [bs] is. *)
Record _test_write_args : Type := mk_write_args {
  w_bs : bool;
  w_blobid : option Z;
  w_write_buff : option (option nat);
  w_io_unit_size : option Z;
  w_alloc_pages : option Z
}.
Definition set_w_bs x a : _test_write_args := mk_write_args x (w_blobid a) (w_write_buff a) (w_io_unit_size a) (w_alloc_pages a).
Definition set_w_blobid x a : _test_write_args := mk_write_args (w_bs a) x (w_write_buff a) (w_io_unit_size a) (w_alloc_pages a).
Definition set_w_write_buff x a : _test_write_args := mk_write_args (w_bs a) (w_blobid a) x (w_io_unit_size a) (w_alloc_pages a).
Definition set_w_io_unit_size x a : _test_write_args := mk_write_args (w_bs a) (w_blobid a) (w_write_buff a) x (w_alloc_pages a).
Definition set_w_alloc_pages x a : _test_write_args := mk_write_args (w_bs a) (w_blobid a) (w_write_buff a) (w_io_unit_size a) x.

(** [struct _test_multi_io_args], with the structs its array points to, and the
    counter. *)
Record _test_multi_io_args : Type := mk_test_args {
  x_bs : bool;
  x_t_args : list _test_write_args;
  x_io_unit_size : option Z;
  finish_count : Z;
  x_timed : nat;
  x_stopped : list Z
}.
Definition set_x_bs x a : _test_multi_io_args := mk_test_args x (x_t_args a) (x_io_unit_size a) (finish_count a) (x_timed a) (x_stopped a).
Definition set_x_t_args x a : _test_multi_io_args := mk_test_args (x_bs a) x (x_io_unit_size a) (finish_count a) (x_timed a) (x_stopped a).
Definition set_x_io_unit_size x a : _test_multi_io_args := mk_test_args (x_bs a) (x_t_args a) x (finish_count a) (x_timed a) (x_stopped a).
Definition set_finish_count x a : _test_multi_io_args := mk_test_args (x_bs a) (x_t_args a) (x_io_unit_size a) x (x_timed a) (x_stopped a).
Definition set_x_timed x a : _test_multi_io_args := mk_test_args (x_bs a) (x_t_args a) (x_io_unit_size a) (finish_count a) x (x_stopped a).
Definition set_x_stopped x a : _test_multi_io_args := mk_test_args (x_bs a) (x_t_args a) (x_io_unit_size a) (finish_count a) (x_timed a) x.

(** The callbacks; [A_blob_created] gets the struct by its index. *)
Inductive acallback : Type :=
| A_write_complete
| A_blob_created (i : nat)
| A_bs_init_complete.
Abbreviation aworld := (world acallback _test_multi_io_args).

Definition gets_a {A} (f : _test_multi_io_args → A) : M aworld A := gets (λ w, f (b_client w)).
Definition modify_a (f : _test_multi_io_args → _test_multi_io_args) : M aworld unit :=
  modify (λ w, set_b_client (f (b_client w)) w).
Definition stop (rc : Z) : M aworld unit := modify_a (λ a, set_x_stopped (x_stopped a ++ [rc]) a).
Definition load_w (i : nat) : M aworld _test_write_args := l ← gets_a x_t_args; of_option OutOfBounds (l !! i).
Definition save_w (i : nat) (x : _test_write_args) : M aworld unit := modify_a (λ a, set_x_t_args (<[i := x]> (x_t_args a)) a).

Section handlers.
Context `{Client acallback _test_multi_io_args}.

(** The result of the write is not looked at. *)
Definition _write_complete (bserrno : Z) : M aworld unit :=
  _ ← modify_a (λ a, set_finish_count (finish_count a + 1) a);
  n ← gets_a finish_count;
  if decide (n = Z.of_nat _TEST_BLOB_NUM) then _ ← modify_a (λ a, set_x_timed (S (x_timed a)) a); stop 0 else mret tt.

(** The I/O units the buffer takes. *)
Definition pages (u : Z) : Z := _TEST_BUFFER_SIZE / u + (if decide (_TEST_BUFFER_SIZE mod u ≠ 0) then 1 else 0).

Definition _blob_created (i : nat) (blobid bserrno : Z) : M aworld unit :=
  if decide (bserrno ≠ 0) then stop (-1) else
  args ← load_w i;
  p ← alloc_buffer _TEST_BUFFER_SIZE;
  u ← deref (w_io_unit_size args);
  let args := set_w_alloc_pages (Some (pages u)) (set_w_write_buff (Some p) (set_w_blobid (Some blobid) args)) in
  _ ← save_w i args;
  match p with
  | None => stop (-1)
  | Some b =>
      _ ← memset b 101 _TEST_BUFFER_SIZE;
      _ ← guard_or NullDeref (w_bs args);
      write_normal_blob blobid b _TEST_OFFSET (pages u) A_write_complete
  end.

Fixpoint set_write_args (l : list nat) : M aworld unit :=
  match l with
  | [] => mret tt
  | i :: l' =>
      bs ← gets_a x_bs;
      u ← gets_a x_io_unit_size;
      args ← load_w i;
      _ ← save_w i (set_w_io_unit_size u (set_w_bs bs args));
      set_write_args l'
  end.
Fixpoint create_each (l : list nat) : M aworld unit :=
  match l with [] => mret tt | i :: l' => _ ← async CreateBlob (User (A_blob_created i)); create_each l' end.
Definition _test_write : M aworld unit :=
  _ ← set_write_args (seq 0 _TEST_BLOB_NUM); create_each (seq 0 _TEST_BLOB_NUM).

Definition _bs_init_complete (bserrno : Z) : M aworld unit :=
  if decide (bserrno ≠ 0) then stop (-1) else
  s ← gets b_store;
  _ ← modify_a (λ a, set_x_io_unit_size (Some (s_io_unit_size s)) (set_x_bs true a));
  _test_write.

(** [rc] is what spdk_bdev_create_bs_dev_ext returns. *)
Definition _test_start (rc : Z) : M aworld unit :=
  if decide (rc ≠ 0) then stop (-1) else async InitBs (User A_bs_init_complete).

(** Up to the event loop: the structs are variables of [main]. *)
Definition main (argc rc : Z) : M aworld unit :=
  if decide (argc ≠ 3) then mret tt else
  _ ← modify_a (set_x_t_args (replicate _TEST_BLOB_NUM (mk_write_args false None None None None)));
  _test_start rc.

Definition adispatch (cb : acallback) (value : option Z) (rc : Z) : M aworld unit :=
  match cb with
  | A_write_complete => _write_complete rc
  | A_blob_created i => _blob_created i (default 0 value) rc
  | A_bs_init_complete => _bs_init_complete rc
  end.
End handlers.

(** A callback may be called by a function that another one calls: this far at most
    ([_write_complete] calls none). *)
Fixpoint aclient (n : nat) : Client acallback _test_multi_io_args :=
  match n with
  | O => λ _ _ _, fail OutOfFuel
  | S n' => @adispatch (aclient n')
  end.
#[export] Instance alpha_client : Client acallback _test_multi_io_args := aclient 2.

(** ** What it tests *)
Definition boot (s : bstore) : aworld := mk_world s [] ∅ ∅ ∅ [] 0 [] (mk_test_args false [] None 0 0 []).
(** The store after formatting to [F] free clusters, and with the blob [v]. *)
Definition formatted (F : Z) (s : bstore) : bstore := set_s_super None (set_s_blobs ∅ (set_s_free F s)).
Definition empty_blob : blob := mk_blob 0 (λ _, None) ∅.
Definition with_blob (v : Z) (s : bstore) : bstore := set_s_blobs (<[v := empty_blob]> (s_blobs s)) s.
Definition filled_buffer : list byte := replicate (Z.to_nat _TEST_BUFFER_SIZE) (Some 101).
(** The program's variables once the blob is created. *)
Definition created (u v : Z) : _test_multi_io_args :=
  mk_test_args true [mk_write_args true (Some v) (Some (Some 0%nat)) (Some u) (Some (pages u))] (Some u) 0 0 [].
Definition alpha_args s (v : Z) : io_args acallback :=
  mk_io_args None (Some v) None None _TEST_OFFSET (pages (s_io_unit_size s)) A_write_complete (s_cluster_size s) (s_io_unit_size s).

Lemma memset_fresh p x (n : Z) (w : aworld) : 0 <= n → b_mem w !! p = Some (replicate (Z.to_nat n) None) →
  memset p x n w = Ok (tt, set_b_mem (<[p := replicate (Z.to_nat n) (Some x)]> (b_mem w)) w).
Proof.
  intros Hn Hp. unfold memset. erewrite bind_Ok by (apply buffer_eq; [exact Hp|rewrite length_replicate; lia]).
  cbv beta iota. rewrite drop_ge, app_nil_r by (by rewrite length_replicate). done.
Qed.

Definition initialised (u : Z) : _test_multi_io_args :=
  mk_test_args true [mk_write_args true None None (Some u) None] (Some u) 0 0 [].

Lemma blob_created_eq s v u : u = s_io_unit_size s →
  _blob_created 0 v 0 (mk_world s [] ∅ ∅ ∅ [] 0 [] (initialised u)) =
  Ok (tt, during s [] ∅ 1 (alpha_args s v) ∅ {[0%nat := filled_buffer]}
    [(OpenBlob (Some v), Wb_open Normal 1)] 2 (created u v)).
Proof.
  intros ->. unfold _blob_created, load_w, gets_a, save_w, modify_a. steps.
  erewrite (bind_Ok (of_option _ _)) by done. erewrite (bind_Ok (alloc_buffer _)) by (by apply alloc_buffer_eq). steps.
  cbn [w_io_unit_size]. steps. cbn [b_next].
  erewrite (bind_Ok (memset _ _ _)) by (by apply memset_fresh). done.
Qed.

Lemma alpha_created F v s : 0 <= v < 2 ^ 64 →
  (_ ← main 3 0; _ ← complete 0 0 F; complete 0 0 v) (boot s) =
  Ok (tt, during (with_blob v (formatted F s)) [] ∅ 1 (alpha_args s v) ∅ {[0%nat := filled_buffer]}
    [(OpenBlob (Some v), Wb_open Normal 1)] 2 (created (s_io_unit_size s) v)).
Proof.
  intros Hv.
  trans (complete 0 0 v (mk_world (formatted F s) [] ∅ ∅ ∅ [(CreateBlob, User (A_blob_created 0))] 0 [] (initialised (s_io_unit_size s)))); [done|].
  rewrite complete_ok. erewrite bind_Ok by (apply create_effect; [done|exact Hv]).
  exact (blob_created_eq (with_blob v (formatted F s)) v _ eq_refl).
Qed.

Lemma pages_bounds u : 0 < u < 2 ^ 32 → 0 < pages u ∧ pages u * u < 2 ^ 64.
Proof.
  intros Hu. unfold pages. pose proof (Z.div_mod 4096 u). pose proof (Z.mod_pos_bound 4096 u).
  change _TEST_BUFFER_SIZE with 4096. pose proof (Z.div_pos 4096 u). case_decide; nia.
Qed.

(** The blob as it was created, with [n] clusters. *)
Definition grown_store (v n F : Z) s : bstore := resized v n empty_blob (opened v (with_blob v (formatted F s))).

(** The chain of write_normal_blob up to the transfer. *)
Lemma alpha_reaches s F v :
  geometry s → s_io_unit_size s < 2 ^ 32 → 0 <= v < 2 ^ 64 →
  let n := clusters_needed s (pages (s_io_unit_size s)) in
  n <= F →
  (_ ← (_ ← main 3 0; _ ← complete 0 0 F; complete 0 0 v); serve 3) (boot s) =
  Ok (tt, during (grown_store v n F s) [2%nat] ∅ 1 (ready v 2 (alpha_args s v)) ∅ {[0%nat := filled_buffer]}
    [(the_write v (ready v 2 (alpha_args s v)), Wb_write Normal 1)] 3 (created (s_io_unit_size s) v)).
Proof.
  intros Hg Hu Hv n HF. destruct (pages_bounds (s_io_unit_size s)) as [Hp1 Hp2]; [split; [apply Hg|done]|].
  set (S1 := with_blob v (formatted F s)). set (A := alpha_args s v).
  assert (Hb : s_blobs S1 !! v = Some empty_blob) by apply lookup_insert_eq.
  destruct (missing_eq S1 0 (pages (s_io_unit_size s)) empty_blob A) as (Hun & Hm & Hsum & Hm0); try done;
    [by destruct Hg; split|split; cbn; lia|].
  change (clusters_needed S1 (0 + pages (s_io_unit_size s))) with n in *. cbn [x_clusters empty_blob] in Hm.
  rewrite (bind_Ok _ _ _ _ _ (alpha_created F v s Hv)).
  erewrite serve_S by (apply (open_grows_step Normal S1 _ _ _ A _ _ _ _ v empty_blob);
    [done|change (0 < u64 (0 + pages (s_io_unit_size s))); lia|change (missing S1 empty_blob A <= F); lia]).
  rewrite Hsum.
  erewrite serve_S by (apply (resize_step Normal _ _ _ _ _ _ _ _ _ v empty_blob); [done|done|assert (s_free (opened v S1) = F) as -> by reflexivity; cbn [x_clusters empty_blob]; lia]).
  by erewrite serve_S by (by apply (sync_step Normal _ _ _ _ _ _ _ _ _ v)).
Qed.

(** C35. What the first test of concurrent I/O tests.  On any formatted store with
    room for the buffer its blob is created and made large enough, and the buffer is
    filled; but the write that goes out has no buffer, so that to succeed it would
    read memory that nothing set.  When it fails, with whatever error, the program
    prints the time the write took and stops with 0, and the blob is as it was
    created. *)
Theorem multi_io_alpha_reports s F v :
  geometry s → s_io_unit_size s < 2 ^ 32 → 0 <= v < 2 ^ 64 →
  let n := clusters_needed s (pages (s_io_unit_size s)) in
  n <= F →
  ∃ w, (_ ← (_ ← main 3 0; _ ← complete 0 0 F; complete 0 0 v); serve 3) (boot s) = Ok (tt, w) ∧
    b_mem w !! 0%nat = Some filled_buffer ∧
    b_calls w = [(IoWrite v (Some 2%nat) None 0 (pages (s_io_unit_size s)), Wb_write Normal 1)] ∧
    complete 0 0 0 w = Fault Uninitialised ∧
    ∀ rc, rc ≠ 0 → ∃ w', complete 0 rc 0 w = Ok (tt, w') ∧ x_stopped (b_client w') = [0] ∧ x_timed (b_client w') = 1%nat ∧
      s_blobs (b_store w') = {[v := mk_blob n (λ _, None) ∅]} ∧ b_channels w' = [2%nat].
Proof.
  intros Hg Hu Hv n HF. eexists. split; [by apply alpha_reaches|]. fold n. split_and!; [done|done| |].
  - assert (is_Some (s_open (grown_store v n F s) !! v)) by (cbn -[insert]; rewrite lookup_insert_eq; by eexists).
    assert (Hb : s_blobs (grown_store v n F s) !! v = Some (mk_blob n (λ _, None) ∅)) by apply lookup_insert_eq.
    unfold during. rewrite complete_ok. unfold bs_effect, the_write.
    destruct (pages_bounds (s_io_unit_size s)) as [Hp _]; [split; [apply Hg|done]|].
    assert (0 + pages (s_io_unit_size s) <= io_units (grown_store v n F s) (mk_blob n (λ _, None) ∅)).
    { apply (needed_holds s (pages _) Hg). }
    steps. erewrite (bind_Ok (possible _)).
    2:{ apply possible_eq. cbn -[grown_store]. split_and!; [done..|lia|done]. }
    steps. by rewrite (bind_Fault (buffer _ _) _ _ Uninitialised).
  - intros rc Hrc. unfold during. rewrite complete_error by done. eexists.
    split.
    + trans (io_complete 1 rc (during (grown_store v n F s) [2%nat] ∅ 1 (ready v 2 (alpha_args s v)) ∅ {[0%nat := filled_buffer]}
        [] 3 (created (s_io_unit_size s) v))); [done|].
      unfold io_complete, during. steps. unfold end_with. done.
    + split_and!; try done. cbn -[insert]. by rewrite insert_insert_eq.
Qed.

(** I/O units of 1024 bytes in clusters of 2048. *)
Definition two_units : bstore := mk_bstore None ∅ 0 2048 1024 ∅ (λ _ _, 0).
Lemma multi_io_alpha_reports_witness :
  ∃ w, (_ ← (_ ← main 3 0; _ ← complete 0 0 100; complete 0 0 7); serve 3) (boot two_units) = Ok (tt, w) ∧
    complete 0 0 0 w = Fault Uninitialised ∧
    ∃ w', complete 0 (-5) 0 w = Ok (tt, w') ∧ x_stopped (b_client w') = [0].
Proof.
  destruct (multi_io_alpha_reports two_units 100 7) as (w & H1 & _ & _ & H2 & H3); [by split|done|done|done|].
  exists w. split_and!; [exact H1|exact H2|]. destruct (H3 (-5)) as (w' & H4 & H5 & _); [done|exists w'; split; [exact H4|exact H5]].
Defined.
